(** * The 3-Point Revolution dashboard: a shallow embedding of [public/scripts/app.js]

    The dashboard is one JavaScript closure: it fetches seven JSON files,
    draws six charts with D3 and wires them to scroll-driven story steps.

    Conventions of the embedding.
    - A number of the data is the rational [Q] that its JSON literal
      denotes; a season (a year) is an integer [Z].  The one figure that the
      code computes and prints, the growth of the hero, is computed as
      JavaScript does, in IEEE 754 doubles; the numbers that the charts pass
      on to scales and formats stay exact.
    - A JavaScript array is a mutable object.  Arrays live in a [Heap] and
      are passed by reference ([ref]); [slice], [filter] and [map] allocate,
      [sort] updates in place.
    - A function that can throw returns a [result]; effects on the document
      are explicit in [Page].
    - D3 primitives whose result is only passed through (scales) are fields
      of the class [D3]; those whose behaviour the properties depend on
      (stable sort, group, greatest, bisector, keyed join, number formats) are
      written out from the library's documented behaviour. *)

From Stdlib Require Import List ZArith QArith Qabs Qround Bool String Ascii Lia Arith
  Permutation Sorted DecimalString Decimal Lqa SpecFloat.
From Equations Require Import Equations.
Import ListNotations.
Local Open Scope string_scope.
Local Open Scope list_scope.
Local Open Scope Z_scope.

Set Implicit Arguments.

(* ===================================================================== *)
(** * JavaScript runtime                                                  *)
(* ===================================================================== *)

Module JS.

(** Outcome of a call: a value, or an exception that propagates. *)
Inductive result (X : Type) : Type :=
| Ok (x : X)
| Throw (msg : string).
Arguments Ok {X} x.
Arguments Throw {X} msg.

Definition TypeError : string := "TypeError".

(** [String(n)] for an integer. *)
Definition string_of_Z (z : Z) : string :=
  NilZero.string_of_int (Z.to_int z).

(** The double quote, for HTML attributes inside template literals. *)
Definition dq : string := String (ascii_of_nat 34) EmptyString.

(** Truthiness of a number: every number but zero. *)
Definition truthy (q : Q) : bool := negb (Qeq_bool q 0).

(** Truthiness of an optional number ([undefined], [null] and 0 are falsy). *)
Definition truthy_opt (o : option Q) : bool :=
  match o with Some q => truthy q | None => false end.

(** [o ?? d]: only a missing value is replaced. *)
Definition nullish {X : Type} (o : option X) (d : X) : X :=
  match o with Some x => x | None => d end.

(** ** Array.prototype.sort

    The comparator returns a number; the sort is stable (ECMAScript 2019).
    For a consistent comparator the result is determined, whatever the
    engine's algorithm: the stable arrangement, computed here by
    insertion. *)
Section Sort.
Variable A : Type.
Variable cmp : A -> A -> Z.

Fixpoint insert (x : A) (l : list A) : list A :=
  match l with
  | [] => [x]
  | y :: r => if cmp x y <=? 0 then x :: y :: r else y :: insert x r
  end.

Fixpoint sort (l : list A) : list A :=
  match l with
  | [] => []
  | x :: r => insert x (sort r)
  end.
End Sort.

(** [Array.from(new Set(xs))]: distinct values in order of first occurrence. *)
Section SetOf.
Variable A : Type.
Variable eqb : A -> A -> bool.

Definition has (seen : list A) (x : A) : bool := existsb (eqb x) seen.

Fixpoint distinct_from (seen : list A) (l : list A) : list A :=
  match l with
  | [] => []
  | x :: r =>
      if has seen x then distinct_from seen r
      else x :: distinct_from (x :: seen) r
  end.

Definition distinct (l : list A) : list A := distinct_from [] l.
End SetOf.

(** [xs.find(p)] together with the position of the element found: two
    elements of a parsed JSON array are never the same object, so an
    object is identified by its index. *)
Fixpoint find_from {A : Type} (p : A -> bool) (i : nat) (l : list A)
  : option (nat * A) :=
  match l with
  | [] => None
  | x :: r => if p x then Some (i, x) else find_from p (S i) r
  end.

Definition find {A : Type} (p : A -> bool) (l : list A) : option (nat * A) :=
  find_from p 0 l.

(** [xs[xs.length - 1]] with its index; [undefined] on the empty array. *)
Definition last_elem {A : Type} (l : list A) : option (nat * A) :=
  match l with
  | [] => None
  | x :: r => Some (List.length r, last r x)
  end.

(** [Math.max(...xs)]; [None] stands for [-Infinity]. *)
Definition math_max (l : list Z) : option Z :=
  match l with
  | [] => None
  | x :: r => Some (fold_left Z.max r x)
  end.

(** ** Number formats

    [Number.prototype.toFixed(1)] on a non-negative value: the integer [n]
    with [n / 10] closest to the value, the larger one on a tie. *)
Definition tenths (q : Q) : Z := Qfloor (Qabs q * 10 + (1 # 2))%Q.

Definition fixed1 (n : Z) : string :=
  (string_of_Z (n / 10) ++ "." ++ string_of_Z (n mod 10))%string.

(** The sign rule of d3-format: a negative value that rounds to zero loses
    its sign; other negative values start with the minus sign U+2212
    (d3-format 2 and later, which the use of [d3.pointer] implies). *)
Definition isNegative (q : Q) : bool :=
  if Qlt_le_dec q 0 then true else false.

Definition signed1 (neg : bool) (n : Z) : string :=
  if neg && negb (n =? 0) then String.append "−" (fixed1 n) else fixed1 n.

(** [d3.format(".1f")]. *)
Definition numberFmt (q : Q) : string :=
  signed1 (isNegative q) (tenths q).

(** [d3.format(".1%")]: the value times 100, one decimal, a percent sign. *)
Definition percentFmt (q : Q) : string :=
  String.append (signed1 (isNegative q) (tenths (q * 100)%Q)) "%".

(** [xs.join(sep)] on strings. *)
Fixpoint join (sep : string) (l : list string) : string :=
  match l with
  | [] => ""
  | [x] => x
  | x :: r => (x ++ sep ++ join sep r)%string
  end.

(** ** Doubles

    A JavaScript number is an IEEE 754 double: a [spec_float] with 53 bits
    of precision and exponents below 1024.  Its arithmetic is [SFsub],
    [SFdiv], [SFmul] and [SFleb] of the Standard Library.

    [toDouble q] is the number that a literal of value [q] denotes: the
    double nearest to [q], the even one on a tie. *)
Definition toDouble (q : Q) : spec_float :=
  SFdiv 53 1024
    match Qnum q with
    | Z0 => S754_zero false
    | Zpos n => S754_finite false n 0
    | Zneg n => S754_finite true n 0
    end
    (S754_finite false (Qden q) 0).

(** The size of the finite double with mantissa [m] and exponent [e]. *)
Definition magnitude (m : positive) (e : Z) : Q :=
  match e with
  | Zneg k => Zpos m # (2 ^ k)
  | _ => inject_Z (Zpos m * 2 ^ e)
  end.

(** [Number.prototype.toString] on an integer [X] of 10^21 or more that is
    the value of the double [x]: the fewest digits that still denote [x],
    the closest such number when there are two, in exponent notation. *)
Definition reads (x : spec_float) (v : Z) : bool :=
  SFeqb (toDouble (inject_Z v)) x.

Fixpoint shortest (x : spec_float) (X n k : Z) (fuel : nat) : Z :=
  match fuel with
  | O => X
  | S fuel' =>
      let p := 10 ^ (n - k) in
      let lo := (X / p) * p in
      let hi := lo + p in
      match reads x lo, reads x hi with
      | true, true =>
          if X - lo <? hi - X then lo
          else if hi - X <? X - lo then hi
          else if Z.even (X / p) then lo else hi
      | true, false => lo
      | false, true => hi
      | false, false => shortest x X n (k + 1) fuel'
      end
  end.

Fixpoint dropZeros (l : list ascii) : list ascii :=
  match l with
  | [] => []
  | c :: r =>
      match dropZeros r with
      | [] => if Ascii.eqb c "0" then [] else [c]
      | r' => c :: r'
      end
  end.

Definition exponential (v : Z) : string :=
  let digits := string_of_Z v in
  let e := Z.of_nat (String.length digits) - 1 in
  match dropZeros (list_ascii_of_string digits) with
  | [] => "0"
  | c :: r =>
      (String c (match r with
                 | [] => ""
                 | _ => String "." (string_of_list_ascii r)
                 end)
       ++ "e+" ++ string_of_Z e)%string
  end.

Definition toStringLarge (x : spec_float) (X : Z) : string :=
  exponential (shortest x X (Z.of_nat (String.length (string_of_Z X))) 1 17).

(** [d3.format(".1f")] on a double.  It is [toFixed(1)] of the absolute
    value after the minus sign: below 10^21 the integer [n] with [n / 10]
    closest to the exact value, the larger one on a tie, and no sign when
    the digits are those of zero; from 10^21 on [toFixed] is [String]. *)
Definition doubleFmt (x : spec_float) : string :=
  match x with
  | S754_nan => "NaN"
  | S754_infinity s => if s then "−Infinity" else "Infinity"
  | S754_zero _ => fixed1 0
  | S754_finite s m e =>
      let q := magnitude m e in
      if Qle_bool (inject_Z (10 ^ 21)) q
      then String.append (if s then "−" else "")
             (toStringLarge (S754_finite false m e) (Qfloor q))
      else signed1 s (tenths q)
  end.

End JS.
Export JS.

(* ===================================================================== *)
(** * The document                                                        *)
(* ===================================================================== *)

(** A story step: an element of class [story-step].  [group] identifies its
    parent element, [story] is the parent's [data-story]; the other fields
    are the step's own data attributes. *)
Record Step : Type := mkStep {
  group : nat;
  story : option string;
  stepSeason : option Z;
  stepMetric : option string;
  stepTeam : option string;
  stepConference : option string;
  stepActive : bool
}.

Inductive Level : Type := LogError | LogWarn.

(** What the code reads from and writes to the page. *)
Record Page : Type := mkPage {
  elements : list (string * Q);       (* selectors that match, with the width of the box *)
  console : list (Level * string);    (* messages, oldest first *)
  tooltipShow : bool;                 (* class [show] on the shared tooltip *)
  tooltipHtml : string;               (* its content *)
  texts : list (string * string);     (* text content written to elements *)
  drawn : list string;                (* containers that hold a drawing *)
  sliderValue : option Z;             (* value of [#seasonSlider] *)
  steps : list Step
}.

Definition exists_el (p : Page) (sel : string) : bool :=
  existsb (fun e => String.eqb (fst e) sel) (elements p).

Definition width_of (p : Page) (sel : string) : option Q :=
  match List.find (fun e => String.eqb (fst e) sel) (elements p) with
  | Some e => Some (snd e)
  | None => None
  end.

Definition log (lv : Level) (msg : string) (p : Page) : Page :=
  mkPage (elements p) (console p ++ [(lv, msg)]) (tooltipShow p) (tooltipHtml p)
         (texts p) (drawn p) (sliderValue p) (steps p).

(** [d3.select(sel).text(s)] and [el.textContent = s]: nothing happens on an
    empty selection. *)
Definition set_text (sel s : string) (p : Page) : Page :=
  if exists_el p sel then
    mkPage (elements p) (console p) (tooltipShow p) (tooltipHtml p)
           ((sel, s) :: List.filter (fun e => negb (String.eqb (fst e) sel)) (texts p))
           (drawn p) (sliderValue p) (steps p)
  else p.

Definition text_of (p : Page) (sel : string) : option string :=
  match List.find (fun e => String.eqb (fst e) sel) (texts p) with
  | Some e => Some (snd e)
  | None => None
  end.

(** [tooltip.classed("show", true).html(h)]. *)
Definition show_tooltip (h : string) (p : Page) : Page :=
  mkPage (elements p) (console p) true h (texts p) (drawn p) (sliderValue p) (steps p).

(** [tooltip.classed("show", false)]. *)
Definition hide_tooltip (p : Page) : Page :=
  mkPage (elements p) (console p) false (tooltipHtml p) (texts p) (drawn p)
         (sliderValue p) (steps p).

(** [container.selectAll("*").remove()]. *)
Definition clear_drawing (sel : string) (p : Page) : Page :=
  mkPage (elements p) (console p) (tooltipShow p) (tooltipHtml p) (texts p)
         (List.filter (fun c => negb (String.eqb c sel)) (drawn p))
         (sliderValue p) (steps p).

(** [container.append("svg")]. *)
Definition add_drawing (sel : string) (p : Page) : Page :=
  mkPage (elements p) (console p) (tooltipShow p) (tooltipHtml p) (texts p)
         (sel :: drawn p) (sliderValue p) (steps p).

Definition set_slider (v : option Z) (p : Page) : Page :=
  mkPage (elements p) (console p) (tooltipShow p) (tooltipHtml p) (texts p)
         (drawn p) v (steps p).

Definition set_steps (ss : list Step) (p : Page) : Page :=
  mkPage (elements p) (console p) (tooltipShow p) (tooltipHtml p) (texts p)
         (drawn p) (sliderValue p) ss.

(* ===================================================================== *)
(** * Arrays by reference, and the monad of a call                        *)
(* ===================================================================== *)

Definition ref : Type := nat.

(** The arrays of records of type [A] that are alive. *)
Definition Heap (A : Type) : Type := list (list A).

Record State (A : Type) : Type := mkState {
  heap : Heap A;
  page : Page
}.

(** A computation over arrays of [A] and the page, which may throw.  The
    state is returned in both cases: what was done before an exception stays
    done. *)
Definition M (A X : Type) : Type := State A -> result X * State A.

Definition ret {A X : Type} (x : X) : M A X := fun s => (Ok x, s).

Definition bind {A X Y : Type} (m : M A X) (k : X -> M A Y) : M A Y :=
  fun s =>
    match m s with
    | (Ok x, s') => k x s'
    | (Throw e, s') => (Throw e, s')
    end.

Definition throw {A X : Type} (e : string) : M A X := fun s => (Throw e, s).

Declare Scope js_scope.
Delimit Scope js_scope with js.
Notation "x <- m ;; k" := (bind m (fun x => k))
  (at level 61, m at next level, right associativity) : js_scope.
Notation "m ;; k" := (bind m (fun _ => k))
  (at level 61, right associativity) : js_scope.
Local Open Scope js_scope.

Section Arrays.
Variable A : Type.

(** The content of an array. *)
Definition read (r : ref) : M A (list A) :=
  fun s =>
    match nth_error (heap s) r with
    | Some l => (Ok l, s)
    | None => (Throw TypeError, s)
    end.

(** A new array object. *)
Definition alloc (l : list A) : M A ref :=
  fun s => (Ok (List.length (heap s)), mkState (heap s ++ [l]) (page s)).

Fixpoint replace (h : Heap A) (r : ref) (l : list A) : Heap A :=
  match h, r with
  | [], _ => []
  | _ :: t, O => l :: t
  | x :: t, S r' => x :: replace t r' l
  end.

(** [xs.slice()]: a new array with the same elements. *)
Definition slice (r : ref) : M A ref :=
  l <- read r ;; alloc l.

(** [xs.filter(p)]: a new array. *)
Definition filter (p : A -> bool) (r : ref) : M A ref :=
  l <- read r ;; alloc (List.filter p l).

(** [xs.sort(cmp)]: sorts the array object itself and returns it. *)
Definition sort_in_place (cmp : A -> A -> Z) (r : ref) : M A ref :=
  l <- read r ;;
  fun s => (Ok r, mkState (replace (heap s) r (sort cmp l)) (page s)).

(** Reads and writes of the page. *)
Definition get_page : M A Page := fun s => (Ok (page s), s).

Definition on_page (f : Page -> Page) : M A unit :=
  fun s => (Ok tt, mkState (heap s) (f (page s))).
End Arrays.
Arguments get_page {A}.
Arguments on_page {A} f.

(** [d3.select(sel).node().getBoundingClientRect()]: [node()] is [null] on an
    empty selection, and reading a property of [null] throws. *)
Definition bounding_width {A : Type} (sel : string) : M A Q :=
  p <- get_page ;;
  match width_of p sel with
  | Some w => ret w
  | None => throw TypeError
  end.

(** [bounds.width || d]. *)
Definition or_default (w d : Q) : Q := if truthy w then w else d.

(* ===================================================================== *)
(** * D3                                                                  *)
(* ===================================================================== *)

(** Scales.  The code builds them from a domain and a range and passes
    values through them; nothing it does depends on their formula.  A domain
    is [None] when [d3.extent] finds no value. *)
Class D3 : Type := {
  scaleLinear : option (Q * Q) -> Q * Q -> Q -> Q;
  invert : option (Q * Q) -> Q * Q -> Q -> Q;
  nice : option (Q * Q) -> option (Q * Q);
  scaleSqrt : option (Q * Q) -> Q * Q -> Q -> Q;
  (* [d3.geoAlbersUsa()], fitted to the basemap ([true]) or centred in a
     box of the given size; [None] where the projection is undefined *)
  geoAlbersUsa : bool -> Q * Q -> Q * Q -> option (Q * Q)
}.

Module D3lib.

Definition Qminimum (a b : Q) : Q := if Qlt_le_dec b a then b else a.
Definition Qmaximum (a b : Q) : Q := if Qlt_le_dec a b then b else a.

(** [d3.min], [d3.max] and [d3.extent] with an accessor. *)
Definition min {A : Type} (f : A -> Q) (l : list A) : option Q :=
  match l with
  | [] => None
  | x :: r => Some (fold_left (fun m d => Qminimum m (f d)) r (f x))
  end.

Definition max {A : Type} (f : A -> Q) (l : list A) : option Q :=
  match l with
  | [] => None
  | x :: r => Some (fold_left (fun m d => Qmaximum m (f d)) r (f x))
  end.

Definition extent {A : Type} (f : A -> Q) (l : list A) : option (Q * Q) :=
  match min f l, max f l with
  | Some lo, Some hi => Some (lo, hi)
  | _, _ => None
  end.

(** [d3.descending(a, b)]. *)
Definition descending (a b : Q) : Z :=
  if Qlt_le_dec b a then -1 else if Qlt_le_dec a b then 1 else 0.

(** [d3.greatest(values, accessor)]: the first element whose value is
    largest. *)
Definition greatest {A : Type} (f : A -> Q) (l : list A) : option A :=
  match l with
  | [] => None
  | x :: r =>
      Some (fold_left (fun m d => if Qlt_le_dec (f m) (f d) then d else m) r x)
  end.

(** [d3.group(values, key)]: a map from each key, in order of first
    occurrence, to the values that have it, in their order; [d3.rollup]
    reduces each group. *)
Section Group.
Variables (A K V : Type) (key : A -> K) (eqb : K -> K -> bool).

Definition group (l : list A) : list (K * list A) :=
  map (fun k => (k, List.filter (fun d => eqb (key d) k) l))
      (distinct eqb (map key l)).

Definition rollup (reduce : list A -> V) (l : list A) : list (K * V) :=
  map (fun kv => (fst kv, reduce (snd kv))) (group l).

(** [m.get(k)]. *)
Definition get (m : list (K * V)) (k : K) : option V :=
  match List.find (fun kv => eqb (fst kv) k) m with
  | Some kv => Some (snd kv)
  | None => None
  end.
End Group.

(** Modelled from the spec: [d3.bisector(accessor).center], which is a
    library primitive and not under src/.  The spec says that the lookup
    under the pointer is a binary search over the sorted x-values, by
    season and centered, that finds the closest data point.  [left], here
    [bisectLeft], is the binary search for the first position in [lo, hi)
    whose value is not below [x]; [center] searches [lo, hi - 1) and steps
    back when the value before is strictly closer. *)
Section Bisector.
Variables (A : Type) (f : A -> Q).

Equations? bisectLeft (a : list A) (x : Q) (lo hi : nat) : nat by wf (hi - lo)%nat lt :=
  bisectLeft a x lo hi with lt_dec lo hi => {
    | right _ := lo
    | left _ with nth_error a ((lo + hi) / 2)%nat => {
        | Some d with Qlt_le_dec (f d) x => {
            | left _ := bisectLeft a x (S ((lo + hi) / 2)%nat) hi
            | right _ := bisectLeft a x lo ((lo + hi) / 2)%nat }
        | None := lo } }.
Proof.
  all: change (fst (Nat.divmod (lo + hi) 1 0 1)) with ((lo + hi) / 2)%nat.
  all: assert ((lo + hi) / 2 < hi)%nat by (apply Nat.Div0.div_lt_upper_bound; lia).
  all: assert (lo <= (lo + hi) / 2)%nat by (apply Nat.div_le_lower_bound; lia).
  all: lia.
Qed.

Definition center (a : list A) (x : Q) : nat :=
  let i := bisectLeft a x 0 (List.length a - 1) in
  match i with
  | O => i
  | S j =>
      match nth_error a j, nth_error a i with
      | Some before, Some at_i =>
          if Qlt_le_dec (- (f at_i - x)) (f before - x) then j else i
      | _, _ => i
      end
  end.
End Bisector.

(** Modelled from the spec: the keyed data join of D3
    ([selection.data(values, key)] followed by [selection.join]), which is
    a library primitive and not under src/.  The spec says that a season
    change swaps the bound data by a keyed join: a node whose key matches
    a datum is updated, a datum without a node enters, a node without a
    datum exits.  D3 adds: of several nodes with one key the first is
    matched and the others exit; of several data with one key the first is
    matched and the others enter.

    [matched] gives the datum a node of the group is bound to ([None]: the
    node exits); [slots] gives, for each datum in order, the node it
    updates ([None]: the datum enters). *)
Section Join.
Variables (N D K : Type) (nkey : N -> K) (dkey : D -> K) (eqb : K -> K -> bool).

Definition first_with (k : K) (g : list N) : option (nat * N) :=
  JS.find (fun n => eqb (nkey n) k) g.

(** The node [n] stands at position [i] of the group [g]. *)
Definition matched (g : list N) (ds : list D) (i : nat) (n : N) : option D :=
  match first_with (nkey n) g with
  | Some (j, _) =>
      if (i =? j)%nat
      then option_map snd (JS.find (fun d => eqb (dkey d) (nkey n)) ds)
      else None
  | None => None
  end.

Fixpoint slots_from (seen : list K) (g : list N) (ds : list D) : list (option N) :=
  match ds with
  | [] => []
  | d :: r =>
      (if has eqb seen (dkey d) then None
       else option_map snd (first_with (dkey d) g))
      :: slots_from (dkey d :: seen) g r
  end.

Definition slots (g : list N) (ds : list D) : list (option N) :=
  slots_from [] g ds.
End Join.

End D3lib.

(* ===================================================================== *)
(** * Records of the datasets                                             *)
(* ===================================================================== *)

Record SeasonMetric : Type := mkSeasonMetric {
  season : Z;
  avgThreeAttempts : Q;
  avgPoints : Q;
  avgThreeRate : Q
}.

Record ScoringMixRecord : Type := mkScoringMix {
  mixSeason : Z;
  twoPct : Q;
  threePctShare : Q;
  ftPct : Q
}.

Record MomentumPoint : Type := mkMomentum {
  momSeason : Z;
  momentum : Q;
  momThreeRate : Q;
  momThreePct : Q
}.

Record HeatmapCell : Type := mkHeatmapCell {
  cellSeason : Z;
  abbr : string;
  cellCity : string;
  cellTeam : string;
  threeRate : Q;
  cellThreePct : Q
}.

Record TeamSeasonStat : Type := mkTeamSeasonStat {
  teamSeason : Z;
  teamId : Z;
  city : string;
  team : option string;
  conference : string;
  teamThreeAttempts : Q;
  threePct : Q;
  winPct : option Q
}.

Record TeamGeoStat : Type := mkTeamGeoStat {
  geoTeam : string;
  geoCity : string;
  geoConference : string;
  lat : Q;
  lon : Q;
  offRtg : Q;
  geoThreeRate : Q;
  geoThreePct : Q
}.

(* ===================================================================== *)
(** * updateHeroMetrics                                                   *)
(* ===================================================================== *)

(** The comparator [(a, b) => a.season - b.season]. *)
Definition bySeason {A : Type} (seasonOf : A -> Z) (a b : A) : Z :=
  seasonOf a - seasonOf b.

(** [((last.avgThreeRate - first.avgThreeRate) / first.avgThreeRate) * 100]. *)
Definition growth (first last : SeasonMetric) : spec_float :=
  SFmul 53 1024
    (SFdiv 53 1024
       (SFsub 53 1024 (toDouble (avgThreeRate last)) (toDouble (avgThreeRate first)))
       (toDouble (avgThreeRate first)))
    (toDouble 100).

(** [`${growth >= 0 ? "+" : ""}${numberFmt(growth)}`]. *)
Definition growthText (g : spec_float) : string :=
  String.append (if SFleb (S754_zero false) g then "+" else "") (doubleFmt g).

Definition updateHeroMetrics (data : ref) : M SeasonMetric unit :=
  l <- read data ;;
  if (List.length l =? 0)%nat then ret tt
  else
    copy <- slice data ;;
    sorted <- sort_in_place (bySeason season) copy ;;
    s <- read sorted ;;
    match nth_error s 0, last_elem s with
    | Some first, Some (_, last) =>
        on_page (set_text "#avgGrowth" (growthText (growth first last)))
    | _, _ => throw TypeError
    end.

(* ===================================================================== *)
(** * renderLeagueTrends                                                  *)
(* ===================================================================== *)

Module League.

Record Metric : Type := mkMetric {
  key : string;
  label : string;
  color : string;
  accessor : SeasonMetric -> Q;
  format : Q -> string;
  suffix : string
}.

Definition metricConfig : list Metric :=
  [ mkMetric "avgThreeAttempts" "3PA per team game" "#f25f5c"
      avgThreeAttempts numberFmt " attempts";
    mkMetric "avgPoints" "Points per team game" "#60d2ff"
      avgPoints numberFmt " pts";
    mkMetric "avgThreeRate" "Share of FGA that are 3s" "#c4ff5f"
      (fun d => avgThreeRate d * 100)%Q
      (fun v => String.append (numberFmt v) "%") "" ].

(** The closure of one rendered chart: what its handlers and the returned
    control read and write. *)
Record Chart : Type := mkChart {
  data : ref;                     (* the sorted copy *)
  xDomain : option (Q * Q);
  yDomain : option (Q * Q);
  innerWidth : Q;
  activeMetric : option string;
  crosshair : option Q;           (* x of the line while it is visible *)
  focusDots : list (Q * Q * Q);   (* cx, cy, opacity; one per metric *)
  paths : list (Q * Q);           (* opacity and stroke width; one per metric *)
  buttons : list bool             (* class [active]; one per legend button *)
}.

Definition set_active (a : option string) (c : Chart) : Chart :=
  mkChart (data c) (xDomain c) (yDomain c) (innerWidth c) a
    (crosshair c) (focusDots c) (paths c) (buttons c).

Definition innerHeight : Q := 420 - 30 - 50.

(** Truthiness of [activeMetric]: [null] and the empty string are falsy. *)
Definition isSet (m : option string) : bool :=
  match m with
  | Some k => negb (String.eqb k "")
  | None => false
  end.

(** [activeMetric === k]. *)
Definition isKey (m : option string) (k : string) : bool :=
  match m with
  | Some a => String.eqb a k
  | None => false
  end.

(** [!activeMetric || activeMetric === k]. *)
Definition passes (m : option string) (k : string) : bool :=
  negb (isSet m) || isKey m k.

Definition row (datum : SeasonMetric) (m : Metric) : string :=
  JS.join ""
    [ "<span style="; dq; "color:"; color m; dq; ">"; label m; ":</span> ";
      format m (accessor m datum); suffix m ].

Definition rows (active : option string) (datum : SeasonMetric) : list string :=
  map (row datum) (List.filter (fun m => passes active (key m)) metricConfig).

Definition tooltipOf (active : option string) (datum : SeasonMetric) : string :=
  JS.join ""
    [ "<strong>"; string_of_Z (season datum); "</strong><br>";
      JS.join "<br>" (rows active datum) ].

Section WithD3.
Context {d3 : D3}.

Definition x (c : Chart) : Q -> Q :=
  scaleLinear (xDomain c) (0, innerWidth c)%Q.

Definition y (c : Chart) : Q -> Q :=
  scaleLinear (yDomain c) (innerHeight, 0)%Q.

Definition showTooltip (c : Chart) (datum : SeasonMetric) : M SeasonMetric unit :=
  on_page (show_tooltip (tooltipOf (activeMetric c) datum)).

(** The crosshair and the dots move to [datum]; shared by [pointerMove]
    and [focusSeason]. *)
Definition focusOn (c : Chart) (datum : SeasonMetric) : Chart :=
  mkChart (data c) (xDomain c) (yDomain c) (innerWidth c) (activeMetric c)
    (Some (x c (inject_Z (season datum))))
    (map (fun m =>
            (x c (inject_Z (season datum)), y c (accessor m datum),
             if isSet (activeMetric c) && negb (isKey (activeMetric c) (key m))
             then 0 else 1)%Q)
         metricConfig)
    (paths c) (buttons c).

Definition pointerMove (c : Chart) (mx : Q) : M SeasonMetric Chart :=
  d <- read (data c) ;;
  let seasonValue := invert (xDomain c) (0, innerWidth c)%Q mx in
  let index := D3lib.center (fun r => inject_Z (season r)) d seasonValue in
  match nth_error d index with
  | None => ret c
  | Some datum => showTooltip c datum ;; ret (focusOn c datum)
  end.

Definition pointerLeave (c : Chart) : M SeasonMetric Chart :=
  on_page hide_tooltip ;;
  ret (mkChart (data c) (xDomain c) (yDomain c) (innerWidth c) (activeMetric c)
         None
         (map (fun d => (fst (fst d), snd (fst d), 0%Q)) (focusDots c))
         (paths c) (buttons c)).

(** The legend buttons exist when [#trendLegend] does; [buttons] is
    empty otherwise and [classed] has nothing to mark. *)
Definition updateMetricFilter (c : Chart) : Chart :=
  let a := activeMetric c in
  mkChart (data c) (xDomain c) (yDomain c) (innerWidth c) a
    (crosshair c) (focusDots c)
    (map (fun m =>
            (if passes a (key m) then 95 # 100 else 12 # 100,
             if isSet a && isKey a (key m) then 34 # 10 else 22 # 10))
         metricConfig)
    (map (fun mb => passes a (key (fst mb)))
         (combine metricConfig (buttons c))).

(** A click on the legend button of metric [m]. *)
Definition legendClick (c : Chart) (m : Metric) : Chart :=
  updateMetricFilter
    (set_active (if isKey (activeMetric c) (key m) then None else Some (key m)) c).

Definition setMetric (c : Chart) (k : option string) : M SeasonMetric Chart :=
  ret (updateMetricFilter (set_active k c)).

(** [seasonArg] is [None] for [null], [undefined] or any value that is not
    a number: [===] then fails on every record. *)
Definition focusSeason (c : Chart) (seasonArg : option Z) : M SeasonMetric Chart :=
  d <- read (data c) ;;
  let found :=
    match seasonArg with
    | Some s => JS.find (fun r => season r =? s) d
    | None => None
    end in
  match (match found with Some r => Some r | None => last_elem d end) with
  | None => throw TypeError
  | Some (_, datum) => showTooltip c datum ;; ret (focusOn c datum)
  end.

Definition accessorMax (d : list SeasonMetric) : option Q :=
  D3lib.max (fun v => v)
    (flat_map (fun m => match D3lib.max (accessor m) d with
                        | Some v => [v]
                        | None => []
                        end) metricConfig).

Definition renderLeagueTrends (rawData : ref) : M SeasonMetric Chart :=
  copy <- slice rawData ;;
  data <- sort_in_place (bySeason season) copy ;;
  on_page (clear_drawing "#leagueTrendChart") ;;
  w <- bounding_width "#leagueTrendChart" ;;
  let width := or_default w 960 in
  let innerWidth := (width - 60 - 40)%Q in
  d <- read data ;;
  let xDomain := D3lib.extent (fun r => inject_Z (season r)) d in
  let yDomain := match accessorMax d with
                 | Some m => Some (0, m * (11 # 10))%Q
                 | None => None
                 end in
  on_page (add_drawing "#leagueTrendChart") ;;
  p <- get_page ;;
  let c := mkChart data xDomain yDomain innerWidth None None
             (map (fun _ => (0, 0, 0)%Q) metricConfig)
             (map (fun _ => (85 # 100, 25 # 10)) metricConfig)
             (if exists_el p "#trendLegend"
              then map (fun _ => false) metricConfig else []) in
  ret (updateMetricFilter c).
End WithD3.
End League.

(* ===================================================================== *)
(** * renderScoringMix                                                    *)
(* ===================================================================== *)

Module Scoring.

Record Chart : Type := mkChart {
  data : ref;
  xDomain : option (Q * Q);
  innerWidth : Q;
  focusLine : option Q            (* x of the line while it is visible *)
}.

Definition keys : list (string * string * (ScoringMixRecord -> Q)) :=
  [ ("Points from 2s", "#60d2ff", twoPct);
    ("Points from 3s", "#f25f5c", threePctShare);
    ("Points from FT", "#c4ff5f", ftPct) ].

Definition row (datum : ScoringMixRecord)
           (k : string * string * (ScoringMixRecord -> Q)) : string :=
  JS.join ""
    [ "<span style="; dq; "color:"; snd (fst k); dq; ">"; fst (fst k);
      ":</span> "; percentFmt (snd k datum) ].

Definition tooltipOf (datum : ScoringMixRecord) : string :=
  JS.join ""
    [ "<strong>"; string_of_Z (mixSeason datum); "</strong><br>";
      JS.join "<br>" (map (row datum) keys) ].

Section WithD3.
Context {d3 : D3}.

Definition x (c : Chart) : Q -> Q :=
  scaleLinear (xDomain c) (0, innerWidth c)%Q.

Definition showSeason (c : Chart) (datum : ScoringMixRecord)
  : M ScoringMixRecord Chart :=
  on_page (show_tooltip (tooltipOf datum)) ;;
  ret (mkChart (data c) (xDomain c) (innerWidth c)
         (Some (x c (inject_Z (mixSeason datum))))).

Definition pointerMove (c : Chart) (mx : Q) : M ScoringMixRecord Chart :=
  d <- read (data c) ;;
  let seasonValue := invert (xDomain c) (0, innerWidth c)%Q mx in
  let index := D3lib.center (fun r => inject_Z (mixSeason r)) d seasonValue in
  match nth_error d index with
  | None => ret c
  | Some datum => showSeason c datum
  end.

Definition pointerLeave (c : Chart) : M ScoringMixRecord Chart :=
  on_page hide_tooltip ;;
  ret (mkChart (data c) (xDomain c) (innerWidth c) None).

Definition focusSeason (c : Chart) (seasonArg : option Z)
  : M ScoringMixRecord Chart :=
  d <- read (data c) ;;
  let found :=
    match seasonArg with
    | Some s => JS.find (fun r => mixSeason r =? s) d
    | None => None
    end in
  match (match found with Some r => Some r | None => last_elem d end) with
  | None => throw TypeError
  | Some (_, datum) => showSeason c datum
  end.

Definition renderScoringMix (rawData : ref) : M ScoringMixRecord Chart :=
  copy <- slice rawData ;;
  data <- sort_in_place (bySeason mixSeason) copy ;;
  on_page (clear_drawing "#scoringMixChart") ;;
  w <- bounding_width "#scoringMixChart" ;;
  let width := or_default w 960 in
  let innerWidth := (width - 60 - 30)%Q in
  d <- read data ;;
  let xDomain := D3lib.extent (fun r => inject_Z (mixSeason r)) d in
  on_page (add_drawing "#scoringMixChart") ;;
  ret (mkChart data xDomain innerWidth None).
End WithD3.
End Scoring.

(* ===================================================================== *)
(** * renderMomentumSpiral                                                *)
(* ===================================================================== *)

Module Spiral.

(** A dot sits at angle [i * angleStep] and radius
    [radiusScale(momentum) + i * 8]; a position is kept in these polar
    terms, as the index and the radius. *)
Record Chart : Type := mkChart {
  data : ref;
  rDomain : option (Q * Q);
  dots : list (Q * Q);            (* radius attribute and opacity; one per record *)
  labelAt : option (nat * Q);     (* index and radius of the labelled point *)
  labelText : string
}.

Definition tooltipOf (d : MomentumPoint) : string :=
  JS.join ""
    [ "<strong>"; string_of_Z (momSeason d); "</strong><br>Momentum idx: ";
      numberFmt (momentum d * 100)%Q; "<br>3P Rate: ";
      percentFmt (momThreeRate d); "<br>3P%: ";
      numberFmt (momThreePct d * 100)%Q; "%" ].

Section WithD3.
Context {d3 : D3}.

Definition radiusScale (c : Chart) : Q -> Q :=
  scaleLinear (rDomain c) (40, 210)%Q.

Definition pointRadius (c : Chart) (i : nat) (d : MomentumPoint) : Q :=
  (radiusScale c (momentum d) + inject_Z (Z.of_nat i) * 8)%Q.

(** The dot of [datum] grows, the others fade; [datum] is the index of
    the record, or [None] when it is [undefined]. *)
Definition mark_dots (n : nat) (datum : option nat) : list (Q * Q) :=
  map (fun i => match datum with
                | Some j => if (i =? j)%nat then (9, 1)%Q else (5, 55 # 100)%Q
                | None => (5, 55 # 100)%Q
                end)
      (seq 0 n).

Definition focusSeason (c : Chart) (seasonArg : option Z)
  : M MomentumPoint Chart :=
  d <- read (data c) ;;
  let found :=
    match seasonArg with
    | Some s => JS.find (fun r => momSeason r =? s) d
    | None => None
    end in
  let datum := match found with Some r => Some r | None => last_elem d end in
  let marked := mark_dots (List.length d) (option_map fst datum) in
  match datum with
  | None => throw TypeError
  | Some (idx, r) =>
      ret (mkChart (data c) (rDomain c) marked
             (Some (idx, pointRadius c idx r))
             (String.append (string_of_Z (momSeason r)) " momentum wave"))
  end.

(** Pointer over the dot of record [i]. *)
Definition pointerEnter (c : Chart) (i : nat) : M MomentumPoint Chart :=
  d <- read (data c) ;;
  match nth_error d i with
  | None => ret c
  | Some r =>
      on_page (show_tooltip (tooltipOf r)) ;;
      ret (mkChart (data c) (rDomain c)
             (map (fun k => if (fst k =? i)%nat then (8, snd (snd k))%Q else snd k)
                  (combine (seq 0 (List.length (dots c))) (dots c)))
             (labelAt c) (labelText c))
  end.

Definition pointerLeave (c : Chart) (i : nat) : M MomentumPoint Chart :=
  on_page hide_tooltip ;;
  ret (mkChart (data c) (rDomain c)
         (map (fun k => if (fst k =? i)%nat then (5, snd (snd k))%Q else snd k)
              (combine (seq 0 (List.length (dots c))) (dots c)))
         (labelAt c) (labelText c)).

Definition renderMomentumSpiral (rawData : ref) : M MomentumPoint Chart :=
  copy <- slice rawData ;;
  data <- sort_in_place (bySeason momSeason) copy ;;
  on_page (clear_drawing "#momentumSpiral") ;;
  _ <- bounding_width "#momentumSpiral" ;;
  d <- read data ;;
  let rDomain := D3lib.extent momentum d in
  on_page (add_drawing "#momentumSpiral") ;;
  let c := mkChart data rDomain (map (fun _ => (5, 1)%Q) d) None "" in
  focusSeason c (option_map momSeason (nth_error d 0)).
End WithD3.
End Spiral.

(* ===================================================================== *)
(** * renderHeatmap                                                       *)
(* ===================================================================== *)

Module Heatmap.

Record Chart : Type := mkChart {
  data : ref;
  seasons : list Z;               (* domain of the x band scale *)
  teams : list string;            (* domain of the y band scale: the row order *)
  cells : list Q                  (* opacity; one per record *)
}.

(** [teamLatest]: for each team code, its first record of the latest
    season. *)
Definition teamLatest (d : list HeatmapCell) : list (string * option HeatmapCell) :=
  let seasons := sort (fun a b => a - b) (distinct Z.eqb (map cellSeason d)) in
  let latestSeason := math_max seasons in
  D3lib.rollup abbr String.eqb (fun v => nth_error v 0)
    (List.filter (fun r => match latestSeason with
                           | Some s => cellSeason r =? s
                           | None => false
                           end) d).

(** [teamLatest.get(a)?.threeRate ?? 0]. *)
Definition latestRate (d : list HeatmapCell) (a : string) : Q :=
  match D3lib.get String.eqb (teamLatest d) a with
  | Some (Some r) => threeRate r
  | _ => 0
  end.

Definition teamOrder (d : list HeatmapCell) : list string :=
  sort (fun a b => D3lib.descending (latestRate d a) (latestRate d b))
       (distinct String.eqb (map abbr d)).

(** Truthiness of a string argument. *)
Definition given (o : option string) : bool :=
  match o with
  | Some t => negb (String.eqb t "")
  | None => false
  end.

Definition highlight (c : Chart) (teamArg : option string) (seasonArg : option Z)
  : M HeatmapCell Chart :=
  d <- read (data c) ;;
  ret (mkChart (data c) (seasons c) (teams c)
         (map (fun r =>
                 let teamMatch :=
                   match teamArg with
                   | Some t => if given teamArg then String.eqb (abbr r) t else true
                   | None => true
                   end in
                 let seasonMatch :=
                   match seasonArg with
                   | Some s => if s =? 0 then true else cellSeason r =? s
                   | None => true
                   end in
                 (if teamMatch && seasonMatch then 1 else 25 # 100)%Q)
              d)).

Definition tooltipOf (d : HeatmapCell) : string :=
  JS.join ""
    [ "<strong>"; cellCity d; " "; cellTeam d; "</strong><br>";
      string_of_Z (cellSeason d); "<br>"; percentFmt (threeRate d);
      " of attempts were 3s<br>"; numberFmt (cellThreePct d * 100)%Q;
      "% accuracy" ].

Definition pointerEnter (c : Chart) (i : nat) : M HeatmapCell Chart :=
  d <- read (data c) ;;
  match nth_error d i with
  | None => ret c
  | Some r =>
      on_page (show_tooltip (tooltipOf r)) ;;
      ret (mkChart (data c) (seasons c) (teams c)
             (map (fun k => if (fst k =? i)%nat then 1%Q else snd k)
                  (combine (seq 0 (List.length (cells c))) (cells c))))
  end.

Definition pointerLeave (c : Chart) (i : nat) : M HeatmapCell Chart :=
  on_page hide_tooltip ;;
  ret (mkChart (data c) (seasons c) (teams c)
         (map (fun k => if (fst k =? i)%nat then (92 # 100)%Q else snd k)
              (combine (seq 0 (List.length (cells c))) (cells c)))).

Definition renderHeatmap (rawData : ref) : M HeatmapCell Chart :=
  data <- slice rawData ;;
  on_page (clear_drawing "#heatmapChart") ;;
  _ <- bounding_width "#heatmapChart" ;;
  d <- read data ;;
  let seasons := sort (fun a b => a - b) (distinct Z.eqb (map cellSeason d)) in
  let teams := teamOrder d in
  on_page (add_drawing "#heatmapChart") ;;
  ret (mkChart data seasons teams (map (fun _ => (92 # 100)%Q) d)).
End Heatmap.

(* ===================================================================== *)
(** * renderTeamMap                                                       *)
(* ===================================================================== *)

(** The boundary dataset is read only; the model keeps whether one was
    loaded. *)
Inductive StatesTopology : Type := UsStates.

Module TeamMap.

Record Chart : Type := mkChart {
  positioned : list (TeamGeoStat * (Q * Q));  (* records with screen coordinates *)
  rDomain : option (Q * Q);
  bubbles : list (Q * Q);                      (* radius and opacity; one per record *)
  topLabel : option (Q * Q)                    (* position of "Top offense" *)
}.

Definition tooltipOf (d : TeamGeoStat) : string :=
  JS.join ""
    [ "<strong>"; geoCity d; " "; geoTeam d; "</strong><br>Off Rtg: ";
      numberFmt (offRtg d); "<br>3P Rate: "; percentFmt (geoThreeRate d);
      "<br>3P%: "; numberFmt (geoThreePct d * 100)%Q; "%" ].

Section WithD3.
Context {d3 : D3}.

Definition r (c : Chart) : Q -> Q := scaleSqrt (rDomain c) (6, 24)%Q.

(** [conference] is [None] for [null]; the empty string is falsy too. *)
Definition focusConference (c : Chart) (conferenceArg : option string)
  : M TeamGeoStat Chart :=
  let all := match conferenceArg with
             | Some k => String.eqb k ""
             | None => true
             end in
  let same (d : TeamGeoStat) :=
    match conferenceArg with
    | Some k => String.eqb (geoConference d) k
    | None => false
    end in
  ret (mkChart (positioned c) (rDomain c)
         (map (fun d => if all || same (fst d)
                        then (r c (offRtg (fst d)), 1)
                        else (r c (offRtg (fst d)) * (8 # 10), 2 # 10))%Q
              (positioned c))
         (topLabel c)).

Definition renderTeamMap (teamData : ref) (statesTopo : option StatesTopology)
  : M TeamGeoStat Chart :=
  on_page (clear_drawing "#teamMap") ;;
  w <- bounding_width "#teamMap" ;;
  let width := or_default w 960 in
  let innerWidth := (width - 10 - 10)%Q in
  let innerHeight := (520 - 10 - 10)%Q in
  let states := match statesTopo with Some _ => true | None => false end in
  let projection := geoAlbersUsa states (innerWidth, innerHeight) in
  on_page (add_drawing "#teamMap") ;;
  d <- read teamData ;;
  let positioned :=
    flat_map (fun r => match projection (lon r, lat r) with
                       | Some coords => [(r, coords)]
                       | None => []
                       end) d in
  let rDomain := D3lib.extent (fun p => offRtg (fst p)) positioned in
  let c := mkChart positioned rDomain [] None in
  let best := D3lib.greatest (fun p => offRtg (fst p)) positioned in
  match best with
  | None => ret (mkChart positioned rDomain [] None)
  | Some b =>
      match projection (lon (fst b), lat (fst b)) with
      | None => throw TypeError
      | Some (bx, by_) =>
          ret (mkChart positioned rDomain
                 (map (fun p => (r c (offRtg (fst p)), 1%Q)) positioned)
                 (Some (bx, by_ - r c (offRtg (fst b)) - 6)%Q))
      end
  end.
End WithD3.
End TeamMap.

(* ===================================================================== *)
(** * renderTeamScatter                                                   *)
(* ===================================================================== *)

Module Scatter.

(** A circle of the scatter layer.  A transition is kept as its end
    point: [goal] is what the attributes become when it ends, and a node
    that is [leaving] is removed then.  [cx], [cy] and [radius] are the
    attributes as last set directly. *)
Record Circle : Type := mkCircle {
  node : nat;                     (* identity of the element *)
  datum : TeamSeasonStat;         (* the bound record *)
  cx : Q;
  cy : Q;
  radius : Q;
  goal : Q * Q * Q;               (* cx, cy and r at the end of the transition *)
  leaving : bool
}.

Record Chart : Type := mkChart {
  data : ref;                                   (* the filtered copy *)
  seasonGroups : list (Z * list TeamSeasonStat);
  xDomain : option (Q * Q);
  yDomain : option (Q * Q);
  innerWidth : Q;
  layer : list Circle;                          (* circles in document order *)
  nextNode : nat                                (* the next fresh identity *)
}.

(** What [renderTeamScatter] returns: [{}] or [{ setSeason }]. *)
Inductive Control : Type :=
| Empty
| Methods (c : Chart).

Definition innerHeight : Q := 460 - 20 - 60.

Definition set_layer (l : list Circle) (n : nat) (c : Chart) : Chart :=
  mkChart (data c) (seasonGroups c) (xDomain c) (yDomain c) (innerWidth c) l n.

(** [parent.insertBefore(c, next)]; at the end when [next] is [null]. *)
Fixpoint insert_before (c : Circle) (next : option nat) (l : list Circle)
  : list Circle :=
  match l with
  | [] => [c]
  | x :: r =>
      match next with
      | Some n => if (node x =? n)%nat then c :: x :: r
                  else x :: insert_before c next r
      | None => x :: insert_before c next r
      end
  end.

Fixpoint position (n : nat) (l : list Circle) : option nat :=
  match l with
  | [] => None
  | x :: r => if (node x =? n)%nat then Some O
              else option_map S (position n r)
  end.

(** [a] comes before [b] in the document. *)
Definition precedes (a b : nat) (l : list Circle) : bool :=
  match position a l, position b l with
  | Some i, Some j => (i <? j)%nat
  | _, _ => false
  end.

Definition move_before (a b : nat) (l : list Circle) : list Circle :=
  match List.find (fun x => (node x =? a)%nat) l with
  | Some c => insert_before c (Some b) (List.filter (fun x => negb (node x =? a)%nat) l)
  | None => l
  end.

(** [selection.order()]: from the last node of the selection backwards,
    a node that does not come before its successor is moved just before
    it. *)
Fixpoint order (ids : list nat) (l : list Circle) : list Circle :=
  match ids with
  | [] => l
  | a :: rest =>
      let l' := order rest l in
      match rest with
      | [] => l'
      | b :: _ => if precedes a b l' then l' else move_before a b l'
      end
  end.

Definition tooltipOf (d : TeamSeasonStat) : string :=
  JS.join ""
    [ "<strong>"; city d; " "; match team d with Some t => t | None => "" end;
      "</strong><br>"; numberFmt (teamThreeAttempts d); " 3PA • ";
      numberFmt (threePct d * 100)%Q; "%<br>Win %: ";
      if truthy_opt (winPct d)
      then String.append (numberFmt (nullish (winPct d) 0 * 100)%Q) "%"
      else "N/A" ].

(** [String.prototype.trim] for ASCII white space. *)
Definition is_space (a : ascii) : bool :=
  let n := nat_of_ascii a in
  ((9 <=? n) && (n <=? 13) || (n =? 32))%nat.

Fixpoint trim_left (s : string) : string :=
  match s with
  | String a r => if is_space a then trim_left r else s
  | EmptyString => s
  end.

Fixpoint trim_right (s : string) : string :=
  match s with
  | String a r =>
      match trim_right r with
      | EmptyString => if is_space a then EmptyString else String a EmptyString
      | r' => String a r'
      end
  | EmptyString => s
  end.

Definition trim (s : string) : string := trim_right (trim_left s).

Definition insightOf (seasonData : list TeamSeasonStat) : string :=
  match D3lib.greatest (fun d => nullish (winPct d) 0%Q) seasonData with
  | Some topTeam =>
      let name :=
        trim (JS.join "" [ city topTeam; " ";
                           match team topTeam with
                           | Some t => t
                           | None => "undefined"
                           end ]) in
      JS.join ""
        [ name; " combined "; numberFmt (teamThreeAttempts topTeam);
          " 3PA and "; numberFmt (threePct topTeam * 100)%Q; "% accuracy for ";
          if truthy_opt (winPct topTeam)
          then String.append (numberFmt (nullish (winPct topTeam) 0 * 100)%Q)
                             "% wins."
          else "a winning profile." ]
  | None => "No team data for this season."
  end.

Section WithD3.
Context {d3 : D3}.

Definition x (c : Chart) : Q -> Q :=
  scaleLinear (nice (xDomain c)) (0, innerWidth c)%Q.

Definition y (c : Chart) : Q -> Q :=
  scaleLinear (yDomain c) (innerHeight, 0)%Q.

Definition r : Q -> Q :=
  scaleSqrt (Some (2 # 10, 8 # 10)) (4, 22)%Q.

(** Where the transition of a bound circle ends. *)
Definition target (c : Chart) (d : TeamSeasonStat) : Q * Q * Q :=
  (x c (teamThreeAttempts d), y c (threePct d * 100)%Q,
   r (nullish (winPct d) (1 # 2))).

(** [enter.append("circle")]: the attributes are set at once, with
    radius 0, and the radius grows in a transition. *)
Definition entered (c : Chart) (n : nat) (d : TeamSeasonStat) : Circle :=
  mkCircle n d (x c (teamThreeAttempts d)) (y c (threePct d * 100)%Q) 0
           (target c d) false.

(** A matched circle is bound to [d] and moves to its target in a
    transition. *)
Definition updated (c : Chart) (k : Circle) (d : TeamSeasonStat) : Circle :=
  mkCircle (node k) d (cx k) (cy k) (radius k) (target c d) false.

(** The exit transition: the radius shrinks to 0 and the node is
    removed. *)
Definition exiting (k : Circle) : Circle :=
  mkCircle (node k) (datum k) (cx k) (cy k) (radius k) (cx k, cy k, 0%Q) true.

Definition keyOf (k : Circle) : Z := teamId (datum k).

(** The circles that were there: each one is updated or exits. *)
Definition rebound (c : Chart) (g : list Circle) (ds : list TeamSeasonStat)
  : list Circle :=
  map (fun p =>
         match D3lib.matched keyOf teamId Z.eqb g ds (fst p) (snd p) with
         | Some d => updated c (snd p) d
         | None => exiting (snd p)
         end)
      (combine (seq 0 (List.length g)) g).

(** The node an entering datum is inserted before: the next node, in
    data order, that is updated. *)
Fixpoint next_update (sl : list (option Circle)) : option nat :=
  match sl with
  | [] => None
  | Some k :: _ => Some (node k)
  | None :: r => next_update r
  end.

(** The entering data get their circles, datum by datum; returns the nodes
    of the merged selection in data order, the layer and the next fresh
    identity. *)
Fixpoint enter (c : Chart) (ds : list TeamSeasonStat) (sl : list (option Circle))
         (l : list Circle) (fresh : nat) : list nat * list Circle * nat :=
  match ds, sl with
  | d :: ds', Some k :: sl' =>
      let '(ids, l', f') := enter c ds' sl' l fresh in
      (node k :: ids, l', f')
  | d :: ds', None :: sl' =>
      let l1 := insert_before (entered c fresh d) (next_update sl') l in
      let '(ids, l', f') := enter c ds' sl' l1 (S fresh) in
      (fresh :: ids, l', f')
  | _, _ => ([], l, fresh)
  end.

Definition joinSeason (c : Chart) (seasonData : list TeamSeasonStat) : Chart :=
  let g := layer c in
  let sl := D3lib.slots keyOf teamId Z.eqb g seasonData in
  let '(ids, l1, fresh) := enter c seasonData sl (rebound c g seasonData) (nextNode c) in
  set_layer (order ids l1) fresh c.

Definition updateSeason (c : Chart) (seasonArg : Z) : M TeamSeasonStat Chart :=
  let year := seasonArg in
  on_page (set_text "#seasonLabel" (string_of_Z year)) ;;
  let seasonData :=
    match D3lib.get Z.eqb (seasonGroups c) year with
    | Some g => g
    | None => []
    end in
  let c' := joinSeason c seasonData in
  on_page (set_text "#teamInsight" (insightOf seasonData)) ;;
  ret c'.

(** Pointer over the circle [k]: the listener gets the record bound to it. *)
Definition pointerEnter (k : Circle) : M TeamSeasonStat unit :=
  on_page (show_tooltip (tooltipOf (datum k))).

Definition pointerLeave : M TeamSeasonStat unit := on_page hide_tooltip.

(** The transitions end: attributes reach their goals and the nodes
    that left are removed. *)
Definition settle (c : Chart) : Chart :=
  set_layer
    (map (fun k => mkCircle (node k) (datum k) (fst (fst (goal k)))
                     (snd (fst (goal k))) (snd (goal k)) (goal k) false)
         (List.filter (fun k => negb (leaving k)) (layer c)))
    (nextNode c) c.

Definition setSeason (ctl : Control) (seasonArg : Z) : M TeamSeasonStat Control :=
  match ctl with
  | Empty => throw TypeError
  | Methods c =>
      on_page (set_slider (Some seasonArg)) ;;
      c' <- updateSeason c seasonArg ;;
      ret (Methods c')
  end.

(** The slider's [input] event. *)
Definition sliderInput (c : Chart) (value : Z) : M TeamSeasonStat Chart :=
  on_page (set_slider (Some value)) ;;
  updateSeason c value.

Definition renderTeamScatter (rawData : ref) : M TeamSeasonStat Control :=
  data <- filter (fun d => truthy (teamThreeAttempts d) && truthy (threePct d))
                 rawData ;;
  on_page (clear_drawing "#teamScatter") ;;
  w <- bounding_width "#teamScatter" ;;
  let width := or_default w 960 in
  let innerWidth := (width - 70 - 20)%Q in
  d <- read data ;;
  let seasons := sort (fun a b => a - b) (distinct Z.eqb (map teamSeason d)) in
  let seasonGroups := D3lib.group teamSeason Z.eqb d in
  let xDomain := D3lib.extent teamThreeAttempts d in
  let yDomain :=
    match D3lib.min threePct d, D3lib.max threePct d with
    | Some lo, Some hi => Some (lo * 100 - 2, hi * 100 + 2)%Q
    | _, _ => None
    end in
  on_page (add_drawing "#teamScatter") ;;
  p <- get_page ;;
  if negb (exists_el p "#seasonSlider" && exists_el p "#seasonLabel"
           && exists_el p "#teamInsight")
  then
    on_page (log LogWarn "Missing slider elements for the team scatter chart.") ;;
    ret Empty
  else
    (match last_elem seasons with
     | Some (_, latest) =>
         on_page (set_slider (Some latest)) ;;
         on_page (set_text "#seasonLabel" (string_of_Z latest))
     | None => ret tt
     end) ;;
    let c := mkChart data seasonGroups xDomain yDomain innerWidth [] 0 in
    p' <- get_page ;;
    match sliderValue p' with
    | Some v => c' <- updateSeason c v ;; ret (Methods c')
    | None => ret (Methods c)
    end.
End WithD3.
End Scatter.

(** ** The step buttons of the slider

    [renderTeamScatter] also registers a click listener on every element of
    class [slider-btn].  [dir] is [Number(btn.dataset.dir)]; [lo] and [hi]
    are [Number(slider.min)] and [Number(slider.max)], which the renderer
    sets to the first and the last season.  A slider without a value reads
    as the empty string, which [Number] turns into 0. *)
Section SliderButtons.
Context {d3 : D3}.

Definition sliderButton (c : Scatter.Chart) (lo hi dir : Z)
  : M TeamSeasonStat Scatter.Chart :=
  p <- get_page ;;
  let value := match sliderValue p with Some v => v | None => 0 end in
  let next := Z.min hi (Z.max lo (value + dir)) in
  on_page (set_slider (Some next)) ;;
  Scatter.updateSeason c next.
End SliderButtons.

(* ===================================================================== *)
(** * The dashboard: controllers, story steps and init                    *)
(* ===================================================================== *)

(** The registry [controllers]: a field is [None] until init assigns it.  A
    control is kept with the arrays its closure refers to. *)
Record Controllers : Type := mkControllers {
  league : option (League.Chart * Heap SeasonMetric);
  scoring : option (Scoring.Chart * Heap ScoringMixRecord);
  scatter : option (Scatter.Control * Heap TeamSeasonStat);
  heatmap : option (Heatmap.Chart * Heap HeatmapCell);
  map_ : option (TeamMap.Chart * Heap TeamGeoStat);
  spiral : option (Spiral.Chart * Heap MomentumPoint)
}.

Definition noControllers : Controllers :=
  mkControllers None None None None None None.

Record Dashboard : Type := mkDashboard {
  controllers : Controllers;
  doc : Page;
  storyReady : bool     (* the observer and the click listeners are registered *)
}.

(** Code that runs on the whole dashboard. *)
Definition B (X : Type) : Type := Dashboard -> result X * Dashboard.

Definition retB {X : Type} (x : X) : B X := fun s => (Ok x, s).

Definition bindB {X Y : Type} (m : B X) (k : X -> B Y) : B Y :=
  fun s =>
    match m s with
    | (Ok x, s') => k x s'
    | (Throw e, s') => (Throw e, s')
    end.

Declare Scope boot_scope.
Delimit Scope boot_scope with boot.
Notation "x <- m ;; k" := (bindB m (fun x => k))
  (at level 61, m at next level, right associativity) : boot_scope.
Notation "m ;; k" := (bindB m (fun _ => k))
  (at level 61, right associativity) : boot_scope.

(** A call into a chart: it sees the page of the dashboard and the arrays
    [h]. *)
Definition call {A X : Type} (m : M A X) (h : Heap A) : B (X * Heap A) :=
  fun s =>
    let out := m (mkState h (doc s)) in
    let s' := mkDashboard (controllers s) (page (snd out)) (storyReady s) in
    match fst out with
    | Ok v => (Ok (v, heap (snd out)), s')
    | Throw e => (Throw e, s')
    end.

Definition getControllers : B Controllers := fun s => (Ok (controllers s), s).

Definition setControllers (f : Controllers -> Controllers) : B unit :=
  fun s => (Ok tt, mkDashboard (f (controllers s)) (doc s) (storyReady s)).

Definition onDoc (f : Page -> Page) : B unit :=
  fun s => (Ok tt, mkDashboard (controllers s) (f (doc s)) (storyReady s)).

Definition getDoc : B Page := fun s => (Ok (doc s), s).

Definition set_league v (c : Controllers) :=
  mkControllers v (scoring c) (scatter c) (heatmap c) (map_ c) (spiral c).
Definition set_scoring v (c : Controllers) :=
  mkControllers (league c) v (scatter c) (heatmap c) (map_ c) (spiral c).
Definition set_scatter v (c : Controllers) :=
  mkControllers (league c) (scoring c) v (heatmap c) (map_ c) (spiral c).
Definition set_heatmap v (c : Controllers) :=
  mkControllers (league c) (scoring c) (scatter c) v (map_ c) (spiral c).
Definition set_map v (c : Controllers) :=
  mkControllers (league c) (scoring c) (scatter c) (heatmap c) v (spiral c).
Definition set_spiral v (c : Controllers) :=
  mkControllers (league c) (scoring c) (scatter c) (heatmap c) (map_ c) v.

(** What the seven requests settle to: [None] when the fetch or the parse of
    the body fails. *)
Record Fetched : Type := mkFetched {
  leagueTrends : option (list SeasonMetric);
  scoringMix : option (list ScoringMixRecord);
  teamScatter : option (list TeamSeasonStat);
  heatmapData : option (list HeatmapCell);
  teamMapData : option (list TeamGeoStat);
  spiralData : option (list MomentumPoint);
  statesTopo : option (option StatesTopology)
}.

Section Boot.
Context {d3 : D3}.
Local Open Scope boot_scope.

(** Truthiness of a number read from [data-season]. *)
Definition seasonGiven (o : option Z) : option Z :=
  match o with
  | Some z => if z =? 0 then None else Some z
  | None => None
  end.

(** [s || null] on a data attribute. *)
Definition orNull (o : option string) : option string :=
  match o with
  | Some t => if String.eqb t "" then None else Some t
  | None => None
  end.

Definition activateStep (i : nat) : B unit :=
  p <- getDoc ;;
  match nth_error (steps p) i with
  | None => retB tt
  | Some step =>
      onDoc (set_steps
               (map (fun k => if (group (snd k) =? group step)%nat
                              then mkStep (group (snd k)) (story (snd k))
                                     (stepSeason (snd k)) (stepMetric (snd k))
                                     (stepTeam (snd k)) (stepConference (snd k))
                                     (fst k =? i)%nat
                              else snd k)
                    (combine (seq 0 (List.length (steps p))) (steps p)))) ;;
      let season := seasonGiven (stepSeason step) in
      let metric := orNull (stepMetric step) in
      let team := orNull (stepTeam step) in
      let conference := orNull (stepConference step) in
      cs <- getControllers ;;
      match story step with
      | Some "league" =>
          match league cs with
          | None => retB tt
          | Some (c, h) =>
              r1 <- call (League.setMetric c metric) h ;;
              setControllers (set_league (Some r1)) ;;
              match season with
              | None => retB tt
              | Some _ =>
                  r2 <- call (League.focusSeason (fst r1) season) (snd r1) ;;
                  setControllers (set_league (Some r2))
              end
          end
      | Some "scoring" =>
          match season, scoring cs with
          | Some _, Some (c, h) =>
              r1 <- call (Scoring.focusSeason c season) h ;;
              setControllers (set_scoring (Some r1))
          | _, _ => retB tt
          end
      | Some "scatter" =>
          match season, scatter cs with
          | Some z, Some (c, h) =>
              r1 <- call (Scatter.setSeason c z) h ;;
              setControllers (set_scatter (Some r1))
          | _, _ => retB tt
          end
      | Some "heatmap" =>
          match heatmap cs with
          | Some (c, h) =>
              r1 <- call (Heatmap.highlight c team (stepSeason step)) h ;;
              setControllers (set_heatmap (Some r1))
          | None => retB tt
          end
      | Some "map" =>
          match map_ cs with
          | Some (c, h) =>
              r1 <- call (TeamMap.focusConference c conference) h ;;
              setControllers (set_map (Some r1))
          | None => retB tt
          end
      | Some "spiral" =>
          match season, spiral cs with
          | Some _, Some (c, h) =>
              r1 <- call (Spiral.focusSeason c season) h ;;
              setControllers (set_spiral (Some r1))
          | _, _ => retB tt
          end
      | _ => retB tt
      end
  end.

(** The default step of each group: the first one marked active, or the
    first one. *)
Definition defaultSteps (ss : list Step) : list nat :=
  let indexed := combine (seq 0 (List.length ss)) ss in
  flat_map
    (fun g =>
       match List.find (fun k => stepActive (snd k)) (snd g), snd g with
       | Some k, _ => [fst k]
       | None, k :: _ => [fst k]
       | None, [] => []
       end)
    (D3lib.group (fun k => group (snd k)) Nat.eqb indexed).

Fixpoint activateAll (l : list nat) : B unit :=
  match l with
  | [] => retB tt
  | i :: r => activateStep i ;; activateAll r
  end.

Definition setupStorySteps : B unit :=
  p <- getDoc ;;
  match steps p with
  | [] => retB tt
  | _ =>
      (fun s => (Ok tt, mkDashboard (controllers s) (doc s) true)) ;;
      activateAll (defaultSteps (steps p))
  end.

(** [Promise.all]: every value, or the rejection. *)
Definition settled (f : Fetched) :=
  match leagueTrends f, scoringMix f, teamScatter f, heatmapData f,
        teamMapData f, spiralData f, statesTopo f with
  | Some a, Some b, Some c, Some d, Some e, Some g, Some t =>
      Some (a, b, c, d, e, g, t)
  | _, _, _, _, _, _, _ => None
  end.

(** The body of the [try] block once the data has arrived. *)
Definition boot (a : list SeasonMetric) (b : list ScoringMixRecord)
           (c : list TeamSeasonStat) (d : list HeatmapCell)
           (e : list TeamGeoStat) (g : list MomentumPoint)
           (t : option StatesTopology) : B unit :=
  r0 <- call (updateHeroMetrics 0%nat) [a] ;;
  r1 <- call (League.renderLeagueTrends 0%nat) (snd r0) ;;
  setControllers (set_league (Some r1)) ;;
  r2 <- call (Scoring.renderScoringMix 0%nat) [b] ;;
  setControllers (set_scoring (Some r2)) ;;
  r3 <- call (Scatter.renderTeamScatter 0%nat) [c] ;;
  setControllers (set_scatter (Some r3)) ;;
  r4 <- call (Heatmap.renderHeatmap 0%nat) [d] ;;
  setControllers (set_heatmap (Some r4)) ;;
  r5 <- call (TeamMap.renderTeamMap 0%nat t) [e] ;;
  setControllers (set_map (Some r5)) ;;
  r6 <- call (Spiral.renderMomentumSpiral 0%nat) [g] ;;
  setControllers (set_spiral (Some r6)) ;;
  setupStorySteps.

Definition bootError : string := "Failed to boot dashboard".

(** [init]: nothing escapes the [try]; a failure is logged. *)
Definition init (f : Fetched) (s : Dashboard) : Dashboard :=
  match settled f with
  | None =>
      mkDashboard (controllers s) (log LogError bootError (doc s)) (storyReady s)
  | Some (a, b, c, d, e, g, t) =>
      match boot a b c d e g t s with
      | (Ok _, s') => s'
      | (Throw _, s') =>
          mkDashboard (controllers s') (log LogError bootError (doc s'))
                      (storyReady s')
      end
  end.
End Boot.

(* ===================================================================== *)
(** * Sample data                                                         *)
(* ===================================================================== *)

Module Sample.

(** Scales that pass values through, and a projection defined
    everywhere. *)
Definition d3 : D3 :=
  {| scaleLinear := fun _ _ v => v;
     invert := fun _ _ v => v;
     nice := fun d => d;
     scaleSqrt := fun _ _ v => v;
     geoAlbersUsa := fun _ _ p => Some p |}.

(** A document without any of the anchors. *)
Definition blank : Page := mkPage [] [] false "" [] [] None [].

(** A document with every anchor the code looks for. *)
Definition anchors : list (string * Q) :=
  map (fun sel => (sel, 960%Q))
    [ "#avgGrowth"; "#leagueTrendChart"; "#trendLegend"; "#scoringMixChart";
      "#teamScatter"; "#seasonSlider"; "#seasonLabel"; "#teamInsight";
      "#heatmapChart"; "#teamMap"; "#momentumSpiral" ].

Definition full : Page := mkPage anchors [] false "" [] [] None [].

(** The scatter container without the slider, the label and the insight. *)
Definition noSlider : Page :=
  mkPage [("#teamScatter", 960%Q)] [] false "" [] [] None [].

Definition trends : list SeasonMetric :=
  [ mkSeasonMetric 2020 (341 # 10) (1118 # 10) (360 # 1000);
    mkSeasonMetric 2015 (224 # 10) (1000 # 10) (300 # 1000) ].

Definition mix : list ScoringMixRecord :=
  [ mkScoringMix 2020 (50 # 100) (33 # 100) (17 # 100);
    mkScoringMix 2015 (58 # 100) (24 # 100) (18 # 100) ].

Definition waves : list MomentumPoint :=
  [ mkMomentum 2020 (30 # 100) (36 # 100) (36 # 100);
    mkMomentum 2015 (20 # 100) (30 # 100) (35 # 100) ].

Definition club (s id : Z) (name : string) (w : option Q) : TeamSeasonStat :=
  mkTeamSeasonStat s id name (Some "Club") "East" (30 # 1) (35 # 100) w.

Definition clubs : list TeamSeasonStat :=
  [ club 2019 1 "Boston" (Some (6 # 10)); club 2019 2 "Seattle" None;
    club 2020 2 "Seattle" (Some (4 # 10)); club 2020 1 "Boston" None;
    club 2020 3 "Denver" None ].

Definition grid : list HeatmapCell :=
  [ mkHeatmapCell 2020 "BOS" "Boston" "Celtics" (30 # 100) (35 # 100);
    mkHeatmapCell 2019 "SEA" "Seattle" "Sonics" (90 # 100) (35 # 100);
    mkHeatmapCell 2020 "LAL" "Los Angeles" "Lakers" (30 # 100) (35 # 100);
    mkHeatmapCell 2020 "GSW" "Golden State" "Warriors" (50 # 100) (38 # 100);
    mkHeatmapCell 2019 "GSW" "Golden State" "Warriors" (10 # 100) (38 # 100) ].

Definition places : list TeamGeoStat :=
  [ mkTeamGeoStat "Celtics" "Boston" "East" (42 # 1) (-71 # 1) (115 # 1)
      (40 # 100) (37 # 100) ].

Definition fetched : Fetched :=
  mkFetched (Some trends) (Some mix) (Some clubs) (Some grid) (Some places)
            (Some waves) (Some (Some UsStates)).

(** The same requests when the scoring-mix file fails to load. *)
Definition fetchedButMix : Fetched :=
  mkFetched (Some trends) None (Some clubs) (Some grid) (Some places)
            (Some waves) (Some (Some UsStates)).

Definition fresh : Dashboard := mkDashboard noControllers full false.

(** The league chart over [trends], as rendered, and its arrays. *)
Definition trendHeap : Heap SeasonMetric :=
  [trends; sort (bySeason season) trends].

Definition trendChart : League.Chart :=
  League.mkChart 1%nat (Some (2015, 2020)%Q) None 860%Q None None [] [] [].

(** The scatter chart over [clubs] before any season is drawn, and its
    arrays. *)
Definition clubHeap : Heap TeamSeasonStat := [clubs; clubs].

Definition clubChart : Scatter.Chart :=
  Scatter.mkChart 1%nat (D3lib.group teamSeason Z.eqb clubs)
    (Some (30, 30)%Q) (Some (33, 37)%Q) 870%Q [] 0%nat.

End Sample.

(** Further sample data: story steps in two groups, and a dashboard
    whose scatter control is the empty object. *)
Module Story.

Definition steps3 : list Step :=
  [ mkStep 0 (Some "league") None (Some "avgPoints") None None true;
    mkStep 0 (Some "league") None None None None false;
    mkStep 1 (Some "scatter") (Some 2020) None None None false ].

Definition page : Page := mkPage Sample.anchors [] false "" [] [] None steps3.

Definition board : Dashboard :=
  mkDashboard
    (mkControllers (Some (League.set_active (Some "avgPoints") Sample.trendChart,
                          Sample.trendHeap))
       None (Some (Scatter.Empty, [Sample.clubs; Sample.clubs])) None None None)
    page true.

End Story.

(* ===================================================================== *)
(** * Notions used in the statements                                      *)
(* ===================================================================== *)

Unset Implicit Arguments.

(** ** Orders *)

(** The order a comparator induces: [a] may come before [b]. *)
Definition cmp_le (A : Type) (cmp : A -> A -> Z) (a b : A) : Prop := cmp a b <= 0.

(** An array sorted by a numeric accessor, smallest first. *)
Definition ascending (A : Type) (f : A -> Q) (a : list A) : Prop :=
  StronglySorted (fun u v => f u <= f v)%Q a.

(** [s] occurs in [l], in this order, possibly with other elements between. *)
Inductive subseq {A : Type} : list A -> list A -> Prop :=
| subseq_nil (l : list A) : subseq [] l
| subseq_take (x : A) (s l : list A) : subseq s l -> subseq (x :: s) (x :: l)
| subseq_skip (x : A) (s l : list A) : subseq s l -> subseq s (x :: l).

(** ** Outcomes of a call *)

(** What exists before a call is still there after it, element for element:
    the call only adds arrays. *)
Definition only_allocates {A X : Type} (m : M A X) : Prop :=
  forall (h : Heap A) (p : Page),
  exists extra : Heap A, heap (snd (m (mkState h p))) = h ++ extra.

(** The call throws, and nothing is written to the console. *)
Definition throws_silently {A X : Type} (m : M A X) (s : State A) : Prop :=
  fst (m s) = Throw TypeError /\ console (page (snd (m s))) = console (page s).

(** The renderer returns and a warning is in the console afterwards. *)
Definition warns_and_returns {A X : Type} (m : M A X) (s : State A) : Prop :=
  exists (x : X) (s' : State A) (msg : string),
    m s = (Ok x, s') /\ In (LogWarn, msg) (console (page s')).

(** The warning of the team scatter. *)
Definition scatterWarning : string :=
  "Missing slider elements for the team scatter chart.".

(** [set_text] on an element that exists. *)
Definition put (sel s : string) (p : Page) : Page :=
  mkPage (elements p) (console p) (tooltipShow p) (tooltipHtml p)
         ((sel, s) :: List.filter (fun e => negb (String.eqb (fst e) sel)) (texts p))
         (drawn p) (sliderValue p) (steps p).

(** ** League trends *)

(** The entry of [metricConfig] for the points per game. *)
Definition pointsMetric : League.Metric :=
  League.mkMetric "avgPoints" "Points per team game" "#60d2ff" avgPoints numberFmt " pts".

(** The season of a record, as the number the bisector compares. *)
Definition seasonQ (r : SeasonMetric) : Q := inject_Z (season r).

(** ** Heatmap *)

(** The latest season of a heatmap dataset. *)
Definition latestSeasonOf (d : list HeatmapCell) : option Z :=
  math_max (sort (fun a b => a - b) (distinct Z.eqb (map cellSeason d))).

(** The comparator [teamOrder] sorts with, and the order in which the team
    codes first appear in the data. *)
Definition rowComparator (d : list HeatmapCell) (a b : string) : Z :=
  D3lib.descending (Heatmap.latestRate d a) (Heatmap.latestRate d b).

Definition firstSeen (d : list HeatmapCell) : list string :=
  distinct String.eqb (map abbr d).

(** ** The layer of the team scatter *)

Abbreviation nodes := (map Scatter.node).

(** A chart state as the code builds it: identities are distinct and below
    the next fresh one. *)
Definition wf (c : Scatter.Chart) : Prop :=
  NoDup (map Scatter.node (Scatter.layer c))
  /\ forall k, In k (Scatter.layer c) -> (Scatter.node k < Scatter.nextNode c)%nat.

(** The records of a season, as [updateSeason] looks them up. *)
Definition seasonDataOf (c : Scatter.Chart) (z : Z) : list TeamSeasonStat :=
  match D3lib.get Z.eqb (Scatter.seasonGroups c) z with
  | Some g => g
  | None => []
  end.

(** The invariant of the scatter layer: distinct identities below the next
    fresh one, and distinct keys. *)
Definition inv (c : Scatter.Chart) : Prop :=
  wf c /\ NoDup (map Scatter.keyOf (Scatter.layer c)).

Section ScatterNotions.
Context {d3 : D3}.

(** The circles created for the entering data, and the merged selection. *)
Fixpoint news (c : Scatter.Chart) (ds : list TeamSeasonStat)
         (sl : list (option Scatter.Circle)) (fresh : nat) : list Scatter.Circle :=
  match ds, sl with
  | d :: ds', Some _ :: sl' => news c ds' sl' fresh
  | d :: ds', None :: sl' => Scatter.entered c fresh d :: news c ds' sl' (S fresh)
  | _, _ => []
  end.

Fixpoint merged (ds : list TeamSeasonStat) (sl : list (option Scatter.Circle))
         (fresh : nat) : list nat :=
  match ds, sl with
  | d :: ds', Some k :: sl' => Scatter.node k :: merged ds' sl' fresh
  | d :: ds', None :: sl' => fresh :: merged ds' sl' (S fresh)
  | _, _ => []
  end.

(** Node [n] of the layer is bound to the record [d], stays, and heads for
    the position and the radius of [d]. *)
Definition bound_to (c : Scatter.Chart) (L : list Scatter.Circle)
           (d : TeamSeasonStat) (n : nat) : Prop :=
  exists k, In k L /\ Scatter.node k = n /\ Scatter.datum k = d
            /\ Scatter.leaving k = false /\ Scatter.goal k = Scatter.target c d.

(** The layer as a join leaves it, for the data [ds] and the selection
    [ids]. *)
Record joined (c : Scatter.Chart) (ds : list TeamSeasonStat) (ids : list nat)
       (L : list Scatter.Circle) : Prop := mkJoined {
  joined_nodes : NoDup (nodes L);
  joined_keys : NoDup (map Scatter.keyOf L);
  joined_bound : Forall2 (bound_to c L) ds ids;
  joined_leaving :
    forall k, In k L -> Scatter.leaving k = true ->
      Scatter.goal k = (Scatter.cx k, Scatter.cy k, 0%Q)
      /\ ~ In (Scatter.keyOf k) (map teamId ds);
  joined_staying :
    forall k, In k L -> Scatter.leaving k = false ->
      Scatter.goal k = Scatter.target c (Scatter.datum k) /\ In (Scatter.datum k) ds;
  joined_order : subseq ids (nodes L)
}.
End ScatterNotions.

(** The records the scatter keeps: those whose attempts and accuracy are
    not zero. *)
Definition keptRecords (l : list TeamSeasonStat) : list TeamSeasonStat :=
  List.filter (fun d => truthy (teamThreeAttempts d) && truthy (threePct d)) l.

(** No record of the chart has zero attempts or zero accuracy: neither in
    the groups by season nor bound to a circle. *)
Definition clean (c : Scatter.Chart) : Prop :=
  (forall z g d, In (z, g) (Scatter.seasonGroups c) -> In d g ->
                 truthy (teamThreeAttempts d) && truthy (threePct d) = true)
  /\ forall k, In k (Scatter.layer c) ->
               truthy (teamThreeAttempts (Scatter.datum k))
               && truthy (threePct (Scatter.datum k)) = true.

(** Code that leaves the story steps of the page alone. *)
Definition quietM {A X : Type} (m : M A X) : Prop :=
  forall s, steps (page (snd (m s))) = steps (page s).

(** The same for the code of the dashboard. *)
Definition quietB {X : Type} (m : B X) : Prop :=
  forall s, steps (doc (snd (m s))) = steps (doc s).

(** The six chart containers and the slider, the label and the insight of
    the team scatter: the elements the renderers look for. *)
Definition chartAnchors : list string :=
  [ "#leagueTrendChart"; "#scoringMixChart"; "#teamScatter"; "#seasonSlider";
    "#seasonLabel"; "#teamInsight"; "#heatmapChart"; "#teamMap"; "#momentumSpiral" ].

(** The page [p'] has the elements, the console and the story steps of [p],
    and every drawing that [p] has. *)
Definition calm (p p' : Page) : Prop :=
  elements p' = elements p /\ console p' = console p /\ steps p' = steps p
  /\ forall x, In x (drawn p) -> In x (drawn p').


(** The step [st] with its [active] class set to [b]. *)
Definition withActive (st : Step) (b : bool) : Step :=
  mkStep (group st) (story st) (stepSeason st) (stepMetric st) (stepTeam st)
    (stepConference st) b.

(** Step [i] of [ss] has the parent of [st]. *)
Definition sameGroup (ss : list Step) (st : Step) (i : nat) : bool :=
  match nth_error ss i with
  | Some d => (group d =? group st)%nat
  | None => false
  end.

(** Step [j] of [ss], which was [st], once the steps [done] have been
    activated. *)
Definition marked (ss : list Step) (done : list nat) (j : nat) (st : Step) : Step :=
  if existsb (sameGroup ss st) done
  then withActive st (existsb (Nat.eqb j) done)
  else st.


(* ===================================================================== *)
(** * Properties                                                          *)
(* ===================================================================== *)

(** ** The stable sort *)

Section SortFacts.
Variable A : Type.
Variable cmp : A -> A -> Z.

Lemma insert_perm (x : A) (l : list A) : Permutation (insert cmp x l) (x :: l).
Proof.
  induction l as [|y r IH]; simpl.
  - apply Permutation_refl.
  - destruct (cmp x y <=? 0).
    + apply Permutation_refl.
    + eapply perm_trans; [apply perm_skip, IH | apply perm_swap].
Qed.

Lemma sort_perm (l : list A) : Permutation (sort cmp l) l.
Proof.
  induction l as [|x r IH]; simpl.
  - constructor.
  - eapply perm_trans; [apply insert_perm | apply perm_skip, IH].
Qed.

Lemma sort_length (l : list A) : List.length (sort cmp l) = List.length l.
Proof. apply Permutation_length, sort_perm. Qed.

Lemma sort_in (l : list A) (x : A) : In x (sort cmp l) <-> In x l.
Proof.
  split; apply Permutation_in; [apply sort_perm | apply Permutation_sym, sort_perm].
Qed.

(** A comparator is consistent when the order it induces is total and
    transitive. *)
Hypothesis cmp_total : forall a b, 0 < cmp a b -> cmp b a <= 0.
Hypothesis cmp_trans : forall a b c, cmp a b <= 0 -> cmp b c <= 0 -> cmp a c <= 0.

Lemma insert_sorted (x : A) (l : list A) :
  Sorted (cmp_le A cmp) l -> Sorted (cmp_le A cmp) (insert cmp x l).
Proof.
  induction 1 as [|y r Hs IH Hd]; simpl.
  - repeat constructor.
  - destruct (Z.leb_spec (cmp x y) 0) as [Hle|Hgt].
    + constructor; [constructor; assumption | constructor; exact Hle].
    + constructor; [exact IH|].
      destruct r as [|z r']; simpl.
      * constructor. apply cmp_total, Hgt.
      * destruct (Z.leb_spec (cmp x z) 0).
        -- constructor. apply cmp_total, Hgt.
        -- inversion Hd; subst. constructor; assumption.
Qed.

Lemma sort_sorted (l : list A) : Sorted (cmp_le A cmp) (sort cmp l).
Proof.
  induction l; simpl; [constructor | apply insert_sorted; assumption].
Qed.

Lemma sort_strongly_sorted (l : list A) :
  StronglySorted (cmp_le A cmp) (sort cmp l).
Proof.
  apply Sorted_StronglySorted; [|apply sort_sorted].
  intros a b c; apply cmp_trans.
Qed.
End SortFacts.

(** Stability: the elements of a class that the comparator does not
    separate keep their order. *)
Lemma filter_insert (A : Type) (cmp : A -> A -> Z) (p : A -> bool) (x : A) (l : list A) :
  (forall y, p x = true -> p y = true -> cmp x y <= 0) ->
  List.filter p (insert cmp x l) = if p x then x :: List.filter p l else List.filter p l.
Proof.
  intros H. induction l as [|y r IH]; simpl.
  - reflexivity.
  - destruct (Z.leb_spec (cmp x y) 0) as [Hle|Hgt]; simpl.
    + reflexivity.
    + rewrite IH. destruct (p x) eqn:Px, (p y) eqn:Py; try reflexivity.
      specialize (H y eq_refl Py). lia.
Qed.

Lemma sort_stable (A : Type) (cmp : A -> A -> Z) (p : A -> bool) (l : list A) :
  (forall x y, p x = true -> p y = true -> cmp x y <= 0) ->
  List.filter p (sort cmp l) = List.filter p l.
Proof.
  intros H. induction l as [|x r IH]; simpl.
  - reflexivity.
  - rewrite filter_insert by (intros; apply H; assumption).
    rewrite IH. reflexivity.
Qed.

(** With distinct keys the sorted arrangement does not depend on the order of
    the input. *)
Section SortByKey.
Variable A : Type.
Variable key : A -> Z.

Lemma bySeason_total (a b : A) : 0 < bySeason key a b -> bySeason key b a <= 0.
Proof. unfold bySeason. lia. Qed.

Lemma bySeason_trans (a b c : A) :
  bySeason key a b <= 0 -> bySeason key b c <= 0 -> bySeason key a c <= 0.
Proof. unfold bySeason. lia. Qed.

Lemma sort_bySeason_sorted (l : list A) :
  StronglySorted (fun a b => key a <= key b) (sort (bySeason key) l).
Proof.
  pose proof (sort_strongly_sorted A (bySeason key) bySeason_total bySeason_trans l) as H.
  induction H; constructor; auto.
  eapply Forall_impl; [|eassumption].
  unfold cmp_le, bySeason. intros; lia.
Qed.

Lemma strict_sorted_unique (l1 l2 : list A) :
  StronglySorted (fun a b => key a <= key b) l1 ->
  StronglySorted (fun a b => key a <= key b) l2 ->
  NoDup (map key l1) ->
  Permutation l1 l2 ->
  l1 = l2.
Proof.
  intros H1; revert l2.
  induction H1 as [|a r1 Hs1 IH Ha]; intros l2 H2 Hnd Hp.
  - apply Permutation_nil in Hp. now subst.
  - destruct l2 as [|b r2].
    + apply Permutation_sym, Permutation_nil in Hp. discriminate.
    + inversion H2 as [|? ? Hs2 Hb]; subst.
      inversion Hnd as [|? ? Hnotin Hnd']; subst.
      assert (Hkey : key a = key b).
      { assert (Ia : In a (b :: r2)) by (eapply Permutation_in; [exact Hp | left; reflexivity]).
        assert (Ib : In b (a :: r1))
          by (eapply Permutation_in; [apply Permutation_sym, Hp | left; reflexivity]).
        destruct Ia as [->|Ia]; [reflexivity|].
        destruct Ib as [->|Ib]; [reflexivity|].
        rewrite Forall_forall in Ha, Hb.
        specialize (Ha _ Ib). specialize (Hb _ Ia). lia. }
      assert (Hab : a = b).
      { assert (Ib : In b (a :: r1))
          by (eapply Permutation_in; [apply Permutation_sym, Hp | left; reflexivity]).
        destruct Ib as [->|Ib]; [reflexivity|].
        exfalso. apply Hnotin. rewrite Hkey. apply in_map, Ib. }
      subst b. f_equal.
      apply IH; [assumption | assumption |].
      eapply Permutation_cons_inv; exact Hp.
Qed.

Lemma sort_permutation_invariant (l l' : list A) :
  NoDup (map key l) -> Permutation l l' ->
  sort (bySeason key) l' = sort (bySeason key) l.
Proof.
  intros Hnd Hp.
  apply strict_sorted_unique.
  - apply sort_bySeason_sorted.
  - apply sort_bySeason_sorted.
  - eapply Permutation_NoDup; [|exact Hnd].
    apply Permutation_map.
    eapply perm_trans; [exact Hp | apply Permutation_sym, sort_perm].
  - eapply perm_trans; [apply sort_perm|].
    eapply perm_trans; [apply Permutation_sym, Hp | apply Permutation_sym, sort_perm].
Qed.
End SortByKey.

(** ** Running array operations *)

Section RunFacts.
Variable A : Type.
Implicit Types (h : Heap A) (l : list A) (p : Page) (r : ref).

Lemma nth_error_snoc h l : nth_error (h ++ [l]) (List.length h) = Some l.
Proof. rewrite nth_error_app2, Nat.sub_diag by lia. reflexivity. Qed.

Lemma nth_error_keep h l r x : nth_error h r = Some x -> nth_error (h ++ [l]) r = Some x.
Proof.
  intros H. rewrite nth_error_app1; [exact H|].
  apply nth_error_Some. congruence.
Qed.

Lemma replace_snoc h l l' : replace (h ++ [l]) (List.length h) l' = h ++ [l'].
Proof. induction h as [|x t IH]; simpl; [reflexivity | now rewrite IH]. Qed.

Lemma run_read h p r l :
  nth_error h r = Some l -> read r (mkState h p) = (Ok l, mkState h p).
Proof. intros H. unfold read. simpl. now rewrite H. Qed.

Lemma run_slice h p r l :
  nth_error h r = Some l ->
  slice r (mkState h p) = (Ok (List.length h), mkState (h ++ [l]) p).
Proof. intros H. unfold slice, bind. now rewrite (run_read _ p _ _ H). Qed.

Lemma run_filter h p r l f :
  nth_error h r = Some l ->
  filter f r (mkState h p) = (Ok (List.length h), mkState (h ++ [List.filter f l]) p).
Proof. intros H. unfold filter, bind. now rewrite (run_read _ p _ _ H). Qed.

Lemma run_sort_copy h p l cmp :
  sort_in_place cmp (List.length h) (mkState (h ++ [l]) p)
  = (Ok (List.length h), mkState (h ++ [sort cmp l]) p).
Proof.
  unfold sort_in_place, bind.
  rewrite (run_read _ p _ _ (nth_error_snoc h l)). simpl.
  now rewrite replace_snoc.
Qed.

(** [rawData.slice().sort(cmp)] leaves [rawData] alone and yields a new
    sorted array. *)
Lemma run_sorted_copy h p r l cmp :
  nth_error h r = Some l ->
  bind (slice r) (fun copy => sort_in_place cmp copy) (mkState h p)
  = (Ok (List.length h), mkState (h ++ [sort cmp l]) p).
Proof.
  intros H. unfold bind at 1. rewrite (run_slice _ p _ _ H). apply run_sort_copy.
Qed.
End RunFacts.

Lemma text_of_set_text (p : Page) (sel s : string) :
  exists_el p sel = true -> text_of (set_text sel s p) sel = Some s.
Proof.
  intros H. unfold set_text, text_of. rewrite H. simpl.
  now rewrite String.eqb_refl.
Qed.

(** ** The ends of an array sorted by season *)

Lemma sorted_first_least (A : Type) (key : A -> Z) (l : list A) (a : A) :
  StronglySorted (fun x y => key x <= key y) l ->
  nth_error l 0 = Some a ->
  forall d, In d l -> key a <= key d.
Proof.
  intros Hs H0 d Hd. destruct l as [|x r]; [discriminate|].
  simpl in H0. injection H0 as ->.
  inversion Hs as [|? ? _ Hall]; subst.
  destruct Hd as [->|Hd]; [lia|].
  rewrite Forall_forall in Hall. now apply Hall.
Qed.

Lemma last_cons_default (A : Type) (r : list A) (x d : A) :
  last (x :: r) d = last r x.
Proof.
  revert x d. induction r as [|y r IH]; intros x d; [reflexivity|].
  change (last (x :: y :: r) d) with (last (y :: r) d).
  now rewrite !IH.
Qed.

Lemma last_elem_snoc (A : Type) (l : list A) (a : A) :
  last_elem (l ++ [a]) = Some (List.length l, a).
Proof.
  destruct l as [|x r]; [reflexivity|].
  simpl. rewrite <- (last_cons_default A (r ++ [a]) x a).
  change (x :: r ++ [a]) with ((x :: r) ++ [a]).
  rewrite last_last, length_app. simpl. do 2 f_equal. lia.
Qed.

Lemma last_elem_in (A : Type) (l : list A) (i : nat) (a : A) :
  last_elem l = Some (i, a) -> In a l /\ nth_error l i = Some a /\ S i = List.length l.
Proof.
  intros H. destruct (exists_last (l := l)) as (l' & b & ->).
  { intros ->. discriminate. }
  rewrite last_elem_snoc in H. injection H as <- <-.
  repeat split.
  - apply in_or_app. right. now left.
  - rewrite nth_error_app2, Nat.sub_diag by lia. reflexivity.
  - rewrite length_app. simpl. lia.
Qed.

Lemma sorted_last_greatest (A : Type) (key : A -> Z) (l : list A) (i : nat) (a : A) :
  StronglySorted (fun x y => key x <= key y) l ->
  last_elem l = Some (i, a) ->
  forall d, In d l -> key d <= key a.
Proof.
  intros Hs Hl. destruct (exists_last (l := l)) as (l' & b & ->).
  { intros ->. discriminate. }
  rewrite last_elem_snoc in Hl. injection Hl as _ <-.
  induction l' as [|x r IH]; intros d Hd.
  - destruct Hd as [->|[]]. lia.
  - inversion Hs as [|? ? Hs' Hall]; subst.
    destruct Hd as [->|Hd].
    + rewrite Forall_forall in Hall. apply Hall.
      apply in_or_app. right. now left.
    + now apply IH.
Qed.

Lemma last_elem_nonempty (A : Type) (l : list A) :
  l <> [] -> exists i a, last_elem l = Some (i, a).
Proof. destruct l; [congruence|]. intros _. simpl. eauto. Qed.

(** ** updateHeroMetrics *)

Lemma sort_nonempty (A : Type) (cmp : A -> A -> Z) (l : list A) :
  l <> [] -> sort cmp l <> [].
Proof.
  intros H E. apply H. apply length_zero_iff_nil.
  rewrite <- (sort_length A cmp l), E. reflexivity.
Qed.

(** ** Doubles *)

Lemma shr_1_nonneg (mrs : shr_record) : 0 <= shr_m mrs -> 0 <= shr_m (shr_1 mrs).
Proof.
  destruct mrs as [m r s]. cbn [shr_m]. intros H.
  destruct m as [|[p|p|]|p]; cbn; lia.
Qed.

Lemma iter_shr_1_nonneg (p : positive) (mrs : shr_record) :
  0 <= shr_m mrs -> 0 <= shr_m (iter_pos shr_1 p mrs).
Proof.
  revert mrs. induction p as [p IH|p IH|]; intros mrs H; cbn [iter_pos].
  - apply IH, IH, shr_1_nonneg, H.
  - apply IH, IH, H.
  - apply shr_1_nonneg, H.
Qed.

Lemma shr_fexp_nonneg (m e : Z) (l : location) :
  0 <= m -> 0 <= shr_m (fst (shr_fexp 53 1024 m e l)).
Proof.
  intros H. unfold shr_fexp, shr.
  assert (H0 : 0 <= shr_m (shr_record_of_loc m l)).
  { destruct l as [|[]]; exact H. }
  destruct (fexp 53 1024 (Zdigits2 m + e) - e) as [|p|p]; cbn [fst]; try exact H0.
  now apply iter_shr_1_nonneg.
Qed.

Lemma round_nearest_even_nonneg (m : Z) (l : location) :
  0 <= m -> 0 <= round_nearest_even m l.
Proof.
  intros H. destruct l as [|[]]; cbn [round_nearest_even]; try lia.
  destruct (Z.even m); lia.
Qed.

(** Rounding keeps the sign and gives a number. *)
Lemma binary_round_aux_sign (s : bool) (m e : Z) (l : location) :
  0 <= m ->
  match binary_round_aux 53 1024 s m e l with
  | S754_zero s' | S754_infinity s' | S754_finite s' _ _ => s' = s
  | S754_nan => False
  end.
Proof.
  intros H. unfold binary_round_aux.
  pose proof (shr_fexp_nonneg m e l H) as H1.
  destruct (shr_fexp 53 1024 m e l) as [mrs' e']. cbn [fst] in H1.
  pose proof (shr_fexp_nonneg _ e' loc_Exact
                (round_nearest_even_nonneg _ (loc_of_shr_record mrs') H1)) as H2.
  destruct (shr_fexp 53 1024 _ e' loc_Exact) as [mrs'' e'']. cbn [fst] in H2.
  destruct (shr_m mrs'') as [|p|p]; [reflexivity| |lia].
  destruct (e'' <=? 1024 - 53); reflexivity.
Qed.

(** A literal reads as a number of its sign, as zero, or as an infinity. *)
Lemma toDouble_sign (q : Q) :
  match toDouble q with
  | S754_zero s | S754_infinity s | S754_finite s _ _ => s = (Qnum q <? 0)
  | S754_nan => False
  end.
Proof.
  unfold toDouble. destruct (Qnum q) as [|n|n]; [reflexivity| |].
  all: unfold SFdiv.
  all: match goal with
       | |- context [SFdiv_core_binary 53 1024 ?a ?b ?c ?d] =>
           assert (H : 0 <= fst (fst (SFdiv_core_binary 53 1024 a b c d)));
           [|destruct (SFdiv_core_binary 53 1024 a b c d) as [[mz ez] lz]]
       end.
  all: try (cbn [fst] in H; apply (binary_round_aux_sign _ mz ez lz H)).
  all: unfold SFdiv_core_binary.
  all: match goal with
       | |- context [Z.div_eucl ?a ?b] =>
           assert (Ha : 0 <= a); [|pose proof (Z.div_pos a b Ha ltac:(lia)) as Hd;
                                   unfold Z.div in Hd;
                                   destruct (Z.div_eucl a b) as [qq rr]; exact Hd]
       end.
  all: match goal with
       | |- 0 <= match ?s with _ => _ end => destruct s; try lia
       end.
  all: apply Z.shiftl_nonneg; lia.
Qed.

Lemma toDouble_zero (q : Q) : (q == 0)%Q -> toDouble q = S754_zero false.
Proof.
  intros H. unfold Qeq in H. cbn in H. rewrite Z.mul_1_r in H.
  unfold toDouble. now rewrite H.
Qed.

Lemma magnitude_pos (m : positive) (e : Z) : (0 < magnitude m e)%Q.
Proof.
  unfold magnitude. destruct e as [|k|k].
  - unfold Qlt. cbn. lia.
  - unfold Qlt. cbn [Qnum Qden inject_Z]. pose proof (Z.pow_pos_nonneg 2 (Zpos k)). lia.
  - unfold Qlt. cbn. lia.
Qed.

(** What a division by zero prints. *)
Lemma growthText_zero_base (b : spec_float) :
  growthText
    (SFmul 53 1024
       (SFdiv 53 1024 (SFsub 53 1024 b (S754_zero false)) (S754_zero false))
       (toDouble 100))
  = match b with
    | S754_zero _ | S754_nan => "NaN"
    | S754_infinity s | S754_finite s _ _ => if s then "−Infinity" else "+Infinity"
    end.
Proof. destruct b as [[]|[]| |[] m e]; reflexivity. Qed.

Lemma updateHeroMetrics_run (h : Heap SeasonMetric) (r : ref)
      (l : list SeasonMetric) (p : Page) :
  nth_error h r = Some l -> l <> [] ->
  exists first i last,
    nth_error (sort (bySeason season) l) 0 = Some first /\
    last_elem (sort (bySeason season) l) = Some (i, last) /\
    updateHeroMetrics r (mkState h p)
    = (Ok tt, mkState (h ++ [sort (bySeason season) l])
                      (set_text "#avgGrowth" (growthText (growth first last)) p)).
Proof.
  intros Hr Hne.
  pose proof (sort_nonempty _ (bySeason season) l Hne) as Hs.
  destruct (last_elem_nonempty _ _ Hs) as (i & last & Hlast).
  destruct (sort (bySeason season) l) as [|first rest] eqn:E; [congruence|].
  exists first, i, last. split; [reflexivity|]. split; [exact Hlast|].
  unfold updateHeroMetrics.
  unfold bind at 1. rewrite (run_read _ h p r l Hr).
  destruct l as [|x l0]; [congruence|].
  cbn [List.length Nat.eqb].
  unfold bind at 1. rewrite (run_slice _ h p r _ Hr).
  unfold bind at 1. rewrite run_sort_copy.
  unfold bind at 1. rewrite (run_read _ _ p _ _ (nth_error_snoc _ h _)).
  rewrite E. cbn [nth_error]. rewrite Hlast. reflexivity.
Qed.

(** C1.  On a non-empty array whose seasons are distinct (a SeasonMetric is
    unique per season), [updateHeroMetrics] writes to [#avgGrowth] the growth
    [(last.avgThreeRate - first.avgThreeRate) / first.avgThreeRate * 100],
    where [first] and [last] are the records of the smallest and of the
    largest season: the difference, the quotient and the product are those
    of doubles, on the two rates as JavaScript reads them, and the text is
    the result with one decimal, after a plus sign when it is not negative.
    Every permutation of the array gives the same text, and the array passed
    in is left as it was.  Seasons 2015 at rate 0.300 and 2020 at rate
    0.360, in either order, give the text +20.0; rates 0.240 and 0.285 give
    +18.7, since the doubles give a little less than 18.75.  The decimal of
    a result below 10^21 is the tenth nearest to its exact value, the larger
    one on a tie. *)
Theorem hero_growth_first_last :
  (forall (h : Heap SeasonMetric) (r : ref) (l : list SeasonMetric) (p : Page),
      nth_error h r = Some l -> l <> [] -> NoDup (map season l) ->
      exists first last,
        In first l /\ In last l /\
        (forall d, In d l -> season first <= season d <= season last) /\
        forall (l' : list SeasonMetric) (h' : Heap SeasonMetric),
          Permutation l l' -> nth_error h' r = Some l' ->
          exists copy,
            let a := toDouble (avgThreeRate first) in
            let b := toDouble (avgThreeRate last) in
            let g := SFmul 53 1024 (SFdiv 53 1024 (SFsub 53 1024 b a) a) (toDouble 100) in
            updateHeroMetrics r (mkState h' p)
            = (Ok tt,
               mkState (h' ++ [copy])
                 (set_text "#avgGrowth"
                    (String.append (if SFleb (S754_zero false) g then "+" else "")
                                   (doubleFmt g))
                    p)))
  /\ (forall (a1 p1 a2 p2 : Q) (pg : Page) (l : list SeasonMetric),
         exists_el pg "#avgGrowth" = true ->
         l = [mkSeasonMetric 2015 a1 p1 (300 # 1000); mkSeasonMetric 2020 a2 p2 (360 # 1000)]
         \/ l = [mkSeasonMetric 2020 a2 p2 (360 # 1000); mkSeasonMetric 2015 a1 p1 (300 # 1000)] ->
         text_of (page (snd (updateHeroMetrics 0%nat (mkState [l] pg)))) "#avgGrowth"
         = Some "+20.0")
  /\ (forall (a1 p1 a2 p2 : Q) (pg : Page) (l : list SeasonMetric),
         exists_el pg "#avgGrowth" = true ->
         l = [mkSeasonMetric 2015 a1 p1 (240 # 1000); mkSeasonMetric 2020 a2 p2 (285 # 1000)]
         \/ l = [mkSeasonMetric 2020 a2 p2 (285 # 1000); mkSeasonMetric 2015 a1 p1 (240 # 1000)] ->
         text_of (page (snd (updateHeroMetrics 0%nat (mkState [l] pg)))) "#avgGrowth"
         = Some "+18.7")
  /\ (forall (s : bool) (m : positive) (e : Z),
         (magnitude m e < inject_Z (10 ^ 21))%Q ->
         exists n : Z,
           (inject_Z n - (1 # 2) <= magnitude m e * 10 < inject_Z n + (1 # 2))%Q
           /\ doubleFmt (S754_finite s m e)
              = String.append (if s && negb (n =? 0) then "−" else "")
                  (string_of_Z (n / 10) ++ "." ++ string_of_Z (n mod 10))).
Proof.
  split; [|split; [|split]].
  - intros h r l p Hr Hne Hnd.
    destruct (updateHeroMetrics_run h r l p Hr Hne) as (first & i & last & H0 & Hl & _).
    pose proof (sort_bySeason_sorted _ season l) as Hs.
    exists first, last.
    assert (If : In first l).
    { apply (sort_in _ (bySeason season)). eapply nth_error_In; exact H0. }
    assert (Il : In last l).
    { apply (sort_in _ (bySeason season)). eapply last_elem_in; exact Hl. }
    repeat split; try assumption.
    + apply (sorted_first_least _ season _ _ Hs H0).
      now apply (sort_in _ (bySeason season)).
    + apply (sorted_last_greatest _ season _ _ _ Hs Hl).
      now apply (sort_in _ (bySeason season)).
    + intros l' h' Hp Hr'.
      assert (Hne' : l' <> []).
      { intros ->. apply Permutation_sym, Permutation_nil in Hp. congruence. }
      destruct (updateHeroMetrics_run h' r l' p Hr' Hne')
        as (first' & i' & last' & H0' & Hl' & Hrun).
      rewrite (sort_permutation_invariant _ season l l' Hnd Hp) in H0', Hl', Hrun.
      rewrite H0 in H0'. rewrite Hl in Hl'.
      injection H0' as <-. injection Hl' as _ <-.
      eexists. exact Hrun.
  - intros a1 p1 a2 p2 pg l Hel [-> | ->].
    all: cbn [updateHeroMetrics].
    all: match goal with
         | |- text_of (page (snd ?run)) _ = _ =>
             let v := eval cbv -[set_text growthText growth] in run in
             change run with v
         end.
    all: cbn [snd page].
    all: rewrite text_of_set_text by exact Hel.
    all: vm_compute; reflexivity.
  - intros a1 p1 a2 p2 pg l Hel [-> | ->].
    all: cbn [updateHeroMetrics].
    all: match goal with
         | |- text_of (page (snd ?run)) _ = _ =>
             let v := eval cbv -[set_text growthText growth] in run in
             change run with v
         end.
    all: cbn [snd page].
    all: rewrite text_of_set_text by exact Hel.
    all: vm_compute; reflexivity.
  - intros s m e Hlt.
    exists (tenths (magnitude m e)). split.
    + unfold tenths.
      assert (Ea : (Qabs (magnitude m e) == magnitude m e)%Q).
      { apply Qabs_pos. apply Qlt_le_weak, magnitude_pos. }
      rewrite Ea.
      pose proof (Qfloor_le (magnitude m e * 10 + (1 # 2))) as F1.
      pose proof (Qlt_floor (magnitude m e * 10 + (1 # 2))) as F2.
      rewrite inject_Z_plus in F2. change (inject_Z 1) with 1%Q in F2.
      split; lra.
    + cbn [doubleFmt]. cbv zeta.
      assert (Eb : Qle_bool (inject_Z (10 ^ 21)) (magnitude m e) = false).
      { apply not_true_is_false. intros Hq. apply Qle_bool_iff in Hq. lra. }
      rewrite Eb. unfold signed1.
      destruct (s && negb (tenths (magnitude m e) =? 0)); reflexivity.
Qed.

(** ** Stepping through a call *)

Section Steps.
Variables A X : Type.
Implicit Types (h : Heap A) (l : list A) (p : Page) (r : ref) (k : X -> M A X).

Lemma step_ret (Y : Type) (x : Y) (k : Y -> M A X) (s : State A) :
  bind (ret x) k s = k x s.
Proof. reflexivity. Qed.

Lemma step_throw (Y : Type) (e : string) (k : Y -> M A X) (s : State A) :
  bind (throw e) k s = (Throw e, s).
Proof. reflexivity. Qed.

Lemma step_assoc (Y Z : Type) (m : M A Y) (f : Y -> M A Z) (k : Z -> M A X)
      (s : State A) :
  bind (bind m f) k s = bind m (fun y => bind (f y) k) s.
Proof. unfold bind. destruct (m s) as [[y|e] s']; reflexivity. Qed.

Lemma step_read (k : list A -> M A X) h p r l :
  nth_error h r = Some l ->
  bind (read r) k (mkState h p) = k l (mkState h p).
Proof. intros H. unfold bind. now rewrite (run_read _ h p r l H). Qed.

Lemma step_read_copy (k : list A -> M A X) h p l :
  bind (read (List.length h)) k (mkState (h ++ [l]) p) = k l (mkState (h ++ [l]) p).
Proof. apply step_read, nth_error_snoc. Qed.

Lemma step_slice (k : ref -> M A X) h p r l :
  nth_error h r = Some l ->
  bind (slice r) k (mkState h p) = k (List.length h) (mkState (h ++ [l]) p).
Proof. intros H. unfold bind. now rewrite (run_slice _ h p r l H). Qed.

Lemma step_filter (k : ref -> M A X) h p r l f :
  nth_error h r = Some l ->
  bind (filter f r) k (mkState h p)
  = k (List.length h) (mkState (h ++ [List.filter f l]) p).
Proof. intros H. unfold bind. now rewrite (run_filter _ h p r l f H). Qed.

Lemma step_sort_copy (k : ref -> M A X) h p l cmp :
  bind (sort_in_place cmp (List.length h)) k (mkState (h ++ [l]) p)
  = k (List.length h) (mkState (h ++ [sort cmp l]) p).
Proof. unfold bind. now rewrite run_sort_copy. Qed.

Lemma step_on_page (k : unit -> M A X) (f : Page -> Page) h p :
  bind (on_page f) k (mkState h p) = k tt (mkState h (f p)).
Proof. reflexivity. Qed.

Lemma step_get_page (k : Page -> M A X) h p :
  bind get_page k (mkState h p) = k p (mkState h p).
Proof. reflexivity. Qed.

Lemma step_bounding_width (k : Q -> M A X) (sel : string) h p :
  bind (bounding_width sel) k (mkState h p)
  = match width_of p sel with
    | Some w => k w (mkState h p)
    | None => (Throw TypeError, mkState h p)
    end.
Proof.
  unfold bounding_width. rewrite step_assoc, step_get_page.
  destruct (width_of p sel); reflexivity.
Qed.
End Steps.

Ltac step :=
  first
    [ rewrite step_assoc
    | rewrite step_ret
    | rewrite step_throw
    | rewrite step_on_page
    | rewrite step_get_page
    | rewrite step_bounding_width
    | rewrite step_read_copy
    | rewrite step_sort_copy
    | erewrite step_slice by eassumption
    | erewrite step_filter by eassumption
    | erewrite step_read by eassumption ].

Ltac steps := repeat step.

Lemma width_of_none (p : Page) (sel : string) :
  exists_el p sel = false <-> width_of p sel = None.
Proof.
  unfold exists_el, width_of.
  induction (elements p) as [|e r IH]; simpl; [tauto|].
  destruct (String.eqb (fst e) sel); simpl; [split; discriminate | exact IH].
Qed.

Lemma width_of_some (p : Page) (sel : string) :
  exists_el p sel = true -> exists w, width_of p sel = Some w.
Proof.
  intros H. destruct (width_of p sel) eqn:E; [eauto|].
  apply width_of_none in E. congruence.
Qed.

Lemma exists_el_clear (sel sel' : string) (p : Page) :
  exists_el (clear_drawing sel p) sel' = exists_el p sel'.
Proof. reflexivity. Qed.

Lemma width_of_clear (sel sel' : string) (p : Page) :
  width_of (clear_drawing sel p) sel' = width_of p sel'.
Proof. reflexivity. Qed.

Ltac by_anchor :=
  repeat first
    [ step
    | rewrite width_of_clear
    | match goal with
      | |- context [match width_of ?p ?sel with _ => _ end] =>
          let E := fresh "E" in destruct (width_of p sel) eqn:E
      end ].

(** ** The arrays a renderer is given *)

Lemma only_allocates_frame {A X : Type} (m : M A X) :
  only_allocates m ->
  forall (h : Heap A) (p : Page) (r : ref) (l : list A),
    nth_error h r = Some l ->
    nth_error (heap (snd (m (mkState h p)))) r = Some l.
Proof.
  intros H h p r l Hr. destruct (H h p) as (extra & ->).
  rewrite nth_error_app1; [exact Hr|]. apply nth_error_Some. congruence.
Qed.

Lemma read_fails {A X : Type} (k : list A -> M A X) (h : Heap A) (p : Page) (r : ref) :
  nth_error h r = None ->
  bind (read r) k (mkState h p) = (Throw TypeError, mkState h p).
Proof. intros H. unfold bind, read. simpl. now rewrite H. Qed.

Ltac dangling h r :=
  let E := fresh "Hr" in
  destruct (nth_error h r) as [?l|] eqn:E;
  [ | exists []; rewrite app_nil_r;
      unfold slice, filter; rewrite ?step_assoc; now rewrite read_fails by exact E ].

Section Frame.
Context {d3 : D3}.

Lemma updateHeroMetrics_allocates (r : ref) : only_allocates (updateHeroMetrics r).
Proof.
  intros h p. unfold updateHeroMetrics. dangling h r.
  steps. destruct l as [|x l']; cbn [List.length Nat.eqb].
  - exists []. now rewrite app_nil_r.
  - steps. eexists [_].
    repeat match goal with
           | |- context [match ?d with Some _ => _ | None => _ end] => destruct d
           | |- context [let (_, _) := ?d in _] => destruct d
           end; reflexivity.
Qed.

Lemma renderLeagueTrends_allocates (r : ref) :
  only_allocates (League.renderLeagueTrends r).
Proof.
  intros h p. unfold League.renderLeagueTrends. dangling h r.
  by_anchor; eexists [_]; reflexivity.
Qed.

Lemma renderScoringMix_allocates (r : ref) :
  only_allocates (Scoring.renderScoringMix r).
Proof.
  intros h p. unfold Scoring.renderScoringMix. dangling h r.
  by_anchor; eexists [_]; reflexivity.
Qed.

Lemma renderHeatmap_allocates (r : ref) : only_allocates (Heatmap.renderHeatmap r).
Proof.
  intros h p. unfold Heatmap.renderHeatmap. dangling h r.
  by_anchor; eexists [_]; reflexivity.
Qed.

Lemma renderMomentumSpiral_allocates (r : ref) :
  only_allocates (Spiral.renderMomentumSpiral r).
Proof.
  intros h p. unfold Spiral.renderMomentumSpiral. dangling h r.
  by_anchor; try (eexists [_]; reflexivity).
  unfold Spiral.focusSeason. cbn [Spiral.data]. steps.
  eexists [_].
  match goal with
  | |- context [match ?d with Some _ => _ | None => throw _ end] => destruct d as [[? ?]|]
  end; reflexivity.
Qed.

Lemma renderTeamMap_allocates (r : ref) (t : option StatesTopology) :
  only_allocates (TeamMap.renderTeamMap r t).
Proof.
  intros h p. unfold TeamMap.renderTeamMap. exists []. rewrite app_nil_r.
  by_anchor; [|reflexivity].
  destruct (nth_error h r) as [l|] eqn:Hr; [|now rewrite read_fails by exact Hr].
  steps.
  repeat match goal with
         | |- context [match ?d with Some _ => _ | None => _ end] => destruct d
         | |- context [let (_, _) := ?d in _] => destruct d
         end; reflexivity.
Qed.

Lemma updateSeason_heap (c : Scatter.Chart) (z : Z) (s : State TeamSeasonStat) :
  heap (snd (Scatter.updateSeason c z s)) = heap s
  /\ exists c', fst (Scatter.updateSeason c z s) = Ok c'.
Proof. destruct s. unfold Scatter.updateSeason. steps. simpl. eauto. Qed.

Lemma renderTeamScatter_allocates (r : ref) :
  only_allocates (Scatter.renderTeamScatter r).
Proof.
  intros h p. unfold Scatter.renderTeamScatter. dangling h r.
  by_anchor; try (eexists [_]; reflexivity).
  match goal with |- context [if ?b then _ else _] => destruct b end.
  - steps. eexists [_]; reflexivity.
  - destruct (last_elem _) as [[? ?]|]; steps.
    all: match goal with
         | |- context [match sliderValue ?q with _ => _ end] => destruct (sliderValue q)
         end; steps; try (eexists [_]; reflexivity).
    all: match goal with
         | |- context [Scatter.updateSeason ?c ?z] =>
             unfold Scatter.updateSeason; steps; eexists [_]; reflexivity
         end.
Qed.
End Frame.

(** ** What each renderer does when an anchor is absent *)

Section Anchors.
Context {d3 : D3}.

Ltac no_container He :=
  apply width_of_none in He; by_anchor; [discriminate | split; reflexivity].

Lemma renderLeagueTrends_no_container (h : Heap SeasonMetric) (r : ref)
      (l : list SeasonMetric) (p : Page) :
  nth_error h r = Some l -> exists_el p "#leagueTrendChart" = false ->
  throws_silently (League.renderLeagueTrends r) (mkState h p).
Proof.
  intros Hr He. unfold throws_silently, League.renderLeagueTrends. no_container He.
Qed.

Lemma renderScoringMix_no_container (h : Heap ScoringMixRecord) (r : ref)
      (l : list ScoringMixRecord) (p : Page) :
  nth_error h r = Some l -> exists_el p "#scoringMixChart" = false ->
  throws_silently (Scoring.renderScoringMix r) (mkState h p).
Proof.
  intros Hr He. unfold throws_silently, Scoring.renderScoringMix. no_container He.
Qed.

Lemma renderTeamScatter_no_container (h : Heap TeamSeasonStat) (r : ref)
      (l : list TeamSeasonStat) (p : Page) :
  nth_error h r = Some l -> exists_el p "#teamScatter" = false ->
  throws_silently (Scatter.renderTeamScatter r) (mkState h p).
Proof.
  intros Hr He. unfold throws_silently, Scatter.renderTeamScatter. no_container He.
Qed.

Lemma renderHeatmap_no_container (h : Heap HeatmapCell) (r : ref)
      (l : list HeatmapCell) (p : Page) :
  nth_error h r = Some l -> exists_el p "#heatmapChart" = false ->
  throws_silently (Heatmap.renderHeatmap r) (mkState h p).
Proof.
  intros Hr He. unfold throws_silently, Heatmap.renderHeatmap. no_container He.
Qed.

Lemma renderTeamMap_no_container (h : Heap TeamGeoStat) (r : ref)
      (t : option StatesTopology) (p : Page) :
  exists_el p "#teamMap" = false ->
  throws_silently (TeamMap.renderTeamMap r t) (mkState h p).
Proof.
  intros He. unfold throws_silently, TeamMap.renderTeamMap. no_container He.
Qed.

Lemma renderMomentumSpiral_no_container (h : Heap MomentumPoint) (r : ref)
      (l : list MomentumPoint) (p : Page) :
  nth_error h r = Some l -> exists_el p "#momentumSpiral" = false ->
  throws_silently (Spiral.renderMomentumSpiral r) (mkState h p).
Proof.
  intros Hr He. unfold throws_silently, Spiral.renderMomentumSpiral. no_container He.
Qed.

Lemma renderTeamScatter_no_slider (h : Heap TeamSeasonStat) (r : ref)
      (l : list TeamSeasonStat) (p : Page) :
  nth_error h r = Some l ->
  exists_el p "#teamScatter" = true ->
  exists_el p "#seasonSlider" && exists_el p "#seasonLabel"
    && exists_el p "#teamInsight" = false ->
  exists s',
    Scatter.renderTeamScatter r (mkState h p) = (Ok Scatter.Empty, s')
    /\ console (page s') = console p ++ [(LogWarn, scatterWarning)].
Proof.
  intros Hr Hc Ha. unfold Scatter.renderTeamScatter.
  destruct (width_of_some _ _ Hc) as (w & Hw).
  by_anchor; [|discriminate].
  change (exists_el (add_drawing "#teamScatter" (clear_drawing "#teamScatter" p)))
    with (exists_el p).
  rewrite Ha. cbn [negb]. steps.
  eexists. split; reflexivity.
Qed.
End Anchors.

(** ** Claims on anchors, frames and start-up *)

Section Claims.
Context {d3 : D3}.

(** C2 (amended).  Only the team scatter handles missing auxiliary anchors:
    when [#teamScatter] exists and one of [#seasonSlider], [#seasonLabel],
    [#teamInsight] does not, [renderTeamScatter] logs one warning and
    returns the empty control object.  No renderer guards its chart
    container: when the container is absent each of the six renderers
    throws a TypeError and logs nothing. *)
Theorem missing_anchor_handling :
  (forall (h : Heap TeamSeasonStat) (r : ref) (l : list TeamSeasonStat) (p : Page),
      nth_error h r = Some l ->
      exists_el p "#teamScatter" = true ->
      exists_el p "#seasonSlider" && exists_el p "#seasonLabel"
        && exists_el p "#teamInsight" = false ->
      exists s',
        Scatter.renderTeamScatter r (mkState h p) = (Ok Scatter.Empty, s')
        /\ console (page s') = console p ++ [(LogWarn, scatterWarning)])
  /\ (forall h r l p,
         nth_error h r = Some l -> exists_el p "#leagueTrendChart" = false ->
         throws_silently (League.renderLeagueTrends r) (mkState h p))
  /\ (forall h r l p,
         nth_error h r = Some l -> exists_el p "#scoringMixChart" = false ->
         throws_silently (Scoring.renderScoringMix r) (mkState h p))
  /\ (forall h r l p,
         nth_error h r = Some l -> exists_el p "#teamScatter" = false ->
         throws_silently (Scatter.renderTeamScatter r) (mkState h p))
  /\ (forall h r l p,
         nth_error h r = Some l -> exists_el p "#heatmapChart" = false ->
         throws_silently (Heatmap.renderHeatmap r) (mkState h p))
  /\ (forall h r t p,
         exists_el p "#teamMap" = false ->
         throws_silently (TeamMap.renderTeamMap r t) (mkState h p))
  /\ (forall h r l p,
         nth_error h r = Some l -> exists_el p "#momentumSpiral" = false ->
         throws_silently (Spiral.renderMomentumSpiral r) (mkState h p)).
Proof.
  repeat split.
  - apply renderTeamScatter_no_slider; assumption.
  - eapply renderLeagueTrends_no_container; eassumption.
  - eapply renderLeagueTrends_no_container; eassumption.
  - eapply renderScoringMix_no_container; eassumption.
  - eapply renderScoringMix_no_container; eassumption.
  - eapply renderTeamScatter_no_container; eassumption.
  - eapply renderTeamScatter_no_container; eassumption.
  - eapply renderHeatmap_no_container; eassumption.
  - eapply renderHeatmap_no_container; eassumption.
  - eapply renderTeamMap_no_container; eassumption.
  - eapply renderTeamMap_no_container; eassumption.
  - eapply renderMomentumSpiral_no_container; eassumption.
  - eapply renderMomentumSpiral_no_container; eassumption.
Qed.

(** C10.  [updateHeroMetrics] and the six renderers leave the array they
    are given as it was: same elements, same order.  They sort and filter
    arrays of their own. *)
Theorem input_array_unchanged :
  (forall h p r l, nth_error h r = Some l ->
      nth_error (heap (snd (updateHeroMetrics r (mkState h p)))) r = Some l)
  /\ (forall h p r l, nth_error h r = Some l ->
      nth_error (heap (snd (League.renderLeagueTrends r (mkState h p)))) r = Some l)
  /\ (forall h p r l, nth_error h r = Some l ->
      nth_error (heap (snd (Scoring.renderScoringMix r (mkState h p)))) r = Some l)
  /\ (forall h p r l, nth_error h r = Some l ->
      nth_error (heap (snd (Scatter.renderTeamScatter r (mkState h p)))) r = Some l)
  /\ (forall h p r l, nth_error h r = Some l ->
      nth_error (heap (snd (Heatmap.renderHeatmap r (mkState h p)))) r = Some l)
  /\ (forall h p r t l, nth_error h r = Some l ->
      nth_error (heap (snd (TeamMap.renderTeamMap r t (mkState h p)))) r = Some l)
  /\ (forall h p r l, nth_error h r = Some l ->
      nth_error (heap (snd (Spiral.renderMomentumSpiral r (mkState h p)))) r = Some l).
Proof.
  repeat split; intros.
  - now apply only_allocates_frame; [apply updateHeroMetrics_allocates|].
  - now apply only_allocates_frame; [apply renderLeagueTrends_allocates|].
  - now apply only_allocates_frame; [apply renderScoringMix_allocates|].
  - now apply only_allocates_frame; [apply renderTeamScatter_allocates|].
  - now apply only_allocates_frame; [apply renderHeatmap_allocates|].
  - now apply only_allocates_frame; [apply renderTeamMap_allocates|].
  - now apply only_allocates_frame; [apply renderMomentumSpiral_allocates|].
Qed.

(** C3.  [init] waits for all seven requests; when any of them fails, it
    logs one error and does nothing else: no chart is drawn, no controller
    is registered, the story steps are not set up, nothing is retried. *)
Theorem init_aborts_on_failed_fetch (f : Fetched) (s : Dashboard) :
  leagueTrends f = None \/ scoringMix f = None \/ teamScatter f = None
  \/ heatmapData f = None \/ teamMapData f = None \/ spiralData f = None
  \/ statesTopo f = None ->
  init f s
  = mkDashboard (controllers s) (log LogError bootError (doc s)) (storyReady s)
  /\ controllers (init f s) = controllers s
  /\ drawn (doc (init f s)) = drawn (doc s)
  /\ texts (doc (init f s)) = texts (doc s)
  /\ storyReady (init f s) = storyReady s
  /\ console (doc (init f s)) = console (doc s) ++ [(LogError, bootError)].
Proof.
  intros H.
  assert (E : settled f = None).
  { unfold settled.
    destruct (leagueTrends f), (scoringMix f), (teamScatter f), (heatmapData f),
      (teamMapData f), (spiralData f), (statesTopo f); try reflexivity.
    repeat destruct H as [H|H]; discriminate. }
  unfold init. rewrite E. repeat split.
Qed.
End Claims.

(** C2, at a page without anchors: [renderLeagueTrends] neither warns nor
    returns. *)
Lemma league_missing_container_not_handled :
  ~ warns_and_returns (League.renderLeagueTrends 0%nat)
      (mkState [Sample.trends] Sample.blank)
  /\ League.renderLeagueTrends 0%nat
       (mkState [Sample.trends] Sample.blank)
     = (Throw TypeError,
        mkState Sample.trendHeap Sample.blank).
Proof.
  split.
  - intros (x & s' & msg & H & _). vm_compute in H. discriminate.
  - vm_compute. reflexivity.
Qed.

Lemma missing_anchor_handling_witness :
  (nth_error [Sample.clubs] 0 = Some Sample.clubs
   /\ exists_el Sample.noSlider "#teamScatter" = true
   /\ exists_el Sample.noSlider "#seasonSlider" && exists_el Sample.noSlider "#seasonLabel"
        && exists_el Sample.noSlider "#teamInsight" = false)
  /\ exists s',
      Scatter.renderTeamScatter (d3 := Sample.d3) 0%nat
        (mkState [Sample.clubs] Sample.noSlider) = (Ok Scatter.Empty, s')
      /\ console (page s') = console Sample.noSlider ++ [(LogWarn, scatterWarning)].
Proof.
  split; [repeat split|].
  apply (proj1 (missing_anchor_handling (d3 := Sample.d3))
           [Sample.clubs] 0%nat Sample.clubs Sample.noSlider);
    reflexivity.
Defined.

Lemma input_array_unchanged_witness :
  nth_error [Sample.trends] 0 = Some Sample.trends
  /\ nth_error
       (heap (snd (League.renderLeagueTrends 0%nat
                     (mkState [Sample.trends] Sample.full)))) 0
     = Some Sample.trends.
Proof.
  split; [reflexivity|].
  apply (proj1 (proj2 (input_array_unchanged (d3 := Sample.d3)))
           [Sample.trends] Sample.full 0%nat Sample.trends).
  reflexivity.
Defined.

Lemma init_aborts_on_failed_fetch_witness :
  scoringMix Sample.fetchedButMix = None
  /\ init (d3 := Sample.d3) Sample.fetchedButMix Sample.fresh
     = mkDashboard noControllers (log LogError bootError Sample.full) false.
Proof.
  split; [reflexivity|].
  apply (init_aborts_on_failed_fetch (d3 := Sample.d3) Sample.fetchedButMix Sample.fresh).
  right. left. reflexivity.
Defined.

Lemma hero_growth_first_last_witness :
  (nth_error [Sample.trends] 0 = Some Sample.trends
   /\ Sample.trends <> []
   /\ NoDup (map season Sample.trends))
  /\ exists first last,
      In first Sample.trends /\ In last Sample.trends /\
      (forall d, In d Sample.trends -> season first <= season d <= season last) /\
      forall (l' : list SeasonMetric) (h' : Heap SeasonMetric),
        Permutation Sample.trends l' -> nth_error h' 0 = Some l' ->
        exists copy,
          let a := toDouble (avgThreeRate first) in
          let b := toDouble (avgThreeRate last) in
          let g := SFmul 53 1024 (SFdiv 53 1024 (SFsub 53 1024 b a) a) (toDouble 100) in
          updateHeroMetrics 0%nat (mkState h' Sample.full)
          = (Ok tt,
             mkState (h' ++ [copy])
               (set_text "#avgGrowth"
                  (String.append (if SFleb (S754_zero false) g then "+" else "")
                                 (doubleFmt g))
                  Sample.full)).
Proof.
  assert (Hnd : NoDup (map season Sample.trends)).
  { simpl. repeat constructor; simpl; intuition discriminate. }
  split; [repeat split; [discriminate | exact Hnd]|].
  apply (proj1 hero_growth_first_last [Sample.trends] 0%nat Sample.trends Sample.full).
  - reflexivity.
  - discriminate.
  - exact Hnd.
Defined.

(** ** Array.prototype.find *)

Lemma find_from_none (A : Type) (f : A -> bool) (l : list A) (i : nat) :
  (forall x, In x l -> f x = false) -> find_from f i l = None.
Proof.
  revert i. induction l as [|y r IH]; intros i H; simpl; [reflexivity|].
  rewrite (H y) by now left. apply IH. intros x Hx. apply H. now right.
Qed.

Lemma find_from_some (A : Type) (f : A -> bool) (l : list A) (i : nat) (x : A) :
  In x l -> f x = true ->
  exists j y, find_from f i l = Some (j, y) /\ In y l /\ f y = true
              /\ nth_error l (j - i) = Some y /\ (i <= j)%nat.
Proof.
  revert i. induction l as [|z r IH]; intros i Hin Hf; [destruct Hin|].
  simpl. destruct (f z) eqn:Fz.
  - exists i, z. rewrite Nat.sub_diag. repeat split; auto; try lia; try (now left).
  - destruct Hin as [->|Hin]; [congruence|].
    destruct (IH (S i) Hin Hf) as (j & y & E & Iy & Fy & Hn & Hle).
    exists j, y. repeat split; auto; try lia; try (now right).
    replace (j - i)%nat with (S (j - S i)) by lia. exact Hn.
Qed.

(** The record [focusSeason] settles on: the one found, or else the last. *)
Section Focus.
Context {d3 : D3}.

Lemma league_no_match (d : list SeasonMetric) (seasonArg : option Z) :
  (forall r, In r d -> Some (season r) <> seasonArg) ->
  match seasonArg with
  | Some s => JS.find (fun r => season r =? s) d
  | None => None
  end = None.
Proof.
  intros H. destruct seasonArg as [s|]; [|reflexivity].
  apply find_from_none. intros x Hx. apply Z.eqb_neq. intros E.
  apply (H x Hx). now rewrite E.
Qed.

Lemma league_focus_fallback (c : League.Chart) (h : Heap SeasonMetric) (p : Page)
      (d : list SeasonMetric) (seasonArg : option Z) (i : nat) (last : SeasonMetric) :
  nth_error h (League.data c) = Some d ->
  last_elem d = Some (i, last) ->
  (forall r, In r d -> Some (season r) <> seasonArg) ->
  League.focusSeason c seasonArg (mkState h p)
  = (Ok (League.focusOn c last),
     mkState h (show_tooltip (League.tooltipOf (League.activeMetric c) last) p)).
Proof.
  intros Hd Hl Hno. unfold League.focusSeason. steps.
  rewrite (league_no_match d seasonArg Hno), Hl.
  unfold League.showTooltip. steps. reflexivity.
Qed.

Lemma league_focus_found (c : League.Chart) (h : Heap SeasonMetric) (p : Page)
      (d : list SeasonMetric) (s : Z) (x : SeasonMetric) :
  nth_error h (League.data c) = Some d ->
  In x d -> season x = s ->
  exists found,
    In found d /\ season found = s /\
    League.focusSeason c (Some s) (mkState h p)
    = (Ok (League.focusOn c found),
       mkState h (show_tooltip (League.tooltipOf (League.activeMetric c) found) p)).
Proof.
  intros Hd Hin Hs. unfold League.focusSeason. steps.
  assert (Fx : (season x =? s) = true) by now apply Z.eqb_eq.
  destruct (find_from_some _ (fun r => season r =? s) d 0%nat x Hin Fx)
    as (j & y & E & Iy & Fy & _).
  unfold JS.find. rewrite E.
  exists y. split; [exact Iy|]. split; [now apply Z.eqb_eq|].
  unfold League.showTooltip. steps. reflexivity.
Qed.

Lemma scoring_focus_fallback (c : Scoring.Chart) (h : Heap ScoringMixRecord) (p : Page)
      (d : list ScoringMixRecord) (seasonArg : option Z) (i : nat)
      (last : ScoringMixRecord) :
  nth_error h (Scoring.data c) = Some d ->
  last_elem d = Some (i, last) ->
  (forall r, In r d -> Some (mixSeason r) <> seasonArg) ->
  Scoring.focusSeason c seasonArg (mkState h p)
  = (Ok (Scoring.mkChart (Scoring.data c) (Scoring.xDomain c) (Scoring.innerWidth c)
           (Some (Scoring.x c (inject_Z (mixSeason last))))),
     mkState h (show_tooltip (Scoring.tooltipOf last) p)).
Proof.
  intros Hd Hl Hno. unfold Scoring.focusSeason. steps.
  assert (E : match seasonArg with
              | Some s => JS.find (fun r => mixSeason r =? s) d
              | None => None
              end = None).
  { destruct seasonArg as [s|]; [|reflexivity].
    apply find_from_none. intros x Hx. apply Z.eqb_neq. intros E.
    apply (Hno x Hx). now rewrite E. }
  rewrite E, Hl. unfold Scoring.showSeason. steps. reflexivity.
Qed.

Lemma spiral_focus_fallback (c : Spiral.Chart) (h : Heap MomentumPoint) (p : Page)
      (d : list MomentumPoint) (seasonArg : option Z) (i : nat)
      (last : MomentumPoint) :
  nth_error h (Spiral.data c) = Some d ->
  last_elem d = Some (i, last) ->
  (forall r, In r d -> Some (momSeason r) <> seasonArg) ->
  Spiral.focusSeason c seasonArg (mkState h p)
  = (Ok (Spiral.mkChart (Spiral.data c) (Spiral.rDomain c)
           (Spiral.mark_dots (List.length d) (Some i))
           (Some (i, Spiral.pointRadius c i last))
           (String.append (string_of_Z (momSeason last)) " momentum wave")),
     mkState h p).
Proof.
  intros Hd Hl Hno. unfold Spiral.focusSeason. steps.
  assert (E : match seasonArg with
              | Some s => JS.find (fun r => momSeason r =? s) d
              | None => None
              end = None).
  { destruct seasonArg as [s|]; [|reflexivity].
    apply find_from_none. intros x Hx. apply Z.eqb_neq. intros E.
    apply (Hno x Hx). now rewrite E. }
  rewrite E, Hl. reflexivity.
Qed.

(** The last element of a sorted copy belongs to the latest season. *)
Lemma sorted_copy_last (A : Type) (key : A -> Z) (l : list A) :
  l <> [] ->
  exists i last,
    last_elem (sort (bySeason key) l) = Some (i, last)
    /\ S i = List.length l /\ In last l
    /\ forall r, In r l -> key r <= key last.
Proof.
  intros Hne.
  destruct (last_elem_nonempty _ _ (sort_nonempty _ (bySeason key) l Hne))
    as (i & last & Hl).
  exists i, last. split; [exact Hl|].
  destruct (last_elem_in _ _ _ _ Hl) as (Hin & _ & Hlen).
  rewrite sort_length in Hlen.
  repeat split; [exact Hlen | now apply (sort_in _ (bySeason key)) |].
  intros r Hr.
  apply (sorted_last_greatest _ key _ _ _ (sort_bySeason_sorted _ key l) Hl).
  now apply (sort_in _ (bySeason key)).
Qed.

(** C9 (amended).  On a chart whose data is not empty, [focusSeason] of the
    league trends, the scoring mix and the momentum spiral, called with a
    season that matches no record (or with null or undefined), does not
    throw and does not return early: it focuses the last record of the
    sorted data, which is a record of the latest season, and annotates it
    (tooltip, crosshair or focus line; dot and label on the spiral). *)
Theorem focusSeason_falls_back_to_last :
  (forall (c : League.Chart) h p (l : list SeasonMetric) (seasonArg : option Z),
      nth_error h (League.data c) = Some (sort (bySeason season) l) ->
      l <> [] ->
      (forall r, In r l -> Some (season r) <> seasonArg) ->
      exists last,
        In last l /\ (forall r, In r l -> season r <= season last)
        /\ League.focusSeason c seasonArg (mkState h p)
           = (Ok (League.focusOn c last),
              mkState h (show_tooltip (League.tooltipOf (League.activeMetric c) last) p))
        /\ League.crosshair (League.focusOn c last)
           = Some (League.x c (inject_Z (season last))))
  /\ (forall (c : Scoring.Chart) h p (l : list ScoringMixRecord) (seasonArg : option Z),
      nth_error h (Scoring.data c) = Some (sort (bySeason mixSeason) l) ->
      l <> [] ->
      (forall r, In r l -> Some (mixSeason r) <> seasonArg) ->
      exists last c',
        In last l /\ (forall r, In r l -> mixSeason r <= mixSeason last)
        /\ Scoring.focusSeason c seasonArg (mkState h p)
           = (Ok c', mkState h (show_tooltip (Scoring.tooltipOf last) p))
        /\ Scoring.focusLine c' = Some (Scoring.x c (inject_Z (mixSeason last))))
  /\ (forall (c : Spiral.Chart) h p (l : list MomentumPoint) (seasonArg : option Z),
      nth_error h (Spiral.data c) = Some (sort (bySeason momSeason) l) ->
      l <> [] ->
      (forall r, In r l -> Some (momSeason r) <> seasonArg) ->
      exists last c' i,
        In last l /\ (forall r, In r l -> momSeason r <= momSeason last)
        /\ S i = List.length l
        /\ Spiral.focusSeason c seasonArg (mkState h p) = (Ok c', mkState h p)
        /\ Spiral.labelText c'
           = String.append (string_of_Z (momSeason last)) " momentum wave"
        /\ Spiral.labelAt c' = Some (i, Spiral.pointRadius c i last)
        /\ nth_error (Spiral.dots c') i = Some (9, 1)%Q).
Proof.
  repeat split.
  - intros c h p l seasonArg Hd Hne Hno.
    destruct (sorted_copy_last _ season l Hne) as (i & last & Hl & _ & Hin & Hmax).
    exists last. repeat split; try assumption.
    apply (league_focus_fallback c h p _ seasonArg i last Hd Hl).
    intros r Hr. apply Hno. now apply (sort_in _ (bySeason season)).
  - intros c h p l seasonArg Hd Hne Hno.
    destruct (sorted_copy_last _ mixSeason l Hne) as (i & last & Hl & _ & Hin & Hmax).
    exists last. eexists. repeat split; try assumption.
    + apply (scoring_focus_fallback c h p _ seasonArg i last Hd Hl).
      intros r Hr. apply Hno. now apply (sort_in _ (bySeason mixSeason)).
    + reflexivity.
  - intros c h p l seasonArg Hd Hne Hno.
    destruct (sorted_copy_last _ momSeason l Hne) as (i & last & Hl & Hlen & Hin & Hmax).
    exists last. eexists. exists i. repeat split; try assumption.
    + apply (spiral_focus_fallback c h p _ seasonArg i last Hd Hl).
      intros r Hr. apply Hno. now apply (sort_in _ (bySeason momSeason)).
    + reflexivity.
    + reflexivity.
    + cbn [Spiral.dots]. rewrite sort_length, <- Hlen.
      unfold Spiral.mark_dots.
      rewrite nth_error_map, nth_error_seq.
      destruct (Nat.ltb_spec i (S i)); [|lia].
      simpl. now rewrite Nat.eqb_refl.
Qed.
End Focus.

(** ** The league trends chart behind its controls *)

Lemma nodup_map_eq (A B : Type) (f : A -> B) (l : list A) (a b : A) :
  NoDup (map f l) -> In a l -> In b l -> f a = f b -> a = b.
Proof.
  induction l as [|x r IH]; intros Hnd Ha Hb E; [destruct Ha|].
  simpl in Hnd. inversion Hnd as [|? ? Hnot Hnd']; subst.
  destruct Ha as [->|Ha], Hb as [->|Hb].
  - reflexivity.
  - exfalso. apply Hnot. rewrite E. now apply in_map.
  - exfalso. apply Hnot. rewrite <- E. now apply in_map.
  - now apply IH.
Qed.

Section LeagueControls.
Context {d3 : D3}.

Lemma renderLeagueTrends_ok (h : Heap SeasonMetric) (r : ref) (l : list SeasonMetric)
      (p : Page) :
  nth_error h r = Some l ->
  exists_el p "#leagueTrendChart" = true ->
  exists c,
    League.renderLeagueTrends r (mkState h p)
    = (Ok c, mkState (h ++ [sort (bySeason season) l])
                     (add_drawing "#leagueTrendChart"
                        (clear_drawing "#leagueTrendChart" p)))
    /\ League.data c = List.length h
    /\ League.activeMetric c = None.
Proof.
  intros Hr He. destruct (width_of_some _ _ He) as (w & Hw).
  unfold League.renderLeagueTrends. by_anchor; [|discriminate].
  eexists. repeat split.
Qed.

(** C6.  On a league-trends dataset with at least two records, rendering,
    then [setMetric("avgPoints")], then [focusSeason] with the season of the
    second record returns without error, and the tooltip then holds the
    season and exactly one row, the one of avgPoints: the rows of
    avgThreeAttempts and avgThreeRate are left out. *)
Theorem metric_filter_limits_tooltip
        (h : Heap SeasonMetric) (r : ref) (l : list SeasonMetric) (p : Page)
        (second : SeasonMetric) :
  nth_error h r = Some l ->
  exists_el p "#leagueTrendChart" = true ->
  nth_error (sort (bySeason season) l) 1 = Some second ->
  exists c st found,
    bind (League.renderLeagueTrends r)
      (fun c0 => bind (League.setMetric c0 (Some "avgPoints"))
         (fun c1 => League.focusSeason c1 (Some (season second))))
      (mkState h p) = (Ok c, st)
    /\ In found l /\ season found = season second
    /\ (NoDup (map season l) -> found = second)
    /\ League.activeMetric c = Some "avgPoints"
    /\ League.rows (League.activeMetric c) found = [League.row found pointsMetric]
    /\ tooltipShow (page st) = true
    /\ tooltipHtml (page st)
       = JS.join "" [ "<strong>"; string_of_Z (season second); "</strong><br>";
                      "<span style="; dq; "color:#60d2ff"; dq;
                      ">Points per team game:</span> ";
                      numberFmt (avgPoints found); " pts" ].
Proof.
  intros Hr He H2.
  destruct (renderLeagueTrends_ok h r l p Hr He) as (c0 & Hrun & Hdata & Hact).
  assert (Hin2 : In second (sort (bySeason season) l))
    by (eapply nth_error_In; exact H2).
  set (c1 := League.updateMetricFilter (League.set_active (Some "avgPoints") c0)).
  assert (Hd1 : nth_error (h ++ [sort (bySeason season) l]) (League.data c1)
                = Some (sort (bySeason season) l)).
  { change (League.data c1) with (League.data c0). rewrite Hdata.
    apply nth_error_snoc. }
  destruct (league_focus_found c1 _
              (add_drawing "#leagueTrendChart" (clear_drawing "#leagueTrendChart" p))
              _ (season second) second Hd1 Hin2 eq_refl)
    as (found & Hf & Hs & Hfocus).
  exists (League.focusOn c1 found). eexists. exists found.
  split.
  { unfold bind at 1. rewrite Hrun.
    unfold League.setMetric. rewrite step_ret. exact Hfocus. }
  apply (proj1 (sort_in _ (bySeason season) l found)) in Hf.
  repeat split; try assumption.
  - intros Hnd. apply (nodup_map_eq _ _ season l); try assumption.
    now apply (proj1 (sort_in _ (bySeason season) l second)) in Hin2.
  - cbn [page snd tooltipHtml show_tooltip].
    unfold League.tooltipOf. rewrite Hs. reflexivity.
Qed.
End LeagueControls.

Lemma metric_filter_limits_tooltip_witness :
  (nth_error [Sample.trends] 0 = Some Sample.trends
   /\ exists_el Sample.full "#leagueTrendChart" = true
   /\ nth_error (sort (bySeason season) Sample.trends) 1
      = Some (mkSeasonMetric 2020 (341 # 10) (1118 # 10) (360 # 1000)))
  /\ exists c st found,
      bind (League.renderLeagueTrends 0%nat)
        (fun c0 => bind (League.setMetric c0 (Some "avgPoints"))
           (fun c1 => League.focusSeason (d3 := Sample.d3) c1 (Some 2020)))
        (mkState [Sample.trends] Sample.full) = (Ok c, st)
      /\ In found Sample.trends /\ season found = 2020
      /\ (NoDup (map season Sample.trends)
          -> found = mkSeasonMetric 2020 (341 # 10) (1118 # 10) (360 # 1000))
      /\ League.activeMetric c = Some "avgPoints"
      /\ League.rows (League.activeMetric c) found = [League.row found pointsMetric]
      /\ tooltipShow (page st) = true
      /\ tooltipHtml (page st)
         = JS.join "" [ "<strong>"; string_of_Z 2020; "</strong><br>";
                        "<span style="; dq; "color:#60d2ff"; dq;
                        ">Points per team game:</span> ";
                        numberFmt (avgPoints found); " pts" ].
Proof.
  split; [repeat split|].
  apply (metric_filter_limits_tooltip (d3 := Sample.d3) [Sample.trends] 0%nat
           Sample.trends Sample.full
           (mkSeasonMetric 2020 (341 # 10) (1118 # 10) (360 # 1000)));
    reflexivity.
Defined.

(** C9, on an empty dataset: the chart renders, and [focusSeason] throws. *)
Lemma focusSeason_throws_on_empty_data :
  (exists c s,
      League.renderLeagueTrends 0%nat (mkState [[]] Sample.full) = (Ok c, s)
      /\ (forall r, In r (@nil SeasonMetric) -> Some (season r) <> Some 2020)
      /\ fst (League.focusSeason (d3 := Sample.d3) c (Some 2020) s) = Throw TypeError)
  /\ ~ (exists c s c' s',
         League.renderLeagueTrends 0%nat (mkState [[]] Sample.full) = (Ok c, s)
         /\ League.focusSeason (d3 := Sample.d3) c (Some 2020) s = (Ok c', s')).
Proof.
  split.
  - do 2 eexists. split; [vm_compute; reflexivity|].
    split; [intros r []|]. vm_compute. reflexivity.
  - intros (c & s & c' & s' & Hr & Hf).
    vm_compute in Hr. injection Hr as <- <-.
    vm_compute in Hf. discriminate.
Qed.

Lemma focusSeason_falls_back_to_last_witness :
  (nth_error Sample.trendHeap 1
   = Some (sort (bySeason season) Sample.trends)
   /\ Sample.trends <> []
   /\ forall r, In r Sample.trends -> Some (season r) <> Some 1999)
  /\ exists last,
      In last Sample.trends /\ (forall r, In r Sample.trends -> season r <= season last)
      /\ League.focusSeason (d3 := Sample.d3)
           Sample.trendChart (Some 1999)
           (mkState Sample.trendHeap Sample.full)
         = (Ok (League.focusOn (d3 := Sample.d3)
                  Sample.trendChart last),
            mkState Sample.trendHeap
              (show_tooltip (League.tooltipOf None last) Sample.full))
      /\ League.crosshair
           (League.focusOn (d3 := Sample.d3)
              Sample.trendChart last)
         = Some (League.x (d3 := Sample.d3)
                   Sample.trendChart
                   (inject_Z (season last))).
Proof.
  assert (Hno : forall r, In r Sample.trends -> Some (season r) <> Some 1999).
  { intros r [<-|[<-|[]]]; discriminate. }
  split; [repeat split; [discriminate | exact Hno]|].
  apply (proj1 (focusSeason_falls_back_to_last (d3 := Sample.d3))
           Sample.trendChart
           Sample.trendHeap Sample.full
           Sample.trends (Some 1999)).
  - reflexivity.
  - discriminate.
  - exact Hno.
Defined.

(** ** The centred bisector *)

Section BisectorFacts.
Variables (A : Type) (f : A -> Q).

Lemma ascending_nth (a : list A) (i j : nat) (u v : A) :
  ascending A f a -> (i <= j)%nat ->
  nth_error a i = Some u -> nth_error a j = Some v -> (f u <= f v)%Q.
Proof.
  intros Hs. revert i j. induction Hs as [|w r Hs IH Hall]; intros i j Hij Hi Hj.
  - destruct i; discriminate.
  - destruct i as [|i], j as [|j]; simpl in *; try lia.
    + injection Hi as <-. injection Hj as <-. lra.
    + injection Hi as <-. rewrite Forall_forall in Hall.
      apply Hall. eapply nth_error_In; exact Hj.
    + apply (IH i j); [lia | assumption | assumption].
Qed.

Lemma bisectLeft_spec (a : list A) (x : Q) (lo hi : nat) :
  ascending A f a -> (lo <= hi)%nat -> (hi <= List.length a)%nat ->
  (lo <= D3lib.bisectLeft f a x lo hi <= hi)%nat
  /\ (forall j d, (lo <= j < D3lib.bisectLeft f a x lo hi)%nat ->
                  nth_error a j = Some d -> (f d < x)%Q)
  /\ (forall j d, (D3lib.bisectLeft f a x lo hi <= j < hi)%nat ->
                  nth_error a j = Some d -> (x <= f d)%Q).
Proof.
  intros Hs. funelim (D3lib.bisectLeft f a x lo hi); intros Hle Hhi.
  all: try (assert (Hm : (lo <= (lo + hi) / 2 < hi)%nat)
             by (split; [apply Nat.div_le_lower_bound; lia
                        | apply Nat.Div0.div_lt_upper_bound; lia])).
  - (* the interval is empty *)
    split; [lia|]. split; intros j d Hj; lia.
  - (* no element in the middle: excluded by [hi <= a.length] *)
    match goal with E : nth_error _ _ = None |- _ => apply nth_error_None in E end.
    lia.
  - (* the value in the middle is below x: continue to the right *)
    match goal with
    | IH : ascending A f a -> _, E : nth_error a _ = Some d |- _ =>
        destruct (IH Hs) as (Hb & Hlow & Hup); [lia | lia |];
        split; [lia|]; split; [|exact Hup];
        intros j d0 Hj Hd0;
        destruct (Nat.le_gt_cases j ((lo + hi) / 2)) as [Hjm|Hjm];
        [ pose proof (ascending_nth a j _ d0 d Hs Hjm Hd0 E) as Hmono; lra
        | apply (Hlow j d0); [lia | exact Hd0] ]
    end.
  - (* the value in the middle is not below x: continue to the left *)
    match goal with
    | IH : ascending A f a -> _, E : nth_error a _ = Some d |- _ =>
        destruct (IH Hs) as (Hb & Hlow & Hup); [lia | lia |];
        split; [lia|]; split; [exact Hlow|];
        intros j d0 Hj Hd0;
        destruct (Nat.le_gt_cases ((lo + hi) / 2) j) as [Hjm|Hjm];
        [ pose proof (ascending_nth a _ j d d0 Hs Hjm E Hd0) as Hmono; lra
        | apply (Hup j d0); [lia | exact Hd0] ]
    end.
Qed.
End BisectorFacts.

Lemma nth_error_Some_lt (A : Type) (l : list A) (i : nat) (x : A) :
  nth_error l i = Some x -> (i < List.length l)%nat.
Proof. intros H. apply nth_error_Some. congruence. Qed.

Lemma Qabs_cases (u : Q) :
  (0 <= u /\ Qabs u == u)%Q \/ (u <= 0 /\ Qabs u == - u)%Q.
Proof.
  destruct (Qlt_le_dec u 0) as [H|H].
  - right. split; [lra|]. apply Qabs_neg. lra.
  - left. split; [exact H|]. now apply Qabs_pos.
Qed.

Ltac abs_cases :=
  repeat match goal with
         | |- context [Qabs ?u] =>
             let H := fresh "Habs" in
             destruct (Qabs_cases u) as [[? H]|[? H]]; rewrite H; clear H
         end.

Section CenterFacts.
Variables (A : Type) (f : A -> Q).

(** The index [center] returns is that of a closest value. *)
Lemma center_closest (a : list A) (x : Q) :
  ascending A f a ->
  (a <> [] -> (D3lib.center f a x < List.length a)%nat)
  /\ forall j dj di,
      nth_error a j = Some dj ->
      nth_error a (D3lib.center f a x) = Some di ->
      (Qabs (f di - x) <= Qabs (f dj - x))%Q.
Proof.
  intros Hs.
  destruct (bisectLeft_spec A f a x 0 (List.length a - 1) Hs) as (Hb & Hlow & Hup);
    [lia | lia |].
  unfold D3lib.center.
  set (i0 := D3lib.bisectLeft f a x 0 (List.length a - 1)) in *.
  assert (Hlen : a <> [] -> (i0 < List.length a)%nat).
  { intros Hne. destruct a; [congruence|]. simpl in *. lia. }
  destruct i0 as [|j0] eqn:Ei.
  - split; [exact Hlen|].
    intros j dj di Hj Hi.
    pose proof (ascending_nth A f a 0 j di dj Hs (Nat.le_0_l j) Hi Hj) as Hmono.
    destruct (Nat.eq_dec (List.length a - 1) 0) as [Hone|Hmany].
    + assert (j = 0)%nat.
      { apply nth_error_Some_lt in Hj. lia. }
      subst j. rewrite Hi in Hj. injection Hj as <-. lra.
    + assert (Hx : (x <= f di)%Q) by (apply (Hup 0%nat di); [lia | exact Hi]).
      abs_cases; lra.
  - assert (Hj0 : (j0 < List.length a)%nat) by lia.
    assert (Hi0 : (S j0 < List.length a)%nat) by lia.
    destruct (nth_error a j0) as [before|] eqn:Eb;
      [|apply nth_error_None in Eb; lia].
    destruct (nth_error a (S j0)) as [at_i|] eqn:Ea;
      [|apply nth_error_None in Ea; lia].
    assert (Hbx : (f before < x)%Q) by (apply (Hlow j0 before); [lia | exact Eb]).
    assert (Hba : (f before <= f at_i)%Q)
      by (apply (ascending_nth A f a j0 (S j0) before at_i Hs); [lia | exact Eb | exact Ea]).
    destruct (Qlt_le_dec (- (f at_i - x)) (f before - x)) as [Hnear|Hfar].
    + split; [intros; lia|].
      intros j dj di Hj Hi. rewrite Eb in Hi. injection Hi as <-.
      destruct (Nat.le_gt_cases j j0) as [Hle|Hgt].
      * pose proof (ascending_nth A f a j j0 dj before Hs Hle Hj Eb).
        abs_cases; lra.
      * pose proof (ascending_nth A f a (S j0) j at_i dj Hs Hgt Ea Hj).
        abs_cases; lra.
    + split; [intros; lia|].
      intros j dj di Hj Hi. rewrite Ea in Hi. injection Hi as <-.
      destruct (Nat.le_gt_cases j j0) as [Hle|Hgt].
      * pose proof (ascending_nth A f a j j0 dj before Hs Hle Hj Eb).
        abs_cases; lra.
      * pose proof (ascending_nth A f a (S j0) j at_i dj Hs Hgt Ea Hj).
        destruct (Qlt_le_dec (f at_i) x) as [Hbelow|Habove].
        -- (* the last element is below x too: nothing lies beyond it *)
           assert (Hend : (S j0 = List.length a - 1)%nat).
           { destruct (Nat.eq_dec (S j0) (List.length a - 1)) as [E|E]; [exact E|].
             exfalso. assert (x <= f at_i)%Q by (apply (Hup (S j0) at_i); [lia | exact Ea]).
             lra. }
           pose proof (nth_error_Some_lt _ _ _ _ Hj).
           assert (j = S j0) by lia. subst j.
           rewrite Ea in Hj. injection Hj as <-. lra.
        -- abs_cases; lra.
Qed.

(** Halfway between two neighbours the later one is returned. *)
Lemma center_tie (a : list A) (x : Q) (k : nat) (u v : A) :
  ascending A f a ->
  nth_error a k = Some u -> nth_error a (S k) = Some v ->
  (f u < f v)%Q -> (x == (f u + f v) / 2)%Q ->
  D3lib.center f a x = S k.
Proof.
  intros Hs Hu Hv Huv Hx.
  destruct (bisectLeft_spec A f a x 0 (List.length a - 1) Hs) as (Hb & Hlow & Hup);
    [lia | lia |].
  unfold D3lib.center.
  set (i0 := D3lib.bisectLeft f a x 0 (List.length a - 1)) in *.
  assert (Hk : (S k < List.length a)%nat) by (eapply nth_error_Some_lt; exact Hv).
  assert (Hmid : (f u < x /\ x < f v)%Q).
  { assert (E : (2 * x == f u + f v)%Q) by (rewrite Hx; field). lra. }
  assert (Ei : i0 = S k).
  { destruct (Nat.lt_trichotomy i0 (S k)) as [Hlt|[E|Hgt]]; [|exact E|].
    - assert (x <= f u)%Q by (apply (Hup k u); [lia | exact Hu]). lra.
    - assert (f v < x)%Q by (apply (Hlow (S k) v); [lia | exact Hv]). lra. }
  rewrite Ei, Hu, Hv.
  destruct (Qlt_le_dec (- (f v - x)) (f u - x)) as [Hnear|Hfar]; [|reflexivity].
  assert (E : (2 * x == f u + f v)%Q) by (rewrite Hx; field). lra.
Qed.
End CenterFacts.

Lemma sorted_copy_ascending (A : Type) (key : A -> Z) (l : list A) :
  ascending A (fun r => inject_Z (key r)) (sort (bySeason key) l).
Proof.
  unfold ascending.
  pose proof (sort_bySeason_sorted A key l) as H.
  induction H as [|x r Hs IH Hall]; constructor; [exact IH|].
  eapply Forall_impl; [|exact Hall].
  intros y Hy. simpl in Hy. now rewrite <- Zle_Qle.
Qed.

Section Lookup.
Context {d3 : D3}.

Lemma league_pointerMove_run (c : League.Chart) (h : Heap SeasonMetric) (p : Page)
      (d : list SeasonMetric) (mx : Q) (datum : SeasonMetric) :
  nth_error h (League.data c) = Some d ->
  nth_error d (D3lib.center seasonQ d
                 (invert (League.xDomain c) (0, League.innerWidth c)%Q mx))
  = Some datum ->
  League.pointerMove c mx (mkState h p)
  = (Ok (League.focusOn c datum),
     mkState h (show_tooltip (League.tooltipOf (League.activeMetric c) datum) p)).
Proof.
  intros Hd Hi. unfold League.pointerMove. steps.
  fold seasonQ. rewrite Hi. unfold League.showTooltip. steps. reflexivity.
Qed.

(** C8.  Modelled from the spec: [d3.bisector(d => d.season).center] is D3's;
    the spec describes it as a binary search over the sorted seasons that
    finds the closest data point.  For every array sorted by season and
    every pointer position, [pointerMove] focuses a record whose season is
    closest to the inverted position; halfway between two neighbouring
    seasons it is the later one; the same position gives the same record
    again.  On seasons 2018, 2019, 2020 and a pointer halfway between 2018
    and 2019 the index is 1. *)
Theorem nearest_point_lookup :
  (forall (d : list SeasonMetric) (v : Q),
      ascending SeasonMetric seasonQ d -> d <> [] ->
      exists datum,
        nth_error d (D3lib.center seasonQ d v) = Some datum
        /\ forall r, In r d -> (Qabs (seasonQ datum - v) <= Qabs (seasonQ r - v))%Q)
  /\ (forall (d : list SeasonMetric) (v : Q) (k : nat) (a b : SeasonMetric),
      ascending SeasonMetric seasonQ d ->
      nth_error d k = Some a -> nth_error d (S k) = Some b ->
      season a < season b ->
      (v == (seasonQ a + seasonQ b) / 2)%Q ->
      D3lib.center seasonQ d v = S k)
  /\ (forall (c : League.Chart) h p (d : list SeasonMetric) (mx : Q),
      nth_error h (League.data c) = Some d ->
      ascending SeasonMetric seasonQ d -> d <> [] ->
      exists datum st,
        In datum d
        /\ (forall r, In r d ->
              (Qabs (seasonQ datum
                     - invert (League.xDomain c) (0, League.innerWidth c)%Q mx)
               <= Qabs (seasonQ r
                        - invert (League.xDomain c) (0, League.innerWidth c)%Q mx))%Q)
        /\ League.pointerMove c mx (mkState h p) = (Ok (League.focusOn c datum), st)
        /\ League.pointerMove (League.focusOn c datum) mx st
           = (Ok (League.focusOn c datum), st))
  /\ D3lib.center inject_Z [2018; 2019; 2020] ((2018 + 2019) / 2)%Q = 1%nat.
Proof.
  assert (Hlook : forall (d : list SeasonMetric) (v : Q),
             ascending SeasonMetric seasonQ d -> d <> [] ->
             exists datum,
               nth_error d (D3lib.center seasonQ d v) = Some datum
               /\ forall r, In r d ->
                    (Qabs (seasonQ datum - v) <= Qabs (seasonQ r - v))%Q).
  { intros d v Hs Hne.
    destruct (center_closest SeasonMetric seasonQ d v Hs) as (Hlt & Hclose).
    destruct (nth_error d (D3lib.center seasonQ d v)) as [datum|] eqn:E.
    - exists datum. split; [reflexivity|].
      intros r Hr. destruct (In_nth_error _ _ Hr) as (j & Hj).
      now apply (Hclose j r datum).
    - apply nth_error_None in E. specialize (Hlt Hne). lia. }
  split; [exact Hlook|]. split; [|split].
  - intros d v k a b Hs Ha Hb Hab Hv.
    apply (center_tie SeasonMetric seasonQ d v k a b Hs Ha Hb); [|exact Hv].
    unfold seasonQ. now rewrite <- Zlt_Qlt.
  - intros c h p d mx Hd Hs Hne.
    destruct (Hlook d (invert (League.xDomain c) (0, League.innerWidth c)%Q mx) Hs Hne)
      as (datum & Hi & Hclose).
    exists datum. eexists. split; [eapply nth_error_In; exact Hi|].
    split; [exact Hclose|]. split.
    + apply (league_pointerMove_run c h p d mx datum Hd Hi).
    + rewrite (league_pointerMove_run (League.focusOn c datum) h _ d mx datum Hd Hi).
      reflexivity.
  - reflexivity.
Qed.
End Lookup.

Lemma nearest_point_lookup_witness :
  (nth_error Sample.trendHeap (League.data Sample.trendChart)
   = Some (sort (bySeason season) Sample.trends)
   /\ ascending SeasonMetric seasonQ (sort (bySeason season) Sample.trends)
   /\ sort (bySeason season) Sample.trends <> [])
  /\ exists datum st,
      In datum (sort (bySeason season) Sample.trends)
      /\ (forall r, In r (sort (bySeason season) Sample.trends) ->
            (Qabs (seasonQ datum - 2017) <= Qabs (seasonQ r - 2017))%Q)
      /\ League.pointerMove (d3 := Sample.d3) Sample.trendChart 2017%Q
           (mkState Sample.trendHeap Sample.full)
         = (Ok (League.focusOn (d3 := Sample.d3) Sample.trendChart datum), st)
      /\ League.pointerMove (d3 := Sample.d3)
           (League.focusOn (d3 := Sample.d3) Sample.trendChart datum) 2017%Q st
         = (Ok (League.focusOn (d3 := Sample.d3) Sample.trendChart datum), st).
Proof.
  assert (Hs : ascending SeasonMetric seasonQ (sort (bySeason season) Sample.trends)).
  { repeat constructor. vm_compute. discriminate. }
  split; [split; [reflexivity | split; [exact Hs | discriminate]]|].
  apply (proj1 (proj2 (proj2 (nearest_point_lookup (d3 := Sample.d3))))
           Sample.trendChart Sample.trendHeap Sample.full
           (sort (bySeason season) Sample.trends) 2017%Q);
    [reflexivity | exact Hs | discriminate].
Defined.

(** ** Distinct values, groups and the latest season *)

Section DistinctFacts.
Variables (A : Type) (eqb : A -> A -> bool).
Hypothesis eqb_spec : forall x y, eqb x y = true <-> x = y.

Lemma has_spec (seen : list A) (x : A) : has eqb seen x = true <-> In x seen.
Proof.
  unfold has. rewrite existsb_exists. split.
  - intros (y & Hy & E). apply eqb_spec in E. now subst.
  - intros H. exists x. split; [exact H | now apply eqb_spec].
Qed.

Lemma distinct_from_in (seen l : list A) (x : A) :
  In x (distinct_from eqb seen l) <-> In x l /\ ~ In x seen.
Proof.
  revert seen. induction l as [|y r IH]; intros seen; simpl; [tauto|].
  destruct (has eqb seen y) eqn:E.
  - rewrite IH. apply has_spec in E. split.
    + intros [H1 H2]. tauto.
    + intros [[->|H1] H2]; tauto.
  - assert (Hy : ~ In y seen) by (rewrite <- has_spec; congruence).
    simpl. rewrite IH. simpl. split.
    + intros [->|[H1 H2]]; tauto.
    + intros [[->|H1] H2]; [tauto|].
      destruct (eqb y x) eqn:Eyx.
      * apply eqb_spec in Eyx. now left.
      * right. split; [exact H1|]. intros [->|H3]; [|tauto].
        assert (eqb x x = true) by now apply eqb_spec. congruence.
Qed.

Lemma distinct_from_nodup (seen l : list A) : NoDup (distinct_from eqb seen l).
Proof.
  revert seen. induction l as [|y r IH]; intros seen; simpl; [constructor|].
  destruct (has eqb seen y); [apply IH|].
  constructor; [|apply IH].
  rewrite distinct_from_in. simpl. tauto.
Qed.

Lemma distinct_in (l : list A) (x : A) : In x (distinct eqb l) <-> In x l.
Proof. unfold distinct. rewrite distinct_from_in. simpl. tauto. Qed.

Lemma distinct_nodup (l : list A) : NoDup (distinct eqb l).
Proof. apply distinct_from_nodup. Qed.
End DistinctFacts.

Lemma string_eqb_spec (x y : string) : String.eqb x y = true <-> x = y.
Proof. apply String.eqb_eq. Qed.

Lemma find_filter_head (A : Type) (f : A -> bool) (l : list A) :
  nth_error (List.filter f l) 0 = List.find f l.
Proof.
  induction l as [|x r IH]; simpl; [reflexivity|].
  destruct (f x); [reflexivity | exact IH].
Qed.

Lemma filter_filter (A : Type) (f g : A -> bool) (l : list A) :
  List.filter g (List.filter f l) = List.filter (fun x => f x && g x) l.
Proof.
  induction l as [|x r IH]; simpl; [reflexivity|].
  destruct (f x); simpl; [destruct (g x)|]; now rewrite IH.
Qed.

Lemma bool_eq_iff (a b : bool) : (a = true <-> b = true) -> a = b.
Proof. destruct a, b; intuition congruence. Qed.

Lemma find_key (V : Type) (g : string -> V) (ks : list string) (k : string) :
  match List.find (fun kv => String.eqb (fst kv) k) (map (fun k' => (k', g k')) ks) with
  | Some kv => Some (snd kv)
  | None => None
  end
  = if existsb (fun k' => String.eqb k' k) ks then Some (g k) else None.
Proof.
  induction ks as [|k' ks IH]; simpl; [reflexivity|].
  destruct (String.eqb k' k) eqn:E; [|exact IH].
  apply String.eqb_eq in E. now subst.
Qed.

(** [m.get(k)] on a rollup: the reduction of the values that have the key. *)
Lemma get_rollup (A V : Type) (key : A -> string) (reduce : list A -> V)
      (l : list A) (k : string) :
  D3lib.get String.eqb (D3lib.rollup key String.eqb reduce l) k
  = if existsb (fun d => String.eqb (key d) k) l
    then Some (reduce (List.filter (fun d => String.eqb (key d) k) l))
    else None.
Proof.
  unfold D3lib.get, D3lib.rollup, D3lib.group.
  rewrite map_map. cbn [fst snd].
  rewrite (find_key V (fun k' => reduce (List.filter (fun d => String.eqb (key d) k') l))).
  replace (existsb (fun k' => String.eqb k' k) (distinct String.eqb (map key l)))
    with (existsb (fun d => String.eqb (key d) k) l); [reflexivity|].
  apply bool_eq_iff. rewrite !existsb_exists. split.
  - intros (d & Hd & E). exists (key d). split; [|exact E].
    apply distinct_in; [apply string_eqb_spec | now apply in_map].
  - intros (k' & Hk & E).
    apply (proj1 (distinct_in _ String.eqb string_eqb_spec _ _)) in Hk.
    apply in_map_iff in Hk. destruct Hk as (d & <- & Hd). now exists d.
Qed.

Lemma fold_max_spec (r : list Z) (x : Z) :
  (fold_left Z.max r x = x \/ In (fold_left Z.max r x) r)
  /\ x <= fold_left Z.max r x
  /\ forall y, In y r -> y <= fold_left Z.max r x.
Proof.
  revert x. induction r as [|z r IH]; intros x; simpl.
  - repeat split; [now left | lia | intros y []].
  - destruct (IH (Z.max x z)) as (Hin & Hge & Hall).
    repeat split.
    + destruct Hin as [E|Hin]; [|now right; right].
      rewrite E. destruct (Z.max_spec x z) as [[_ ->]|[_ ->]]; [right; now left | now left].
    + lia.
    + intros y [->|Hy]; [lia | now apply Hall].
Qed.

Lemma math_max_spec (l : list Z) (s : Z) :
  math_max l = Some s -> In s l /\ forall y, In y l -> y <= s.
Proof.
  destruct l as [|x r]; [discriminate|].
  simpl. intros H. injection H as <-.
  destruct (fold_max_spec r x) as (Hin & Hge & Hall).
  split.
  - destruct Hin as [->|Hin]; [now left | now right].
  - intros y [<-|Hy]; [exact Hge | now apply Hall].
Qed.

Lemma math_max_none (l : list Z) : math_max l = None -> l = [].
Proof. destruct l; [reflexivity | discriminate]. Qed.

Lemma latestSeasonOf_spec (d : list HeatmapCell) :
  match latestSeasonOf d with
  | Some s => (exists r, In r d /\ cellSeason r = s)
              /\ forall r, In r d -> cellSeason r <= s
  | None => d = []
  end.
Proof.
  unfold latestSeasonOf.
  destruct (math_max _) as [s|] eqn:E.
  - apply math_max_spec in E. destruct E as (Hin & Hmax).
    apply (proj1 (sort_in _ (fun a b => a - b) _ _)) in Hin.
    apply (proj1 (distinct_in _ Z.eqb Z.eqb_eq _ _)) in Hin.
    split.
    + apply in_map_iff in Hin. destruct Hin as (r & E & Hr). now exists r.
    + intros r Hr. apply Hmax.
      apply (sort_in _ (fun a b => a - b)).
      apply distinct_in; [apply Z.eqb_eq | now apply in_map].
  - apply math_max_none in E.
    destruct d as [|r d']; [reflexivity|].
    exfalso.
    assert (H : In (cellSeason r) (sort (fun a b => a - b)
                                     (distinct Z.eqb (map cellSeason (r :: d'))))).
    { apply (sort_in _ (fun a b => a - b)).
      apply distinct_in; [apply Z.eqb_eq | now left]. }
    rewrite E in H. destruct H.
Qed.

(** [latestRate]: the rate of the first record of the team in the latest
    season, and 0 when there is none. *)
Lemma latestRate_spec (d : list HeatmapCell) (a : string) :
  Heatmap.latestRate d a
  = match latestSeasonOf d with
    | Some s =>
        match List.find (fun r => (cellSeason r =? s) && String.eqb (abbr r) a) d with
        | Some r => threeRate r
        | None => 0%Q
        end
    | None => 0%Q
    end.
Proof.
  unfold Heatmap.latestRate, Heatmap.teamLatest. fold (latestSeasonOf d).
  rewrite get_rollup.
  destruct (latestSeasonOf d) as [s|].
  - rewrite filter_filter, find_filter_head.
    destruct (existsb _ _) eqn:E.
    + reflexivity.
    + destruct (List.find _ d) as [r|] eqn:F; [|reflexivity].
      exfalso. apply find_some in F. destruct F as (Hr & Hp).
      apply andb_true_iff in Hp. destruct Hp as (Hs & Ha).
      assert (Hex : existsb (fun d0 => String.eqb (abbr d0) a)
                      (List.filter (fun r0 => cellSeason r0 =? s) d) = true).
      { apply existsb_exists. exists r. split; [|exact Ha].
        apply filter_In. now split. }
      congruence.
  - assert (E : List.filter (fun _ : HeatmapCell => false) d = []).
    { induction d; simpl; auto. }
    rewrite E. reflexivity.
Qed.

(** ** The row order of the heatmap *)

Lemma descending_le (x y : Q) : D3lib.descending x y <= 0 <-> (y <= x)%Q.
Proof.
  unfold D3lib.descending.
  destruct (Qlt_le_dec y x); [split; intros; [lra | lia]|].
  destruct (Qlt_le_dec x y); split; intros; try lra; lia.
Qed.

Lemma descending_total (x y : Q) :
  0 < D3lib.descending x y -> D3lib.descending y x <= 0.
Proof.
  intros H. apply descending_le.
  destruct (Qlt_le_dec y x) as [Hlt|Hle]; [|exact Hle].
  exfalso. assert (D3lib.descending x y <= 0) by (apply descending_le; lra). lia.
Qed.

Lemma descending_trans (x y z : Q) :
  D3lib.descending x y <= 0 -> D3lib.descending y z <= 0 ->
  D3lib.descending x z <= 0.
Proof. rewrite !descending_le. intros. lra. Qed.

(** C4.  The rows of the heatmap are the distinct team codes of the data,
    each once, arranged by descending rate in the latest season, where the
    rate of a team is that of its record in the largest season present and 0
    when it has none.  Teams of equal rate stay in the order in which they
    first appear in the input: for every rate, the teams having it form the
    same sequence in the row order as in the order of first appearance. *)
Theorem heatmap_row_order (d : list HeatmapCell) :
  Permutation (Heatmap.teamOrder d) (firstSeen d)
  /\ NoDup (Heatmap.teamOrder d)
  /\ (forall a, In a (Heatmap.teamOrder d) <-> exists r, In r d /\ abbr r = a)
  /\ StronglySorted
       (fun a b => (Heatmap.latestRate d b <= Heatmap.latestRate d a)%Q)
       (Heatmap.teamOrder d)
  /\ (forall q,
        List.filter (fun a => Qeq_bool (Heatmap.latestRate d a) q) (Heatmap.teamOrder d)
        = List.filter (fun a => Qeq_bool (Heatmap.latestRate d a) q) (firstSeen d))
  /\ (forall a,
        Heatmap.latestRate d a
        = match latestSeasonOf d with
          | Some s =>
              match List.find
                      (fun r => (cellSeason r =? s) && String.eqb (abbr r) a) d with
              | Some r => threeRate r
              | None => 0%Q
              end
          | None => 0%Q
          end)
  /\ match latestSeasonOf d with
     | Some s => (exists r, In r d /\ cellSeason r = s)
                 /\ forall r, In r d -> cellSeason r <= s
     | None => d = []
     end
  /\ (forall (h : Heap HeatmapCell) (r : ref) (p : Page),
        nth_error h r = Some d -> exists_el p "#heatmapChart" = true ->
        exists c s,
          Heatmap.renderHeatmap r (mkState h p) = (Ok c, s)
          /\ Heatmap.teams c = Heatmap.teamOrder d).
Proof.
  assert (Hperm : Permutation (Heatmap.teamOrder d) (firstSeen d))
    by apply sort_perm.
  split; [exact Hperm|].
  split.
  { eapply Permutation_NoDup; [apply Permutation_sym, Hperm|].
    apply distinct_nodup, string_eqb_spec. }
  split.
  { intros a. unfold Heatmap.teamOrder. rewrite sort_in.
    rewrite (distinct_in _ String.eqb string_eqb_spec), in_map_iff.
    split; intros (r & H1 & H2); exists r; tauto. }
  split.
  { pose proof (sort_strongly_sorted string (rowComparator d)
                  (fun a b => descending_total _ _)
                  (fun a b c => descending_trans _ _ _) (firstSeen d)) as Hs.
    fold (rowComparator d) in Hs.
    change (Heatmap.teamOrder d) with (sort (rowComparator d) (firstSeen d)).
    induction Hs as [|x r Hs IH Hall]; constructor; [exact IH|].
    eapply Forall_impl; [|exact Hall].
    intros y Hy. now apply descending_le. }
  split.
  { intros q. apply sort_stable. intros x y Hx Hy.
    apply Qeq_bool_iff in Hx, Hy. apply descending_le. lra. }
  split; [intros a; apply latestRate_spec|].
  split; [apply latestSeasonOf_spec|].
  intros h r p Hr He. destruct (width_of_some _ _ He) as (w & Hw).
  unfold Heatmap.renderHeatmap. by_anchor; [|discriminate].
  do 2 eexists. split; reflexivity.
Qed.

Lemma teamOrder_example :
  Heatmap.teamOrder Sample.grid = ["GSW"; "BOS"; "LAL"; "SEA"]
  /\ firstSeen Sample.grid = ["BOS"; "SEA"; "LAL"; "GSW"].
Proof. split; reflexivity. Qed.

Lemma heatmap_row_order_witness :
  (nth_error [Sample.grid] 0 = Some Sample.grid
   /\ exists_el Sample.full "#heatmapChart" = true)
  /\ exists c s,
      Heatmap.renderHeatmap 0%nat (mkState [Sample.grid] Sample.full) = (Ok c, s)
      /\ Heatmap.teams c = Heatmap.teamOrder Sample.grid.
Proof.
  split; [split; reflexivity|].
  apply (proj2 (proj2 (proj2 (proj2 (proj2 (proj2 (proj2
           (heatmap_row_order Sample.grid))))))) [Sample.grid] 0%nat Sample.full);
    reflexivity.
Defined.

(** ** The keyed join of the scatter chart *)

Lemma find_from_shift (A : Type) (f : A -> bool) (l : list A) (i j : nat) :
  option_map snd (find_from f i l) = option_map snd (find_from f j l).
Proof.
  revert i j. induction l as [|x r IH]; intros i j; simpl; [reflexivity|].
  destruct (f x); [reflexivity | apply IH].
Qed.

Lemma find_from_pred (A : Type) (f : A -> bool) (l : list A) (i j : nat) (x : A) :
  find_from f i l = Some (j, x) ->
  f x = true /\ (i <= j)%nat /\ nth_error l (j - i) = Some x
  /\ forall m y, (m < j - i)%nat -> nth_error l m = Some y -> f y = false.
Proof.
  revert i. induction l as [|z r IH]; intros i H; [discriminate|].
  simpl in H. destruct (f z) eqn:Fz.
  - injection H as <- <-. rewrite Nat.sub_diag. repeat split; auto.
    intros m y Hm. lia.
  - destruct (IH (S i) H) as (Fx & Hle & Hn & Hbefore).
    repeat split; auto; try lia.
    + replace (j - i)%nat with (S (j - S i)) by lia. exact Hn.
    + intros m y Hm Hy. destruct m as [|m]; simpl in Hy.
      * injection Hy as <-. exact Fz.
      * apply (Hbefore m y); [lia | exact Hy].
Qed.

Section JoinFacts.
Context {d3 : D3}.

Local Abbreviation slots_from := (D3lib.slots_from Scatter.keyOf teamId Z.eqb).
Local Abbreviation slots := (D3lib.slots Scatter.keyOf teamId Z.eqb).
Local Abbreviation first_with := (D3lib.first_with Scatter.keyOf Z.eqb).
Local Abbreviation matched := (D3lib.matched Scatter.keyOf teamId Z.eqb).

Lemma z_has (seen : list Z) (x : Z) : has Z.eqb seen x = true <-> In x seen.
Proof. apply has_spec, Z.eqb_eq. Qed.

Lemma slots_from_length (seen : list Z) (g : list Scatter.Circle)
      (ds : list TeamSeasonStat) :
  List.length (slots_from seen g ds) = List.length ds.
Proof.
  revert seen. induction ds as [|d r IH]; intros seen; simpl; [reflexivity|].
  now rewrite IH.
Qed.

(** A datum that updates a node is the first of its key, and the node is the
    first of that key. *)
Lemma slots_from_some (seen : list Z) (g : list Scatter.Circle)
      (ds : list TeamSeasonStat) (i : nat) (d : TeamSeasonStat) (n : Scatter.Circle) :
  nth_error ds i = Some d ->
  nth_error (slots_from seen g ds) i = Some (Some n) ->
  (exists j, first_with (teamId d) g = Some (j, n))
  /\ option_map snd (JS.find (fun d' => teamId d' =? teamId d) ds) = Some d.
Proof.
  revert seen i. induction ds as [|d0 r IH]; intros seen i Hd Hs.
  - destruct i; discriminate.
  - destruct i as [|i]; simpl in Hd, Hs.
    + injection Hd as ->. injection Hs as Hs.
      destruct (has Z.eqb seen (teamId d)); [discriminate|].
      split.
      * destruct (first_with (teamId d) g) as [[j n']|]; [|discriminate].
        simpl in Hs. injection Hs as ->. now exists j.
      * unfold JS.find. simpl. now rewrite Z.eqb_refl.
    + destruct (IH (teamId d0 :: seen) i Hd Hs) as (Hfirst & Hfind).
      split; [exact Hfirst|].
      assert (Hseen : has Z.eqb (teamId d0 :: seen) (teamId d) = false).
      { clear - Hd Hs. revert i Hd Hs. generalize (teamId d0 :: seen) as sn.
        induction r as [|d1 r IH]; intros sn i Hd Hs; [destruct i; discriminate|].
        destruct i as [|i]; simpl in Hd, Hs.
        - injection Hd as ->. injection Hs as Hs.
          destruct (has Z.eqb sn (teamId d)); [discriminate | reflexivity].
        - specialize (IH _ i Hd Hs). unfold has in *. simpl in IH.
          apply orb_false_iff in IH. tauto. }
      unfold has in Hseen. simpl in Hseen. apply orb_false_iff in Hseen.
      destruct Hseen as (Hne & _).
      unfold JS.find. simpl. rewrite Z.eqb_sym, Hne.
      rewrite (find_from_shift _ _ r 1 0). exact Hfind.
Qed.

Lemma rebound_nodes (c : Scatter.Chart) (g : list Scatter.Circle)
      (ds : list TeamSeasonStat) :
  map Scatter.node (Scatter.rebound c g ds) = map Scatter.node g.
Proof.
  unfold Scatter.rebound. rewrite map_map.
  assert (H : forall (l : list Scatter.Circle) (s : nat),
             map (fun p : nat * Scatter.Circle =>
                    Scatter.node
                      match matched g ds (fst p) (snd p) with
                      | Some d => Scatter.updated c (snd p) d
                      | None => Scatter.exiting (snd p)
                      end)
                 (combine (seq s (List.length l)) l)
             = map Scatter.node l).
  { induction l as [|k r IH]; intros s; simpl; [reflexivity|].
    rewrite IH. f_equal. destruct (matched g ds s k); reflexivity. }
  apply H.
Qed.

(** What stands at a position after rebinding. *)
Lemma rebound_nth (c : Scatter.Chart) (g : list Scatter.Circle)
      (ds : list TeamSeasonStat) (i : nat) (k : Scatter.Circle) :
  nth_error g i = Some k ->
  nth_error (Scatter.rebound c g ds) i
  = Some (match matched g ds i k with
          | Some d => Scatter.updated c k d
          | None => Scatter.exiting k
          end).
Proof.
  intros H. unfold Scatter.rebound.
  rewrite nth_error_map.
  assert (E : forall (l : list Scatter.Circle) (s j : nat),
             nth_error l j = Some k ->
             nth_error (combine (seq s (List.length l)) l) j = Some ((s + j)%nat, k)).
  { induction l as [|x r IH]; intros s j Hj; [destruct j; discriminate|].
    destruct j as [|j]; simpl in *.
    - injection Hj as ->. now rewrite Nat.add_0_r.
    - rewrite (IH (S s) j Hj). do 2 f_equal. lia. }
  rewrite (E g 0%nat i H). reflexivity.
Qed.

Lemma rebound_in (c : Scatter.Chart) (g : list Scatter.Circle)
      (ds : list TeamSeasonStat) (k' : Scatter.Circle) :
  In k' (Scatter.rebound c g ds) ->
  exists i k,
    nth_error g i = Some k
    /\ k' = match matched g ds i k with
            | Some d => Scatter.updated c k d
            | None => Scatter.exiting k
            end.
Proof.
  intros H. destruct (In_nth_error _ _ H) as (i & Hi).
  assert (Hlt : (i < List.length g)%nat).
  { apply nth_error_Some_lt in Hi.
    unfold Scatter.rebound in Hi. rewrite length_map, length_combine, length_seq in Hi.
    lia. }
  destruct (nth_error g i) as [k|] eqn:E; [|apply nth_error_None in E; lia].
  exists i, k. split; [exact E|].
  rewrite (rebound_nth c g ds i k E) in Hi. now injection Hi.
Qed.

Lemma insert_before_perm (k : Scatter.Circle) (next : option nat)
      (l : list Scatter.Circle) :
  Permutation (Scatter.insert_before k next l) (k :: l).
Proof.
  induction l as [|x r IH]; simpl; [apply Permutation_refl|].
  destruct next as [n|].
  - destruct (Scatter.node x =? n)%nat; [apply Permutation_refl|].
    eapply perm_trans; [apply perm_skip, IH | apply perm_swap].
  - eapply perm_trans; [apply perm_skip, IH | apply perm_swap].
Qed.

Lemma enter_spec (c : Scatter.Chart) (ds : list TeamSeasonStat)
      (sl : list (option Scatter.Circle)) (l : list Scatter.Circle) (fresh : nat) :
  exists l',
    Scatter.enter c ds sl l fresh
    = (merged ds sl fresh, l', (fresh + List.length (news c ds sl fresh))%nat)
    /\ Permutation l' (news c ds sl fresh ++ l).
Proof.
  revert sl l fresh. induction ds as [|d r IH]; intros sl l fresh.
  - exists l. simpl. rewrite Nat.add_0_r. split; [reflexivity | apply Permutation_refl].
  - destruct sl as [|[k|] sl'].
    + exists l. simpl. rewrite Nat.add_0_r. split; [reflexivity | apply Permutation_refl].
    + destruct (IH sl' l fresh) as (l' & E & Hp).
      exists l'. simpl. rewrite E. split; [reflexivity | exact Hp].
    + destruct (IH sl' (Scatter.insert_before (Scatter.entered c fresh d)
                          (Scatter.next_update sl') l) (S fresh))
        as (l' & E & Hp).
      exists l'. simpl. rewrite E. split.
      * rewrite Nat.add_succ_r. reflexivity.
      * eapply perm_trans; [exact Hp|].
        eapply perm_trans;
          [apply Permutation_app_head, insert_before_perm|].
        apply Permutation_sym, Permutation_middle.
Qed.

Lemma move_before_perm (a b : nat) (l : list Scatter.Circle) :
  NoDup (map Scatter.node l) ->
  Permutation (Scatter.move_before a b l) l.
Proof.
  intros Hnd. unfold Scatter.move_before.
  destruct (List.find _ l) as [k|] eqn:F; [|apply Permutation_refl].
  eapply perm_trans; [apply insert_before_perm|].
  apply find_some in F. destruct F as (Hin & Hk). apply Nat.eqb_eq in Hk.
  clear - Hnd Hin Hk. induction l as [|x r IH]; [destruct Hin|].
  simpl in Hnd. inversion Hnd as [|? ? Hnot Hnd']; subst.
  simpl. destruct Hin as [->|Hin].
  - rewrite Nat.eqb_refl. simpl. apply perm_skip.
    rewrite forallb_filter_id; [apply Permutation_refl|].
    apply forallb_forall. intros y Hy. apply negb_true_iff, Nat.eqb_neq.
    intros E. apply Hnot. rewrite <- E. now apply in_map.
  - destruct (Scatter.node x =? Scatter.node k)%nat eqn:E.
    + apply Nat.eqb_eq in E. exfalso. apply Hnot. rewrite E. now apply in_map.
    + simpl. eapply perm_trans; [apply perm_swap|]. apply perm_skip. now apply IH.
Qed.

Lemma insert_before_in (k x : Scatter.Circle) (next : option nat)
      (l : list Scatter.Circle) :
  In x (Scatter.insert_before k next l) <-> x = k \/ In x l.
Proof.
  split; intros H.
  - apply (Permutation_in _ (insert_before_perm k next l)) in H.
    destruct H as [<-|H]; auto.
  - apply (Permutation_in _ (Permutation_sym (insert_before_perm k next l))).
    destruct H as [->|H]; [now left | now right].
Qed.

Lemma move_before_incl (a b : nat) (l : list Scatter.Circle) (x : Scatter.Circle) :
  In x (Scatter.move_before a b l) -> In x l.
Proof.
  unfold Scatter.move_before.
  destruct (List.find _ l) as [k|] eqn:F; [|auto].
  intros H. apply insert_before_in in H. destruct H as [->|H].
  - now apply find_some in F.
  - now apply filter_In in H.
Qed.

Lemma order_incl (ids : list nat) (l : list Scatter.Circle) (x : Scatter.Circle) :
  In x (Scatter.order ids l) -> In x l.
Proof.
  revert x. induction ids as [|a rest IH]; intros x H; [exact H|].
  simpl in H. destruct rest as [|b rest']; [now apply IH|].
  destruct (Scatter.precedes a b _); [now apply IH|].
  apply IH. eapply move_before_incl; exact H.
Qed.

Lemma order_perm (ids : list nat) (l : list Scatter.Circle) :
  NoDup (map Scatter.node l) -> Permutation (Scatter.order ids l) l.
Proof.
  intros Hnd. induction ids as [|a rest IH]; [apply Permutation_refl|].
  simpl. destruct rest as [|b rest']; [exact IH|].
  destruct (Scatter.precedes a b _); [exact IH|].
  eapply perm_trans; [apply move_before_perm | exact IH].
  eapply Permutation_NoDup; [|exact Hnd].
  apply Permutation_map, Permutation_sym, IH.
Qed.

Lemma news_nodes (c : Scatter.Chart) (ds : list TeamSeasonStat)
      (sl : list (option Scatter.Circle)) (fresh : nat) :
  map Scatter.node (news c ds sl fresh)
  = seq fresh (List.length (news c ds sl fresh)).
Proof.
  revert sl fresh. induction ds as [|d r IH]; intros sl fresh; [reflexivity|].
  destruct sl as [|[k|] sl']; simpl; [reflexivity | apply IH |].
  now rewrite IH.
Qed.

Lemma news_in (c : Scatter.Chart) (ds : list TeamSeasonStat)
      (sl : list (option Scatter.Circle)) (fresh : nat) (k : Scatter.Circle) :
  In k (news c ds sl fresh) ->
  exists i d n,
    nth_error ds i = Some d /\ nth_error sl i = Some None
    /\ k = Scatter.entered c n d /\ (fresh <= n)%nat.
Proof.
  revert sl fresh. induction ds as [|d r IH]; intros sl fresh H; [destruct H|].
  destruct sl as [|[k0|] sl']; simpl in H; [destruct H | |].
  - destruct (IH sl' fresh H) as (i & d' & n & H1 & H2 & H3 & H4).
    exists (S i), d', n. auto.
  - destruct H as [<-|H].
    + exists 0%nat, d, fresh. auto.
    + destruct (IH sl' (S fresh) H) as (i & d' & n & H1 & H2 & H3 & H4).
      exists (S i), d', n. repeat split; auto. lia.
Qed.

Lemma news_complete (c : Scatter.Chart) (ds : list TeamSeasonStat)
      (sl : list (option Scatter.Circle)) (fresh : nat) (i : nat) (d : TeamSeasonStat) :
  nth_error ds i = Some d -> nth_error sl i = Some None ->
  exists n, In (Scatter.entered c n d) (news c ds sl fresh)
            /\ nth_error (merged ds sl fresh) i = Some n.
Proof.
  revert sl fresh i. induction ds as [|d0 r IH]; intros sl fresh i Hd Hs;
    [destruct i; discriminate|].
  destruct sl as [|[k0|] sl']; [destruct i; discriminate | |];
    destruct i as [|i]; simpl in Hd, Hs; try discriminate.
  - destruct (IH sl' fresh i Hd Hs) as (n & H1 & H2). exists n. auto.
  - injection Hd as ->. exists fresh. simpl. auto.
  - destruct (IH sl' (S fresh) i Hd Hs) as (n & H1 & H2). exists n. simpl. auto.
Qed.

(** The layer after a join, before [order] arranges it. *)
Lemma joinSeason_layer (c : Scatter.Chart) (ds : list TeamSeasonStat) :
  exists l1,
    Scatter.joinSeason c ds
    = Scatter.set_layer
        (Scatter.order (merged ds (slots (Scatter.layer c) ds) (Scatter.nextNode c)) l1)
        (Scatter.nextNode c
         + List.length (news c ds (slots (Scatter.layer c) ds) (Scatter.nextNode c)))%nat
        c
    /\ Permutation l1
         (news c ds (slots (Scatter.layer c) ds) (Scatter.nextNode c)
          ++ Scatter.rebound c (Scatter.layer c) ds).
Proof.
  unfold Scatter.joinSeason.
  destruct (enter_spec c ds (slots (Scatter.layer c) ds)
              (Scatter.rebound c (Scatter.layer c) ds) (Scatter.nextNode c))
    as (l1 & E & Hp).
  exists l1. rewrite E. split; [reflexivity | exact Hp].
Qed.

Lemma joined_nodup (c : Scatter.Chart) (ds : list TeamSeasonStat)
      (l1 : list Scatter.Circle) :
  wf c ->
  Permutation l1
    (news c ds (slots (Scatter.layer c) ds) (Scatter.nextNode c)
     ++ Scatter.rebound c (Scatter.layer c) ds) ->
  NoDup (map Scatter.node l1).
Proof.
  intros (Hnd & Hlt) Hp.
  eapply Permutation_NoDup; [apply Permutation_map, Permutation_sym, Hp|].
  rewrite map_app, news_nodes, rebound_nodes.
  apply NoDup_app; [apply seq_NoDup | exact Hnd |].
  intros n Hn Hin. apply in_seq in Hn.
  apply in_map_iff in Hin. destruct Hin as (k & <- & Hk).
  specialize (Hlt k Hk). lia.
Qed.

(** Every circle that stays after a join is bound to a record and heads for
    the target of that record. *)
Lemma joinSeason_bound (c : Scatter.Chart) (ds : list TeamSeasonStat)
      (k : Scatter.Circle) :
  In k (Scatter.layer (Scatter.joinSeason c ds)) ->
  Scatter.leaving k = false ->
  Scatter.goal k = Scatter.target c (Scatter.datum k).
Proof.
  destruct (joinSeason_layer c ds) as (l1 & -> & Hp).
  cbn [Scatter.layer Scatter.set_layer]. intros Hin Hl.
  apply order_incl in Hin.
  apply (Permutation_in _ Hp) in Hin. apply in_app_or in Hin.
  destruct Hin as [Hin|Hin].
  - apply news_in in Hin. destruct Hin as (i & d & n & _ & _ & -> & _). reflexivity.
  - apply rebound_in in Hin. destruct Hin as (i & k0 & _ & ->).
    destruct (matched _ ds i k0); [reflexivity | discriminate].
Qed.

(** Every record of the season has its circle. *)
Lemma joinSeason_covers (c : Scatter.Chart) (ds : list TeamSeasonStat)
      (d : TeamSeasonStat) :
  wf c -> In d ds ->
  exists k,
    In k (Scatter.layer (Scatter.joinSeason c ds))
    /\ Scatter.leaving k = false /\ Scatter.datum k = d
    /\ Scatter.goal k = Scatter.target c d.
Proof.
  intros Hwf Hd.
  destruct (joinSeason_layer c ds) as (l1 & -> & Hp).
  cbn [Scatter.layer Scatter.set_layer].
  pose proof (joined_nodup c ds l1 Hwf Hp) as Hnd.
  assert (Hsome : exists k, In k l1 /\ Scatter.leaving k = false
                            /\ Scatter.datum k = d
                            /\ Scatter.goal k = Scatter.target c d).
  { destruct (In_nth_error _ _ Hd) as (i & Hi).
    destruct (nth_error (slots (Scatter.layer c) ds) i) as [[n|]|] eqn:Es.
    - destruct (slots_from_some [] (Scatter.layer c) ds i d n Hi Es)
        as ((j & Hfirst) & Hfind).
      destruct (find_from_pred _ _ _ _ _ _ Hfirst) as (Hkey & _ & Hn & _).
      rewrite Nat.sub_0_r in Hn. apply Z.eqb_eq in Hkey.
      exists (Scatter.updated c n d). split; [|auto].
      apply (Permutation_in _ (Permutation_sym Hp)). apply in_or_app. right.
      eapply nth_error_In. rewrite (rebound_nth c _ ds j n Hn).
      unfold D3lib.matched. rewrite Hkey, Hfirst, Nat.eqb_refl.
      unfold JS.find in Hfind. unfold JS.find. rewrite Hfind. reflexivity.
    - destruct (news_complete c ds _ (Scatter.nextNode c) i d Hi Es) as (n & Hn & _).
      exists (Scatter.entered c n d). split; [|auto].
      apply (Permutation_in _ (Permutation_sym Hp)). apply in_or_app. now left.
    - apply nth_error_None in Es. unfold D3lib.slots in Es.
      rewrite slots_from_length in Es. apply nth_error_Some_lt in Hi. lia. }
  destruct Hsome as (k & Hin & H1 & H2 & H3).
  exists k. split; [|auto].
  apply (Permutation_in _ (Permutation_sym (order_perm _ l1 Hnd))). exact Hin.
Qed.

(** C5.  [updateSeason] never throws.  After it, a circle bound to a record
    without [winPct] heads for the radius that the scale gives to 0.5, and
    the tooltip shown on entering it ends with "Win %: N/A"; every record of
    the season has such a circle. *)
Theorem missing_winPct_defaults (c : Scatter.Chart) (z : Z) (s : State TeamSeasonStat) :
  exists c' s',
    Scatter.updateSeason c z s = (Ok c', s')
    /\ (forall k,
          In k (Scatter.layer c') -> Scatter.leaving k = false ->
          winPct (Scatter.datum k) = None ->
          snd (Scatter.goal k) = Scatter.r (1 # 2)
          /\ Scatter.pointerEnter k s'
             = (Ok tt,
                mkState (heap s')
                  (show_tooltip
                     (JS.join ""
                        [ "<strong>"; city (Scatter.datum k); " ";
                          match team (Scatter.datum k) with Some t => t | None => "" end;
                          "</strong><br>";
                          numberFmt (teamThreeAttempts (Scatter.datum k)); " 3PA • ";
                          numberFmt (threePct (Scatter.datum k) * 100)%Q;
                          "%<br>Win %: "; "N/A" ])
                     (page s'))))
    /\ (wf c ->
        forall d, In d (seasonDataOf c z) ->
          exists k, In k (Scatter.layer c') /\ Scatter.leaving k = false
                    /\ Scatter.datum k = d
                    /\ Scatter.goal k = Scatter.target c d).
Proof.
  destruct s as [h p].
  exists (Scatter.joinSeason c (seasonDataOf c z)). eexists.
  split; [unfold Scatter.updateSeason; steps; reflexivity|].
  split.
  - intros k Hin Hl Hw. split.
    + rewrite (joinSeason_bound c _ k Hin Hl). unfold Scatter.target.
      cbn [snd]. now rewrite Hw.
    + unfold Scatter.pointerEnter, on_page, Scatter.tooltipOf.
      rewrite Hw. reflexivity.
  - intros Hwf d Hd. now apply joinSeason_covers.
Qed.

(** ** Document order *)

Lemma subseq_in (A : Type) (s l : list A) (x : A) :
  subseq s l -> In x s -> In x l.
Proof.
  induction 1 as [l|y s l H IH|y s l H IH]; intros Hx.
  - destruct Hx.
  - destruct Hx as [->|Hx]; [now left | right; auto].
  - right; auto.
Qed.

Lemma subseq_tail (A : Type) (a : A) (s l : list A) :
  subseq (a :: s) l -> subseq s l.
Proof.
  intros H. remember (a :: s) as t eqn:E. revert a s E.
  induction H as [l|y t l H IH|y t l H IH]; intros a s E.
  - discriminate.
  - injection E as -> ->. now apply subseq_skip.
  - apply subseq_skip. eapply IH; exact E.
Qed.

Lemma subseq_prefix (A : Type) (s p q : list A) :
  subseq s q -> subseq s (p ++ q).
Proof. intros H. induction p; simpl; [exact H | now apply subseq_skip]. Qed.

Lemma subseq_skip_prefix (A : Type) (b : A) (r p q : list A) :
  subseq (b :: r) (p ++ q) -> ~ In b p -> subseq (b :: r) q.
Proof.
  induction p as [|x p IH]; simpl; intros H Hb; [exact H|].
  inversion H; subst.
  - exfalso. apply Hb. now left.
  - apply IH; [assumption | tauto].
Qed.

Lemma subseq_head (A : Type) (b : A) (r q : list A) :
  subseq (b :: r) (b :: q) -> ~ In b q -> subseq r q.
Proof.
  intros H Hb. inversion H; subst; [assumption|].
  exfalso. apply Hb. eapply subseq_in; [eassumption | now left].
Qed.

Lemma subseq_drop (A : Type) (a : A) (r p q : list A) :
  subseq r (p ++ a :: q) -> ~ In a r -> subseq r (p ++ q).
Proof.
  revert r. induction p as [|x p IH]; simpl; intros r H Ha.
  - inversion H; subst; [constructor | | assumption].
    exfalso. apply Ha. now left.
  - inversion H; subst.
    + constructor.
    + apply subseq_take. apply IH; [assumption|]. simpl in Ha. tauto.
    + apply subseq_skip. now apply IH.
Qed.

Lemma position_none (n : nat) (l : list Scatter.Circle) :
  Scatter.position n l = None <-> ~ In n (nodes l).
Proof.
  induction l as [|x r IH]; simpl; [tauto|].
  destruct (Nat.eqb_spec (Scatter.node x) n) as [E|E].
  - split; [discriminate | tauto].
  - destruct (Scatter.position n r); simpl.
    + split; [discriminate|]. intros H. exfalso.
      assert (Hn : ~ In n (nodes r)) by tauto.
      apply IH in Hn. discriminate.
    + split; [|reflexivity]. intros _ [H|H]; [congruence|].
      now apply (proj1 IH eq_refl).
Qed.

Lemma position_split (n i : nat) (l : list Scatter.Circle) :
  Scatter.position n l = Some i ->
  exists p K q,
    l = p ++ K :: q /\ Scatter.node K = n /\ ~ In n (nodes p) /\ List.length p = i.
Proof.
  revert i. induction l as [|x r IH]; simpl; intros i H; [discriminate|].
  destruct (Nat.eqb_spec (Scatter.node x) n) as [E|E].
  - injection H as <-. exists [], x, r. repeat split; auto.
  - destruct (Scatter.position n r) as [j|]; [|discriminate].
    simpl in H. injection H as <-.
    destruct (IH j eq_refl) as (p & K & q & -> & HK & Hp & Hlen).
    exists (x :: p), K, q. repeat split; auto.
    + simpl. intros [H|H]; [congruence | tauto].
    + simpl. now rewrite Hlen.
Qed.

Lemma position_app_left (n : nat) (p q : list Scatter.Circle) :
  In n (nodes p) -> Scatter.position n (p ++ q) = Scatter.position n p.
Proof.
  induction p as [|x p IH]; simpl; intros H; [destruct H|].
  destruct (Nat.eqb_spec (Scatter.node x) n) as [E|E]; [reflexivity|].
  rewrite IH; [reflexivity|]. destruct H; [congruence | assumption].
Qed.

Lemma position_app_right (n : nat) (p q : list Scatter.Circle) :
  ~ In n (nodes p) ->
  Scatter.position n (p ++ q)
  = option_map (Nat.add (List.length p)) (Scatter.position n q).
Proof.
  induction p as [|x p IH]; simpl; intros H.
  - destruct (Scatter.position n q); reflexivity.
  - destruct (Nat.eqb_spec (Scatter.node x) n) as [E|E]; [tauto|].
    rewrite IH by tauto. destruct (Scatter.position n q); reflexivity.
Qed.

Lemma position_bound (n i : nat) (l : list Scatter.Circle) :
  Scatter.position n l = Some i -> (i < List.length l)%nat.
Proof.
  intros H. destruct (position_split n i l H) as (p & K & q & -> & _ & _ & <-).
  rewrite length_app. simpl. lia.
Qed.

Lemma position_here (K : Scatter.Circle) (p q : list Scatter.Circle) :
  ~ In (Scatter.node K) (nodes p) ->
  Scatter.position (Scatter.node K) (p ++ K :: q) = Some (List.length p).
Proof.
  intros H. rewrite position_app_right by exact H.
  simpl. rewrite Nat.eqb_refl. simpl. now rewrite Nat.add_0_r.
Qed.

Lemma nodup_middle (p q : list Scatter.Circle) (K : Scatter.Circle) :
  NoDup (nodes (p ++ K :: q)) ->
  ~ In (Scatter.node K) (nodes p) /\ ~ In (Scatter.node K) (nodes q)
  /\ NoDup (nodes (p ++ q)).
Proof.
  rewrite !map_app. simpl. intros H.
  pose proof (NoDup_remove_1 _ _ _ H) as H1.
  pose proof (NoDup_remove_2 _ _ _ H) as H2.
  rewrite in_app_iff in H2. tauto.
Qed.

(** The two shapes of a layer with respect to two of its nodes. *)
Lemma precedes_true_split (a b : nat) (l : list Scatter.Circle) :
  Scatter.precedes a b l = true ->
  exists p K q,
    l = p ++ K :: q /\ Scatter.node K = a
    /\ ~ In a (nodes p) /\ ~ In b (nodes p) /\ a <> b.
Proof.
  unfold Scatter.precedes.
  destruct (Scatter.position a l) as [i|] eqn:Ea; [|discriminate].
  destruct (Scatter.position b l) as [j|] eqn:Eb; [|discriminate].
  intros H. apply Nat.ltb_lt in H.
  destruct (position_split a i l Ea) as (p & K & q & -> & HK & Hp & Hlen).
  exists p, K, q. repeat split; auto.
  - intros Hb. rewrite position_app_left in Eb by exact Hb.
    apply position_bound in Eb. lia.
  - intros ->. rewrite Ea in Eb. injection Eb as ->. lia.
Qed.

Lemma precedes_false_split (a b : nat) (l : list Scatter.Circle) :
  NoDup (nodes l) -> In a (nodes l) -> In b (nodes l) -> a <> b ->
  Scatter.precedes a b l = false ->
  exists m1 B m2 A l2,
    l = m1 ++ B :: m2 ++ A :: l2 /\ Scatter.node A = a /\ Scatter.node B = b.
Proof.
  intros Hnd Ha Hb Hab H.
  destruct (Scatter.position b l) as [j|] eqn:Eb;
    [|apply position_none in Eb; tauto].
  destruct (position_split b j l Eb) as (m1 & B & q & -> & HB & Hm1 & Hlen).
  destruct (nodup_middle m1 q B Hnd) as (_ & HBq & _).
  assert (Haq : In a (nodes q)).
  { rewrite map_app in Ha. simpl in Ha. apply in_app_or in Ha.
    destruct Ha as [Ha|[Ha|Ha]]; [|congruence | exact Ha].
    exfalso. unfold Scatter.precedes in H.
    rewrite position_app_left in H by exact Ha. rewrite Eb in H.
    destruct (Scatter.position a m1) as [i|] eqn:Ea;
      [|apply position_none in Ea; tauto].
    apply position_bound in Ea.
    assert ((i <? j)%nat = true) by (apply Nat.ltb_lt; lia). congruence. }
  apply in_map_iff in Haq. destruct Haq as (A & HA & Hin).
  apply in_split in Hin. destruct Hin as (m2 & l2 & ->).
  exists m1, B, m2, A, l2. auto.
Qed.

Lemma filter_all (A : Type) (f : A -> bool) (l : list A) :
  (forall x, In x l -> f x = true) -> List.filter f l = l.
Proof. intros H. apply forallb_filter_id, forallb_forall, H. Qed.

Lemma move_before_shape (m1 m2 l2 : list Scatter.Circle) (A B : Scatter.Circle) :
  NoDup (nodes (m1 ++ B :: m2 ++ A :: l2)) ->
  Scatter.move_before (Scatter.node A) (Scatter.node B) (m1 ++ B :: m2 ++ A :: l2)
  = m1 ++ A :: B :: m2 ++ l2.
Proof.
  intros Hnd.
  assert (Hne : forall x, In x (m1 ++ B :: m2 ++ l2) ->
                          Scatter.node x <> Scatter.node A).
  { change (m1 ++ B :: m2 ++ A :: l2) with (m1 ++ (B :: m2) ++ A :: l2) in Hnd.
    rewrite app_assoc in Hnd.
    destruct (nodup_middle _ _ _ Hnd) as (H1 & H2 & _).
    intros x Hx E.
    change (m1 ++ B :: m2 ++ l2) with (m1 ++ (B :: m2) ++ l2) in Hx.
    rewrite app_assoc in Hx. apply in_app_or in Hx.
    destruct Hx as [Hx|Hx]; [apply H1 | apply H2]; rewrite <- E; now apply in_map. }
  assert (HB1 : ~ In (Scatter.node B) (nodes m1))
    by (destruct (nodup_middle _ _ _ Hnd); tauto).
  unfold Scatter.move_before.
  assert (Hfind : List.find (fun x => (Scatter.node x =? Scatter.node A)%nat)
                    (m1 ++ B :: m2 ++ A :: l2) = Some A).
  { clear - Hne.
    assert (H : forall pre post,
               (forall x, In x pre -> Scatter.node x <> Scatter.node A) ->
               List.find (fun x => (Scatter.node x =? Scatter.node A)%nat)
                 (pre ++ A :: post) = Some A).
    { induction pre as [|x pre IH]; intros post Hp; simpl.
      - now rewrite Nat.eqb_refl.
      - destruct (Nat.eqb_spec (Scatter.node x) (Scatter.node A)) as [E|E].
        + exfalso. apply (Hp x); [now left | exact E].
        + apply IH. intros y Hy. apply Hp. now right. }
    change (m1 ++ B :: m2 ++ A :: l2) with (m1 ++ (B :: m2) ++ A :: l2).
    rewrite app_assoc. apply H. intros x Hx. apply Hne.
    apply in_app_or in Hx. apply in_or_app.
    destruct Hx as [Hx|[Hx|Hx]]; [now left | right; now left |].
    right. right. apply in_or_app. now left. }
  rewrite Hfind.
  assert (Hfilter : List.filter (fun x => negb (Scatter.node x =? Scatter.node A)%nat)
                      (m1 ++ B :: m2 ++ A :: l2) = m1 ++ B :: m2 ++ l2).
  { change (m1 ++ B :: m2 ++ A :: l2) with (m1 ++ (B :: m2) ++ A :: l2).
    rewrite app_assoc, filter_app. simpl. rewrite Nat.eqb_refl. simpl.
    rewrite <- filter_app, <- app_assoc. simpl.
    apply filter_all. intros x Hx. apply negb_true_iff, Nat.eqb_neq. now apply Hne. }
  rewrite Hfilter.
  clear - HB1. induction m1 as [|x m1 IH]; simpl.
  - now rewrite Nat.eqb_refl.
  - destruct (Nat.eqb_spec (Scatter.node x) (Scatter.node B)) as [E|E].
    + exfalso. apply HB1. simpl. now left.
    + f_equal. apply IH. simpl in HB1. tauto.
Qed.

Lemma position_some (n : nat) (l : list Scatter.Circle) :
  In n (nodes l) -> exists i, Scatter.position n l = Some i.
Proof.
  intros H. destruct (Scatter.position n l) as [i|] eqn:E; [eauto|].
  apply position_none in E. tauto.
Qed.

Lemma subseq_precedes (a b : nat) (r : list nat) (l : list Scatter.Circle) :
  NoDup (nodes l) -> subseq (a :: b :: r) (nodes l) ->
  Scatter.precedes a b l = true.
Proof.
  induction l as [|x l IH]; simpl; intros Hnd H; [inversion H|].
  inversion Hnd as [|? ? Hnot Hnd']; subst.
  unfold Scatter.precedes. simpl.
  inversion H; subst.
  - rewrite Nat.eqb_refl.
    assert (Hb : In b (nodes l)) by (eapply subseq_in; [eassumption | now left]).
    destruct (Nat.eqb_spec (Scatter.node x) b) as [E|E]; [congruence|].
    destruct (position_some b l Hb) as (j & ->). reflexivity.
  - assert (Ha : In a (nodes l)) by (eapply subseq_in; [eassumption | now left]).
    assert (Hb : In b (nodes l))
      by (eapply subseq_in; [eassumption | right; now left]).
    destruct (Nat.eqb_spec (Scatter.node x) a) as [E|E]; [congruence|].
    destruct (Nat.eqb_spec (Scatter.node x) b) as [E'|E']; [congruence|].
    specialize (IH Hnd' H2). unfold Scatter.precedes in IH.
    destruct (Scatter.position a l), (Scatter.position b l); try discriminate.
    exact IH.
Qed.

(** A layer whose selection is already in document order is left alone. *)
Lemma order_fix (ids : list nat) (l : list Scatter.Circle) :
  NoDup (nodes l) -> subseq ids (nodes l) -> Scatter.order ids l = l.
Proof.
  intros Hnd. induction ids as [|a rest IH]; intros H; [reflexivity|].
  simpl. rewrite IH by (eapply subseq_tail; exact H).
  destruct rest as [|b rest']; [reflexivity|].
  now rewrite (subseq_precedes a b rest' l Hnd H).
Qed.

Lemma subseq_single (A : Type) (a : A) (l : list A) : In a l -> subseq [a] l.
Proof.
  induction l as [|x l IH]; intros H; [destruct H|].
  destruct H as [->|H].
  - apply subseq_take, subseq_nil.
  - apply subseq_skip, IH, H.
Qed.

(** [order] puts the selection in document order. *)
Lemma order_arranged (ids : list nat) (l : list Scatter.Circle) :
  NoDup ids -> (forall a, In a ids -> In a (nodes l)) -> NoDup (nodes l) ->
  subseq ids (nodes (Scatter.order ids l)).
Proof.
  intros Hids Hin Hnd. induction ids as [|a rest IH]; [constructor|].
  inversion Hids as [|? ? Ha Hrest]; subst.
  assert (IH' : subseq rest (nodes (Scatter.order rest l)))
    by (apply IH; [exact Hrest | intros; apply Hin; now right]).
  pose proof (order_perm rest l Hnd) as Hp.
  assert (Hnd' : NoDup (nodes (Scatter.order rest l))).
  { eapply Permutation_NoDup; [apply Permutation_map, Permutation_sym, Hp | exact Hnd]. }
  assert (Hmem : forall n, In n (nodes l) -> In n (nodes (Scatter.order rest l))).
  { intros n. apply Permutation_in, Permutation_map, Permutation_sym, Hp. }
  simpl. destruct rest as [|b rest'].
  - apply subseq_single. simpl. apply Hin. now left.
  - set (l' := Scatter.order (b :: rest') l) in *.
    assert (Hab : a <> b) by (intros ->; apply Ha; now left).
    destruct (Scatter.precedes a b l') eqn:Ep.
    + destruct (precedes_true_split a b l' Ep) as (p & K & q & E & HK & Hap & Hbp & _).
      rewrite E, map_app in *. simpl in *. rewrite HK in *.
      apply subseq_prefix, subseq_take.
      apply (subseq_skip_prefix _ b rest' (nodes p ++ [a]) (nodes q)).
      * now rewrite <- app_assoc.
      * rewrite in_app_iff. simpl. intros [H|[H|[]]]; [tauto | congruence].
    + destruct (precedes_false_split a b l' Hnd') as (m1 & B & m2 & A & l2 & E & HA & HB);
        [apply Hmem, Hin; now left | apply Hmem, Hin; right; now left
        | exact Hab | exact Ep |].
      rewrite E in *. subst a b.
      rewrite (move_before_shape m1 m2 l2 A B Hnd').
      destruct (nodup_middle m1 (m2 ++ A :: l2) B Hnd') as (HB1 & HB2 & _).
      rewrite !map_app in *. simpl in *. rewrite !map_app in *. simpl in *.
      apply subseq_prefix, subseq_take, subseq_take.
      apply (subseq_drop _ (Scatter.node A)); [|intros H; apply Ha; now right].
      apply (subseq_head _ (Scatter.node B)); [|exact HB2].
      apply (subseq_skip_prefix _ _ _ (nodes m1)); [exact IH' | exact HB1].
Qed.

(** ** A joined layer *)

Lemma find_from_at (A : Type) (f : A -> bool) (l : list A) (s i : nat) (x : A) :
  nth_error l i = Some x -> f x = true ->
  (forall j y, (j < i)%nat -> nth_error l j = Some y -> f y = false) ->
  find_from f s l = Some ((s + i)%nat, x).
Proof.
  revert s i. induction l as [|z r IH]; intros s i Hi Hx Hbefore;
    [destruct i; discriminate|].
  destruct i as [|i]; simpl in *.
  - injection Hi as ->. rewrite Hx. now rewrite Nat.add_0_r.
  - rewrite (Hbefore 0%nat z) by (try lia; reflexivity).
    rewrite (IH (S s) i Hi Hx).
    + do 2 f_equal. lia.
    + intros j y Hj Hy. apply (Hbefore (S j) y); [lia | exact Hy].
Qed.

Lemma find_from_none_inv (A : Type) (f : A -> bool) (l : list A) (s : nat) :
  find_from f s l = None -> forall x, In x l -> f x = false.
Proof.
  revert s. induction l as [|z r IH]; intros s H x Hx; [destruct Hx|].
  simpl in H. destruct (f z) eqn:Fz; [discriminate|].
  destruct Hx as [<-|Hx]; [exact Fz | eapply IH; eassumption].
Qed.

Lemma nodup_keys_nth (g : list Scatter.Circle) (i j : nat) (n m : Scatter.Circle) :
  NoDup (map Scatter.keyOf g) ->
  nth_error g i = Some n -> nth_error g j = Some m ->
  Scatter.keyOf n = Scatter.keyOf m -> i = j.
Proof.
  intros Hnd Hi Hj E.
  apply (proj1 (NoDup_nth_error (map Scatter.keyOf g)) Hnd).
  - rewrite length_map. eapply nth_error_Some_lt; exact Hi.
  - rewrite !nth_error_map, Hi, Hj. simpl. now rewrite E.
Qed.

(** With distinct keys the first node of a key is the node itself. *)
Lemma first_with_self (g : list Scatter.Circle) (i : nat) (n : Scatter.Circle) :
  NoDup (map Scatter.keyOf g) -> nth_error g i = Some n ->
  first_with (Scatter.keyOf n) g = Some (i, n).
Proof.
  intros Hnd Hi. unfold D3lib.first_with, JS.find.
  apply (find_from_at _ _ g 0 i n Hi); [apply Z.eqb_refl|].
  intros j y Hj Hy. apply Z.eqb_neq. intros E.
  assert (j = i) by (eapply nodup_keys_nth; eassumption). lia.
Qed.

Lemma matched_nodup (g : list Scatter.Circle) (ds : list TeamSeasonStat)
      (i : nat) (n : Scatter.Circle) :
  NoDup (map Scatter.keyOf g) -> nth_error g i = Some n ->
  matched g ds i n
  = option_map snd (JS.find (fun d => teamId d =? Scatter.keyOf n) ds).
Proof.
  intros Hnd Hi. unfold D3lib.matched.
  now rewrite (first_with_self g i n Hnd Hi), Nat.eqb_refl.
Qed.

(** The datum of a key, when keys are distinct. *)
Lemma find_datum (ds : list TeamSeasonStat) (d : TeamSeasonStat) :
  NoDup (map teamId ds) -> In d ds ->
  option_map snd (JS.find (fun d' => teamId d' =? teamId d) ds) = Some d.
Proof.
  intros Hnd Hd.
  destruct (find_from_some _ (fun d' => teamId d' =? teamId d) ds 0 d Hd (Z.eqb_refl _))
    as (j & y & E & Hy & Fy & _).
  unfold JS.find. rewrite E. simpl. f_equal.
  apply Z.eqb_eq in Fy. now apply (nodup_map_eq _ _ teamId ds).
Qed.

Lemma target_set_layer (c : Scatter.Chart) (L : list Scatter.Circle) (f : nat)
      (d : TeamSeasonStat) :
  Scatter.target (Scatter.set_layer L f c) d = Scatter.target c d.
Proof. reflexivity. Qed.

Lemma rebound_fix (c : Scatter.Chart) (ds : list TeamSeasonStat) (ids : list nat)
      (L : list Scatter.Circle) :
  joined c ds ids L -> NoDup (map teamId ds) ->
  Scatter.rebound c L ds = L.
Proof.
  intros J Hds. apply nth_error_ext. intros i.
  destruct (nth_error L i) as [k|] eqn:E.
  - rewrite (rebound_nth c L ds i k E).
    rewrite (matched_nodup L ds i k (joined_keys _ _ _ _ J) E).
    f_equal.
    assert (Hin : In k L) by (eapply nth_error_In; exact E).
    destruct (Scatter.leaving k) eqn:El.
    + destruct (joined_leaving _ _ _ _ J k Hin El) as (Hg & Hk).
      unfold JS.find. rewrite find_from_none.
      * destruct k. simpl in *. subst. reflexivity.
      * intros d Hd. apply Z.eqb_neq. intros Ed. apply Hk.
        rewrite <- Ed. now apply in_map.
    + destruct (joined_staying _ _ _ _ J k Hin El) as (Hg & Hd).
      unfold Scatter.keyOf. rewrite (find_datum ds _ Hds Hd).
      destruct k. simpl in *. subst. reflexivity.
  - apply nth_error_None. apply nth_error_None in E.
    unfold Scatter.rebound. now rewrite length_map, length_combine, length_seq, Nat.min_id.
Qed.

Lemma slots_from_fix (c : Scatter.Chart) (L : list Scatter.Circle)
      (ds : list TeamSeasonStat) (ids : list nat) (seen : list Z) :
  NoDup (map Scatter.keyOf L) ->
  Forall2 (bound_to c L) ds ids ->
  NoDup (map teamId ds) ->
  (forall d, In d ds -> ~ In (teamId d) seen) ->
  exists ks,
    slots_from seen L ds = map Some ks /\ nodes ks = ids
    /\ List.length ks = List.length ds.
Proof.
  intros HL H. revert seen.
  induction H as [|d n ds ids Hb H IH]; intros seen Hds Hseen.
  - exists []. auto.
  - simpl in Hds. inversion Hds as [|? ? Hnot Hds']; subst.
    destruct (IH (teamId d :: seen) Hds') as (ks & E & Hn & Hlen).
    { intros d' Hd' [Hin|Hin].
      - apply Hnot. rewrite Hin. now apply in_map.
      - apply (Hseen d'); [now right | exact Hin]. }
    destruct Hb as (k & Hk & Hnode & Hdat & _).
    destruct (In_nth_error _ _ Hk) as (i & Hi).
    exists (k :: ks). simpl.
    assert (Hs : has Z.eqb seen (teamId d) = false).
    { destruct (has Z.eqb seen (teamId d)) eqn:E'; [|reflexivity].
      apply z_has in E'. exfalso. apply (Hseen d); [now left | exact E']. }
    rewrite Hs, E.
    replace (teamId d) with (Scatter.keyOf k) by (unfold Scatter.keyOf; now rewrite Hdat).
    rewrite (first_with_self L i k HL Hi). simpl.
    repeat split; [now rewrite Hnode, Hn | now rewrite Hlen].
Qed.

Lemma enter_all_some (c : Scatter.Chart) (ds : list TeamSeasonStat)
      (ks l : list Scatter.Circle) (f : nat) :
  List.length ks = List.length ds ->
  Scatter.enter c ds (map Some ks) l f = (nodes ks, l, f).
Proof.
  revert ks. induction ds as [|d ds IH]; intros ks H.
  - destruct ks; [reflexivity | discriminate].
  - destruct ks as [|k ks]; [discriminate|].
    simpl. rewrite IH by (simpl in H; lia). reflexivity.
Qed.

(** Joining once more, with the same data, changes nothing. *)
Lemma joinSeason_fix (c : Scatter.Chart) (ds : list TeamSeasonStat) (ids : list nat)
      (L : list Scatter.Circle) (f : nat) :
  joined c ds ids L -> NoDup (map teamId ds) ->
  Scatter.joinSeason (Scatter.set_layer L f c) ds = Scatter.set_layer L f c.
Proof.
  intros J Hds.
  assert (J' : joined (Scatter.set_layer L f c) ds ids L)
    by (destruct J; constructor; assumption).
  unfold Scatter.joinSeason. cbn [Scatter.layer Scatter.set_layer Scatter.nextNode].
  rewrite (rebound_fix _ ds ids L J' Hds).
  destruct (slots_from_fix c L ds ids [] (joined_keys _ _ _ _ J)
              (joined_bound _ _ _ _ J) Hds) as (ks & E & Hn & Hlen);
    [intros d _ []|].
  unfold D3lib.slots. rewrite E, (enter_all_some _ ds ks L f Hlen), Hn.
  rewrite (order_fix ids L (joined_nodes _ _ _ _ J) (joined_order _ _ _ _ J)).
  reflexivity.
Qed.

Lemma matched_some (g : list Scatter.Circle) (ds : list TeamSeasonStat)
      (i : nat) (k : Scatter.Circle) (d : TeamSeasonStat) :
  matched g ds i k = Some d -> In d ds /\ teamId d = Scatter.keyOf k.
Proof.
  unfold D3lib.matched.
  destruct (first_with _ g) as [[j n]|]; [|discriminate].
  destruct (i =? j)%nat; [|discriminate].
  unfold JS.find.
  destruct (find_from _ 0 ds) as [[m d']|] eqn:E; [|discriminate].
  simpl. intros H. injection H as ->.
  destruct (find_from_pred _ _ _ _ _ _ E) as (Hp & _ & Hn & _).
  split; [eapply nth_error_In; exact Hn | now apply Z.eqb_eq].
Qed.

Lemma rebound_keys (c : Scatter.Chart) (g : list Scatter.Circle)
      (ds : list TeamSeasonStat) :
  map Scatter.keyOf (Scatter.rebound c g ds) = map Scatter.keyOf g.
Proof.
  apply nth_error_ext. intros i. rewrite !nth_error_map.
  destruct (nth_error g i) as [k|] eqn:E.
  - rewrite (rebound_nth c g ds i k E). simpl. f_equal.
    destruct (matched g ds i k) as [d|] eqn:Em; [|reflexivity].
    apply matched_some in Em. unfold Scatter.keyOf at 1. simpl. tauto.
  - assert (H : nth_error (Scatter.rebound c g ds) i = None).
    { apply nth_error_None. apply nth_error_None in E.
      unfold Scatter.rebound.
      now rewrite length_map, length_combine, length_seq, Nat.min_id. }
    now rewrite H.
Qed.

Lemma slot_some_rebound (c : Scatter.Chart) (g : list Scatter.Circle)
      (ds : list TeamSeasonStat) (i : nat) (d : TeamSeasonStat) (n : Scatter.Circle) :
  nth_error ds i = Some d -> nth_error (slots g ds) i = Some (Some n) ->
  In (Scatter.updated c n d) (Scatter.rebound c g ds).
Proof.
  intros Hi Es.
  destruct (slots_from_some [] g ds i d n Hi Es) as ((j & Hfirst) & Hfind).
  destruct (find_from_pred _ _ _ _ _ _ Hfirst) as (Hkey & _ & Hn & _).
  rewrite Nat.sub_0_r in Hn. apply Z.eqb_eq in Hkey.
  eapply nth_error_In. rewrite (rebound_nth c g ds j n Hn).
  unfold D3lib.matched. rewrite Hkey, Hfirst, Nat.eqb_refl.
  unfold JS.find in Hfind. unfold JS.find. rewrite Hfind. reflexivity.
Qed.

Lemma slots_from_none (seen : list Z) (g : list Scatter.Circle)
      (ds : list TeamSeasonStat) (i : nat) (d : TeamSeasonStat) :
  NoDup (map teamId ds) -> (forall d', In d' ds -> ~ In (teamId d') seen) ->
  nth_error ds i = Some d -> nth_error (slots_from seen g ds) i = Some None ->
  forall k, In k g -> Scatter.keyOf k <> teamId d.
Proof.
  revert seen i. induction ds as [|d0 r IH]; intros seen i Hnd Hseen Hd Hs;
    [destruct i; discriminate|].
  simpl in Hnd. inversion Hnd as [|? ? Hnot Hnd']; subst.
  destruct i as [|i]; simpl in Hd, Hs.
  - injection Hd as ->. injection Hs as Hs.
    assert (E : has Z.eqb seen (teamId d) = false).
    { destruct (has Z.eqb seen (teamId d)) eqn:E'; [|reflexivity].
      apply z_has in E'. exfalso. apply (Hseen d); [now left | exact E']. }
    rewrite E in Hs.
    destruct (first_with (teamId d) g) as [[j n]|] eqn:F; [discriminate|].
    intros k Hk Ek.
    pose proof (find_from_none_inv _ _ _ _ F k Hk) as Hf.
    simpl in Hf. apply Z.eqb_neq in Hf. tauto.
  - apply (IH (teamId d0 :: seen) i Hnd'); [|exact Hd | exact Hs].
    intros d' Hd' [Hin|Hin].
    + apply Hnot. rewrite Hin. now apply in_map.
    + apply (Hseen d'); [now right | exact Hin].
Qed.

Lemma merged_length (ds : list TeamSeasonStat) (sl : list (option Scatter.Circle))
      (f : nat) :
  List.length sl = List.length ds -> List.length (merged ds sl f) = List.length ds.
Proof.
  revert sl f. induction ds as [|d ds IH]; intros sl f H; [reflexivity|].
  destruct sl as [|[k|] sl]; [discriminate | |]; simpl; rewrite IH; simpl in H; lia.
Qed.

Lemma merged_nth_some (ds : list TeamSeasonStat) (sl : list (option Scatter.Circle))
      (f i : nat) (k : Scatter.Circle) :
  (i < List.length ds)%nat -> nth_error sl i = Some (Some k) ->
  nth_error (merged ds sl f) i = Some (Scatter.node k).
Proof.
  revert sl f i. induction ds as [|d ds IH]; intros sl f i Hi Hs; [simpl in Hi; lia|].
  destruct sl as [|[k0|] sl]; [destruct i; discriminate | |];
    destruct i as [|i]; simpl in *; try discriminate.
  - now injection Hs as ->.
  - apply IH; [lia | exact Hs].
  - apply IH; [lia | exact Hs].
Qed.

Lemma news_keys_nodup (c : Scatter.Chart) (ds : list TeamSeasonStat)
      (sl : list (option Scatter.Circle)) (f : nat) :
  NoDup (map teamId ds) -> NoDup (map Scatter.keyOf (news c ds sl f)).
Proof.
  revert sl f. induction ds as [|d ds IH]; intros sl f Hnd; [constructor|].
  simpl in Hnd. inversion Hnd as [|? ? Hnot Hnd']; subst.
  destruct sl as [|[k|] sl]; simpl; [constructor | now apply IH |].
  constructor; [|now apply IH].
  intros Hin. apply in_map_iff in Hin. destruct Hin as (k & Ek & Hk).
  apply news_in in Hk. destruct Hk as (i & d' & n & Hi & _ & -> & _).
  apply Hnot. unfold Scatter.keyOf in Ek. simpl in Ek. rewrite <- Ek.
  apply in_map. eapply nth_error_In; exact Hi.
Qed.

Lemma Forall2_nth_error (A B : Type) (R : A -> B -> Prop) (l : list A) (l' : list B) :
  List.length l = List.length l' ->
  (forall i a b, nth_error l i = Some a -> nth_error l' i = Some b -> R a b) ->
  Forall2 R l l'.
Proof.
  revert l'. induction l as [|a l IH]; intros l' Hlen H.
  - destruct l'; [constructor | discriminate].
  - destruct l' as [|b l']; [discriminate|].
    constructor.
    + apply (H 0%nat); reflexivity.
    + apply IH; [simpl in Hlen; lia|].
      intros i x y Hx Hy. apply (H (S i)); assumption.
Qed.

Lemma nodup_of_keys (ds : list TeamSeasonStat) :
  NoDup (map teamId ds) -> NoDup ds.
Proof. apply NoDup_map_inv. Qed.

(** A join, from a layer with distinct identities and keys and for data
    with distinct keys, leaves a joined layer. *)
Lemma joinSeason_joined (c : Scatter.Chart) (ds : list TeamSeasonStat) :
  wf c -> NoDup (map Scatter.keyOf (Scatter.layer c)) -> NoDup (map teamId ds) ->
  exists ids L f,
    Scatter.joinSeason c ds = Scatter.set_layer L f c
    /\ joined c ds ids L
    /\ forall k, In k L -> (Scatter.node k < f)%nat.
Proof.
  intros Hwf Hkeys Hds.
  destruct (joinSeason_layer c ds) as (l1 & E & Hp).
  set (g := Scatter.layer c) in *. set (f0 := Scatter.nextNode c) in *.
  set (sl := slots g ds) in *.
  set (ids := merged ds sl f0) in *.
  set (N := news c ds sl f0) in *.
  set (R := Scatter.rebound c g ds) in *.
  pose proof (joined_nodup c ds l1 Hwf Hp) as Hnd1.
  pose proof (order_perm ids l1 Hnd1) as HpL.
  assert (Hsl : List.length sl = List.length ds)
    by (unfold sl, D3lib.slots; apply slots_from_length).
  assert (Hmem : forall k, In k (Scatter.order ids l1) <-> In k N \/ In k R).
  { intros k. rewrite <- in_app_iff. split; intros H.
    - apply (Permutation_in _ Hp), (Permutation_in _ HpL), H.
    - apply (Permutation_in _ (Permutation_sym HpL)),
        (Permutation_in _ (Permutation_sym Hp)), H. }
  assert (HR : forall k, In k R ->
             exists i k0, nth_error g i = Some k0
               /\ k = match option_map snd
                              (JS.find (fun d => teamId d =? Scatter.keyOf k0) ds) with
                      | Some d => Scatter.updated c k0 d
                      | None => Scatter.exiting k0
                      end).
  { intros k Hk. apply rebound_in in Hk. destruct Hk as (i & k0 & Hi & ->).
    exists i, k0. split; [exact Hi|]. now rewrite (matched_nodup g ds i k0 Hkeys Hi). }
  assert (Hbound1 : forall i d n, nth_error ds i = Some d -> nth_error ids i = Some n ->
             bound_to c (Scatter.order ids l1) d n).
  { intros i d n Hd Hn.
    destruct (nth_error sl i) as [[k0|]|] eqn:Es.
    - unfold ids in Hn.
      rewrite (merged_nth_some ds sl f0 i k0) in Hn;
        [|eapply nth_error_Some_lt; exact Hd | exact Es].
      injection Hn as <-.
      exists (Scatter.updated c k0 d). split; [|auto].
      apply Hmem. right. now apply (slot_some_rebound c g ds i d k0).
    - destruct (news_complete c ds sl f0 i d Hd Es) as (n' & Hin & Hn').
      unfold ids in Hn. rewrite Hn' in Hn. injection Hn as <-.
      exists (Scatter.entered c n' d). split; [|auto]. apply Hmem. now left.
    - apply nth_error_None in Es. apply nth_error_Some_lt in Hd. lia. }
  assert (Hlen : List.length ds = List.length ids)
    by (unfold ids; now rewrite merged_length).
  assert (Hids : NoDup ids).
  { apply NoDup_nth_error. intros i j Hi Hj.
    destruct (nth_error ids i) as [n|] eqn:Ei; [|apply nth_error_None in Ei; lia].
    symmetry in Hj.
    destruct (nth_error ds i) as [d|] eqn:Edi; [|apply nth_error_None in Edi; lia].
    destruct (nth_error ds j) as [d'|] eqn:Edj;
      [|apply nth_error_None in Edj; apply nth_error_Some_lt in Hj; lia].
    destruct (Hbound1 i d n Edi Ei) as (k & Hk & Hkn & Hkd & _).
    destruct (Hbound1 j d' n Edj Hj) as (k' & Hk' & Hkn' & Hkd' & _).
    assert (k = k').
    { apply (nodup_map_eq _ _ Scatter.node (Scatter.order ids l1)); try assumption.
      - eapply Permutation_NoDup; [apply Permutation_map, Permutation_sym, HpL | exact Hnd1].
      - congruence. }
    subst k'. apply (proj1 (NoDup_nth_error ds) (nodup_of_keys ds Hds)).
    + eapply nth_error_Some_lt; exact Edi.
    + congruence. }
  exists ids, (Scatter.order ids l1),
    (f0 + List.length N)%nat.
  split; [exact E|]. split.
  - constructor.
    + eapply Permutation_NoDup; [apply Permutation_map, Permutation_sym, HpL | exact Hnd1].
    + eapply Permutation_NoDup;
        [apply Permutation_map, Permutation_sym;
         eapply perm_trans; [exact HpL | exact Hp]|].
      rewrite map_app. unfold R. rewrite rebound_keys.
      apply NoDup_app; [now apply news_keys_nodup | exact Hkeys |].
      intros z Hz Hg. apply in_map_iff in Hz. destruct Hz as (k & <- & Hk).
      apply news_in in Hk. destruct Hk as (i & d & n & Hi & Hs & -> & _).
      apply in_map_iff in Hg. destruct Hg as (k0 & Ek0 & Hk0).
      apply (slots_from_none [] g ds i d Hds (fun _ _ H => H) Hi Hs k0 Hk0).
      exact Ek0.
    + apply Forall2_nth_error; [exact Hlen | exact Hbound1].
    + intros k Hk Hl. apply Hmem in Hk. destruct Hk as [Hk|Hk].
      * apply news_in in Hk. destruct Hk as (i & d & n & _ & _ & -> & _). discriminate.
      * destruct (HR k Hk) as (i & k0 & Hi & ->).
        unfold JS.find in *.
        destruct (find_from _ 0 ds) as [[j d]|] eqn:F; [discriminate|].
        split; [reflexivity|].
        intros Hin. apply in_map_iff in Hin. destruct Hin as (d & Ed & Hd).
        pose proof (find_from_none_inv _ _ _ _ F d Hd) as Hf.
        simpl in Hf. apply Z.eqb_neq in Hf. apply Hf. exact Ed.
    + intros k Hk Hl. apply Hmem in Hk. destruct Hk as [Hk|Hk].
      * apply news_in in Hk. destruct Hk as (i & d & n & Hi & _ & -> & _).
        split; [reflexivity | eapply nth_error_In; exact Hi].
      * destruct (HR k Hk) as (i & k0 & Hi & ->).
        unfold JS.find in *.
        destruct (find_from _ 0 ds) as [[j d]|] eqn:F; [|discriminate].
        split; [reflexivity|]. simpl.
        destruct (find_from_pred _ _ _ _ _ _ F) as (_ & _ & Hn & _).
        eapply nth_error_In; exact Hn.
    + apply order_arranged; [exact Hids | | exact Hnd1].
      intros a Ha. destruct (In_nth_error _ _ Ha) as (i & Hi).
      destruct (nth_error ds i) as [d|] eqn:Ed;
        [|apply nth_error_None in Ed; apply nth_error_Some_lt in Hi; lia].
      destruct (Hbound1 i d a Ed Hi) as (k & Hk & <- & _).
      apply in_map. apply (Permutation_in _ HpL), Hk.
  - intros k Hk. apply Hmem in Hk.
    assert (Hn : In (Scatter.node k) (nodes (N ++ R))).
    { apply in_map. apply in_or_app. exact Hk. }
    rewrite map_app in Hn. unfold N, R in Hn. rewrite news_nodes, rebound_nodes in Hn.
    apply in_app_or in Hn. destruct Hn as [Hn|Hn].
    + apply in_seq in Hn. fold N in Hn. lia.
    + apply in_map_iff in Hn. destruct Hn as (k0 & E0 & Hk0).
      destruct Hwf as (_ & Hlt). specialize (Hlt k0 Hk0). fold f0 in Hlt. lia.
Qed.

(** ** Joining twice *)

Lemma filter_idem (A : Type) (f : A -> bool) (l : list A) :
  List.filter f (List.filter f l) = List.filter f l.
Proof.
  rewrite filter_filter. apply filter_ext. intros x. now destruct (f x).
Qed.

Lemma filter_comm (A : Type) (f g : A -> bool) (l : list A) :
  List.filter f (List.filter g l) = List.filter g (List.filter f l).
Proof.
  rewrite !filter_filter. apply filter_ext. intros x. now destruct (f x), (g x).
Qed.

Lemma exists_el_set_text (sel s sel' : string) (p : Page) :
  exists_el (set_text sel s p) sel' = exists_el p sel'.
Proof. unfold set_text. now destruct (exists_el p sel). Qed.

Lemma set_text_true (sel s : string) (p : Page) :
  exists_el p sel = true -> set_text sel s p = put sel s p.
Proof. intros H. unfold set_text. now rewrite H. Qed.

Lemma set_text_false (sel s : string) (p : Page) :
  exists_el p sel = false -> set_text sel s p = p.
Proof. intros H. unfold set_text. now rewrite H. Qed.

Lemma put_put_same (sel s : string) (p : Page) :
  put sel s (put sel s p) = put sel s p.
Proof.
  unfold put. cbn [elements console tooltipShow tooltipHtml texts drawn sliderValue steps].
  f_equal. cbn [List.filter fst]. rewrite String.eqb_refl. cbn [negb].
  now rewrite filter_idem.
Qed.

Lemma put_put_other (a b x y : string) (p : Page) :
  String.eqb a b = false ->
  put b y (put a x (put b y (put a x p))) = put b y (put a x p).
Proof.
  intros Hab.
  assert (Hba : String.eqb b a = false) by (now rewrite String.eqb_sym).
  unfold put. cbn [elements console tooltipShow tooltipHtml texts drawn sliderValue steps].
  f_equal. cbn [List.filter fst]. rewrite ?String.eqb_refl, ?Hab, ?Hba.
  cbn [negb List.filter fst]. rewrite ?String.eqb_refl, ?Hab, ?Hba. cbn [negb].
  do 2 f_equal.
  rewrite !filter_filter. apply filter_ext. intros e.
  now destruct (String.eqb (fst e) a), (String.eqb (fst e) b).
Qed.

(** Writing the label and the insight again leaves the page as it is. *)
Lemma texts_idem (t1 t2 : string) (p : Page) :
  set_text "#teamInsight" t2
    (set_text "#seasonLabel" t1
       (set_text "#teamInsight" t2 (set_text "#seasonLabel" t1 p)))
  = set_text "#teamInsight" t2 (set_text "#seasonLabel" t1 p).
Proof.
  destruct (exists_el p "#seasonLabel") eqn:E1, (exists_el p "#teamInsight") eqn:E2.
  - rewrite (set_text_true "#seasonLabel" t1 p E1).
    rewrite (set_text_true "#teamInsight" t2 (put _ _ p) E2).
    rewrite (set_text_true "#seasonLabel" t1 (put _ _ (put _ _ p)) E1).
    rewrite (set_text_true "#teamInsight" t2 (put _ _ (put _ _ (put _ _ p))) E2).
    now apply put_put_other.
  - rewrite (set_text_true "#seasonLabel" t1 p E1).
    rewrite (set_text_false "#teamInsight" t2 (put _ _ p) E2).
    rewrite (set_text_true "#seasonLabel" t1 (put _ _ p) E1).
    rewrite (set_text_false "#teamInsight" t2 (put _ _ (put _ _ p)) E2).
    apply put_put_same.
  - rewrite (set_text_false "#seasonLabel" t1 p E1).
    rewrite (set_text_true "#teamInsight" t2 p E2).
    rewrite (set_text_false "#seasonLabel" t1 (put _ _ p) E1).
    rewrite (set_text_true "#teamInsight" t2 (put _ _ p) E2).
    apply put_put_same.
  - rewrite (set_text_false "#seasonLabel" t1 p E1).
    rewrite (set_text_false "#teamInsight" t2 p E2).
    rewrite (set_text_false "#seasonLabel" t1 p E1).
    now rewrite (set_text_false "#teamInsight" t2 p E2).
Qed.

Lemma inv_empty (data : ref) (groups : list (Z * list TeamSeasonStat))
      (xd yd : option (Q * Q)) (w : Q) :
  inv (Scatter.mkChart data groups xd yd w [] 0).
Proof. repeat split; simpl; try constructor. intros k []. Qed.

Lemma inv_joinSeason (c : Scatter.Chart) (ds : list TeamSeasonStat) :
  inv c -> NoDup (map teamId ds) -> inv (Scatter.joinSeason c ds).
Proof.
  intros (Hwf & Hk) Hds.
  destruct (joinSeason_joined c ds Hwf Hk Hds) as (ids & L & f & -> & J & Hlt).
  repeat split; cbn [Scatter.layer Scatter.set_layer Scatter.nextNode].
  - apply (joined_nodes _ _ _ _ J).
  - exact Hlt.
  - apply (joined_keys _ _ _ _ J).
Qed.

Lemma nodup_map_filter (A B : Type) (f : A -> B) (p : A -> bool) (l : list A) :
  NoDup (map f l) -> NoDup (map f (List.filter p l)).
Proof.
  induction l as [|x l IH]; simpl; intros H; [constructor|].
  inversion H as [|? ? Hnot Hnd]; subst.
  destruct (p x); simpl; [|now apply IH].
  constructor; [|now apply IH].
  intros Hin. apply Hnot. apply in_map_iff in Hin. destruct Hin as (y & E & Hy).
  rewrite <- E. apply in_map. now apply filter_In in Hy.
Qed.

Lemma inv_settle (c : Scatter.Chart) : inv c -> inv (Scatter.settle c).
Proof.
  intros ((Hnd & Hlt) & Hk). unfold Scatter.settle.
  repeat split; cbn [Scatter.layer Scatter.set_layer Scatter.nextNode].
  - rewrite map_map. simpl.
    apply (nodup_map_filter _ _ Scatter.node (fun k => negb (Scatter.leaving k)) _ Hnd).
  - intros k Hin. apply in_map_iff in Hin. destruct Hin as (k0 & <- & Hk0).
    simpl. apply Hlt. now apply filter_In in Hk0.
  - rewrite map_map. unfold Scatter.keyOf at 1. simpl.
    apply (nodup_map_filter _ _ Scatter.keyOf (fun k => negb (Scatter.leaving k)) _ Hk).
Qed.

(** The circles that stay are as many as the records of the season. *)
Lemma joined_count (c : Scatter.Chart) (ds : list TeamSeasonStat) (ids : list nat)
      (L : list Scatter.Circle) :
  joined c ds ids L ->
  List.length (List.filter (fun k => negb (Scatter.leaving k)) L) = List.length ds.
Proof.
  intros J.
  rewrite (Forall2_length (joined_bound _ _ _ _ J)).
  rewrite <- (length_map Scatter.node).
  apply Permutation_length, NoDup_Permutation.
  - apply nodup_map_filter, (joined_nodes _ _ _ _ J).
  - pose proof (joined_nodes _ _ _ _ J) as Hn.
    pose proof (joined_order _ _ _ _ J) as Hs.
    clear - Hn Hs. induction Hs as [l|x s l Hs IH|x s l Hs IH].
    + constructor.
    + simpl in Hn. inversion Hn as [|? ? Hnot Hnd]; subst.
      constructor; [|now apply IH].
      intros Hin. apply Hnot. eapply subseq_in; eassumption.
    + simpl in Hn. inversion Hn; subst. now apply IH.
  - intros n. split; intros Hin.
    + apply in_map_iff in Hin. destruct Hin as (k & <- & Hk).
      apply filter_In in Hk. destruct Hk as (Hk & Hl). apply negb_true_iff in Hl.
      destruct (joined_staying _ _ _ _ J k Hk Hl) as (_ & Hd).
      destruct (In_nth_error _ _ Hd) as (i & Hi).
      pose proof (joined_bound _ _ _ _ J) as HF.
      assert (Hex : exists m, nth_error ids i = Some m
                              /\ bound_to c L (Scatter.datum k) m).
      { clear - HF Hi. revert i Hi. induction HF as [|d m ds ids Hb HF IH]; intros i Hi.
        - destruct i; discriminate.
        - destruct i as [|i]; simpl in Hi.
          + injection Hi as ->. exists m. split; [reflexivity | exact Hb].
          + destruct (IH i Hi) as (m' & H1 & H2). exists m'. auto. }
      destruct Hex as (m & Hm & (k' & Hk' & Hn' & Hd' & _)).
      assert (k' = k).
      { apply (nodup_map_eq _ _ Scatter.keyOf L); try assumption.
        - apply (joined_keys _ _ _ _ J).
        - unfold Scatter.keyOf. now rewrite Hd'. }
      subst k'. rewrite Hn'. eapply nth_error_In; exact Hm.
    + pose proof (joined_bound _ _ _ _ J) as HF.
      assert (Hex : exists d, bound_to c L d n).
      { clear - HF Hin. induction HF as [|d m ds ids Hb HF IH]; [destruct Hin|].
        destruct Hin as [->|Hin]; [now exists d | now apply IH]. }
      destruct Hex as (d & k & Hk & <- & _ & Hl & _).
      apply in_map. apply filter_In. split; [exact Hk | now rewrite Hl].
Qed.

(** C7.  Modelled from the spec: the keyed join ([selection.data] with the
    key [teamId], then [selection.join]) is D3's.  From a layer with
    distinct node identities and distinct keys, and for a season whose
    records have distinct [teamId]s, a second [updateSeason] with the same
    season changes nothing: the same circles with the same bound records
    and the same targets, no circle created or sent away, the same page.
    After the first call the circles have distinct identities and keys, the
    ones that stay are as many as the records of the season, and each of
    them heads for the position and the radius of its record. *)
Theorem updateSeason_idempotent (c : Scatter.Chart) (z : Z) (s : State TeamSeasonStat) :
  inv c -> NoDup (map teamId (seasonDataOf c z)) ->
  exists c1 s1,
    Scatter.updateSeason c z s = (Ok c1, s1)
    /\ Scatter.updateSeason c1 z s1 = (Ok c1, s1)
    /\ inv c1
    /\ List.length (List.filter (fun k => negb (Scatter.leaving k)) (Scatter.layer c1))
       = List.length (seasonDataOf c z)
    /\ (forall k, In k (Scatter.layer c1) -> Scatter.leaving k = false ->
          In (Scatter.datum k) (seasonDataOf c z)
          /\ Scatter.goal k = Scatter.target c (Scatter.datum k))
    /\ (forall d, In d (seasonDataOf c z) ->
          exists k, In k (Scatter.layer c1) /\ Scatter.leaving k = false
                    /\ Scatter.datum k = d).
Proof.
  intros Hinv Hds. destruct s as [h p].
  pose proof Hinv as (Hwf & Hk).
  destruct (joinSeason_joined c _ Hwf Hk Hds) as (ids & L & f & E & J & Hlt).
  exists (Scatter.joinSeason c (seasonDataOf c z)). eexists.
  split; [unfold Scatter.updateSeason; steps; reflexivity|].
  split.
  { unfold Scatter.updateSeason. steps. fold (seasonDataOf c z).
    rewrite E.
    change (match D3lib.get Z.eqb (Scatter.seasonGroups (Scatter.set_layer L f c)) z with
            | Some g => g
            | None => []
            end) with (seasonDataOf c z).
    rewrite (joinSeason_fix c _ ids L f J Hds), texts_idem. reflexivity. }
  split; [now apply inv_joinSeason|].
  rewrite E. cbn [Scatter.layer Scatter.set_layer].
  split; [apply (joined_count c _ ids L J)|].
  split.
  - intros k Hin Hl. destruct (joined_staying _ _ _ _ J k Hin Hl). tauto.
  - intros d Hd. destruct (joinSeason_covers c _ d Hwf Hd) as (k & H).
    rewrite E in H. exists k. tauto.
Qed.
End JoinFacts.

Lemma missing_winPct_defaults_witness :
  wf Sample.clubChart
  /\ exists c' s',
      Scatter.updateSeason (d3 := Sample.d3) Sample.clubChart 2020
        (mkState Sample.clubHeap Sample.full) = (Ok c', s')
      /\ (forall k,
            In k (Scatter.layer c') -> Scatter.leaving k = false ->
            winPct (Scatter.datum k) = None ->
            snd (Scatter.goal k) = Scatter.r (d3 := Sample.d3) (1 # 2)
            /\ tooltipHtml (page (snd (Scatter.pointerEnter k s')))
               = JS.join ""
                   [ "<strong>"; city (Scatter.datum k); " ";
                     match team (Scatter.datum k) with Some t => t | None => "" end;
                     "</strong><br>";
                     numberFmt (teamThreeAttempts (Scatter.datum k)); " 3PA • ";
                     numberFmt (threePct (Scatter.datum k) * 100)%Q;
                     "%<br>Win %: "; "N/A" ])
      /\ exists k, In k (Scatter.layer c') /\ Scatter.leaving k = false
                   /\ Scatter.datum k = Sample.club 2020 3 "Denver" None.
Proof.
  assert (Hwf : wf Sample.clubChart).
  { split; simpl; [constructor | intros k []]. }
  split; [exact Hwf|].
  destruct (missing_winPct_defaults (d3 := Sample.d3) Sample.clubChart 2020
              (mkState Sample.clubHeap Sample.full)) as (c' & s' & Hrun & Hnone & Hall).
  exists c', s'. split; [exact Hrun|]. split.
  - intros k Hin Hl Hw. destruct (Hnone k Hin Hl Hw) as (Hr & Ht).
    split; [exact Hr|]. rewrite Ht. reflexivity.
  - destruct (Hall Hwf (Sample.club 2020 3 "Denver" None)) as (k & H1 & H2 & H3 & _).
    + vm_compute. right. right. left. reflexivity.
    + exists k. auto.
Defined.

Lemma updateSeason_idempotent_witness :
  (inv Sample.clubChart
   /\ NoDup (map teamId (seasonDataOf Sample.clubChart 2020)))
  /\ exists c1 s1,
      Scatter.updateSeason (d3 := Sample.d3) Sample.clubChart 2020
        (mkState Sample.clubHeap Sample.full) = (Ok c1, s1)
      /\ Scatter.updateSeason (d3 := Sample.d3) c1 2020 s1 = (Ok c1, s1)
      /\ List.length (List.filter (fun k => negb (Scatter.leaving k)) (Scatter.layer c1))
         = 3%nat.
Proof.
  assert (Hinv : inv Sample.clubChart).
  { repeat split; simpl; try constructor. intros k []. }
  assert (Hds : NoDup (map teamId (seasonDataOf Sample.clubChart 2020))).
  { vm_compute. repeat constructor; simpl; intuition discriminate. }
  split; [split; assumption|].
  destruct (updateSeason_idempotent (d3 := Sample.d3) Sample.clubChart 2020
              (mkState Sample.clubHeap Sample.full) Hinv Hds)
    as (c1 & s1 & H1 & H2 & _ & Hn & _).
  exists c1, s1. split; [exact H1|]. split; [exact H2|].
  rewrite Hn. reflexivity.
Defined.

(* ===================================================================== *)
(** * Further properties of the code                                      *)
(* ===================================================================== *)

(** ** updateHeroMetrics at its edges *)

Lemma console_set_text (sel s : string) (p : Page) :
  console (set_text sel s p) = console p
  /\ drawn (set_text sel s p) = drawn p
  /\ tooltipShow (set_text sel s p) = tooltipShow p
  /\ tooltipHtml (set_text sel s p) = tooltipHtml p
  /\ sliderValue (set_text sel s p) = sliderValue p
  /\ steps (set_text sel s p) = steps p.
Proof. unfold set_text. destruct (exists_el p sel); repeat split. Qed.

(** X1.  [updateHeroMetrics] never throws and never logs.  On an empty
    array it returns at once: no copy is made and the page stays as it was.
    On a page without [#avgGrowth] the page stays as it was as well. *)
Theorem updateHeroMetrics_never_throws
        (h : Heap SeasonMetric) (r : ref) (l : list SeasonMetric) (p : Page) :
  nth_error h r = Some l ->
  exists s',
    updateHeroMetrics r (mkState h p) = (Ok tt, s')
    /\ console (page s') = console p
    /\ drawn (page s') = drawn p
    /\ tooltipShow (page s') = tooltipShow p
    /\ (l = [] -> s' = mkState h p)
    /\ (exists_el p "#avgGrowth" = false -> page s' = p).
Proof.
  intros Hr. destruct l as [|x l'].
  - exists (mkState h p). unfold updateHeroMetrics. steps.
    cbn [List.length Nat.eqb]. repeat split.
  - destruct (updateHeroMetrics_run h r (x :: l') p Hr) as (first & i & last & _ & _ & E);
      [discriminate|].
    eexists. split; [exact E|]. cbn [page].
    destruct (console_set_text "#avgGrowth" (growthText (growth first last)) p)
      as (H1 & H2 & H3 & _).
    repeat split; try assumption; [discriminate|].
    intros He. now apply set_text_false.
Qed.

Lemma updateHeroMetrics_never_throws_witness :
  nth_error [Sample.trends] 0 = Some Sample.trends
  /\ exists s',
      updateHeroMetrics 0%nat (mkState [Sample.trends] Sample.blank) = (Ok tt, s')
      /\ page s' = Sample.blank.
Proof.
  split; [reflexivity|].
  destruct (updateHeroMetrics_never_throws [Sample.trends] 0%nat Sample.trends
              Sample.blank eq_refl) as (s' & E & _ & _ & _ & _ & H).
  exists s'. split; [exact E | apply H; reflexivity].
Defined.

(** X2.  The division by the rate of the first season is not guarded.  When
    that rate is zero the text written to [#avgGrowth] is not a number with
    one decimal: it is "+Infinity" when the rate of the last season is
    positive, "NaN" when it is zero too, or so small that it reads as
    zero. *)
Theorem hero_growth_zero_base
        (h : Heap SeasonMetric) (r : ref) (l : list SeasonMetric) (p : Page)
        (first : SeasonMetric) :
  nth_error h r = Some l ->
  nth_error (sort (bySeason season) l) 0 = Some first ->
  (avgThreeRate first == 0)%Q ->
  exists_el p "#avgGrowth" = true ->
  exists last,
    In last l /\ (forall d, In d l -> season d <= season last)
    /\ text_of (page (snd (updateHeroMetrics r (mkState h p)))) "#avgGrowth"
       = Some (match toDouble (avgThreeRate last) with
               | S754_zero _ => "NaN"
               | _ =>
                   match (avgThreeRate last ?= 0)%Q with
                   | Gt => "+Infinity"
                   | Eq => "NaN"
                   | Lt => "−Infinity"
                   end
               end).
Proof.
  intros Hr H0 Hz He.
  assert (Hne : l <> []) by (intros ->; discriminate).
  destruct (updateHeroMetrics_run h r l p Hr Hne) as (first' & i & last & H0' & Hl & E).
  rewrite H0 in H0'. injection H0' as <-.
  exists last. split.
  { apply (sort_in _ (bySeason season)). eapply last_elem_in; exact Hl. }
  split.
  { intros d Hd.
    apply (sorted_last_greatest _ season _ _ _ (sort_bySeason_sorted _ season l) Hl).
    now apply (sort_in _ (bySeason season)). }
  rewrite E. cbn [snd page]. rewrite (text_of_set_text _ _ _ He). f_equal.
  unfold growth. rewrite (toDouble_zero _ Hz). rewrite growthText_zero_base.
  pose proof (toDouble_sign (avgThreeRate last)) as Hs.
  assert (Hc : (avgThreeRate last ?= 0)%Q = (Qnum (avgThreeRate last) ?= 0)).
  { unfold Qcompare. cbn [Qnum Qden]. now rewrite Z.mul_1_r. }
  rewrite Hc.
  assert (Hq : Qnum (avgThreeRate last) = 0 -> toDouble (avgThreeRate last) = S754_zero false).
  { intros Hn. unfold toDouble. now rewrite Hn. }
  destruct (toDouble (avgThreeRate last)) as [s|s| |s m e] eqn:Eb;
    [reflexivity| | destruct Hs|].
  all: subst s.
  all: destruct (Qnum (avgThreeRate last)) as [|n|n];
    [specialize (Hq eq_refl); discriminate | reflexivity | reflexivity].
Qed.

Lemma hero_growth_zero_base_witness :
  (nth_error [[mkSeasonMetric 2020 30 110 (36 # 100); mkSeasonMetric 2015 20 100 0]] 0
   = Some [mkSeasonMetric 2020 30 110 (36 # 100); mkSeasonMetric 2015 20 100 0]
   /\ (avgThreeRate (mkSeasonMetric 2015 20 100 0) == 0)%Q
   /\ exists_el Sample.full "#avgGrowth" = true)
  /\ exists last,
      In last [mkSeasonMetric 2020 30 110 (36 # 100); mkSeasonMetric 2015 20 100 0]
      /\ (forall d,
            In d [mkSeasonMetric 2020 30 110 (36 # 100); mkSeasonMetric 2015 20 100 0] ->
            season d <= season last)
      /\ text_of
           (page (snd (updateHeroMetrics 0%nat
                         (mkState [[mkSeasonMetric 2020 30 110 (36 # 100);
                                    mkSeasonMetric 2015 20 100 0]] Sample.full))))
           "#avgGrowth"
         = Some (match toDouble (avgThreeRate last) with
                 | S754_zero _ => "NaN"
                 | _ =>
                     match (avgThreeRate last ?= 0)%Q with
                     | Gt => "+Infinity"
                     | Eq => "NaN"
                     | Lt => "−Infinity"
                     end
                 end).
Proof.
  split; [repeat split; reflexivity|].
  apply (hero_growth_zero_base
           [[mkSeasonMetric 2020 30 110 (36 # 100); mkSeasonMetric 2015 20 100 0]]
           0%nat [mkSeasonMetric 2020 30 110 (36 # 100); mkSeasonMetric 2015 20 100 0]
           Sample.full (mkSeasonMetric 2015 20 100 0));
    reflexivity.
Defined.

(** ** The legend and the metric filter of the league trends *)

Section LeagueFilter.
Context {d3 : D3}.

Lemma passes_none (k : string) : League.passes None k = true.
Proof. reflexivity. Qed.

(** X3.  A click on the legend button of a metric that is not the active one
    makes it the active one: its line is emphasised (opacity 0.95, width
    3.4) and the two others are dimmed (opacity 0.12, width 2.2).  A second
    click on the same button clears the filter: every line is back at
    opacity 0.95 and width 2.2 and every legend button is marked active. *)
Theorem legend_click_toggles (c : League.Chart) (m : League.Metric) :
  In m League.metricConfig ->
  League.isKey (League.activeMetric c) (League.key m) = false ->
  League.activeMetric (League.legendClick c m) = Some (League.key m)
  /\ League.paths (League.legendClick c m)
     = map (fun m' => if String.eqb (League.key m') (League.key m)
                      then (95 # 100, 34 # 10)%Q else (12 # 100, 22 # 10)%Q)
           League.metricConfig
  /\ League.activeMetric (League.legendClick (League.legendClick c m) m) = None
  /\ League.paths (League.legendClick (League.legendClick c m) m)
     = map (fun _ => (95 # 100, 22 # 10)%Q) League.metricConfig
  /\ Forall (fun b => b = true)
            (League.buttons (League.legendClick (League.legendClick c m) m))
  /\ List.length (League.buttons (League.legendClick (League.legendClick c m) m))
     = List.length (League.buttons (League.legendClick c m)).
Proof.
  intros Hin Hk.
  assert (E1 : League.activeMetric (League.legendClick c m) = Some (League.key m)).
  { unfold League.legendClick. rewrite Hk. reflexivity. }
  assert (E2 : League.activeMetric (League.legendClick (League.legendClick c m) m) = None).
  { unfold League.legendClick at 1. rewrite E1.
    cbn [League.isKey]. rewrite String.eqb_refl. reflexivity. }
  split; [exact E1|]. split.
  { unfold League.legendClick. rewrite Hk.
    destruct Hin as [<-|[<-|[<-|[]]]]; reflexivity. }
  split; [exact E2|]. split.
  { unfold League.legendClick at 1. rewrite E1.
    cbn [League.isKey]. rewrite String.eqb_refl. reflexivity. }
  unfold League.legendClick at 1 3. rewrite E1.
  cbn [League.isKey]. rewrite String.eqb_refl.
  cbn [League.updateMetricFilter League.buttons League.set_active League.activeMetric].
  split.
  - apply Forall_forall. intros b Hb. apply in_map_iff in Hb.
    destruct Hb as (mb & <- & _). reflexivity.
  - rewrite length_map, length_combine.
    unfold League.legendClick. rewrite Hk.
    cbn [League.updateMetricFilter League.buttons League.set_active League.activeMetric].
    rewrite length_map, length_combine. lia.
Qed.

(** X4.  [setMetric] does not check its key.  With a key that names no
    metric every line is dimmed, no legend button is marked, and a tooltip
    shown afterwards holds the season and no row; every focus dot is
    hidden.  With null or the empty string the filter is cleared: every
    line is at opacity 0.95 and width 2.2. *)
Theorem setMetric_unknown_key_hides_all
        (c : League.Chart) (s : State SeasonMetric) (datum : SeasonMetric) :
  (forall k : string,
      k <> "" -> (forall m, In m League.metricConfig -> League.key m <> k) ->
      exists c',
        League.setMetric c (Some k) s = (Ok c', s)
        /\ League.activeMetric c' = Some k
        /\ League.paths c' = map (fun _ => (12 # 100, 22 # 10)%Q) League.metricConfig
        /\ Forall (fun b => b = false) (League.buttons c')
        /\ League.tooltipOf (League.activeMetric c') datum
           = JS.join "" ["<strong>"; string_of_Z (season datum); "</strong><br>"]
        /\ Forall (fun d => snd d = 0%Q) (League.focusDots (League.focusOn c' datum)))
  /\ (forall k : option string,
        k = None \/ k = Some "" ->
        exists c',
          League.setMetric c k s = (Ok c', s)
          /\ League.paths c' = map (fun _ => (95 # 100, 22 # 10)%Q) League.metricConfig
          /\ Forall (fun b => b = true) (League.buttons c')
          /\ List.length (League.rows (League.activeMetric c') datum) = 3%nat).
Proof.
  split.
  - intros k Hk Hno.
    assert (N : forall m, In m League.metricConfig -> String.eqb k (League.key m) = false).
    { intros m Hm. apply String.eqb_neq. intros E. now apply (Hno m Hm). }
    assert (S0 : League.isSet (Some k) = true).
    { cbn [League.isSet]. apply negb_true_iff, String.eqb_neq, Hk. }
    assert (P : forall m, In m League.metricConfig ->
                          League.passes (Some k) (League.key m) = false).
    { intros m Hm. unfold League.passes. rewrite S0. cbn [League.isKey negb orb].
      now apply N. }
    pose proof (P _ (or_introl eq_refl)) as P1.
    pose proof (P _ (or_intror (or_introl eq_refl))) as P2.
    pose proof (P _ (or_intror (or_intror (or_introl eq_refl)))) as P3.
    pose proof (N _ (or_introl eq_refl)) as N1.
    pose proof (N _ (or_intror (or_introl eq_refl))) as N2.
    pose proof (N _ (or_intror (or_intror (or_introl eq_refl)))) as N3.
    cbn [League.key] in P1, P2, P3, N1, N2, N3.
    eexists. split; [reflexivity|].
    cbn [League.updateMetricFilter League.set_active League.activeMetric League.paths
         League.buttons].
    split; [reflexivity|]. split.
    { unfold League.metricConfig. cbn [map League.key].
      rewrite P1, P2, P3, S0. cbn [andb League.isKey]. rewrite N1, N2, N3. reflexivity. }
    split.
    { apply Forall_forall. intros b Hb. apply in_map_iff in Hb.
      destruct Hb as ((m & b') & <- & Hmb). apply in_combine_l in Hmb.
      cbn [fst]. now apply P. }
    split.
    { unfold League.tooltipOf, League.rows, League.metricConfig.
      cbn [List.filter League.key]. rewrite P1, P2, P3. reflexivity. }
    unfold League.focusOn, League.metricConfig.
    cbn [League.focusDots League.activeMetric League.updateMetricFilter League.set_active
         map League.key].
    rewrite S0. cbn [League.isKey]. rewrite N1, N2, N3.
    repeat constructor.
  - intros k [->| ->].
    + eexists. split; [reflexivity|]. split; [reflexivity|]. split; [|reflexivity].
      apply Forall_forall. intros b Hb. apply in_map_iff in Hb.
      destruct Hb as (mb & <- & _). reflexivity.
    + eexists. split; [reflexivity|]. split; [reflexivity|]. split; [|reflexivity].
      apply Forall_forall. intros b Hb. apply in_map_iff in Hb.
      destruct Hb as (mb & <- & _). reflexivity.
Qed.
End LeagueFilter.

Lemma legend_click_toggles_witness :
  (In pointsMetric League.metricConfig
   /\ League.isKey (League.activeMetric Sample.trendChart) (League.key pointsMetric)
      = false)
  /\ League.activeMetric (League.legendClick Sample.trendChart pointsMetric)
     = Some "avgPoints"
  /\ League.paths (League.legendClick Sample.trendChart pointsMetric)
     = [(12 # 100, 22 # 10)%Q; (95 # 100, 34 # 10)%Q; (12 # 100, 22 # 10)%Q]
  /\ League.activeMetric
       (League.legendClick (League.legendClick Sample.trendChart pointsMetric)
          pointsMetric)
     = None.
Proof.
  split; [split; [right; left; reflexivity | reflexivity]|].
  destruct (legend_click_toggles Sample.trendChart pointsMetric
              (or_intror (or_introl eq_refl)) eq_refl) as (H1 & H2 & H3 & _).
  split; [exact H1|]. split; [exact H2 | exact H3].
Defined.

Lemma setMetric_unknown_key_hides_all_witness :
  ("threes" <> ""
   /\ forall m, In m League.metricConfig -> League.key m <> "threes")
  /\ exists c',
      League.setMetric Sample.trendChart (Some "threes")
        (mkState Sample.trendHeap Sample.full)
      = (Ok c', mkState Sample.trendHeap Sample.full)
      /\ League.paths c' = map (fun _ => (12 # 100, 22 # 10)%Q) League.metricConfig.
Proof.
  assert (H1 : "threes" <> "") by discriminate.
  assert (H2 : forall m, In m League.metricConfig -> League.key m <> "threes")
    by (intros m [<-|[<-|[<-|[]]]]; discriminate).
  split; [split; assumption|].
  destruct (proj1 (setMetric_unknown_key_hides_all (d3 := Sample.d3) Sample.trendChart
                     (mkState Sample.trendHeap Sample.full)
                     (mkSeasonMetric 2020 30 110 (36 # 100))) "threes" H1 H2)
    as (c' & E & _ & P & _).
  exists c'. split; assumption.
Defined.

(** ** Hovering and focusing on the two line charts *)

Section Hover.
Context {d3 : D3}.

Lemma nth_error_nil_any (A : Type) (i : nat) : nth_error (@nil A) i = None.
Proof. destruct i; reflexivity. Qed.

(** X5.  The focus dots and the tooltip follow the same filter.  When a
    record is focused (by the pointer or by [focusSeason]) the dot of a
    metric is visible exactly when the metric passes the filter, every dot
    sits at the x of the record's season, and the dots that are visible are
    as many as the rows of the tooltip. *)
Theorem focus_dots_match_tooltip_rows (c : League.Chart) (datum : SeasonMetric) :
  (forall i m,
      nth_error League.metricConfig i = Some m ->
      nth_error (League.focusDots (League.focusOn c datum)) i
      = Some (League.x c (inject_Z (season datum)),
              League.y c (League.accessor m datum),
              if League.passes (League.activeMetric c) (League.key m)
              then 1%Q else 0%Q))
  /\ List.length
       (List.filter (fun d => Qeq_bool (snd d) 1)
          (League.focusDots (League.focusOn c datum)))
     = List.length (League.rows (League.activeMetric c) datum)
  /\ League.crosshair (League.focusOn c datum)
     = Some (League.x c (inject_Z (season datum))).
Proof.
  assert (E : forall k,
             (if League.isSet (League.activeMetric c)
                 && negb (League.isKey (League.activeMetric c) k)
              then 0%Q else 1%Q)
             = if League.passes (League.activeMetric c) k then 1%Q else 0%Q).
  { intros k. unfold League.passes.
    destruct (League.isSet _), (League.isKey _ _); reflexivity. }
  split.
  - intros i m Hi. unfold League.focusOn. cbn [League.focusDots].
    rewrite nth_error_map, Hi. cbn [option_map]. now rewrite E.
  - split; [|reflexivity].
    unfold League.focusOn, League.rows. cbn [League.focusDots].
    rewrite length_map.
    induction League.metricConfig as [|m r IH]; [reflexivity|].
    cbn [map List.filter snd]. rewrite E.
    destruct (League.passes _ _); cbn [Qeq_bool List.length]; simpl; now rewrite IH.
Qed.

(** X6.  The pointer handlers of the two line charts never throw.  Over a
    chart without data a pointer move changes nothing.  After a move over a
    record and a leave, the tooltip is hidden, the crosshair is gone and
    every focus dot is hidden, while the metric filter and the lines are as
    they were. *)
Theorem hover_is_safe_and_leaves_no_trace :
  (forall (c : League.Chart) h p (mx : Q),
      nth_error h (League.data c) = Some [] ->
      League.pointerMove c mx (mkState h p) = (Ok c, mkState h p))
  /\ (forall (c : Scoring.Chart) h p (mx : Q),
      nth_error h (Scoring.data c) = Some [] ->
      Scoring.pointerMove c mx (mkState h p) = (Ok c, mkState h p))
  /\ (forall (c : League.Chart) h p d (mx : Q),
      nth_error h (League.data c) = Some d ->
      exists c1 s1 c2 s2,
        League.pointerMove c mx (mkState h p) = (Ok c1, s1)
        /\ League.pointerLeave c1 s1 = (Ok c2, s2)
        /\ heap s2 = h
        /\ tooltipShow (page s2) = false
        /\ League.crosshair c2 = None
        /\ Forall (fun dot => snd dot = 0%Q) (League.focusDots c2)
        /\ League.activeMetric c2 = League.activeMetric c
        /\ League.paths c2 = League.paths c
        /\ League.buttons c2 = League.buttons c)
  /\ (forall (c : Scoring.Chart) h p d (mx : Q),
      nth_error h (Scoring.data c) = Some d ->
      exists c1 s1 c2 s2,
        Scoring.pointerMove c mx (mkState h p) = (Ok c1, s1)
        /\ Scoring.pointerLeave c1 s1 = (Ok c2, s2)
        /\ heap s2 = h
        /\ tooltipShow (page s2) = false
        /\ Scoring.focusLine c2 = None).
Proof.
  split; [|split; [|split]].
  - intros c h p mx Hd. unfold League.pointerMove. steps.
    now rewrite nth_error_nil_any.
  - intros c h p mx Hd. unfold Scoring.pointerMove. steps.
    now rewrite nth_error_nil_any.
  - intros c h p d mx Hd. unfold League.pointerMove. steps.
    destruct (nth_error d _) as [datum|].
    + unfold League.showTooltip. steps. do 4 eexists.
      split; [reflexivity|]. split; [reflexivity|].
      cbn [heap page hide_tooltip tooltipShow League.crosshair League.focusDots
           League.focusOn League.activeMetric League.paths League.buttons].
      repeat split.
      apply Forall_forall. intros dot Hdot. apply in_map_iff in Hdot.
      destruct Hdot as (x & <- & _). reflexivity.
    + steps. do 4 eexists.
      split; [reflexivity|]. split; [reflexivity|].
      cbn [heap page hide_tooltip tooltipShow League.crosshair League.focusDots
           League.activeMetric League.paths League.buttons].
      repeat split.
      apply Forall_forall. intros dot Hdot. apply in_map_iff in Hdot.
      destruct Hdot as (x & <- & _). reflexivity.
  - intros c h p d mx Hd. unfold Scoring.pointerMove. steps.
    destruct (nth_error d _) as [datum|].
    + unfold Scoring.showSeason. steps. do 4 eexists.
      split; [reflexivity|]. split; [reflexivity|]. repeat split.
    + steps. do 4 eexists.
      split; [reflexivity|]. split; [reflexivity|]. repeat split.
Qed.
End Hover.

Lemma focus_dots_match_tooltip_rows_witness :
  nth_error League.metricConfig 1 = Some pointsMetric
  /\ nth_error
       (League.focusDots
          (League.focusOn (d3 := Sample.d3)
             (League.set_active (Some "avgPoints") Sample.trendChart)
             (mkSeasonMetric 2020 30 110 (36 # 100)))) 1
     = Some (2020, 110, 1)%Q.
Proof.
  split; [reflexivity|].
  apply (proj1 (focus_dots_match_tooltip_rows (d3 := Sample.d3)
                  (League.set_active (Some "avgPoints") Sample.trendChart)
                  (mkSeasonMetric 2020 30 110 (36 # 100))) 1%nat pointsMetric eq_refl).
Defined.

Lemma hover_is_safe_and_leaves_no_trace_witness :
  nth_error ([[]; []] : Heap SeasonMetric) (League.data Sample.trendChart) = Some []
  /\ League.pointerMove (d3 := Sample.d3) Sample.trendChart 100
       (mkState ([[]; []] : Heap SeasonMetric) Sample.full)
     = (Ok Sample.trendChart, mkState ([[]; []] : Heap SeasonMetric) Sample.full).
Proof.
  split; [reflexivity|].
  apply (proj1 (hover_is_safe_and_leaves_no_trace (d3 := Sample.d3))
           Sample.trendChart ([[]; []] : Heap SeasonMetric) Sample.full 100%Q eq_refl).
Defined.

(** ** focusSeason on a season that is present *)

Lemma find_first (A : Type) (f : A -> bool) (d : list A) :
  (exists x, In x d /\ f x = true) ->
  exists i y,
    JS.find f d = Some (i, y) /\ nth_error d i = Some y /\ f y = true
    /\ forall j r, (j < i)%nat -> nth_error d j = Some r -> f r = false.
Proof.
  intros (x & Hin & Hx).
  destruct (find_from_some _ f d 0%nat x Hin Hx) as (i & y & E & _).
  destruct (find_from_pred _ f d 0%nat i y E) as (Fy & _ & Hn & Hb).
  rewrite Nat.sub_0_r in Hn, Hb.
  exists i, y. repeat split; assumption.
Qed.

Lemma mark_dots_nth (n i j : nat) :
  (j < n)%nat ->
  nth_error (Spiral.mark_dots n (Some i)) j
  = Some (if (j =? i)%nat then (9, 1)%Q else (5, 55 # 100)%Q).
Proof.
  intros H. unfold Spiral.mark_dots. rewrite nth_error_map, nth_error_seq.
  destruct (Nat.ltb_spec j n); [reflexivity | lia].
Qed.

Section FocusFound.
Context {d3 : D3}.

(** X7.  When the season passed to [focusSeason] is the season of a record,
    the league trends, the scoring mix and the momentum spiral focus the
    first record of that season in the sorted array: the tooltip (or, on
    the spiral, the label) is the one of that record, and on the spiral its
    dot, and no other, gets radius 9 and full opacity. *)
Theorem focusSeason_finds_first_match :
  (forall (c : League.Chart) h p d (s : Z),
      nth_error h (League.data c) = Some d ->
      (exists x, In x d /\ season x = s) ->
      exists i found,
        nth_error d i = Some found /\ season found = s
        /\ (forall j r, (j < i)%nat -> nth_error d j = Some r -> season r <> s)
        /\ League.focusSeason c (Some s) (mkState h p)
           = (Ok (League.focusOn c found),
              mkState h (show_tooltip
                           (League.tooltipOf (League.activeMetric c) found) p)))
  /\ (forall (c : Scoring.Chart) h p d (s : Z),
      nth_error h (Scoring.data c) = Some d ->
      (exists x, In x d /\ mixSeason x = s) ->
      exists i found c',
        nth_error d i = Some found /\ mixSeason found = s
        /\ (forall j r, (j < i)%nat -> nth_error d j = Some r -> mixSeason r <> s)
        /\ Scoring.focusSeason c (Some s) (mkState h p)
           = (Ok c', mkState h (show_tooltip (Scoring.tooltipOf found) p))
        /\ Scoring.focusLine c' = Some (Scoring.x c (inject_Z s)))
  /\ (forall (c : Spiral.Chart) h p d (s : Z),
      nth_error h (Spiral.data c) = Some d ->
      (exists x, In x d /\ momSeason x = s) ->
      exists i found c',
        nth_error d i = Some found /\ momSeason found = s
        /\ (forall j r, (j < i)%nat -> nth_error d j = Some r -> momSeason r <> s)
        /\ Spiral.focusSeason c (Some s) (mkState h p) = (Ok c', mkState h p)
        /\ Spiral.labelText c' = String.append (string_of_Z s) " momentum wave"
        /\ Spiral.labelAt c' = Some (i, Spiral.pointRadius c i found)
        /\ List.length (Spiral.dots c') = List.length d
        /\ forall j, (j < List.length d)%nat ->
             nth_error (Spiral.dots c') j
             = Some (if (j =? i)%nat then (9, 1)%Q else (5, 55 # 100)%Q)).
Proof.
  split; [|split].
  - intros c h p d s Hd (x & Hin & Hx).
    destruct (find_first _ (fun r => season r =? s) d) as (i & y & E & Hn & Fy & Hb).
    { exists x. split; [exact Hin | now apply Z.eqb_eq]. }
    exists i, y. split; [exact Hn|]. split; [now apply Z.eqb_eq|]. split.
    { intros j r Hj Hr. apply Z.eqb_neq. now apply (Hb j r). }
    unfold League.focusSeason. steps. rewrite E.
    unfold League.showTooltip. steps. reflexivity.
  - intros c h p d s Hd (x & Hin & Hx).
    destruct (find_first _ (fun r => mixSeason r =? s) d) as (i & y & E & Hn & Fy & Hb).
    { exists x. split; [exact Hin | now apply Z.eqb_eq]. }
    apply Z.eqb_eq in Fy.
    exists i, y. eexists. split; [exact Hn|]. split; [exact Fy|]. split.
    { intros j r Hj Hr. apply Z.eqb_neq. now apply (Hb j r). }
    unfold Scoring.focusSeason. steps. rewrite E.
    unfold Scoring.showSeason. steps. split; [reflexivity|].
    cbn [Scoring.focusLine]. now rewrite Fy.
  - intros c h p d s Hd (x & Hin & Hx).
    destruct (find_first _ (fun r => momSeason r =? s) d) as (i & y & E & Hn & Fy & Hb).
    { exists x. split; [exact Hin | now apply Z.eqb_eq]. }
    apply Z.eqb_eq in Fy.
    exists i, y. eexists. split; [exact Hn|]. split; [exact Fy|]. split.
    { intros j r Hj Hr. apply Z.eqb_neq. now apply (Hb j r). }
    unfold Spiral.focusSeason. steps. rewrite E. cbn [option_map fst].
    split; [reflexivity|].
    cbn [Spiral.labelText Spiral.labelAt Spiral.dots].
    split; [now rewrite Fy|]. split; [reflexivity|]. split.
    { unfold Spiral.mark_dots. now rewrite length_map, length_seq. }
    intros j Hj. now apply mark_dots_nth.
Qed.
End FocusFound.

Lemma focusSeason_finds_first_match_witness :
  (nth_error Sample.trendHeap (League.data Sample.trendChart)
   = Some (sort (bySeason season) Sample.trends)
   /\ exists x, In x (sort (bySeason season) Sample.trends) /\ season x = 2015)
  /\ exists i found,
      nth_error (sort (bySeason season) Sample.trends) i = Some found
      /\ season found = 2015
      /\ (forall j r, (j < i)%nat ->
            nth_error (sort (bySeason season) Sample.trends) j = Some r ->
            season r <> 2015)
      /\ League.focusSeason (d3 := Sample.d3) Sample.trendChart (Some 2015)
           (mkState Sample.trendHeap Sample.full)
         = (Ok (League.focusOn (d3 := Sample.d3) Sample.trendChart found),
            mkState Sample.trendHeap
              (show_tooltip
                 (League.tooltipOf (League.activeMetric Sample.trendChart) found)
                 Sample.full)).
Proof.
  assert (H : exists x, In x (sort (bySeason season) Sample.trends) /\ season x = 2015).
  { eexists. split; [left; reflexivity | reflexivity]. }
  split; [split; [reflexivity | exact H]|].
  apply (proj1 (focusSeason_finds_first_match (d3 := Sample.d3))
           Sample.trendChart Sample.trendHeap Sample.full
           (sort (bySeason season) Sample.trends) 2015 eq_refl H).
Defined.

(** ** The heatmap: axes, highlight and hover *)

Lemma sorted_nodup_strict (l : list Z) :
  StronglySorted Z.le l -> NoDup l -> StronglySorted Z.lt l.
Proof.
  induction 1 as [|x r Hs IH Hall]; intros Hnd; constructor.
  - apply IH. now inversion Hnd.
  - inversion Hnd as [|? ? Hnot _]; subst.
    rewrite Forall_forall in *. intros y Hy.
    specialize (Hall y Hy).
    assert (x <> y) by (intros ->; contradiction). lia.
Qed.

(** The sorted distinct seasons of an array. *)
Lemma seasons_axis (A : Type) (key : A -> Z) (d : list A) :
  StronglySorted Z.lt (sort (fun a b => a - b) (distinct Z.eqb (map key d)))
  /\ forall s, In s (sort (fun a b => a - b) (distinct Z.eqb (map key d)))
               <-> exists x, In x d /\ key x = s.
Proof.
  split.
  - apply sorted_nodup_strict.
    + exact (sort_bySeason_sorted Z (fun z => z) (distinct Z.eqb (map key d))).
    + eapply Permutation_NoDup; [apply Permutation_sym, sort_perm|].
      apply distinct_nodup, Z.eqb_eq.
  - intros s. rewrite sort_in, (distinct_in _ Z.eqb Z.eqb_eq), in_map_iff.
    split; intros (x & H1 & H2); exists x; tauto.
Qed.

(** An attribute set on the node at position [i] only. *)
Lemma nth_error_mark (A : Type) (g : nat -> A -> A) (l : list A) (s j : nat) :
  nth_error (map (fun k => g (fst k) (snd k)) (combine (seq s (List.length l)) l)) j
  = option_map (g (s + j)%nat) (nth_error l j).
Proof.
  revert s j. induction l as [|x r IH]; intros s j.
  - destruct j; reflexivity.
  - destruct j as [|j]; cbn [List.length seq combine map nth_error fst snd option_map].
    + now rewrite Nat.add_0_r.
    + rewrite IH. now rewrite Nat.add_succ_r.
Qed.

Lemma length_mark (A : Type) (g : nat * A -> A) (l : list A) :
  List.length (map g (combine (seq 0 (List.length l)) l)) = List.length l.
Proof. rewrite length_map, length_combine, length_seq. lia. Qed.

(** X8.  When [#heatmapChart] exists [renderHeatmap] returns, whatever the
    data.  The columns are the distinct seasons in strictly ascending order
    and the rows the distinct team codes, so that every record has a column
    and a row and every column holds a record; every cell starts at opacity
    0.92.  With no record there is no column and no row. *)
Theorem heatmap_axes_cover_data
        (h : Heap HeatmapCell) (r : ref) (d : list HeatmapCell) (p : Page) :
  nth_error h r = Some d -> exists_el p "#heatmapChart" = true ->
  exists c,
    Heatmap.renderHeatmap r (mkState h p)
    = (Ok c, mkState (h ++ [d])
               (add_drawing "#heatmapChart" (clear_drawing "#heatmapChart" p)))
    /\ Heatmap.data c = List.length h
    /\ StronglySorted Z.lt (Heatmap.seasons c)
    /\ NoDup (Heatmap.teams c)
    /\ (forall x, In x d ->
          In (cellSeason x) (Heatmap.seasons c) /\ In (abbr x) (Heatmap.teams c))
    /\ (forall s, In s (Heatmap.seasons c) -> exists x, In x d /\ cellSeason x = s)
    /\ (forall a, In a (Heatmap.teams c) -> exists x, In x d /\ abbr x = a)
    /\ Heatmap.cells c = map (fun _ => (92 # 100)%Q) d
    /\ (d = [] -> Heatmap.seasons c = [] /\ Heatmap.teams c = []).
Proof.
  intros Hr He. destruct (width_of_some _ _ He) as (w & Hw).
  unfold Heatmap.renderHeatmap. by_anchor; [|discriminate].
  eexists. split; [reflexivity|].
  cbn [Heatmap.data Heatmap.seasons Heatmap.teams Heatmap.cells].
  destruct (seasons_axis _ cellSeason d) as (Hs & Hin).
  assert (Ht : forall a, In a (Heatmap.teamOrder d) <-> exists x, In x d /\ abbr x = a).
  { intros a. unfold Heatmap.teamOrder.
    rewrite sort_in, (distinct_in _ String.eqb string_eqb_spec), in_map_iff.
    split; intros (x & H1 & H2); exists x; tauto. }
  split; [reflexivity|]. split; [exact Hs|]. split.
  { eapply Permutation_NoDup; [apply Permutation_sym, sort_perm|].
    apply distinct_nodup, string_eqb_spec. }
  split.
  { intros x Hx. split; [apply Hin | apply Ht]; now exists x. }
  split; [intros s Hs'; now apply Hin|].
  split; [intros a Ha; now apply Ht|].
  split; [reflexivity|].
  intros ->. split; reflexivity.
Qed.

Lemma heatmap_axes_cover_data_witness :
  (nth_error [Sample.grid] 0 = Some Sample.grid
   /\ exists_el Sample.full "#heatmapChart" = true)
  /\ exists c,
      Heatmap.renderHeatmap 0%nat (mkState [Sample.grid] Sample.full)
      = (Ok c, mkState ([Sample.grid] ++ [Sample.grid])
                 (add_drawing "#heatmapChart"
                    (clear_drawing "#heatmapChart" Sample.full)))
      /\ StronglySorted Z.lt (Heatmap.seasons c).
Proof.
  split; [split; reflexivity|].
  destruct (heatmap_axes_cover_data [Sample.grid] 0%nat Sample.grid Sample.full
              eq_refl eq_refl) as (c & E & _ & Hs & _).
  exists c. split; assumption.
Defined.

(** X9.  [highlight] returns without throwing and keeps one opacity per
    record: 1 for a record that matches the team (when one is given) and
    the season (when one is given), 0.25 for the others.  With neither a
    team nor a season every cell goes to 1, not back to 0.92; with a team
    code that no record has every cell goes to 0.25. *)
Theorem heatmap_highlight_selects
        (c : Heatmap.Chart) (h : Heap HeatmapCell) (p : Page) (d : list HeatmapCell)
        (teamArg : option string) (seasonArg : option Z) :
  nth_error h (Heatmap.data c) = Some d ->
  exists c',
    Heatmap.highlight c teamArg seasonArg (mkState h p) = (Ok c', mkState h p)
    /\ Heatmap.seasons c' = Heatmap.seasons c
    /\ Heatmap.teams c' = Heatmap.teams c
    /\ List.length (Heatmap.cells c') = List.length d
    /\ (forall i x,
          nth_error d i = Some x ->
          (match teamArg with Some t => t = "" \/ abbr x = t | None => True end) ->
          (match seasonArg with Some s => s = 0 \/ cellSeason x = s | None => True end) ->
          nth_error (Heatmap.cells c') i = Some 1%Q)
    /\ (forall i x,
          nth_error d i = Some x ->
          (exists t, teamArg = Some t /\ t <> "" /\ abbr x <> t)
          \/ (exists s, seasonArg = Some s /\ s <> 0 /\ cellSeason x <> s) ->
          nth_error (Heatmap.cells c') i = Some (25 # 100)%Q)
    /\ (Heatmap.given teamArg = false -> seasonGiven seasonArg = None ->
        Heatmap.cells c' = map (fun _ => 1%Q) d).
Proof.
  intros Hd. unfold Heatmap.highlight. steps.
  eexists. split; [reflexivity|].
  cbn [Heatmap.seasons Heatmap.teams Heatmap.cells].
  split; [reflexivity|]. split; [reflexivity|].
  split; [apply length_map|]. split; [|split].
  - intros i x Hi Ht Hs. rewrite nth_error_map, Hi. cbn [option_map]. f_equal.
    assert (E1 : match teamArg with
                 | Some t => if Heatmap.given teamArg then String.eqb (abbr x) t else true
                 | None => true
                 end = true).
    { destruct teamArg as [t|]; [|reflexivity]. cbn [Heatmap.given].
      destruct (String.eqb_spec t ""); [reflexivity|]. cbn [negb].
      destruct Ht as [|Ht]; [contradiction|]. now apply String.eqb_eq. }
    assert (E2 : match seasonArg with
                 | Some s => if s =? 0 then true else cellSeason x =? s
                 | None => true
                 end = true).
    { destruct seasonArg as [s|]; [|reflexivity].
      destruct (Z.eqb_spec s 0); [reflexivity|].
      destruct Hs as [|Hs]; [contradiction|]. now apply Z.eqb_eq. }
    now rewrite E1, E2.
  - intros i x Hi Hno. rewrite nth_error_map, Hi. cbn [option_map]. f_equal.
    destruct Hno as [(t & -> & Ht & Hx)|(s & -> & Hs & Hx)].
    + cbn [Heatmap.given]. apply String.eqb_neq in Ht, Hx. rewrite Ht, Hx. reflexivity.
    + apply Z.eqb_neq in Hs, Hx. rewrite Hs, Hx. now rewrite andb_false_r.
  - intros Ht Hs. apply map_ext. intros x.
    assert (E1 : match teamArg with
                 | Some t => if Heatmap.given teamArg then String.eqb (abbr x) t else true
                 | None => true
                 end = true).
    { destruct teamArg as [t|]; [|reflexivity]. now rewrite Ht. }
    assert (E2 : match seasonArg with
                 | Some s => if s =? 0 then true else cellSeason x =? s
                 | None => true
                 end = true).
    { destruct seasonArg as [s|]; [|reflexivity]. cbn [seasonGiven] in Hs.
      destruct (s =? 0); [reflexivity | discriminate]. }
    now rewrite E1, E2.
Qed.

(** X10.  Hovering does not remember the highlight.  Entering the cell of
    record [i] shows the tooltip of that record and sets the cell to
    opacity 1; leaving it hides the tooltip and sets the cell to 0.92,
    whatever opacity [highlight] had given it.  The other cells keep their
    opacity. *)
Theorem heatmap_hover_forgets_highlight
        (c : Heatmap.Chart) (h : Heap HeatmapCell) (p : Page) (d : list HeatmapCell)
        (i : nat) (x : HeatmapCell) (o : Q) :
  nth_error h (Heatmap.data c) = Some d ->
  nth_error d i = Some x ->
  nth_error (Heatmap.cells c) i = Some o ->
  exists c1 c2,
    Heatmap.pointerEnter c i (mkState h p)
    = (Ok c1, mkState h (show_tooltip (Heatmap.tooltipOf x) p))
    /\ nth_error (Heatmap.cells c1) i = Some 1%Q
    /\ Heatmap.pointerLeave c1 i (mkState h (show_tooltip (Heatmap.tooltipOf x) p))
       = (Ok c2, mkState h (hide_tooltip (show_tooltip (Heatmap.tooltipOf x) p)))
    /\ nth_error (Heatmap.cells c2) i = Some (92 # 100)%Q
    /\ List.length (Heatmap.cells c2) = List.length (Heatmap.cells c)
    /\ forall j, j <> i ->
         nth_error (Heatmap.cells c2) j = nth_error (Heatmap.cells c) j.
Proof.
  intros Hd Hi Ho. unfold Heatmap.pointerEnter. steps. rewrite Hi. steps.
  do 2 eexists. split; [reflexivity|].
  unfold Heatmap.pointerLeave. steps.
  cbn [Heatmap.cells Heatmap.data Heatmap.seasons Heatmap.teams].
  pose proof (nth_error_mark Q (fun n a => if (n =? i)%nat then 1%Q else a)) as M1.
  pose proof (nth_error_mark Q (fun n a => if (n =? i)%nat then (92 # 100)%Q else a)) as M2.
  cbn beta in M1, M2.
  split.
  { rewrite M1, Ho. cbn [option_map Nat.add]. now rewrite Nat.eqb_refl. }
  split; [reflexivity|].
  cbn [Heatmap.cells Heatmap.data Heatmap.seasons Heatmap.teams].
  split.
  { rewrite M2. cbn [Nat.add]. rewrite M1, Ho. cbn [option_map Nat.add].
    now rewrite Nat.eqb_refl. }
  split; [now rewrite !length_mark|].
  intros j Hj. rewrite M2. cbn [Nat.add]. rewrite M1. cbn [Nat.add].
  apply Nat.eqb_neq in Hj. destruct (nth_error (Heatmap.cells c) j); [|reflexivity].
  cbn [option_map]. now rewrite Hj.
Qed.

Lemma heatmap_highlight_selects_witness :
  nth_error [Sample.grid]
    (Heatmap.data (Heatmap.mkChart 0%nat [2019; 2020] ["GSW"; "BOS"; "LAL"; "SEA"]
                     (map (fun _ => (92 # 100)%Q) Sample.grid)))
  = Some Sample.grid
  /\ exists c',
      Heatmap.highlight
        (Heatmap.mkChart 0%nat [2019; 2020] ["GSW"; "BOS"; "LAL"; "SEA"]
           (map (fun _ => (92 # 100)%Q) Sample.grid))
        (Some "GSW") (Some 2020) (mkState [Sample.grid] Sample.full)
      = (Ok c', mkState [Sample.grid] Sample.full)
      /\ List.length (Heatmap.cells c') = List.length Sample.grid.
Proof.
  split; [reflexivity|].
  destruct (heatmap_highlight_selects
              (Heatmap.mkChart 0%nat [2019; 2020] ["GSW"; "BOS"; "LAL"; "SEA"]
                 (map (fun _ => (92 # 100)%Q) Sample.grid))
              [Sample.grid] Sample.full Sample.grid (Some "GSW") (Some 2020) eq_refl)
    as (c' & E & _ & _ & L & _).
  exists c'. split; assumption.
Defined.

Lemma heatmap_hover_forgets_highlight_witness :
  (nth_error [Sample.grid]
     (Heatmap.data (Heatmap.mkChart 0%nat [2019; 2020] ["GSW"; "BOS"; "LAL"; "SEA"]
                      (map (fun _ => (25 # 100)%Q) Sample.grid)))
   = Some Sample.grid
   /\ nth_error Sample.grid 1
      = Some (mkHeatmapCell 2019 "SEA" "Seattle" "Sonics" (90 # 100) (35 # 100))
   /\ nth_error (map (fun _ => (25 # 100)%Q) Sample.grid) 1 = Some (25 # 100)%Q)
  /\ exists c1 c2,
      Heatmap.pointerEnter
        (Heatmap.mkChart 0%nat [2019; 2020] ["GSW"; "BOS"; "LAL"; "SEA"]
           (map (fun _ => (25 # 100)%Q) Sample.grid))
        1 (mkState [Sample.grid] Sample.full)
      = (Ok c1,
         mkState [Sample.grid]
           (show_tooltip
              (Heatmap.tooltipOf
                 (mkHeatmapCell 2019 "SEA" "Seattle" "Sonics" (90 # 100) (35 # 100)))
              Sample.full))
      /\ Heatmap.pointerLeave c1 1
           (mkState [Sample.grid]
              (show_tooltip
                 (Heatmap.tooltipOf
                    (mkHeatmapCell 2019 "SEA" "Seattle" "Sonics" (90 # 100) (35 # 100)))
                 Sample.full))
         = (Ok c2,
            mkState [Sample.grid]
              (hide_tooltip
                 (show_tooltip
                    (Heatmap.tooltipOf
                       (mkHeatmapCell 2019 "SEA" "Seattle" "Sonics" (90 # 100)
                          (35 # 100)))
                    Sample.full)))
      /\ nth_error (Heatmap.cells c2) 1 = Some (92 # 100)%Q.
Proof.
  split; [repeat split; reflexivity|].
  destruct (heatmap_hover_forgets_highlight
              (Heatmap.mkChart 0%nat [2019; 2020] ["GSW"; "BOS"; "LAL"; "SEA"]
                 (map (fun _ => (25 # 100)%Q) Sample.grid))
              [Sample.grid] Sample.full Sample.grid 1%nat
              (mkHeatmapCell 2019 "SEA" "Seattle" "Sonics" (90 # 100) (35 # 100))
              (25 # 100)%Q eq_refl eq_refl eq_refl)
    as (c1 & c2 & E1 & _ & E2 & H & _).
  exists c1, c2. repeat split; assumption.
Defined.

(** ** The team map *)

Lemma greatest_fold (A : Type) (f : A -> Q) (r : list A) (x : A) :
  let b := fold_left (fun m d => if Qlt_le_dec (f m) (f d) then d else m) r x in
  (b = x \/ In b r) /\ (f x <= f b)%Q /\ forall q, In q r -> (f q <= f b)%Q.
Proof.
  revert x. induction r as [|y r IH]; intros x; cbn [fold_left].
  - repeat split; [now left | lra | intros q []].
  - destruct (IH (if Qlt_le_dec (f x) (f y) then y else x)) as (H1 & H2 & H3).
    cbv zeta in *.
    set (b := fold_left _ r _) in *.
    destruct (Qlt_le_dec (f x) (f y)) as [Hlt|Hle].
    + repeat split.
      * destruct H1 as [->|H1]; right; [now left | now right].
      * lra.
      * intros q [<-|Hq]; [exact H2 | now apply H3].
    + repeat split.
      * destruct H1 as [->|H1]; [now left | right; now right].
      * exact H2.
      * intros q [<-|Hq]; [lra | now apply H3].
Qed.

(** [d3.greatest]: an element of the largest value; none on the empty
    array. *)
Lemma greatest_spec (A : Type) (f : A -> Q) (l : list A) :
  match D3lib.greatest f l with
  | Some b => In b l /\ forall q, In q l -> (f q <= f b)%Q
  | None => l = []
  end.
Proof.
  destruct l as [|x r]; [reflexivity|]. cbn [D3lib.greatest].
  destruct (greatest_fold A f r x) as (H1 & H2 & H3). split.
  - destruct H1 as [->|H1]; [now left | now right].
  - intros q [<-|Hq]; [exact H2 | now apply H3].
Qed.

Section TeamMapFacts.
Context {d3 : D3}.

(** X11.  When [#teamMap] exists [renderTeamMap] returns, with or without a
    basemap: reading the coordinates of the best offense cannot fail,
    because only records that the projection can place are kept.  There is
    one bubble for each such record and none for the others.  The label
    "Top offense" stands above a record whose offensive rating no placed
    record exceeds; there is no label when no record is placed. *)
Theorem renderTeamMap_places_what_projects
        (h : Heap TeamGeoStat) (r : ref) (t : option StatesTopology)
        (d : list TeamGeoStat) (p : Page) (w : Q) :
  nth_error h r = Some d -> width_of p "#teamMap" = Some w ->
  let projection :=
    geoAlbersUsa (match t with Some _ => true | None => false end)
                 (or_default w 960 - 10 - 10, 520 - 10 - 10)%Q in
  exists c,
    TeamMap.renderTeamMap r t (mkState h p)
    = (Ok c, mkState h (add_drawing "#teamMap" (clear_drawing "#teamMap" p)))
    /\ (forall x xy,
          In (x, xy) (TeamMap.positioned c)
          <-> In x d /\ projection (lon x, lat x) = Some xy)
    /\ List.length (TeamMap.bubbles c) = List.length (TeamMap.positioned c)
    /\ (forall i q,
          nth_error (TeamMap.positioned c) i = Some q ->
          nth_error (TeamMap.bubbles c) i = Some (TeamMap.r c (offRtg (fst q)), 1%Q))
    /\ match TeamMap.topLabel c with
       | None => TeamMap.positioned c = []
       | Some (lx, ly) =>
           exists best by_,
             In (best, (lx, by_)) (TeamMap.positioned c)
             /\ (forall q, In q (TeamMap.positioned c) ->
                   (offRtg (fst q) <= offRtg best)%Q)
             /\ ly = (by_ - TeamMap.r c (offRtg best) - 6)%Q
       end.
Proof.
  intros Hr Hw projection. unfold TeamMap.renderTeamMap. steps.
  rewrite width_of_clear, Hw. steps. fold projection.
  set (positioned := flat_map _ d).
  assert (Hpos : forall x xy,
             In (x, xy) positioned <-> In x d /\ projection (lon x, lat x) = Some xy).
  { intros x xy. unfold positioned. rewrite in_flat_map. split.
    - intros (y & Hy & Hin). destruct (projection (lon y, lat y)) as [co|] eqn:Ey.
      + destruct Hin as [Hin|[]]. injection Hin as <- <-. now split.
      + destruct Hin.
    - intros (Hx & Ex). exists x. split; [exact Hx|]. rewrite Ex. now left. }
  pose proof (greatest_spec _ (fun q : TeamGeoStat * (Q * Q) => offRtg (fst q))
                positioned) as G.
  destruct (D3lib.greatest _ positioned) as [[best [bx by_]]|].
  - destruct G as (Hin & Hmax). cbn [fst].
    rewrite (proj2 (proj1 (Hpos best (bx, by_)) Hin)). steps.
    eexists. split; [reflexivity|].
    cbn [TeamMap.positioned TeamMap.bubbles TeamMap.topLabel].
    split; [exact Hpos|]. split; [apply length_map|]. split.
    { intros i q Hi. rewrite nth_error_map, Hi. reflexivity. }
    exists best, by_. split; [exact Hin|]. split; [exact Hmax | reflexivity].
  - steps. eexists. split; [reflexivity|].
    cbn [TeamMap.positioned TeamMap.bubbles TeamMap.topLabel].
    split; [exact Hpos|]. rewrite G. split; [reflexivity|]. split; [|reflexivity].
    intros i q Hi. destruct i; discriminate.
Qed.

(** X12.  [focusConference] computes every bubble from the record, not from
    the bubble as it is.  On a chart as rendered, a conference keeps its
    bubbles at the rendered radius and opacity 1 and sends the others to
    0.8 of the radius and opacity 0.2; null or the empty string afterwards
    gives back the chart as rendered, and a second conference gives what it
    would give on the rendered chart. *)
Theorem focusConference_starts_from_the_data
        (c : TeamMap.Chart) (s : State TeamGeoStat) (k : option string) :
  TeamMap.bubbles c
  = map (fun q => (TeamMap.r c (offRtg (fst q)), 1%Q)) (TeamMap.positioned c) ->
  exists c1,
    TeamMap.focusConference c k s = (Ok c1, s)
    /\ (forall i q,
          nth_error (TeamMap.positioned c) i = Some q ->
          nth_error (TeamMap.bubbles c1) i
          = Some (match k with
                  | None => (TeamMap.r c (offRtg (fst q)), 1%Q)
                  | Some name =>
                      if String.eqb name "" || String.eqb (geoConference (fst q)) name
                      then (TeamMap.r c (offRtg (fst q)), 1%Q)
                      else ((TeamMap.r c (offRtg (fst q)) * (8 # 10))%Q, (2 # 10)%Q)
                  end))
    /\ TeamMap.focusConference c1 None s = (Ok c, s)
    /\ TeamMap.focusConference c1 (Some "") s = (Ok c, s)
    /\ forall k2, TeamMap.focusConference c1 k2 s = TeamMap.focusConference c k2 s.
Proof.
  intros Hb. eexists. split; [reflexivity|]. split.
  - intros i q Hi. cbn [TeamMap.bubbles]. rewrite nth_error_map, Hi. cbn [option_map].
    destruct k as [name|]; reflexivity.
  - set (c1 := TeamMap.mkChart _ _ _ _).
    assert (E0 : forall k2,
               TeamMap.focusConference c1 k2 s = TeamMap.focusConference c k2 s)
      by reflexivity.
    assert (E1 : TeamMap.focusConference c None s = (Ok c, s)).
    { unfold TeamMap.focusConference. cbn [orb]. rewrite <- Hb. now destruct c. }
    rewrite !E0. repeat split; assumption.
Qed.
End TeamMapFacts.

Lemma renderTeamMap_places_what_projects_witness :
  (nth_error [Sample.places] 0 = Some Sample.places
   /\ width_of Sample.full "#teamMap" = Some 960%Q)
  /\ exists c,
      TeamMap.renderTeamMap (d3 := Sample.d3) 0%nat (Some UsStates)
        (mkState [Sample.places] Sample.full)
      = (Ok c, mkState [Sample.places]
                 (add_drawing "#teamMap" (clear_drawing "#teamMap" Sample.full)))
      /\ List.length (TeamMap.bubbles c) = List.length (TeamMap.positioned c).
Proof.
  split; [split; reflexivity|].
  destruct (renderTeamMap_places_what_projects (d3 := Sample.d3)
              [Sample.places] 0%nat (Some UsStates) Sample.places Sample.full 960%Q
              eq_refl eq_refl) as (c & E & _ & L & _).
  exists c. split; assumption.
Defined.

Lemma focusConference_starts_from_the_data_witness :
  TeamMap.bubbles
    (TeamMap.mkChart (map (fun x => (x, (lon x, lat x))) Sample.places)
       (Some (115, 115)%Q) [(115, 1)%Q] None)
  = map (fun q => (TeamMap.r (d3 := Sample.d3)
                     (TeamMap.mkChart (map (fun x => (x, (lon x, lat x))) Sample.places)
                        (Some (115, 115)%Q) [(115, 1)%Q] None)
                     (offRtg (fst q)), 1%Q))
        (map (fun x => (x, (lon x, lat x))) Sample.places)
  /\ exists c1,
      TeamMap.focusConference (d3 := Sample.d3)
        (TeamMap.mkChart (map (fun x => (x, (lon x, lat x))) Sample.places)
           (Some (115, 115)%Q) [(115, 1)%Q] None)
        (Some "West") (mkState [Sample.places] Sample.full)
      = (Ok c1, mkState [Sample.places] Sample.full)
      /\ TeamMap.focusConference (d3 := Sample.d3) c1 None
           (mkState [Sample.places] Sample.full)
         = (Ok (TeamMap.mkChart (map (fun x => (x, (lon x, lat x))) Sample.places)
                  (Some (115, 115)%Q) [(115, 1)%Q] None),
            mkState [Sample.places] Sample.full).
Proof.
  split; [reflexivity|].
  destruct (focusConference_starts_from_the_data (d3 := Sample.d3)
              (TeamMap.mkChart (map (fun x => (x, (lon x, lat x))) Sample.places)
                 (Some (115, 115)%Q) [(115, 1)%Q] None)
              (mkState [Sample.places] Sample.full) (Some "West") eq_refl)
    as (c1 & E & _ & R & _).
  exists c1. split; assumption.
Defined.

(** ** The momentum spiral *)

Section SpiralFacts.
Context {d3 : D3}.

(** X13.  On data that is not empty [renderMomentumSpiral] ends by focusing
    the first record of the sorted copy, which is a record of the earliest
    season: the label reads that season, stands at the first point of the
    spiral, and the first dot, and no other, has radius 9 and full
    opacity. *)
Theorem spiral_render_focuses_earliest
        (h : Heap MomentumPoint) (r : ref) (l : list MomentumPoint) (p : Page) :
  nth_error h r = Some l -> l <> [] -> exists_el p "#momentumSpiral" = true ->
  exists c first,
    Spiral.renderMomentumSpiral r (mkState h p)
    = (Ok c, mkState (h ++ [sort (bySeason momSeason) l])
               (add_drawing "#momentumSpiral" (clear_drawing "#momentumSpiral" p)))
    /\ In first l /\ (forall x, In x l -> momSeason first <= momSeason x)
    /\ Spiral.data c = List.length h
    /\ Spiral.labelText c
       = String.append (string_of_Z (momSeason first)) " momentum wave"
    /\ Spiral.labelAt c = Some (0%nat, Spiral.pointRadius c 0 first)
    /\ List.length (Spiral.dots c) = List.length l
    /\ forall j, (j < List.length l)%nat ->
         nth_error (Spiral.dots c) j
         = Some (if (j =? 0)%nat then (9, 1)%Q else (5, 55 # 100)%Q).
Proof.
  intros Hr Hne He. destruct (width_of_some _ _ He) as (w & Hw).
  pose proof (sort_nonempty _ (bySeason momSeason) l Hne) as Hs.
  pose proof (sort_bySeason_sorted _ momSeason l) as Hsorted.
  pose proof (sort_length _ (bySeason momSeason) l) as Hlen.
  pose proof (fun x => sort_in _ (bySeason momSeason) l x) as Hin.
  destruct (sort (bySeason momSeason) l) as [|first rest] eqn:E; [congruence|].
  unfold Spiral.renderMomentumSpiral. by_anchor; [|discriminate].
  rewrite E. cbn [nth_error option_map].
  unfold Spiral.focusSeason. cbn [Spiral.data]. steps.
  unfold JS.find. cbn [find_from]. rewrite Z.eqb_refl. cbn [option_map fst].
  exists (Spiral.mkChart (List.length h) (D3lib.extent momentum (first :: rest))
            (Spiral.mark_dots (List.length (first :: rest)) (Some 0%nat))
            (Some (0%nat,
                   Spiral.pointRadius
                     (Spiral.mkChart (List.length h)
                        (D3lib.extent momentum (first :: rest))
                        (map (fun _ => (5, 1)%Q) (first :: rest)) None "")
                     0 first))
            (String.append (string_of_Z (momSeason first)) " momentum wave")),
    first.
  split; [reflexivity|].
  split; [apply Hin; now left|]. split.
  { intros x Hx. apply (sorted_first_least _ momSeason _ _ Hsorted eq_refl).
    now apply Hin. }
  cbn [Spiral.data Spiral.labelText Spiral.labelAt Spiral.dots].
  repeat split.
  - unfold Spiral.mark_dots. now rewrite length_map, length_seq.
  - intros j Hj. apply mark_dots_nth. now rewrite Hlen.
Qed.

(** X14.  Hovering does not remember the focus.  Once the dot of record [i]
    is the focused one (radius 9), entering it shows the tooltip of the
    record and sets the radius to 8, and leaving it hides the tooltip and
    sets the radius to 5, the radius of a dot that is not focused; its
    opacity, the label and the other dots stay as they were. *)
Theorem spiral_hover_forgets_focus
        (c : Spiral.Chart) (h : Heap MomentumPoint) (p : Page) (d : list MomentumPoint)
        (i : nat) (x : MomentumPoint) (rad op : Q) :
  nth_error h (Spiral.data c) = Some d ->
  nth_error d i = Some x ->
  nth_error (Spiral.dots c) i = Some (rad, op) ->
  exists c1 c2,
    Spiral.pointerEnter c i (mkState h p)
    = (Ok c1, mkState h (show_tooltip (Spiral.tooltipOf x) p))
    /\ nth_error (Spiral.dots c1) i = Some (8%Q, op)
    /\ Spiral.pointerLeave c1 i (mkState h (show_tooltip (Spiral.tooltipOf x) p))
       = (Ok c2, mkState h (hide_tooltip (show_tooltip (Spiral.tooltipOf x) p)))
    /\ nth_error (Spiral.dots c2) i = Some (5%Q, op)
    /\ Spiral.labelText c2 = Spiral.labelText c
    /\ Spiral.labelAt c2 = Spiral.labelAt c
    /\ forall j, j <> i -> nth_error (Spiral.dots c2) j = nth_error (Spiral.dots c) j.
Proof.
  intros Hd Hi Ho. unfold Spiral.pointerEnter. steps. rewrite Hi. steps.
  do 2 eexists. split; [reflexivity|].
  unfold Spiral.pointerLeave. steps.
  pose proof (nth_error_mark (Q * Q)
                (fun n a => if (n =? i)%nat then (8%Q, snd a) else a)) as M1.
  pose proof (nth_error_mark (Q * Q)
                (fun n a => if (n =? i)%nat then (5%Q, snd a) else a)) as M2.
  cbn beta in M1, M2.
  cbn [Spiral.dots Spiral.data Spiral.rDomain Spiral.labelAt Spiral.labelText].
  split.
  { rewrite M1, Ho. cbn [option_map Nat.add snd]. now rewrite Nat.eqb_refl. }
  split; [reflexivity|].
  cbn [Spiral.dots Spiral.data Spiral.rDomain Spiral.labelAt Spiral.labelText].
  split.
  { rewrite M2. cbn [Nat.add]. rewrite M1, Ho. cbn [option_map Nat.add snd].
    now rewrite !Nat.eqb_refl. }
  split; [reflexivity|]. split; [reflexivity|].
  intros j Hj. rewrite M2. cbn [Nat.add]. rewrite M1. cbn [Nat.add].
  apply Nat.eqb_neq in Hj. destruct (nth_error (Spiral.dots c) j); [|reflexivity].
  cbn [option_map]. now rewrite Hj.
Qed.
End SpiralFacts.

Lemma spiral_render_focuses_earliest_witness :
  (nth_error [Sample.waves] 0 = Some Sample.waves
   /\ Sample.waves <> []
   /\ exists_el Sample.full "#momentumSpiral" = true)
  /\ exists c first,
      Spiral.renderMomentumSpiral (d3 := Sample.d3) 0%nat
        (mkState [Sample.waves] Sample.full)
      = (Ok c, mkState ([Sample.waves] ++ [sort (bySeason momSeason) Sample.waves])
                 (add_drawing "#momentumSpiral"
                    (clear_drawing "#momentumSpiral" Sample.full)))
      /\ In first Sample.waves
      /\ Spiral.labelText c
         = String.append (string_of_Z (momSeason first)) " momentum wave".
Proof.
  split; [split; [reflexivity | split; [discriminate | reflexivity]]|].
  destruct (spiral_render_focuses_earliest (d3 := Sample.d3)
              [Sample.waves] 0%nat Sample.waves Sample.full eq_refl)
    as (c & first & E & Hin & _ & _ & Ht & _);
    [discriminate | reflexivity |].
  exists c, first. repeat split; assumption.
Defined.

Lemma spiral_hover_forgets_focus_witness :
  (nth_error [Sample.waves]
     (Spiral.data (Spiral.mkChart 0%nat None [(9, 1)%Q; (5, 55 # 100)%Q]
                     None "2020 momentum wave"))
   = Some Sample.waves
   /\ nth_error Sample.waves 0 = Some (mkMomentum 2020 (30 # 100) (36 # 100) (36 # 100))
   /\ nth_error [(9, 1)%Q; (5, 55 # 100)%Q] 0 = Some (9, 1)%Q)
  /\ exists c1 c2,
      Spiral.pointerEnter
        (Spiral.mkChart 0%nat None [(9, 1)%Q; (5, 55 # 100)%Q] None "2020 momentum wave")
        0 (mkState [Sample.waves] Sample.full)
      = (Ok c1,
         mkState [Sample.waves]
           (show_tooltip
              (Spiral.tooltipOf (mkMomentum 2020 (30 # 100) (36 # 100) (36 # 100)))
              Sample.full))
      /\ Spiral.pointerLeave c1 0
           (mkState [Sample.waves]
              (show_tooltip
                 (Spiral.tooltipOf (mkMomentum 2020 (30 # 100) (36 # 100) (36 # 100)))
                 Sample.full))
         = (Ok c2,
            mkState [Sample.waves]
              (hide_tooltip
                 (show_tooltip
                    (Spiral.tooltipOf
                       (mkMomentum 2020 (30 # 100) (36 # 100) (36 # 100)))
                    Sample.full)))
      /\ nth_error (Spiral.dots c2) 0 = Some (5, 1)%Q.
Proof.
  split; [repeat split; reflexivity|].
  destruct (spiral_hover_forgets_focus
              (Spiral.mkChart 0%nat None [(9, 1)%Q; (5, 55 # 100)%Q] None
                 "2020 momentum wave")
              [Sample.waves] Sample.full Sample.waves 0%nat
              (mkMomentum 2020 (30 # 100) (36 # 100) (36 # 100)) 9%Q 1%Q
              eq_refl eq_refl eq_refl)
    as (c1 & c2 & E1 & _ & E2 & H & _).
  exists c1, c2. repeat split; assumption.
Defined.

(** ** The team scatter: the first drawing *)

Lemma find_key_Z (V : Type) (g : Z -> V) (ks : list Z) (k : Z) :
  match List.find (fun kv => fst kv =? k) (map (fun k' => (k', g k')) ks) with
  | Some kv => Some (snd kv)
  | None => None
  end
  = if existsb (fun k' => k' =? k) ks then Some (g k) else None.
Proof.
  induction ks as [|k' ks IH]; simpl; [reflexivity|].
  destruct (Z.eqb_spec k' k) as [->|_]; [reflexivity | exact IH].
Qed.

Lemma filter_none (A : Type) (f : A -> bool) (l : list A) :
  (forall x, In x l -> f x = false) -> List.filter f l = [].
Proof.
  induction l as [|x r IH]; intros H; [reflexivity|].
  cbn [List.filter]. rewrite (H x) by now left. apply IH. intros y Hy. apply H. now right.
Qed.

(** [groups.get(k) || []]: the values of key [k], in their order. *)
Lemma get_group_Z (A : Type) (key : A -> Z) (l : list A) (k : Z) :
  match D3lib.get Z.eqb (D3lib.group key Z.eqb l) k with
  | Some g => g
  | None => []
  end
  = List.filter (fun d => key d =? k) l.
Proof.
  unfold D3lib.get, D3lib.group.
  rewrite (find_key_Z _ (fun k' => List.filter (fun d => key d =? k') l)).
  destruct (existsb _ _) eqn:E; [reflexivity|].
  symmetry. apply filter_none. intros x Hx. apply Z.eqb_neq. intros Hk.
  assert (T : existsb (fun k' => k' =? k) (distinct Z.eqb (map key l)) = true).
  { apply existsb_exists. exists (key x). split; [|now apply Z.eqb_eq].
    apply (distinct_in _ Z.eqb Z.eqb_eq). now apply in_map. }
  congruence.
Qed.

Lemma subseq_refl (A : Type) (l : list A) : subseq l l.
Proof. induction l; constructor; assumption. Qed.

Lemma map_fst_combine_seq (A : Type) (l : list A) (s : nat) :
  map fst (combine (seq s (List.length l)) l) = seq s (List.length l).
Proof.
  revert s. induction l as [|x r IH]; intros s; simpl; [reflexivity|].
  now rewrite IH.
Qed.

Lemma map_snd_combine_seq (A : Type) (l : list A) (s : nat) :
  map snd (combine (seq s (List.length l)) l) = l.
Proof.
  revert s. induction l as [|x r IH]; intros s; simpl; [reflexivity|].
  now rewrite IH.
Qed.

Lemma text_of_set_text_other (p : Page) (sel sel' s : string) :
  sel <> sel' -> text_of (set_text sel s p) sel' = text_of p sel'.
Proof.
  intros H. unfold set_text, text_of. destruct (exists_el p sel); [|reflexivity].
  cbn [texts List.find fst]. apply String.eqb_neq in H. rewrite H.
  induction (texts p) as [|e r IH]; [reflexivity|].
  cbn [List.filter]. destruct (String.eqb (fst e) sel) eqn:E; cbn [negb List.find].
  - apply String.eqb_eq in E.
    destruct (String.eqb (fst e) sel') eqn:E'; [|exact IH].
    apply String.eqb_eq in E'. apply String.eqb_neq in H. congruence.
  - destruct (String.eqb (fst e) sel'); [reflexivity | exact IH].
Qed.

Section ScatterFirst.
Context {d3 : D3}.

Lemma slots_from_nil (seen : list Z) (ds : list TeamSeasonStat) :
  D3lib.slots_from Scatter.keyOf teamId Z.eqb seen [] ds = map (fun _ => None) ds.
Proof.
  revert seen. induction ds as [|d r IH]; intros seen; simpl; [reflexivity|].
  rewrite IH. now destruct (has Z.eqb seen (teamId d)).
Qed.

Lemma insert_before_none (k : Scatter.Circle) (l : list Scatter.Circle) :
  Scatter.insert_before k None l = l ++ [k].
Proof. induction l as [|x r IH]; simpl; [reflexivity | now rewrite IH]. Qed.

Lemma next_update_none (A : Type) (l : list A) :
  Scatter.next_update (map (fun _ => None) l) = None.
Proof. induction l; simpl; auto. Qed.

Lemma enter_all_none (c : Scatter.Chart) (ds : list TeamSeasonStat)
      (l : list Scatter.Circle) (f : nat) :
  Scatter.enter c ds (map (fun _ => None) ds) l f
  = (seq f (List.length ds),
     l ++ map (fun q => Scatter.entered c (fst q) (snd q))
              (combine (seq f (List.length ds)) ds),
     (f + List.length ds)%nat).
Proof.
  revert l f. induction ds as [|d r IH]; intros l f.
  - simpl. now rewrite app_nil_r, Nat.add_0_r.
  - cbn [map Scatter.enter]. rewrite next_update_none, insert_before_none, IH.
    cbn [List.length seq combine map fst snd].
    rewrite <- app_assoc. cbn [app]. now rewrite Nat.add_succ_r.
Qed.

(** The first join, on an empty layer: every record enters, in data order. *)
Lemma joinSeason_first (c : Scatter.Chart) (ds : list TeamSeasonStat) :
  Scatter.layer c = [] ->
  Scatter.joinSeason c ds
  = Scatter.set_layer
      (map (fun q => Scatter.entered c (fst q) (snd q))
           (combine (seq (Scatter.nextNode c) (List.length ds)) ds))
      (Scatter.nextNode c + List.length ds)%nat c.
Proof.
  intros Hl. unfold Scatter.joinSeason. rewrite Hl.
  unfold D3lib.slots. rewrite slots_from_nil.
  change (Scatter.rebound c [] ds) with (@nil Scatter.Circle).
  rewrite enter_all_none. cbn [app]. f_equal.
  apply order_fix.
  - rewrite map_map. cbn [Scatter.entered Scatter.node].
    change (map (fun x : nat * TeamSeasonStat => fst x)) with (@map (nat * TeamSeasonStat) nat fst).
    rewrite map_fst_combine_seq. apply seq_NoDup.
  - rewrite map_map. cbn [Scatter.entered Scatter.node].
    change (map (fun x : nat * TeamSeasonStat => fst x)) with (@map (nat * TeamSeasonStat) nat fst).
    rewrite map_fst_combine_seq. apply subseq_refl.
Qed.
End ScatterFirst.

Section ScatterRender.
Context {d3 : D3}.

(** X15.  On a page with the container, the slider, the label and the
    insight, and with at least one record whose attempts and accuracy are
    not zero, [renderTeamScatter] draws the latest season of the kept
    records: the slider and the label show it, the insight is the one of
    its records, and the layer holds one new circle for each of its records
    (also for records that share a team id), in data order, at the position
    of the record, with radius 0 and growing to the record's radius. *)
Theorem renderTeamScatter_draws_latest_season
        (h : Heap TeamSeasonStat) (r : ref) (l : list TeamSeasonStat) (p : Page) :
  nth_error h r = Some l ->
  exists_el p "#teamScatter" = true ->
  exists_el p "#seasonSlider" = true ->
  exists_el p "#seasonLabel" = true ->
  exists_el p "#teamInsight" = true ->
  keptRecords l <> [] ->
  exists c s' latest,
    Scatter.renderTeamScatter r (mkState h p) = (Ok (Scatter.Methods c), s')
    /\ heap s' = h ++ [keptRecords l]
    /\ (exists x, In x (keptRecords l) /\ teamSeason x = latest)
    /\ (forall x, In x (keptRecords l) -> teamSeason x <= latest)
    /\ sliderValue (page s') = Some latest
    /\ text_of (page s') "#seasonLabel" = Some (string_of_Z latest)
    /\ text_of (page s') "#teamInsight"
       = Some (Scatter.insightOf
                 (List.filter (fun d => teamSeason d =? latest) (keptRecords l)))
    /\ map Scatter.datum (Scatter.layer c)
       = List.filter (fun d => teamSeason d =? latest) (keptRecords l)
    /\ NoDup (map Scatter.node (Scatter.layer c))
    /\ Forall (fun k => Scatter.radius k = 0%Q /\ Scatter.leaving k = false
                        /\ Scatter.goal k = Scatter.target c (Scatter.datum k)
                        /\ Scatter.cx k = Scatter.x c (teamThreeAttempts (Scatter.datum k))
                        /\ Scatter.cy k = Scatter.y c (threePct (Scatter.datum k) * 100)%Q)
              (Scatter.layer c).
Proof.
  intros Hr Hc Hs Hl Hi Hne.
  destruct (width_of_some _ _ Hc) as (w & Hw).
  fold (keptRecords l) in *.
  set (d := keptRecords l) in *.
  destruct (seasons_axis _ teamSeason d) as (Hsorted & Hin).
  set (seasons := sort (fun a b => a - b) (distinct Z.eqb (map teamSeason d))) in *.
  assert (Hsne : seasons <> []).
  { destruct d as [|x d'] eqn:Ed; [congruence|]. intros E.
    assert (Hx : In (teamSeason x) seasons) by (apply Hin; exists x; split; [now left | reflexivity]).
    rewrite E in Hx. destruct Hx. }
  destruct (last_elem_nonempty _ _ Hsne) as (i & latest & Hlast).
  assert (Hmax : forall x, In x d -> teamSeason x <= latest).
  { intros x Hx.
    apply (sorted_last_greatest Z (fun z => z) seasons i latest).
    - clear - Hsorted. induction Hsorted; constructor; [assumption|].
      eapply Forall_impl; [|eassumption]. cbv beta. intros; lia.
    - exact Hlast.
    - apply Hin. now exists x. }
  assert (Hex : exists x, In x d /\ teamSeason x = latest).
  { apply Hin. eapply last_elem_in; exact Hlast. }
  unfold Scatter.renderTeamScatter. steps. rewrite width_of_clear, Hw. steps.
  change (exists_el (add_drawing "#teamScatter" (clear_drawing "#teamScatter" p)))
    with (exists_el p).
  rewrite Hs, Hl, Hi. cbn [andb negb].
  fold (keptRecords l). fold d. fold seasons. rewrite Hlast. steps.
  assert (Hsv : forall p0, sliderValue (set_text "#seasonLabel" (string_of_Z latest)
                                          (set_slider (Some latest) p0)) = Some latest).
  { intros p0. now rewrite (proj1 (proj2 (proj2 (proj2 (proj2 (console_set_text _ _ _)))))). }
  rewrite Hsv. unfold Scatter.updateSeason. steps.
  cbn [Scatter.seasonGroups].
  rewrite (get_group_Z _ teamSeason d latest).
  rewrite joinSeason_first by reflexivity.
  set (ds := List.filter (fun x => teamSeason x =? latest) d).
  do 3 eexists. split; [reflexivity|].
  cbn [heap page Scatter.layer Scatter.set_layer Scatter.nextNode].
  split; [reflexivity|]. split; [exact Hex|]. split; [exact Hmax|].
  assert (El : forall q, exists_el (set_slider (Some latest)
                           (add_drawing "#teamScatter" (clear_drawing "#teamScatter" p))) q
                         = exists_el p q) by reflexivity.
  split.
  { rewrite !(proj1 (proj2 (proj2 (proj2 (proj2 (console_set_text _ _ _)))))).
    reflexivity. }
  split.
  { rewrite text_of_set_text_other by discriminate.
    apply text_of_set_text. now rewrite exists_el_set_text, El. }
  split.
  { apply text_of_set_text. now rewrite !exists_el_set_text, El. }
  split.
  { rewrite map_map. cbn [Scatter.entered Scatter.datum].
    change (map (fun x : nat * TeamSeasonStat => snd x))
      with (@map (nat * TeamSeasonStat) TeamSeasonStat snd).
    apply map_snd_combine_seq. }
  split.
  { rewrite map_map. cbn [Scatter.entered Scatter.node].
    change (map (fun x : nat * TeamSeasonStat => fst x))
      with (@map (nat * TeamSeasonStat) nat fst).
    rewrite map_fst_combine_seq. apply seq_NoDup. }
  apply Forall_forall. intros k Hk. apply in_map_iff in Hk.
  destruct Hk as (q & <- & _). repeat split.
Qed.
End ScatterRender.

Lemma renderTeamScatter_draws_latest_season_witness :
  (nth_error [Sample.clubs] 0 = Some Sample.clubs
   /\ exists_el Sample.full "#teamScatter" = true
   /\ exists_el Sample.full "#seasonSlider" = true
   /\ exists_el Sample.full "#seasonLabel" = true
   /\ exists_el Sample.full "#teamInsight" = true
   /\ keptRecords Sample.clubs <> [])
  /\ exists c s' latest,
      Scatter.renderTeamScatter (d3 := Sample.d3) 0%nat
        (mkState [Sample.clubs] Sample.full) = (Ok (Scatter.Methods c), s')
      /\ sliderValue (page s') = Some latest
      /\ map Scatter.datum (Scatter.layer c)
         = List.filter (fun d => teamSeason d =? latest) (keptRecords Sample.clubs).
Proof.
  assert (Hne : keptRecords Sample.clubs <> []) by (vm_compute; discriminate).
  split; [repeat split; exact Hne|].
  destruct (renderTeamScatter_draws_latest_season (d3 := Sample.d3)
              [Sample.clubs] 0%nat Sample.clubs Sample.full
              eq_refl eq_refl eq_refl eq_refl eq_refl Hne)
    as (c & s' & latest & E & _ & _ & _ & Hv & _ & _ & Hd & _).
  exists c, s', latest. repeat split; assumption.
Defined.

(** ** The team scatter: what a season update keeps and drops *)

Section ScatterUpdate.
Context {d3 : D3}.

Lemma rebound_nothing (c : Scatter.Chart) (g : list Scatter.Circle) :
  Scatter.rebound c g [] = map Scatter.exiting g.
Proof.
  apply nth_error_ext. intros i. rewrite nth_error_map.
  destruct (nth_error g i) as [k|] eqn:E.
  - rewrite (rebound_nth c g [] i k E). cbn [option_map]. f_equal.
    unfold D3lib.matched. destruct (D3lib.first_with _ _ _ g) as [[j n]|]; [|reflexivity].
    destruct (i =? j)%nat; reflexivity.
  - apply nth_error_None. apply nth_error_None in E.
    unfold Scatter.rebound. now rewrite length_map, length_combine, length_seq, Nat.min_id.
Qed.

(** Where the record of a circle comes from after a join. *)
Lemma joinSeason_data (c : Scatter.Chart) (ds : list TeamSeasonStat) (k : Scatter.Circle) :
  In k (Scatter.layer (Scatter.joinSeason c ds)) ->
  In (Scatter.datum k) ds
  \/ exists k0, In k0 (Scatter.layer c) /\ Scatter.datum k = Scatter.datum k0.
Proof.
  destruct (joinSeason_layer c ds) as (l1 & -> & Hp).
  cbn [Scatter.layer Scatter.set_layer]. intros Hin.
  apply order_incl in Hin.
  apply (Permutation_in _ Hp) in Hin. apply in_app_or in Hin.
  destruct Hin as [Hin|Hin].
  - apply news_in in Hin. destruct Hin as (i & d & n & Hd & _ & -> & _).
    left. eapply nth_error_In; exact Hd.
  - apply rebound_in in Hin. destruct Hin as (i & k0 & Hk0 & ->).
    destruct (D3lib.matched _ _ _ _ ds i k0) as [d|] eqn:Em.
    + left. apply matched_some in Em. tauto.
    + right. exists k0. split; [eapply nth_error_In; exact Hk0 | reflexivity].
Qed.

Lemma seasonDataOf_in (c : Scatter.Chart) (z : Z) (d : TeamSeasonStat) :
  In d (seasonDataOf c z) -> exists z' g, In (z', g) (Scatter.seasonGroups c) /\ In d g.
Proof.
  unfold seasonDataOf, D3lib.get.
  destruct (List.find _ (Scatter.seasonGroups c)) as [[z' g]|] eqn:E; [|intros []].
  intros Hd. apply find_some in E. exists z', g. tauto.
Qed.

Lemma clean_joinSeason (c : Scatter.Chart) (z : Z) :
  clean c -> clean (Scatter.joinSeason c (seasonDataOf c z)).
Proof.
  intros (Hg & Hl). split.
  - destruct (joinSeason_layer c (seasonDataOf c z)) as (l1 & -> & _). exact Hg.
  - intros k Hk. destruct (joinSeason_data c _ k Hk) as [Hd|(k0 & Hk0 & ->)].
    + destruct (seasonDataOf_in c z _ Hd) as (z' & g & H1 & H2). now apply (Hg z' g).
    + now apply Hl.
Qed.

(** X16.  The scatter never shows a record whose attempts or accuracy are
    zero.  The chart [renderTeamScatter] returns holds no such record, in
    its groups or bound to a circle; [updateSeason] with any season, and the
    end of the transitions, keep it so. *)
Theorem scatter_shows_only_kept_records :
  (forall (h : Heap TeamSeasonStat) (r : ref) (p : Page) (c : Scatter.Chart)
          (s' : State TeamSeasonStat),
      Scatter.renderTeamScatter r (mkState h p) = (Ok (Scatter.Methods c), s') ->
      clean c)
  /\ (forall (c : Scatter.Chart) (z : Z) (s : State TeamSeasonStat),
        clean c ->
        exists c' s', Scatter.updateSeason c z s = (Ok c', s') /\ clean c')
  /\ (forall c : Scatter.Chart, clean c -> clean (Scatter.settle c)).
Proof.
  assert (U : forall (c : Scatter.Chart) (z : Z) (s : State TeamSeasonStat),
             clean c ->
             Scatter.updateSeason c z s
             = (Ok (Scatter.joinSeason c (seasonDataOf c z)),
                mkState (heap s)
                  (set_text "#teamInsight" (Scatter.insightOf (seasonDataOf c z))
                     (set_text "#seasonLabel" (string_of_Z z) (page s))))
             /\ clean (Scatter.joinSeason c (seasonDataOf c z))).
  { intros c z [h p] Hc. split; [|now apply clean_joinSeason].
    unfold Scatter.updateSeason. steps. reflexivity. }
  split; [|split].
  - intros h r p c s' E. unfold Scatter.renderTeamScatter in E.
    destruct (nth_error h r) as [l|] eqn:Hr;
      [|unfold filter in E; rewrite step_assoc, read_fails in E by exact Hr; discriminate].
    revert E. steps. rewrite width_of_clear.
    destruct (width_of p "#teamScatter") as [w|]; [|discriminate]. steps.
    match goal with |- context [if ?b then _ else _] => destruct b end;
      [steps; discriminate|].
    set (d := List.filter _ l).
    assert (C0 : forall w', clean (Scatter.mkChart (List.length h)
                                     (D3lib.group teamSeason Z.eqb d)
                                     (D3lib.extent teamThreeAttempts d)
                                     (match D3lib.min threePct d, D3lib.max threePct d with
                                      | Some lo, Some hi => Some (lo * 100 - 2, hi * 100 + 2)%Q
                                      | _, _ => None
                                      end) w' [] 0)).
    { intros w'. split; [|intros k []].
      cbn [Scatter.seasonGroups]. intros z g x Hg Hx.
      unfold D3lib.group in Hg. apply in_map_iff in Hg.
      destruct Hg as (z' & Hg & _). injection Hg as _ <-.
      apply filter_In in Hx. destruct Hx as (Hx & _).
      unfold d in Hx. apply filter_In in Hx. tauto. }
    destruct (last_elem _) as [[i latest]|]; steps.
    + match goal with
      | |- context [match sliderValue ?q with _ => _ end] => destruct (sliderValue q) as [v|]
      end; steps.
      * unfold Scatter.updateSeason. steps. intros E. injection E as <- _.
        apply (clean_joinSeason _ v (C0 _)).
      * intros E. injection E as <- _. apply C0.
    + match goal with
      | |- context [match sliderValue ?q with _ => _ end] => destruct (sliderValue q) as [v|]
      end; steps.
      * unfold Scatter.updateSeason. steps. intros E. injection E as <- _.
        apply (clean_joinSeason _ v (C0 _)).
      * intros E. injection E as <- _. apply C0.
  - intros c z s Hc. destruct (U c z s Hc) as (E & Hc'). eauto.
  - intros c (Hg & Hl). split; [exact Hg|].
    intros k Hk. cbn [Scatter.settle Scatter.layer Scatter.set_layer] in Hk.
    apply in_map_iff in Hk. destruct Hk as (k0 & <- & Hk0).
    apply filter_In in Hk0. cbn [Scatter.datum]. apply Hl. tauto.
Qed.

(** X17.  A season that has no record is not an error.  [updateSeason]
    writes the year to the label and "No team data for this season." to the
    insight, creates no circle, and sends every circle away: each one keeps
    its position and shrinks to radius 0, and when the transitions end the
    layer is empty. *)
Theorem updateSeason_without_records_clears
        (c : Scatter.Chart) (z : Z) (h : Heap TeamSeasonStat) (p : Page) :
  D3lib.get Z.eqb (Scatter.seasonGroups c) z = None ->
  exists c',
    Scatter.updateSeason c z (mkState h p)
    = (Ok c',
       mkState h (set_text "#teamInsight" "No team data for this season."
                    (set_text "#seasonLabel" (string_of_Z z) p)))
    /\ Scatter.layer c' = map Scatter.exiting (Scatter.layer c)
    /\ Scatter.nextNode c' = Scatter.nextNode c
    /\ Forall (fun k => Scatter.leaving k = true
                        /\ Scatter.goal k = (Scatter.cx k, Scatter.cy k, 0%Q))
              (Scatter.layer c')
    /\ Scatter.layer (Scatter.settle c') = [].
Proof.
  intros Hg. unfold Scatter.updateSeason. steps. rewrite Hg.
  eexists. split; [reflexivity|].
  unfold Scatter.joinSeason. cbn [D3lib.slots D3lib.slots_from Scatter.enter].
  rewrite rebound_nothing.
  cbn [Scatter.order Scatter.layer Scatter.set_layer Scatter.nextNode Scatter.settle].
  split; [reflexivity|]. split; [reflexivity|]. split.
  - apply Forall_forall. intros k Hk. apply in_map_iff in Hk.
    destruct Hk as (k0 & <- & _). split; reflexivity.
  - rewrite filter_none; [reflexivity|].
    intros k Hk. apply in_map_iff in Hk. destruct Hk as (k0 & <- & _). reflexivity.
Qed.
End ScatterUpdate.

Lemma updateSeason_without_records_clears_witness :
  D3lib.get Z.eqb (Scatter.seasonGroups Sample.clubChart) 1999 = None
  /\ exists c',
      Scatter.updateSeason (d3 := Sample.d3) Sample.clubChart 1999
        (mkState Sample.clubHeap Sample.full)
      = (Ok c',
         mkState Sample.clubHeap
           (set_text "#teamInsight" "No team data for this season."
              (set_text "#seasonLabel" (string_of_Z 1999) Sample.full)))
      /\ Scatter.layer (Scatter.settle c') = [].
Proof.
  split; [reflexivity|].
  destruct (updateSeason_without_records_clears (d3 := Sample.d3) Sample.clubChart 1999
              Sample.clubHeap Sample.full eq_refl) as (c' & E & _ & _ & _ & H).
  exists c'. split; assumption.
Defined.

Lemma scatter_shows_only_kept_records_witness :
  clean Sample.clubChart
  /\ exists c' s',
      Scatter.updateSeason (d3 := Sample.d3) Sample.clubChart 2020
        (mkState Sample.clubHeap Sample.full) = (Ok c', s')
      /\ clean c'.
Proof.
  assert (H : clean Sample.clubChart).
  { split; [|intros k []].
    intros z g d Hg Hd. vm_compute in Hg.
    destruct Hg as [Hg|[Hg|[]]]; injection Hg as _ <-;
      repeat (destruct Hd as [<-|Hd]; [reflexivity|]); destruct Hd. }
  split; [exact H|].
  apply (proj1 (proj2 (scatter_shows_only_kept_records (d3 := Sample.d3)))
           Sample.clubChart 2020 (mkState Sample.clubHeap Sample.full) H).
Defined.

(** ** The team scatter: the layer when the transitions have ended *)

Section ScatterSettled.
Context {d3 : D3}.

(** In a joined layer a circle stays exactly when it is in the selection. *)
Lemma joined_stays (c : Scatter.Chart) (ds : list TeamSeasonStat) (ids : list nat)
      (L : list Scatter.Circle) :
  joined c ds ids L ->
  forall k, In k L -> (Scatter.leaving k = false <-> In (Scatter.node k) ids).
Proof.
  intros J k Hk.
  pose proof (joined_bound _ _ _ _ J) as HF.
  split.
  - intros Hl. destruct (joined_staying _ _ _ _ J k Hk Hl) as (_ & Hd).
    assert (Hex : exists m, In m ids /\ bound_to c L (Scatter.datum k) m).
    { clear - HF Hd. induction HF as [|d m ds ids Hb HF IH]; [destruct Hd|].
      destruct Hd as [->|Hd].
      - exists m. split; [now left | exact Hb].
      - destruct (IH Hd) as (m' & H1 & H2). exists m'. split; [now right | exact H2]. }
    destruct Hex as (m & Hm & (k' & Hk' & Hn' & Hd' & _)).
    assert (k' = k).
    { apply (nodup_map_eq _ _ Scatter.keyOf L); try assumption.
      - apply (joined_keys _ _ _ _ J).
      - unfold Scatter.keyOf. now rewrite Hd'. }
    subst k'. now rewrite Hn'.
  - intros Hin.
    assert (Hex : exists d, bound_to c L d (Scatter.node k)).
    { clear - HF Hin. induction HF as [|d m ds ids Hb HF IH]; [destruct Hin|].
      destruct Hin as [->|Hin]; [now exists d | now apply IH]. }
    destruct Hex as (d & k' & Hk' & Hn' & _ & Hl' & _).
    assert (k' = k).
    { apply (nodup_map_eq _ _ Scatter.node L); try assumption.
      apply (joined_nodes _ _ _ _ J). }
    now subst k'.
Qed.

Lemma staying_nodes (ids : list nat) (L : list Scatter.Circle) :
  NoDup (map Scatter.node L) -> subseq ids (map Scatter.node L) ->
  (forall k, In k L -> (Scatter.leaving k = false <-> In (Scatter.node k) ids)) ->
  map Scatter.node (List.filter (fun k => negb (Scatter.leaving k)) L) = ids.
Proof.
  revert ids. induction L as [|k L IH]; intros ids Hnd Hs Hiff.
  - inversion Hs. reflexivity.
  - cbn [map] in Hnd, Hs. inversion Hnd as [|? ? Hnot Hnd']; subst.
    cbn [List.filter].
    inversion Hs as [l|x s l Hs'|x s l Hs']; subst.
    + assert (Hk : Scatter.leaving k = true).
      { destruct (Scatter.leaving k) eqn:E; [reflexivity|].
        apply (Hiff k (or_introl eq_refl)) in E. destruct E. }
      rewrite Hk. cbn [negb]. apply IH; [exact Hnd' | constructor|].
      intros k' Hk'. apply Hiff. now right.
    + assert (Hk : Scatter.leaving k = false)
        by (apply (Hiff k (or_introl eq_refl)); now left).
      rewrite Hk. cbn [negb map]. f_equal.
      apply IH; [exact Hnd' | exact Hs'|].
      intros k' Hk'. rewrite (Hiff k' (or_intror Hk')). split; [|now right].
      intros [E|H]; [|exact H]. exfalso. apply Hnot. rewrite E. now apply in_map.
    + assert (Hk : Scatter.leaving k = true).
      { destruct (Scatter.leaving k) eqn:E; [reflexivity|].
        apply (Hiff k (or_introl eq_refl)) in E.
        exfalso. apply Hnot. eapply subseq_in; eassumption. }
      rewrite Hk. cbn [negb]. apply IH; [exact Hnd' | exact Hs'|].
      intros k' Hk'. apply Hiff. now right.
Qed.

Lemma bound_in_order (c : Scatter.Chart) (L : list Scatter.Circle)
      (ds : list TeamSeasonStat) (ids : list nat) :
  NoDup (map Scatter.node L) -> Forall2 (bound_to c L) ds ids ->
  forall S, map Scatter.node S = ids -> (forall k, In k S -> In k L) ->
    map Scatter.datum S = ds
    /\ Forall (fun k => Scatter.goal k = Scatter.target c (Scatter.datum k)) S.
Proof.
  intros Hnd HF. induction HF as [|d n ds ids Hb HF IH]; intros S HS Hin.
  - destruct S; [split; [reflexivity | constructor] | discriminate].
  - destruct S as [|k S]; [discriminate|]. cbn [map] in HS. injection HS as Hn HS.
    destruct Hb as (k' & Hk' & Hn' & Hd' & _ & Hg').
    assert (k' = k).
    { apply (nodup_map_eq _ _ Scatter.node L); try assumption.
      - apply Hin. now left.
      - congruence. }
    subst k'.
    destruct (IH S HS (fun k0 H0 => Hin k0 (or_intror H0))) as (I1 & I2).
    split.
    + cbn [map]. now rewrite Hd', I1.
    + constructor; [now rewrite Hd' | exact I2].
Qed.

(** X18.  From a layer with distinct node identities and distinct keys, and
    for a season whose records have distinct team ids, the layer that is
    left when the transitions of [updateSeason] have ended is the season:
    one circle for each record, in the order of the data, bound to the
    record and at the position and radius of the record, and no other
    circle. *)
Theorem settled_layer_is_the_season
        (c : Scatter.Chart) (z : Z) (s : State TeamSeasonStat) :
  inv c -> NoDup (map teamId (seasonDataOf c z)) ->
  exists c1 s1,
    Scatter.updateSeason c z s = (Ok c1, s1)
    /\ map Scatter.datum (Scatter.layer (Scatter.settle c1)) = seasonDataOf c z
    /\ Forall (fun k => Scatter.leaving k = false
                        /\ (Scatter.cx k, Scatter.cy k, Scatter.radius k)
                           = Scatter.target c (Scatter.datum k)
                        /\ Scatter.goal k = Scatter.target c (Scatter.datum k))
              (Scatter.layer (Scatter.settle c1))
    /\ inv (Scatter.settle c1).
Proof.
  intros Hinv Hds. destruct s as [h p].
  pose proof Hinv as (Hwf & Hk).
  destruct (joinSeason_joined c _ Hwf Hk Hds) as (ids & L & f & E & J & Hlt).
  exists (Scatter.joinSeason c (seasonDataOf c z)). eexists.
  split; [unfold Scatter.updateSeason; steps; reflexivity|].
  split; [|split]; [| |apply inv_settle; now apply inv_joinSeason].
  - rewrite E. cbn [Scatter.settle Scatter.layer Scatter.set_layer].
    rewrite map_map. cbn [Scatter.datum].
    set (S := List.filter (fun k => negb (Scatter.leaving k)) L).
    assert (HS : map Scatter.node S = ids).
    { apply staying_nodes; [apply (joined_nodes _ _ _ _ J)
                           | apply (joined_order _ _ _ _ J)
                           | apply (joined_stays _ _ _ _ J)]. }
    apply (bound_in_order c L _ ids (joined_nodes _ _ _ _ J) (joined_bound _ _ _ _ J) S HS).
    intros k Hk'. apply filter_In in Hk'. tauto.
  - rewrite E. cbn [Scatter.settle Scatter.layer Scatter.set_layer].
    apply Forall_forall. intros k Hk'. apply in_map_iff in Hk'.
    destruct Hk' as (k0 & <- & Hk0). apply filter_In in Hk0.
    destruct Hk0 as (Hk0 & Hl0). apply negb_true_iff in Hl0.
    destruct (joined_staying _ _ _ _ J k0 Hk0 Hl0) as (Hg & _).
    cbn [Scatter.leaving Scatter.cx Scatter.cy Scatter.radius Scatter.goal Scatter.datum].
    rewrite <- Hg. destruct (Scatter.goal k0) as [[a b] r0]. repeat split.
Qed.
End ScatterSettled.

Lemma settled_layer_is_the_season_witness :
  (inv Sample.clubChart
   /\ NoDup (map teamId (seasonDataOf Sample.clubChart 2020)))
  /\ exists c1 s1,
      Scatter.updateSeason (d3 := Sample.d3) Sample.clubChart 2020
        (mkState Sample.clubHeap Sample.full) = (Ok c1, s1)
      /\ map Scatter.datum (Scatter.layer (Scatter.settle c1))
         = seasonDataOf Sample.clubChart 2020.
Proof.
  assert (Hinv : inv Sample.clubChart).
  { repeat split; simpl; try constructor. intros k []. }
  assert (Hds : NoDup (map teamId (seasonDataOf Sample.clubChart 2020))).
  { vm_compute. repeat constructor; simpl; intuition discriminate. }
  split; [split; assumption|].
  destruct (settled_layer_is_the_season (d3 := Sample.d3) Sample.clubChart 2020
              (mkState Sample.clubHeap Sample.full) Hinv Hds)
    as (c1 & s1 & H1 & H2 & _).
  exists c1, s1. split; assumption.
Defined.

(** ** Story steps *)

Lemma story_cases (X : Type) (P : X -> Prop) (st : option string) (a b c d e f z : X) :
  P a -> P b -> P c -> P d -> P e -> P f -> P z ->
  P (match st with
     | Some "league" => a
     | Some "scoring" => b
     | Some "scatter" => c
     | Some "heatmap" => d
     | Some "map" => e
     | Some "spiral" => f
     | _ => z
     end).
Proof.
  intros Ha Hb Hc Hd He Hf Hz.
  destruct st as [s|]; [|assumption].
  do 8 (destruct s as [|[[] [] [] [] [] [] [] []] s]; try assumption).
Qed.

Lemma quietM_ret (A X : Type) (x : X) : quietM (@ret A X x).
Proof. intros s. reflexivity. Qed.

Lemma quietM_throw (A X : Type) (e : string) : quietM (@throw A X e).
Proof. intros s. reflexivity. Qed.

Lemma quietM_bind (A X Y : Type) (m : M A X) (k : X -> M A Y) :
  quietM m -> (forall x, quietM (k x)) -> quietM (bind m k).
Proof.
  intros Hm Hk s. unfold bind. specialize (Hm s).
  destruct (m s) as [[x|e] s']; cbn [snd] in *; [|exact Hm].
  now rewrite Hk.
Qed.

Lemma quietM_read (A : Type) (r : ref) : quietM (@read A r).
Proof. intros s. unfold read. destruct (nth_error (heap s) r); reflexivity. Qed.

Lemma quietM_on_page (A : Type) (f : Page -> Page) :
  (forall p, steps (f p) = steps p) -> quietM (@on_page A f).
Proof. intros H s. apply H. Qed.

Lemma steps_set_text (sel t : string) (p : Page) : steps (set_text sel t p) = steps p.
Proof. apply console_set_text. Qed.

Lemma quietB_ret (X : Type) (x : X) : quietB (retB x).
Proof. intros s. reflexivity. Qed.

Lemma quietB_bind (X Y : Type) (m : B X) (k : X -> B Y) :
  quietB m -> (forall x, quietB (k x)) -> quietB (bindB m k).
Proof.
  intros Hm Hk s. unfold bindB. specialize (Hm s).
  destruct (m s) as [[x|e] s']; cbn [snd] in *; [|exact Hm].
  now rewrite Hk.
Qed.

Lemma quietB_call (A X : Type) (m : M A X) (h : Heap A) : quietM m -> quietB (call m h).
Proof.
  intros Hm s. unfold call. specialize (Hm (mkState h (doc s))).
  destruct (fst (m (mkState h (doc s)))); exact Hm.
Qed.

Lemma quietB_setControllers (f : Controllers -> Controllers) : quietB (setControllers f).
Proof. intros s. reflexivity. Qed.

Section StoryFacts.
Context {d3 : D3}.

Lemma quiet_league_focusSeason (c : League.Chart) (a : option Z) :
  quietM (League.focusSeason c a).
Proof.
  unfold League.focusSeason. apply quietM_bind; [apply quietM_read|]. intros d.
  destruct (match _ with Some r => Some r | None => last_elem d end) as [[i x]|];
    [|apply quietM_throw].
  apply quietM_bind; [now apply quietM_on_page | intros; apply quietM_ret].
Qed.

Lemma quiet_scoring_focusSeason (c : Scoring.Chart) (a : option Z) :
  quietM (Scoring.focusSeason c a).
Proof.
  unfold Scoring.focusSeason. apply quietM_bind; [apply quietM_read|]. intros d.
  destruct (match _ with Some r => Some r | None => last_elem d end) as [[i x]|];
    [|apply quietM_throw].
  apply quietM_bind; [now apply quietM_on_page | intros; apply quietM_ret].
Qed.

Lemma quiet_spiral_focusSeason (c : Spiral.Chart) (a : option Z) :
  quietM (Spiral.focusSeason c a).
Proof.
  unfold Spiral.focusSeason. apply quietM_bind; [apply quietM_read|]. intros d.
  destruct (match _ with Some r => Some r | None => last_elem d end) as [[i x]|];
    [apply quietM_ret | apply quietM_throw].
Qed.

Lemma quiet_updateSeason (c : Scatter.Chart) (z : Z) : quietM (Scatter.updateSeason c z).
Proof.
  unfold Scatter.updateSeason.
  apply quietM_bind; [apply quietM_on_page; intros; apply steps_set_text|]. intros _.
  apply quietM_bind; [apply quietM_on_page; intros; apply steps_set_text|]. intros _.
  apply quietM_ret.
Qed.

Lemma quiet_setSeason (ctl : Scatter.Control) (z : Z) : quietM (Scatter.setSeason ctl z).
Proof.
  destruct ctl as [|c]; [apply quietM_throw|]. cbn [Scatter.setSeason].
  apply quietM_bind; [now apply quietM_on_page|]. intros _.
  apply quietM_bind; [apply quiet_updateSeason | intros; apply quietM_ret].
Qed.

Lemma quiet_highlight (c : Heatmap.Chart) (t : option string) (a : option Z) :
  quietM (Heatmap.highlight c t a).
Proof.
  unfold Heatmap.highlight.
  apply quietM_bind; [apply quietM_read | intros; apply quietM_ret].
Qed.

(** What the steps are after [activateStep], whatever the chart does. *)
Lemma activateStep_steps (s : Dashboard) (i : nat) (step : Step) :
  nth_error (steps (doc s)) i = Some step ->
  steps (doc (snd (activateStep i s)))
  = map (fun k => if (group (snd k) =? group step)%nat
                  then mkStep (group (snd k)) (story (snd k)) (stepSeason (snd k))
                         (stepMetric (snd k)) (stepTeam (snd k))
                         (stepConference (snd k)) (fst k =? i)%nat
                  else snd k)
        (combine (seq 0 (List.length (steps (doc s)))) (steps (doc s))).
Proof.
  intros Hi. unfold activateStep.
  unfold bindB at 1. unfold getDoc at 1. cbn [fst snd]. rewrite Hi.
  unfold bindB at 1. unfold onDoc at 1. cbn [fst snd].
  match goal with
  | |- steps (doc (snd (?k ?s1))) = _ =>
      assert (Q : quietB k); [|rewrite (Q s1); reflexivity]
  end.
  apply quietB_bind; [intros s0; reflexivity|]. intros cs.
  apply story_cases.
  - destruct (league cs) as [[c h]|]; [|apply quietB_ret].
    apply quietB_bind; [apply quietB_call; intros s0; reflexivity|]. intros r1.
    apply quietB_bind; [apply quietB_setControllers|]. intros _.
    destruct (seasonGiven (stepSeason step)); [|apply quietB_ret].
    apply quietB_bind; [apply quietB_call, quiet_league_focusSeason|]. intros r2.
    apply quietB_setControllers.
  - destruct (seasonGiven (stepSeason step)); [|apply quietB_ret].
    destruct (scoring cs) as [[c h]|]; [|apply quietB_ret].
    apply quietB_bind; [apply quietB_call, quiet_scoring_focusSeason|]. intros r1.
    apply quietB_setControllers.
  - destruct (seasonGiven (stepSeason step)); [|apply quietB_ret].
    destruct (scatter cs) as [[c h]|]; [|apply quietB_ret].
    apply quietB_bind; [apply quietB_call, quiet_setSeason|]. intros r1.
    apply quietB_setControllers.
  - destruct (heatmap cs) as [[c h]|]; [|apply quietB_ret].
    apply quietB_bind; [apply quietB_call, quiet_highlight|]. intros r1.
    apply quietB_setControllers.
  - destruct (map_ cs) as [[c h]|]; [|apply quietB_ret].
    apply quietB_bind; [apply quietB_call; intros s0; reflexivity|]. intros r1.
    apply quietB_setControllers.
  - destruct (seasonGiven (stepSeason step)); [|apply quietB_ret].
    destruct (spiral cs) as [[c h]|]; [|apply quietB_ret].
    apply quietB_bind; [apply quietB_call, quiet_spiral_focusSeason|]. intros r1.
    apply quietB_setControllers.
  - apply quietB_ret.
Qed.

(** X19.  In a document where the steps of a group are the children of one
    parent, [activateStep] marks the step it is given as the only active one
    of its group and leaves the steps of the other groups as they are,
    whether the chart it then calls returns or throws.  For an element that
    is missing it does nothing. *)
Theorem activateStep_marks_one_step_per_group (s : Dashboard) (i : nat) :
  (forall step,
      nth_error (steps (doc s)) i = Some step ->
      List.length (steps (doc (snd (activateStep i s)))) = List.length (steps (doc s))
      /\ forall j st,
           nth_error (steps (doc s)) j = Some st ->
           nth_error (steps (doc (snd (activateStep i s)))) j
           = Some (if (group st =? group step)%nat
                   then mkStep (group st) (story st) (stepSeason st) (stepMetric st)
                          (stepTeam st) (stepConference st) (j =? i)%nat
                   else st))
  /\ (nth_error (steps (doc s)) i = None -> activateStep i s = (Ok tt, s)).
Proof.
  split.
  - intros step Hi. rewrite (activateStep_steps s i step Hi). split.
    + apply length_mark.
    + intros j st Hj.
      rewrite (nth_error_mark Step
                 (fun n x => if (group x =? group step)%nat
                             then mkStep (group x) (story x) (stepSeason x) (stepMetric x)
                                    (stepTeam x) (stepConference x) (n =? i)%nat
                             else x)).
      rewrite Hj. reflexivity.
  - intros Hi. unfold activateStep, bindB, getDoc. cbn [fst snd]. now rewrite Hi.
Qed.
End StoryFacts.

Lemma activateStep_marks_one_step_per_group_witness :
  nth_error (steps (doc Story.board)) 1
  = Some (mkStep 0 (Some "league") None None None None false)
  /\ List.length (steps (doc (snd (activateStep (d3 := Sample.d3) 1 Story.board))))
     = List.length (steps (doc Story.board)).
Proof.
  split; [reflexivity|].
  apply (proj1 (activateStep_marks_one_step_per_group (d3 := Sample.d3) Story.board 1)
           (mkStep 0 (Some "league") None None None None false) eq_refl).
Defined.

Section StoryDispatch.
Context {d3 : D3}.

(** X20.  The empty control that [renderTeamScatter] returns on a page
    without slider has no [setSeason], and [activateStep] calls it without
    looking: a step of the scatter story that carries a season throws a
    TypeError.  The step has been marked active by then; the controllers are
    as they were and nothing is logged. *)
Theorem empty_control_fails_scatter_steps
        (s : Dashboard) (i : nat) (step : Step) (h : Heap TeamSeasonStat) (z : Z) :
  nth_error (steps (doc s)) i = Some step ->
  story step = Some "scatter" -> stepSeason step = Some z -> z <> 0 ->
  scatter (controllers s) = Some (Scatter.Empty, h) ->
  exists s',
    activateStep i s = (Throw TypeError, s')
    /\ controllers s' = controllers s
    /\ console (doc s') = console (doc s)
    /\ nth_error (steps (doc s')) i
       = Some (mkStep (group step) (story step) (stepSeason step) (stepMetric step)
                 (stepTeam step) (stepConference step) true).
Proof.
  intros Hi Hst Hz Hnz Hc.
  pose proof (activateStep_steps s i step Hi) as Hsteps.
  assert (E : exists s', activateStep i s = (Throw TypeError, s')
                         /\ controllers s' = controllers s
                         /\ console (doc s') = console (doc s)).
  { unfold activateStep.
    unfold bindB at 1. unfold getDoc at 1. cbn [fst snd]. rewrite Hi.
    unfold bindB at 1. unfold onDoc at 1. cbn [fst snd].
    unfold bindB at 1. unfold getControllers at 1. cbn [fst snd controllers].
    rewrite Hst, Hz, Hc. cbv beta iota. cbn [seasonGiven].
    apply Z.eqb_neq in Hnz. rewrite Hnz.
    unfold bindB, call. cbn [Scatter.setSeason throw fst snd doc controllers page].
    eexists. split; [reflexivity|]. split; reflexivity. }
  destruct E as (s' & E & Hcs & Hcon). rewrite E in Hsteps. cbn [snd] in Hsteps.
  exists s'. split; [exact E|]. split; [exact Hcs|]. split; [exact Hcon|].
  rewrite Hsteps.
  rewrite (nth_error_mark Step
             (fun n x => if (group x =? group step)%nat
                         then mkStep (group x) (story x) (stepSeason x) (stepMetric x)
                                (stepTeam x) (stepConference x) (n =? i)%nat
                         else x)).
  rewrite Hi. cbn [option_map Nat.add]. now rewrite !Nat.eqb_refl.
Qed.

(** X21.  A step of the league story always sets the metric filter, also
    when it names no metric: the filter a reader had set with the legend is
    then cleared, and every line is back at opacity 0.95 and width 2.2.  A
    step without a season moves no crosshair and shows no tooltip. *)
Theorem league_step_sets_the_filter
        (s : Dashboard) (i : nat) (step : Step) (c : League.Chart)
        (h : Heap SeasonMetric) :
  nth_error (steps (doc s)) i = Some step ->
  story step = Some "league" ->
  seasonGiven (stepSeason step) = None ->
  league (controllers s) = Some (c, h) ->
  exists c' s',
    activateStep i s = (Ok tt, s')
    /\ league (controllers s') = Some (c', h)
    /\ League.activeMetric c' = orNull (stepMetric step)
    /\ (orNull (stepMetric step) = None ->
        League.paths c' = map (fun _ => (95 # 100, 22 # 10)%Q) League.metricConfig)
    /\ League.crosshair c' = League.crosshair c
    /\ tooltipShow (doc s') = tooltipShow (doc s)
    /\ scoring (controllers s') = scoring (controllers s)
    /\ scatter (controllers s') = scatter (controllers s)
    /\ heatmap (controllers s') = heatmap (controllers s)
    /\ map_ (controllers s') = map_ (controllers s)
    /\ spiral (controllers s') = spiral (controllers s).
Proof.
  intros Hi Hst Hz Hc. unfold activateStep.
  unfold bindB at 1. unfold getDoc at 1. cbn [fst snd]. rewrite Hi.
  unfold bindB at 1. unfold onDoc at 1. cbn [fst snd].
  unfold bindB at 1. unfold getControllers at 1. cbn [fst snd controllers].
  rewrite Hst, Hz, Hc. cbv beta iota.
  unfold bindB, call, League.setMetric, setControllers, retB, ret.
  cbn [fst snd doc controllers page heap storyReady].
  do 2 eexists. split; [reflexivity|].
  cbn [controllers set_league league scoring scatter heatmap map_ spiral doc
       League.updateMetricFilter League.set_active League.activeMetric League.paths
       League.crosshair set_steps tooltipShow].
  repeat split. intros ->. reflexivity.
Qed.
End StoryDispatch.

Lemma empty_control_fails_scatter_steps_witness :
  (nth_error (steps (doc Story.board)) 2
   = Some (mkStep 1 (Some "scatter") (Some 2020) None None None false)
   /\ 2020 <> 0
   /\ scatter (controllers Story.board)
      = Some (Scatter.Empty, [Sample.clubs; Sample.clubs]))
  /\ exists s',
      activateStep (d3 := Sample.d3) 2 Story.board = (Throw TypeError, s')
      /\ controllers s' = controllers Story.board.
Proof.
  split; [repeat split; discriminate|].
  destruct (empty_control_fails_scatter_steps (d3 := Sample.d3) Story.board 2
              (mkStep 1 (Some "scatter") (Some 2020) None None None false)
              [Sample.clubs; Sample.clubs] 2020 eq_refl eq_refl eq_refl)
    as (s' & E & C & _); [discriminate | reflexivity |].
  exists s'. split; assumption.
Defined.

Lemma league_step_sets_the_filter_witness :
  (nth_error (steps (doc Story.board)) 1
   = Some (mkStep 0 (Some "league") None None None None false)
   /\ league (controllers Story.board)
      = Some (League.set_active (Some "avgPoints") Sample.trendChart, Sample.trendHeap))
  /\ exists c' s',
      activateStep (d3 := Sample.d3) 1 Story.board = (Ok tt, s')
      /\ league (controllers s') = Some (c', Sample.trendHeap)
      /\ League.activeMetric c' = None.
Proof.
  split; [split; reflexivity|].
  destruct (league_step_sets_the_filter (d3 := Sample.d3) Story.board 1
              (mkStep 0 (Some "league") None None None None false)
              (League.set_active (Some "avgPoints") Sample.trendChart)
              Sample.trendHeap eq_refl eq_refl eq_refl eq_refl)
    as (c' & s' & E & L & A & _).
  exists c', s'. repeat split; assumption.
Defined.

(** ** Datasets without records *)

Section EmptyData.
Context {d3 : D3}.

(** X22.  Five renderers accept a dataset without records: on a page with
    their anchors the league trends, the scoring mix, the heatmap, the team
    map and the team scatter (also when every record is dropped by its
    filter) return a control over an empty chart and draw their frame.  The
    momentum spiral does not: it ends with [focusSeason] of the first
    season, which finds no record, and throws a TypeError after its frame
    has been drawn. *)
Theorem renderers_on_empty_data :
  (forall (h : Heap SeasonMetric) r p,
      nth_error h r = Some [] -> exists_el p "#leagueTrendChart" = true ->
      exists c,
        League.renderLeagueTrends r (mkState h p)
        = (Ok c, mkState (h ++ [[]])
                   (add_drawing "#leagueTrendChart"
                      (clear_drawing "#leagueTrendChart" p)))
        /\ League.xDomain c = None /\ League.yDomain c = None)
  /\ (forall (h : Heap ScoringMixRecord) r p,
      nth_error h r = Some [] -> exists_el p "#scoringMixChart" = true ->
      exists c,
        Scoring.renderScoringMix r (mkState h p)
        = (Ok c, mkState (h ++ [[]])
                   (add_drawing "#scoringMixChart"
                      (clear_drawing "#scoringMixChart" p)))
        /\ Scoring.xDomain c = None)
  /\ (forall (h : Heap HeatmapCell) r p,
      nth_error h r = Some [] -> exists_el p "#heatmapChart" = true ->
      exists c,
        Heatmap.renderHeatmap r (mkState h p)
        = (Ok c, mkState (h ++ [[]])
                   (add_drawing "#heatmapChart" (clear_drawing "#heatmapChart" p)))
        /\ Heatmap.seasons c = [] /\ Heatmap.teams c = [] /\ Heatmap.cells c = [])
  /\ (forall (h : Heap TeamGeoStat) r t p,
      nth_error h r = Some [] -> exists_el p "#teamMap" = true ->
      exists c,
        TeamMap.renderTeamMap r t (mkState h p)
        = (Ok c, mkState h (add_drawing "#teamMap" (clear_drawing "#teamMap" p)))
        /\ TeamMap.bubbles c = [] /\ TeamMap.topLabel c = None)
  /\ (forall (h : Heap TeamSeasonStat) r l p,
      nth_error h r = Some l -> keptRecords l = [] ->
      exists_el p "#teamScatter" = true ->
      exists_el p "#seasonSlider" = true ->
      exists_el p "#seasonLabel" = true ->
      exists_el p "#teamInsight" = true ->
      exists c s',
        Scatter.renderTeamScatter r (mkState h p) = (Ok (Scatter.Methods c), s')
        /\ Scatter.layer c = [] /\ Scatter.seasonGroups c = []
        /\ sliderValue (page s') = sliderValue p
        /\ console (page s') = console p
        /\ (forall v, sliderValue p = Some v ->
              text_of (page s') "#seasonLabel" = Some (string_of_Z v)
              /\ text_of (page s') "#teamInsight"
                 = Some "No team data for this season."))
  /\ (forall (h : Heap MomentumPoint) r p,
      nth_error h r = Some [] -> exists_el p "#momentumSpiral" = true ->
      Spiral.renderMomentumSpiral r (mkState h p)
      = (Throw TypeError,
         mkState (h ++ [[]])
           (add_drawing "#momentumSpiral" (clear_drawing "#momentumSpiral" p)))).
Proof.
  split; [|split; [|split; [|split; [|split]]]].
  - intros h r p Hr He. destruct (width_of_some _ _ He) as (w & Hw).
    unfold League.renderLeagueTrends. by_anchor; [|discriminate].
    eexists. split; [reflexivity|]. split; reflexivity.
  - intros h r p Hr He. destruct (width_of_some _ _ He) as (w & Hw).
    unfold Scoring.renderScoringMix. by_anchor; [|discriminate].
    eexists. split; [reflexivity|]. reflexivity.
  - intros h r p Hr He. destruct (width_of_some _ _ He) as (w & Hw).
    unfold Heatmap.renderHeatmap. by_anchor; [|discriminate].
    eexists. split; [reflexivity|]. repeat split.
  - intros h r t p Hr He. destruct (width_of_some _ _ He) as (w & Hw).
    unfold TeamMap.renderTeamMap. steps. rewrite width_of_clear, Hw. steps.
    eexists. split; [reflexivity|]. split; reflexivity.
  - intros h r l p Hr Hk Hc Hs Hl Hi. destruct (width_of_some _ _ Hc) as (w & Hw).
    unfold Scatter.renderTeamScatter. steps. rewrite width_of_clear, Hw. steps.
    change (exists_el (add_drawing "#teamScatter" (clear_drawing "#teamScatter" p)))
      with (exists_el p).
    rewrite Hs, Hl, Hi. cbn [andb negb].
    fold (keptRecords l). rewrite Hk.
    cbn [map distinct distinct_from sort last_elem]. steps.
    cbn [sliderValue add_drawing clear_drawing].
    destruct (sliderValue p) as [v|] eqn:Ev.
    + unfold Scatter.updateSeason. steps.
      do 2 eexists. split; [reflexivity|].
      cbn [page Scatter.layer Scatter.seasonGroups Scatter.joinSeason].
      split; [reflexivity|]. split; [reflexivity|]. split.
      { rewrite !(proj1 (proj2 (proj2 (proj2 (proj2 (console_set_text _ _ _)))))).
        exact Ev. }
      split.
      { now rewrite !(proj1 (console_set_text _ _ _)). }
      intros v' Hv'. injection Hv' as <-. split.
      * rewrite text_of_set_text_other by discriminate.
        apply text_of_set_text. exact Hl.
      * apply text_of_set_text. now rewrite exists_el_set_text.
    + do 2 eexists. split; [reflexivity|].
      cbn [page Scatter.layer Scatter.seasonGroups].
      split; [reflexivity|]. split; [reflexivity|]. split; [exact Ev|].
      split; [reflexivity|]. intros v' Hv'. discriminate.
  - intros h r p Hr He. destruct (width_of_some _ _ He) as (w & Hw).
    unfold Spiral.renderMomentumSpiral. by_anchor; [|discriminate].
    cbn [sort nth_error option_map].
    unfold Spiral.focusSeason. cbn [Spiral.data]. steps. reflexivity.
Qed.
End EmptyData.

Lemma renderers_on_empty_data_witness :
  (nth_error ([[]] : Heap MomentumPoint) 0 = Some []
   /\ exists_el Sample.full "#momentumSpiral" = true)
  /\ Spiral.renderMomentumSpiral (d3 := Sample.d3) 0%nat (mkState [[]] Sample.full)
     = (Throw TypeError,
        mkState ([[]] ++ [[]])
          (add_drawing "#momentumSpiral"
             (clear_drawing "#momentumSpiral" Sample.full))).
Proof.
  split; [split; reflexivity|].
  apply (proj2 (proj2 (proj2 (proj2 (proj2
           (renderers_on_empty_data (d3 := Sample.d3))))))
           [[]] 0%nat Sample.full eq_refl eq_refl).
Defined.

(** ** init when the data has arrived *)

Lemma calm_refl (p : Page) : calm p p.
Proof. repeat split; auto. Qed.

Lemma calm_trans (p q r : Page) : calm p q -> calm q r -> calm p r.
Proof.
  intros (A1 & A2 & A3 & A4) (B1 & B2 & B3 & B4).
  repeat split; try congruence. auto.
Qed.

Lemma calm_exists_el (p p' : Page) (sel : string) :
  calm p p' -> exists_el p' sel = exists_el p sel.
Proof. intros (E & _). unfold exists_el. now rewrite E. Qed.

Lemma calm_redraw (sel : string) (p : Page) :
  calm p (add_drawing sel (clear_drawing sel p))
  /\ In sel (drawn (add_drawing sel (clear_drawing sel p))).
Proof.
  split; [|now left]. repeat split. intros x Hx. cbn [drawn add_drawing clear_drawing].
  destruct (String.eqb_spec x sel) as [->|Hne]; [now left|].
  right. apply filter_In. split; [exact Hx|].
  apply negb_true_iff, String.eqb_neq, Hne.
Qed.

Lemma calm_set_text (sel t : string) (p : Page) : calm p (set_text sel t p).
Proof.
  unfold set_text. destruct (exists_el p sel); [|apply calm_refl]. repeat split; auto.
Qed.

Lemma calm_set_slider (v : option Z) (p : Page) : calm p (set_slider v p).
Proof. repeat split; auto. Qed.

Lemma call_ok (A X : Type) (m : M A X) (h h' : Heap A) (s : Dashboard) (v : X) (p' : Page) :
  m (mkState h (doc s)) = (Ok v, mkState h' p') ->
  call m h s = (Ok (v, h'), mkDashboard (controllers s) p' (storyReady s)).
Proof. intros E. unfold call. now rewrite E. Qed.

Lemma call_throw (A X : Type) (m : M A X) (h h' : Heap A) (s : Dashboard) (e : string)
      (p' : Page) :
  m (mkState h (doc s)) = (Throw e, mkState h' p') ->
  call m h s = (Throw e, mkDashboard (controllers s) p' (storyReady s)).
Proof. intros E. unfold call. now rewrite E. Qed.

Section Runs.
Context {d3 : D3}.

Lemma hero_run (a : list SeasonMetric) (p : Page) :
  exists h' p',
    updateHeroMetrics 0%nat (mkState [a] p) = (Ok tt, mkState h' p')
    /\ nth_error h' 0 = Some a /\ calm p p'.
Proof.
  destruct a as [|x a'].
  - exists [[]], p. split; [reflexivity|]. split; [reflexivity | apply calm_refl].
  - destruct (updateHeroMetrics_run [x :: a'] 0%nat (x :: a') p eq_refl)
      as (first & i & last & _ & _ & E); [discriminate|].
    do 2 eexists. split; [exact E|]. split; [reflexivity | apply calm_set_text].
Qed.

Lemma league_run (h : Heap SeasonMetric) (a : list SeasonMetric) (p : Page) :
  nth_error h 0 = Some a -> exists_el p "#leagueTrendChart" = true ->
  exists c h' p',
    League.renderLeagueTrends 0%nat (mkState h p) = (Ok c, mkState h' p')
    /\ calm p p' /\ In "#leagueTrendChart" (drawn p').
Proof.
  intros Hr He. destruct (renderLeagueTrends_ok h 0%nat a p Hr He) as (c & E & _).
  do 3 eexists. split; [exact E|]. apply calm_redraw.
Qed.

Lemma scoring_run (b : list ScoringMixRecord) (p : Page) :
  exists_el p "#scoringMixChart" = true ->
  exists c h' p',
    Scoring.renderScoringMix 0%nat (mkState [b] p) = (Ok c, mkState h' p')
    /\ calm p p' /\ In "#scoringMixChart" (drawn p').
Proof.
  intros He. destruct (width_of_some _ _ He) as (w & Hw).
  assert (Hr : nth_error [b] 0 = Some b) by reflexivity.
  unfold Scoring.renderScoringMix. by_anchor; [|discriminate].
  do 3 eexists. split; [reflexivity|]. apply calm_redraw.
Qed.

Lemma heatmap_run (d : list HeatmapCell) (p : Page) :
  exists_el p "#heatmapChart" = true ->
  exists c h' p',
    Heatmap.renderHeatmap 0%nat (mkState [d] p) = (Ok c, mkState h' p')
    /\ calm p p' /\ In "#heatmapChart" (drawn p').
Proof.
  intros He. destruct (width_of_some _ _ He) as (w & Hw).
  assert (Hr : nth_error [d] 0 = Some d) by reflexivity.
  unfold Heatmap.renderHeatmap. by_anchor; [|discriminate].
  do 3 eexists. split; [reflexivity|]. apply calm_redraw.
Qed.

Lemma map_run (e : list TeamGeoStat) (t : option StatesTopology) (p : Page) :
  exists_el p "#teamMap" = true ->
  exists c h' p',
    TeamMap.renderTeamMap 0%nat t (mkState [e] p) = (Ok c, mkState h' p')
    /\ calm p p' /\ In "#teamMap" (drawn p').
Proof.
  intros He. destruct (width_of_some _ _ He) as (w & Hw).
  assert (Hr : nth_error [e] 0 = Some e) by reflexivity.
  unfold TeamMap.renderTeamMap. steps. rewrite width_of_clear, Hw. steps.
  set (projection := geoAlbersUsa _ _).
  set (positioned := flat_map _ e).
  pose proof (greatest_spec _ (fun q : TeamGeoStat * (Q * Q) => offRtg (fst q))
                positioned) as G.
  destruct (D3lib.greatest _ positioned) as [[best [bx by_]]|].
  - destruct G as (Hin & _). cbn [fst].
    assert (Hp : projection (lon best, lat best) = Some (bx, by_)).
    { unfold positioned in Hin. apply in_flat_map in Hin.
      destruct Hin as (y & _ & Hy).
      destruct (projection (lon y, lat y)) as [co|] eqn:Ey; [|destruct Hy].
      destruct Hy as [Hy|[]]. injection Hy as <- <-. exact Ey. }
    rewrite Hp. steps. do 3 eexists. split; [reflexivity|]. apply calm_redraw.
  - steps. do 3 eexists. split; [reflexivity|]. apply calm_redraw.
Qed.

Lemma spiral_run (g : list MomentumPoint) (p : Page) :
  g <> [] -> exists_el p "#momentumSpiral" = true ->
  exists c h' p',
    Spiral.renderMomentumSpiral 0%nat (mkState [g] p) = (Ok c, mkState h' p')
    /\ calm p p' /\ In "#momentumSpiral" (drawn p').
Proof.
  intros Hne He. destruct (width_of_some _ _ He) as (w & Hw).
  assert (Hr : nth_error [g] 0 = Some g) by reflexivity.
  pose proof (sort_nonempty _ (bySeason momSeason) g Hne) as Hs.
  unfold Spiral.renderMomentumSpiral. by_anchor; [|discriminate].
  destruct (sort (bySeason momSeason) g) as [|first rest]; [congruence|].
  cbn [nth_error option_map].
  unfold Spiral.focusSeason. cbn [Spiral.data]. steps.
  unfold JS.find. cbn [find_from]. rewrite Z.eqb_refl.
  do 3 eexists. split; [reflexivity|]. apply calm_redraw.
Qed.

Lemma scatter_run (c0 : list TeamSeasonStat) (p : Page) :
  exists_el p "#teamScatter" = true ->
  exists_el p "#seasonSlider" = true ->
  exists_el p "#seasonLabel" = true ->
  exists_el p "#teamInsight" = true ->
  exists c h' p',
    Scatter.renderTeamScatter 0%nat (mkState [c0] p)
    = (Ok (Scatter.Methods c), mkState h' p')
    /\ calm p p' /\ In "#teamScatter" (drawn p').
Proof.
  intros Hc Hs Hl Hi. destruct (width_of_some _ _ Hc) as (w & Hw).
  assert (Hr : nth_error [c0] 0 = Some c0) by reflexivity.
  unfold Scatter.renderTeamScatter. steps. rewrite width_of_clear, Hw. steps.
  change (exists_el (add_drawing "#teamScatter" (clear_drawing "#teamScatter" p)))
    with (exists_el p).
  rewrite Hs, Hl, Hi. cbn [andb negb].
  destruct (calm_redraw "#teamScatter" p) as (C0 & D0).
  destruct (last_elem _) as [[i latest]|]; steps.
  - match goal with
    | |- context [match sliderValue ?q with _ => _ end] => destruct (sliderValue q) as [v|]
    end; steps.
    + unfold Scatter.updateSeason. steps. do 3 eexists. split; [reflexivity|]. split.
      * eapply calm_trans; [exact C0|].
        eapply calm_trans; [apply calm_set_slider|].
        eapply calm_trans; [apply calm_set_text|].
        eapply calm_trans; [apply calm_set_text|]. apply calm_set_text.
      * repeat (apply (proj2 (proj2 (proj2 (calm_set_text _ _ _))))). exact D0.
    + do 3 eexists. split; [reflexivity|]. split.
      * eapply calm_trans; [exact C0|].
        eapply calm_trans; [apply calm_set_slider|]. apply calm_set_text.
      * apply (proj2 (proj2 (proj2 (calm_set_text _ _ _)))). exact D0.
  - match goal with
    | |- context [match sliderValue ?q with _ => _ end] => destruct (sliderValue q) as [v|]
    end; steps.
    + unfold Scatter.updateSeason. steps. do 3 eexists. split; [reflexivity|]. split.
      * eapply calm_trans; [exact C0|].
        eapply calm_trans; [apply calm_set_text|]. apply calm_set_text.
      * repeat (apply (proj2 (proj2 (proj2 (calm_set_text _ _ _))))). exact D0.
    + do 3 eexists. split; [reflexivity|]. split; [exact C0 | exact D0].
Qed.
End Runs.

Section InitFacts.
Context {d3 : D3}.

Ltac called E :=
  unfold bindB at 1; erewrite call_ok by exact E;
  cbn [snd fst controllers doc storyReady].

Ltac registered :=
  unfold bindB at 1; unfold setControllers at 1;
  cbn [snd fst controllers doc storyReady].

(** X23.  When the seven requests succeed, the page has the anchors of the
    six charts, the momentum dataset is not empty and the page has no story
    step, [init] draws the six charts, registers the six controllers and
    logs nothing; the scatter controller has its [setSeason].  Without
    story steps the step observer is not set up. *)
Theorem init_registers_all_six
        (f : Fetched) (s : Dashboard)
        (a : list SeasonMetric) (b : list ScoringMixRecord) (c : list TeamSeasonStat)
        (d : list HeatmapCell) (e : list TeamGeoStat) (g : list MomentumPoint)
        (t : option StatesTopology) :
  leagueTrends f = Some a -> scoringMix f = Some b -> teamScatter f = Some c ->
  heatmapData f = Some d -> teamMapData f = Some e -> spiralData f = Some g ->
  statesTopo f = Some t ->
  (forall sel, In sel chartAnchors -> exists_el (doc s) sel = true) ->
  g <> [] -> steps (doc s) = [] ->
  league (controllers (init f s)) <> None
  /\ scoring (controllers (init f s)) <> None
  /\ (exists k h, scatter (controllers (init f s)) = Some (Scatter.Methods k, h))
  /\ heatmap (controllers (init f s)) <> None
  /\ map_ (controllers (init f s)) <> None
  /\ spiral (controllers (init f s)) <> None
  /\ console (doc (init f s)) = console (doc s)
  /\ storyReady (init f s) = storyReady s
  /\ forall sel,
       In sel ["#leagueTrendChart"; "#scoringMixChart"; "#teamScatter";
               "#heatmapChart"; "#teamMap"; "#momentumSpiral"] ->
       In sel (drawn (doc (init f s))).
Proof.
  intros Fa Fb Fc Fd Fe Fg Ft Han Hg Hst.
  assert (A : forall p sel, calm (doc s) p -> In sel chartAnchors ->
                            exists_el p sel = true).
  { intros p sel Hp Hin. rewrite (calm_exists_el _ _ sel Hp). now apply Han. }
  destruct (hero_run a (doc s)) as (h0 & p0 & E0 & N0 & C0).
  destruct (league_run h0 a p0 N0) as (lc & h1 & p1 & E1 & C1 & D1);
    [apply A; [exact C0 | simpl; tauto]|].
  pose proof (calm_trans _ _ _ C0 C1) as K1.
  destruct (scoring_run b p1) as (sc & h2 & p2 & E2 & C2 & D2);
    [apply A; [exact K1 | simpl; tauto]|].
  pose proof (calm_trans _ _ _ K1 C2) as K2.
  destruct (scatter_run c p2) as (kc & h3 & p3 & E3 & C3 & D3);
    [apply A; [exact K2 | simpl; tauto] ..|].
  pose proof (calm_trans _ _ _ K2 C3) as K3.
  destruct (heatmap_run d p3) as (hc & h4 & p4 & E4 & C4 & D4);
    [apply A; [exact K3 | simpl; tauto]|].
  pose proof (calm_trans _ _ _ K3 C4) as K4.
  destruct (map_run e t p4) as (mc & h5 & p5 & E5 & C5 & D5);
    [apply A; [exact K4 | simpl; tauto]|].
  pose proof (calm_trans _ _ _ K4 C5) as K5.
  destruct (spiral_run g p5 Hg) as (pc & h6 & p6 & E6 & C6 & D6);
    [apply A; [exact K5 | simpl; tauto]|].
  pose proof (calm_trans _ _ _ K5 C6) as K6.
  assert (E : init f s
              = mkDashboard
                  (mkControllers (Some (lc, h1)) (Some (sc, h2))
                     (Some (Scatter.Methods kc, h3)) (Some (hc, h4)) (Some (mc, h5))
                     (Some (pc, h6)))
                  p6 (storyReady s)).
  { unfold init, settled. rewrite Fa, Fb, Fc, Fd, Fe, Fg, Ft. unfold boot.
    called E0. called E1. registered. called E2. registered. called E3. registered.
    called E4. registered. called E5. registered. called E6. registered.
    unfold setupStorySteps, bindB, getDoc. cbn [fst snd doc].
    destruct K6 as (_ & _ & Ks & _). rewrite Ks, Hst.
    destruct s as [[? ? ? ? ? ?] ? ?]. reflexivity. }
  rewrite E. cbn [controllers doc storyReady league scoring scatter heatmap map_ spiral].
  destruct K6 as (_ & Kc & _ & _).
  repeat split; try discriminate; try exact Kc; [do 2 eexists; reflexivity|].
  intros sel Hsel.
  destruct C2 as (_ & _ & _ & G2). destruct C3 as (_ & _ & _ & G3).
  destruct C4 as (_ & _ & _ & G4). destruct C5 as (_ & _ & _ & G5).
  destruct C6 as (_ & _ & _ & G6).
  destruct Hsel as [<-|[<-|[<-|[<-|[<-|[<-|[]]]]]]]; auto 10.
Qed.

(** X24.  A failure after the data has arrived leaves a partial dashboard.
    When [#leagueTrendChart] exists and [#scoringMixChart] does not, [init]
    draws the league trends and registers their controller, then stops:
    the error is logged once, the five other controllers stay as they
    were, and the story steps are not set up. *)
Theorem init_keeps_what_was_drawn
        (f : Fetched) (s : Dashboard)
        (a : list SeasonMetric) (b : list ScoringMixRecord) (c : list TeamSeasonStat)
        (d : list HeatmapCell) (e : list TeamGeoStat) (g : list MomentumPoint)
        (t : option StatesTopology) :
  leagueTrends f = Some a -> scoringMix f = Some b -> teamScatter f = Some c ->
  heatmapData f = Some d -> teamMapData f = Some e -> spiralData f = Some g ->
  statesTopo f = Some t ->
  exists_el (doc s) "#leagueTrendChart" = true ->
  exists_el (doc s) "#scoringMixChart" = false ->
  league (controllers (init f s)) <> None
  /\ In "#leagueTrendChart" (drawn (doc (init f s)))
  /\ scoring (controllers (init f s)) = scoring (controllers s)
  /\ scatter (controllers (init f s)) = scatter (controllers s)
  /\ heatmap (controllers (init f s)) = heatmap (controllers s)
  /\ map_ (controllers (init f s)) = map_ (controllers s)
  /\ spiral (controllers (init f s)) = spiral (controllers s)
  /\ console (doc (init f s)) = console (doc s) ++ [(LogError, bootError)]
  /\ storyReady (init f s) = storyReady s.
Proof.
  intros Fa Fb Fc Fd Fe Fg Ft Hl Hs.
  destruct (hero_run a (doc s)) as (h0 & p0 & E0 & N0 & C0).
  destruct (league_run h0 a p0 N0) as (lc & h1 & p1 & E1 & C1 & D1);
    [now rewrite (calm_exists_el _ _ _ C0)|].
  pose proof (calm_trans _ _ _ C0 C1) as K1.
  assert (Hs1 : exists_el p1 "#scoringMixChart" = false)
    by now rewrite (calm_exists_el _ _ _ K1).
  assert (E2 : Scoring.renderScoringMix 0%nat (mkState [b] p1)
               = (Throw TypeError,
                  mkState ([b] ++ [sort (bySeason mixSeason) b])
                    (clear_drawing "#scoringMixChart" p1))).
  { assert (Hr : nth_error [b] 0 = Some b) by reflexivity.
    apply width_of_none in Hs1.
    unfold Scoring.renderScoringMix. steps. now rewrite width_of_clear, Hs1. }
  assert (E : init f s
              = mkDashboard (set_league (Some (lc, h1)) (controllers s))
                  (log LogError bootError (clear_drawing "#scoringMixChart" p1))
                  (storyReady s)).
  { unfold init, settled. rewrite Fa, Fb, Fc, Fd, Fe, Fg, Ft. unfold boot.
    called E0. called E1. registered.
    unfold bindB at 1. erewrite call_throw by exact E2. reflexivity. }
  rewrite E.
  cbn [controllers doc storyReady set_league league scoring scatter heatmap map_ spiral
       console log drawn clear_drawing].
  destruct K1 as (_ & Kc & _ & _). rewrite Kc.
  repeat split; try discriminate.
  apply filter_In. split; [exact D1 | reflexivity].
Qed.
End InitFacts.

Lemma init_registers_all_six_witness :
  ((forall sel, In sel chartAnchors -> exists_el (doc Sample.fresh) sel = true)
   /\ Sample.waves <> [] /\ steps (doc Sample.fresh) = [])
  /\ league (controllers (init (d3 := Sample.d3) Sample.fetched Sample.fresh)) <> None
  /\ console (doc (init (d3 := Sample.d3) Sample.fetched Sample.fresh))
     = console (doc Sample.fresh).
Proof.
  assert (H1 : forall sel, In sel chartAnchors -> exists_el (doc Sample.fresh) sel = true).
  { intros sel Hin. repeat (destruct Hin as [<-|Hin]; [reflexivity|]). destruct Hin. }
  assert (H2 : Sample.waves <> []) by discriminate.
  split; [repeat split; assumption|].
  destruct (init_registers_all_six (d3 := Sample.d3) Sample.fetched Sample.fresh
              Sample.trends Sample.mix Sample.clubs Sample.grid Sample.places
              Sample.waves (Some UsStates)
              eq_refl eq_refl eq_refl eq_refl eq_refl eq_refl eq_refl H1 H2 eq_refl)
    as (L & _ & _ & _ & _ & _ & C & _).
  split; assumption.
Defined.

Lemma init_keeps_what_was_drawn_witness :
  (exists_el (mkPage [("#leagueTrendChart", 960%Q)] [] false "" [] [] None [])
     "#leagueTrendChart" = true
   /\ exists_el (mkPage [("#leagueTrendChart", 960%Q)] [] false "" [] [] None [])
        "#scoringMixChart" = false)
  /\ league (controllers
               (init (d3 := Sample.d3) Sample.fetched
                  (mkDashboard noControllers
                     (mkPage [("#leagueTrendChart", 960%Q)] [] false "" [] [] None [])
                     false)))
     <> None
  /\ console (doc (init (d3 := Sample.d3) Sample.fetched
                     (mkDashboard noControllers
                        (mkPage [("#leagueTrendChart", 960%Q)] [] false "" [] [] None [])
                        false)))
     = [(LogError, bootError)].
Proof.
  split; [split; reflexivity|].
  destruct (init_keeps_what_was_drawn (d3 := Sample.d3) Sample.fetched
              (mkDashboard noControllers
                 (mkPage [("#leagueTrendChart", 960%Q)] [] false "" [] [] None [])
                 false)
              Sample.trends Sample.mix Sample.clubs Sample.grid Sample.places
              Sample.waves (Some UsStates)
              eq_refl eq_refl eq_refl eq_refl eq_refl eq_refl eq_refl eq_refl eq_refl)
    as (L & _ & _ & _ & _ & _ & _ & C & _).
  split; assumption.
Defined.

(** ** The insight line and the slider buttons of the team scatter *)

Lemma greatest_first (A : Type) (f : A -> Q) (r : list A) (x : A) :
  (forall d, In d r -> (f d <= f x)%Q) ->
  fold_left (fun m d => if Qlt_le_dec (f m) (f d) then d else m) r x = x.
Proof.
  induction r as [|y r IH]; intros H; [reflexivity|]. cbn [fold_left].
  destruct (Qlt_le_dec (f x) (f y)) as [Hlt|_].
  - specialize (H y (or_introl eq_refl)). lra.
  - apply IH. intros d Hd. apply H. now right.
Qed.

Lemma set_slider_same (q : Page) (v : option Z) :
  sliderValue q = v -> set_slider v q = q.
Proof. destruct q. cbn. now intros ->. Qed.

Section ScatterExtras.
Context {d3 : D3}.

(** X25.  The insight of a season names a record whose win percentage no
    record of the season exceeds, a missing percentage counting as 0.  When
    no record has a win percentage (missing or 0) it is the first record of
    the season, and the line ends with "a winning profile.".  For a season
    without records the line is "No team data for this season.". *)
Theorem insight_names_the_best_record (ds : list TeamSeasonStat) :
  (ds = [] -> Scatter.insightOf ds = "No team data for this season.")
  /\ (ds <> [] ->
      exists top,
        In top ds
        /\ (forall d, In d ds -> (nullish (winPct d) 0 <= nullish (winPct top) 0)%Q)
        /\ Scatter.insightOf ds
           = JS.join ""
               [ Scatter.trim
                   (JS.join "" [ city top; " ";
                                 match team top with
                                 | Some t => t
                                 | None => "undefined"
                                 end ]);
                 " combined "; numberFmt (teamThreeAttempts top);
                 " 3PA and "; numberFmt (threePct top * 100)%Q; "% accuracy for ";
                 if truthy_opt (winPct top)
                 then String.append (numberFmt (nullish (winPct top) 0 * 100)%Q)
                                    "% wins."
                 else "a winning profile." ]
        /\ ((forall d, In d ds -> truthy_opt (winPct d) = false) ->
            nth_error ds 0 = Some top)).
Proof.
  split; [intros ->; reflexivity|]. intros Hne.
  pose proof (greatest_spec _ (fun d => nullish (winPct d) 0%Q) ds) as G.
  unfold Scatter.insightOf.
  destruct (D3lib.greatest _ ds) as [top|] eqn:E; [|congruence].
  destruct G as (Hin & Hmax).
  exists top. split; [exact Hin|]. split; [exact Hmax|]. split; [reflexivity|].
  intros Hnone. destruct ds as [|x r]; [congruence|].
  cbn [D3lib.greatest] in E. injection E as E. cbn [nth_error]. f_equal.
  rewrite <- E. symmetry. apply greatest_first.
  assert (Z0 : forall d, In d (x :: r) -> (nullish (winPct d) 0 == 0)%Q).
  { intros d Hd. specialize (Hnone d Hd). unfold truthy_opt, truthy in Hnone.
    destruct (winPct d) as [q|]; [|reflexivity]. cbn [nullish].
    apply negb_false_iff in Hnone. now apply Qeq_bool_iff. }
  intros d Hd.
  rewrite (Z0 d (or_intror Hd)), (Z0 x (or_introl eq_refl)). lra.
Qed.

(** X26.  The step buttons keep the slider between its ends.  With the
    slider at its largest value [hi], a click on the button that steps
    forward leaves the value at [hi] and redraws that season; from a layer
    that has just been drawn for [hi] (distinct node identities and keys,
    distinct team ids in the season) the click changes nothing: the same
    chart and the same page. *)
Theorem slider_button_stops_at_the_end
        (c : Scatter.Chart) (lo hi dir : Z) (s : State TeamSeasonStat) :
  inv c -> NoDup (map teamId (seasonDataOf c hi)) ->
  lo <= hi -> 0 <= dir ->
  exists c1 s1,
    Scatter.sliderInput c hi s = (Ok c1, s1)
    /\ sliderValue (page s1) = Some hi
    /\ sliderButton c1 lo hi dir s1 = (Ok c1, s1).
Proof.
  intros Hinv Hds Hlo Hdir. destruct s as [h p].
  pose proof Hinv as (Hwf & Hk).
  destruct (joinSeason_joined c _ Hwf Hk Hds) as (ids & L & f & E & J & Hlt).
  exists (Scatter.joinSeason c (seasonDataOf c hi)). eexists.
  split; [unfold Scatter.sliderInput, Scatter.updateSeason; steps; reflexivity|].
  cbn [page].
  assert (Hv : sliderValue
                 (set_text "#teamInsight" (Scatter.insightOf (seasonDataOf c hi))
                    (set_text "#seasonLabel" (string_of_Z hi) (set_slider (Some hi) p)))
               = Some hi).
  { now rewrite !(proj1 (proj2 (proj2 (proj2 (proj2 (console_set_text _ _ _)))))). }
  split; [exact Hv|].
  unfold sliderButton. steps.
  fold (seasonDataOf c hi). rewrite Hv.
  replace (Z.min hi (Z.max lo (hi + dir))) with hi by lia.
  rewrite (set_slider_same _ _ Hv).
  unfold Scatter.updateSeason. steps. rewrite E.
  change (match D3lib.get Z.eqb (Scatter.seasonGroups (Scatter.set_layer L f c)) hi with
          | Some g => g
          | None => []
          end) with (seasonDataOf c hi).
  rewrite (joinSeason_fix c _ ids L f J Hds), texts_idem. reflexivity.
Qed.
End ScatterExtras.

Lemma insight_names_the_best_record_witness :
  seasonDataOf Sample.clubChart 2020 <> []
  /\ exists top,
      In top (seasonDataOf Sample.clubChart 2020)
      /\ forall d, In d (seasonDataOf Sample.clubChart 2020) ->
           (nullish (winPct d) 0 <= nullish (winPct top) 0)%Q.
Proof.
  assert (H : seasonDataOf Sample.clubChart 2020 <> []) by (vm_compute; discriminate).
  split; [exact H|].
  destruct (proj2 (insight_names_the_best_record (seasonDataOf Sample.clubChart 2020)) H)
    as (top & H1 & H2 & _).
  exists top. split; assumption.
Defined.

Lemma slider_button_stops_at_the_end_witness :
  (inv Sample.clubChart
   /\ NoDup (map teamId (seasonDataOf Sample.clubChart 2020))
   /\ 2019 <= 2020 /\ 0 <= 1)
  /\ exists c1 s1,
      Scatter.sliderInput (d3 := Sample.d3) Sample.clubChart 2020
        (mkState Sample.clubHeap Sample.full) = (Ok c1, s1)
      /\ sliderValue (page s1) = Some 2020
      /\ sliderButton (d3 := Sample.d3) c1 2019 2020 1 s1 = (Ok c1, s1).
Proof.
  assert (Hinv : inv Sample.clubChart).
  { repeat split; simpl; try constructor. intros k []. }
  assert (Hds : NoDup (map teamId (seasonDataOf Sample.clubChart 2020))).
  { vm_compute. repeat constructor; simpl; intuition discriminate. }
  split; [split; [exact Hinv | split; [exact Hds | split; lia]]|].
  apply (slider_button_stops_at_the_end (d3 := Sample.d3) Sample.clubChart 2019 2020 1
           (mkState Sample.clubHeap Sample.full) Hinv Hds); lia.
Defined.

(** ** The default step of each group *)















Section Defaults.
Context {d3 : D3}.








End Defaults.


(** ** The domains of the scales *)

Lemma fold_min_spec (A : Type) (f : A -> Q) (r : list A) (v : Q) :
  let lo := fold_left (fun m d => D3lib.Qminimum m (f d)) r v in
  (lo = v \/ exists a, In a r /\ lo = f a)
  /\ (lo <= v)%Q /\ forall x, In x r -> (lo <= f x)%Q.
Proof.
  revert v. induction r as [|y r IH]; intros v; cbn [fold_left].
  - repeat split; [now left | lra | intros x []].
  - destruct (IH (D3lib.Qminimum v (f y))) as (H1 & H2 & H3). cbv zeta in *.
    set (lo := fold_left _ r _) in *.
    assert (M : (D3lib.Qminimum v (f y) <= v)%Q /\ (D3lib.Qminimum v (f y) <= f y)%Q
                /\ (D3lib.Qminimum v (f y) = v \/ D3lib.Qminimum v (f y) = f y)).
    { unfold D3lib.Qminimum. destruct (Qlt_le_dec (f y) v); repeat split; auto; lra. }
    destruct M as (M1 & M2 & M3). repeat split.
    + destruct H1 as [H1|(a & Ha & H1)].
      * destruct M3 as [M3|M3]; [left; congruence|].
        right. exists y. split; [now left | congruence].
      * right. exists a. split; [now right | exact H1].
    + lra.
    + intros x [<-|Hx]; [lra | now apply H3].
Qed.

Lemma fold_max_spec_Q (A : Type) (f : A -> Q) (r : list A) (v : Q) :
  let hi := fold_left (fun m d => D3lib.Qmaximum m (f d)) r v in
  (hi = v \/ exists a, In a r /\ hi = f a)
  /\ (v <= hi)%Q /\ forall x, In x r -> (f x <= hi)%Q.
Proof.
  revert v. induction r as [|y r IH]; intros v; cbn [fold_left].
  - repeat split; [now left | lra | intros x []].
  - destruct (IH (D3lib.Qmaximum v (f y))) as (H1 & H2 & H3). cbv zeta in *.
    set (hi := fold_left _ r _) in *.
    assert (M : (v <= D3lib.Qmaximum v (f y))%Q /\ (f y <= D3lib.Qmaximum v (f y))%Q
                /\ (D3lib.Qmaximum v (f y) = v \/ D3lib.Qmaximum v (f y) = f y)).
    { unfold D3lib.Qmaximum. destruct (Qlt_le_dec v (f y)); repeat split; auto; lra. }
    destruct M as (M1 & M2 & M3). repeat split.
    + destruct H1 as [H1|(a & Ha & H1)].
      * destruct M3 as [M3|M3]; [left; congruence|].
        right. exists y. split; [now left | congruence].
      * right. exists a. split; [now right | exact H1].
    + lra.
    + intros x [<-|Hx]; [lra | now apply H3].
Qed.

(** [d3.min] and [d3.max]: a value of the array that bounds the others. *)
Lemma min_spec (A : Type) (f : A -> Q) (l : list A) :
  match D3lib.min f l with
  | Some lo => (exists a, In a l /\ lo = f a) /\ forall x, In x l -> (lo <= f x)%Q
  | None => l = []
  end.
Proof.
  destruct l as [|y r]; [reflexivity|]. cbn [D3lib.min].
  destruct (fold_min_spec A f r (f y)) as (H1 & H2 & H3). split.
  - destruct H1 as [H1|(a & Ha & H1)].
    + exists y. split; [now left | exact H1].
    + exists a. split; [now right | exact H1].
  - intros x [<-|Hx]; [exact H2 | now apply H3].
Qed.

Lemma max_spec (A : Type) (f : A -> Q) (l : list A) :
  match D3lib.max f l with
  | Some hi => (exists a, In a l /\ hi = f a) /\ forall x, In x l -> (f x <= hi)%Q
  | None => l = []
  end.
Proof.
  destruct l as [|y r]; [reflexivity|]. cbn [D3lib.max].
  destruct (fold_max_spec_Q A f r (f y)) as (H1 & H2 & H3). split.
  - destruct H1 as [H1|(a & Ha & H1)].
    + exists y. split; [now left | exact H1].
    + exists a. split; [now right | exact H1].
  - intros x [<-|Hx]; [exact H2 | now apply H3].
Qed.

Section Domains.
Context {d3 : D3}.

(** The chart of the scatter on a page with all its anchors. *)
Lemma renderTeamScatter_chart (h : Heap TeamSeasonStat) (r : ref)
      (l : list TeamSeasonStat) (p : Page) :
  nth_error h r = Some l ->
  exists_el p "#teamScatter" = true ->
  exists_el p "#seasonSlider" = true ->
  exists_el p "#seasonLabel" = true ->
  exists_el p "#teamInsight" = true ->
  exists c s',
    Scatter.renderTeamScatter r (mkState h p) = (Ok (Scatter.Methods c), s')
    /\ Scatter.xDomain c = D3lib.extent teamThreeAttempts (keptRecords l)
    /\ Scatter.yDomain c
       = match D3lib.min threePct (keptRecords l), D3lib.max threePct (keptRecords l) with
         | Some lo, Some hi => Some (lo * 100 - 2, hi * 100 + 2)%Q
         | _, _ => None
         end
    /\ Scatter.seasonGroups c = D3lib.group teamSeason Z.eqb (keptRecords l).
Proof.
  intros Hr Hc Hs Hl Hi. destruct (width_of_some _ _ Hc) as (w & Hw).
  unfold Scatter.renderTeamScatter. steps. rewrite width_of_clear, Hw. steps.
  change (exists_el (add_drawing "#teamScatter" (clear_drawing "#teamScatter" p)))
    with (exists_el p).
  rewrite Hs, Hl, Hi. cbn [andb negb]. fold (keptRecords l).
  destruct (last_elem _) as [[i latest]|]; steps.
  all: match goal with
       | |- context [match sliderValue ?q with _ => _ end] =>
           destruct (sliderValue q) as [v|]
       end; steps.
  all: try (unfold Scatter.updateSeason; steps).
  all: try match goal with
           | |- context [Scatter.joinSeason ?c0 ?ds] =>
               destruct (joinSeason_layer c0 ds) as (l1 & -> & _)
           end.
  all: do 2 eexists; split; [reflexivity|]; repeat split.
Qed.

(** X28.  The scales are built from the data they draw.  On the league
    trends the x domain runs from the season of the earliest record to the
    season of the latest, and the y domain from 0 to 1.1 times the largest
    value that one of the three metrics takes on a record.  On the team
    scatter the domain given to the x scale (before [nice] rounds it) runs
    from the fewest to the most attempts of a kept record, and the y domain
    from two points below the lowest accuracy of a kept record, in percent,
    to two points above the highest. *)
Theorem scale_domains_cover_the_data :
  (forall (h : Heap SeasonMetric) r l p,
      nth_error h r = Some l -> l <> [] -> exists_el p "#leagueTrendChart" = true ->
      exists c s' first last x0 m0,
        League.renderLeagueTrends r (mkState h p) = (Ok c, s')
        /\ In first l /\ In last l
        /\ League.xDomain c = Some (inject_Z (season first), inject_Z (season last))
        /\ (forall x, In x l -> season first <= season x <= season last)
        /\ In x0 l /\ In m0 League.metricConfig
        /\ League.yDomain c = Some (0, League.accessor m0 x0 * (11 # 10))%Q
        /\ forall x m, In x l -> In m League.metricConfig ->
             (League.accessor m x <= League.accessor m0 x0)%Q)
  /\ (forall (h : Heap TeamSeasonStat) r l p,
        nth_error h r = Some l -> keptRecords l <> [] ->
        exists_el p "#teamScatter" = true ->
        exists_el p "#seasonSlider" = true ->
        exists_el p "#seasonLabel" = true ->
        exists_el p "#teamInsight" = true ->
        exists c s' fewest most lowest highest,
          Scatter.renderTeamScatter r (mkState h p) = (Ok (Scatter.Methods c), s')
          /\ In fewest (keptRecords l) /\ In most (keptRecords l)
          /\ In lowest (keptRecords l) /\ In highest (keptRecords l)
          /\ Scatter.xDomain c
             = Some (teamThreeAttempts fewest, teamThreeAttempts most)
          /\ Scatter.yDomain c
             = Some (threePct lowest * 100 - 2, threePct highest * 100 + 2)%Q
          /\ forall x, In x (keptRecords l) ->
               (teamThreeAttempts fewest <= teamThreeAttempts x
                <= teamThreeAttempts most)%Q
               /\ (threePct lowest <= threePct x <= threePct highest)%Q).
Proof.
  split.
  - intros h r l p Hr Hne He. destruct (width_of_some _ _ He) as (w & Hw).
    unfold League.renderLeagueTrends. by_anchor; [|discriminate].
    set (d := sort (bySeason season) l).
    assert (Hin : forall x, In x d <-> In x l) by (intros x; apply sort_in).
    assert (Hd : d <> []) by now apply sort_nonempty.
    pose proof (min_spec _ (fun r0 => inject_Z (season r0)) d) as Hmin.
    pose proof (max_spec _ (fun r0 => inject_Z (season r0)) d) as Hmax.
    unfold D3lib.extent.
    destruct (D3lib.min _ d) as [lo|]; [|congruence].
    destruct (D3lib.max _ d) as [hi|]; [|congruence].
    destruct Hmin as ((first & Hf & ->) & Hlo). destruct Hmax as ((last & Hl & ->) & Hhi).
    pose proof (max_spec _ avgThreeAttempts d) as M1.
    pose proof (max_spec _ avgPoints d) as M2.
    pose proof (max_spec _ (fun x => avgThreeRate x * 100)%Q d) as M3.
    unfold League.accessorMax, League.metricConfig.
    cbn [flat_map League.accessor app].
    destruct (D3lib.max avgThreeAttempts d) as [v1|]; [|congruence].
    destruct (D3lib.max avgPoints d) as [v2|]; [|congruence].
    destruct (D3lib.max (fun x => avgThreeRate x * 100)%Q d) as [v3|]; [|congruence].
    destruct M1 as ((x1 & I1 & E1) & M1). destruct M2 as ((x2 & I2 & E2) & M2).
    destruct M3 as ((x3 & I3 & E3) & M3).
    change ([v1] ++ [v2] ++ [v3] ++ []) with [v1; v2; v3].
    pose proof (max_spec _ (fun v : Q => v) [v1; v2; v3]) as MT.
    destruct (D3lib.max (fun v : Q => v) [v1; v2; v3]) as [top|]; [|discriminate].
    destruct MT as ((t & It & Et) & MT).
    pose proof (MT v1 (or_introl eq_refl)) as T1.
    pose proof (MT v2 (or_intror (or_introl eq_refl))) as T2.
    pose proof (MT v3 (or_intror (or_intror (or_introl eq_refl)))) as T3.
    assert (Hall : forall x m, In x l -> In m League.metricConfig ->
                     (League.accessor m x <= top)%Q).
    { intros x m Hx Hm. apply Hin in Hx.
      specialize (M1 x Hx). specialize (M2 x Hx). specialize (M3 x Hx). cbv beta in M3.
      destruct Hm as [<-|[<-|[<-|[]]]]; cbn [League.accessor]; lra. }
    assert (Htop : exists x0 m0, In x0 l /\ In m0 League.metricConfig
                                 /\ top = League.accessor m0 x0).
    { subst top. destruct It as [<-|[<-|[<-|[]]]].
      - exists x1. eexists. split; [now apply Hin|]. split; [left; reflexivity|].
        exact E1.
      - exists x2. eexists. split; [now apply Hin|].
        split; [right; left; reflexivity|]. exact E2.
      - exists x3. eexists. split; [now apply Hin|].
        split; [right; right; left; reflexivity|]. exact E3. }
    destruct Htop as (x0 & m0 & Hx0 & Hm0 & Etop).
    do 2 eexists. exists first, last, x0, m0. split; [reflexivity|].
    cbn [League.updateMetricFilter League.xDomain League.yDomain].
    split; [now apply Hin|]. split; [now apply Hin|]. split; [reflexivity|]. split.
    { intros x Hx. apply Hin in Hx.
      pose proof (Hlo x Hx) as A1. pose proof (Hhi x Hx) as A2.
      rewrite <- Zle_Qle in A1, A2. lia. }
    split; [exact Hx0|]. split; [exact Hm0|]. rewrite <- Etop.
    split; [reflexivity|]. exact Hall.
  - intros h r l p Hr Hne Hc Hs Hl Hi.
    destruct (renderTeamScatter_chart h r l p Hr Hc Hs Hl Hi)
      as (c & s' & E & Hx & Hy & _).
    pose proof (min_spec _ teamThreeAttempts (keptRecords l)) as A1.
    pose proof (max_spec _ teamThreeAttempts (keptRecords l)) as A2.
    pose proof (min_spec _ threePct (keptRecords l)) as B1.
    pose proof (max_spec _ threePct (keptRecords l)) as B2.
    unfold D3lib.extent in Hx.
    destruct (D3lib.min teamThreeAttempts _) as [xlo|]; [|congruence].
    destruct (D3lib.max teamThreeAttempts _) as [xhi|]; [|congruence].
    destruct (D3lib.min threePct _) as [lo|]; [|congruence].
    destruct (D3lib.max threePct _) as [hi|]; [|congruence].
    destruct A1 as ((fewest & F1 & ->) & A1). destruct A2 as ((most & F2 & ->) & A2).
    destruct B1 as ((lowest & F3 & ->) & B1). destruct B2 as ((highest & F4 & ->) & B2).
    exists c, s', fewest, most, lowest, highest.
    split; [exact E|]. do 4 (split; [assumption|]).
    split; [exact Hx|]. split; [exact Hy|].
    intros x Hk.
    pose proof (A1 x Hk). pose proof (A2 x Hk). pose proof (B1 x Hk). pose proof (B2 x Hk).
    repeat split; assumption.
Qed.
End Domains.

Lemma scale_domains_cover_the_data_witness :
  ((nth_error [Sample.trends] 0 = Some Sample.trends
    /\ Sample.trends <> []
    /\ exists_el Sample.full "#leagueTrendChart" = true)
   /\ exists c s' first last x0 m0,
       League.renderLeagueTrends 0%nat (mkState [Sample.trends] Sample.full) = (Ok c, s')
       /\ In first Sample.trends /\ In last Sample.trends
       /\ League.xDomain c = Some (inject_Z (season first), inject_Z (season last))
       /\ (forall x, In x Sample.trends -> season first <= season x <= season last)
       /\ In x0 Sample.trends /\ In m0 League.metricConfig
       /\ League.yDomain c = Some (0, League.accessor m0 x0 * (11 # 10))%Q
       /\ forall x m, In x Sample.trends -> In m League.metricConfig ->
            (League.accessor m x <= League.accessor m0 x0)%Q)
  /\ ((nth_error [Sample.clubs] 0 = Some Sample.clubs
       /\ keptRecords Sample.clubs <> []
       /\ exists_el Sample.full "#teamScatter" = true
       /\ exists_el Sample.full "#seasonSlider" = true
       /\ exists_el Sample.full "#seasonLabel" = true
       /\ exists_el Sample.full "#teamInsight" = true)
      /\ exists c s' fewest most lowest highest,
          Scatter.renderTeamScatter (d3 := Sample.d3) 0%nat
            (mkState [Sample.clubs] Sample.full)
          = (Ok (Scatter.Methods c), s')
          /\ In fewest (keptRecords Sample.clubs) /\ In most (keptRecords Sample.clubs)
          /\ In lowest (keptRecords Sample.clubs) /\ In highest (keptRecords Sample.clubs)
          /\ Scatter.xDomain c
             = Some (teamThreeAttempts fewest, teamThreeAttempts most)
          /\ Scatter.yDomain c
             = Some (threePct lowest * 100 - 2, threePct highest * 100 + 2)%Q
          /\ forall x, In x (keptRecords Sample.clubs) ->
               (teamThreeAttempts fewest <= teamThreeAttempts x
                <= teamThreeAttempts most)%Q
               /\ (threePct lowest <= threePct x <= threePct highest)%Q).
Proof.
  split; (split; [repeat (split; [first [reflexivity | discriminate]|]);
                  first [reflexivity | discriminate]|]).
  - apply (proj1 (scale_domains_cover_the_data (d3 := Sample.d3))
             [Sample.trends] 0%nat Sample.trends Sample.full eq_refl);
      [discriminate | reflexivity].
  - apply (proj2 (scale_domains_cover_the_data (d3 := Sample.d3))
             [Sample.clubs] 0%nat Sample.clubs Sample.full eq_refl);
      [discriminate | reflexivity | reflexivity | reflexivity | reflexivity].
Defined.
